(* ===== verification/_CoqProject ===== *)
-Q . S2P
Prelude.v
CommonTemplate.v
Crypt.v
Md5.v
MessageInterface.v
TcpSession.v
TcpServer.v
TcpClient.v
NetService.v
Combine.v
Utilities.v
Logging.v
Callbacks.v
EventManager.v
EventHolders.v
Database.v
DbTask.v
DoubleQueue.v
Receive.v
TaskPool.v
ProtocCommon.v
PacketInterface.v
Text.v
Clock.v
GameData.v
GameWorld.v
DreamHero.v
HeroSave.v
DbQuest.v
GameServer.v
SessionInfo.v
ServerFrame.v
Login.v
Gate.v
GateTypes.v
LoginFlow.v
Startup.v
ObjectPool.v
Ownership.v
UpdateObject.v
Location.v
VirtualClient.v
SystemFlow.v
