(* ===== verification/Prelude.v ===== *)
(** * Verification of the dreamheroes game server

    ** The system

    The repository is the server side of a mobile game.  Clients speak to it
    over TCP; it is made of processes that share one library,
    [common/]:

    - a login server: checks an account and hands the player to a gate;
    - gate servers: hold the clients' connections and relay their messages;
    - a game server: owns the heroes, executes the players' requests and saves
      the heroes periodically;
    - a database server: turns the game server's messages into asynchronous SQL
      queries on MySQL and sends the rows back.

    A request travels client -> gate -> game server ([GameServer], [DreamHero])
    -> database server ([DbQuest]) -> MySQL, and every hop is a [tcp_session]
    ([TcpSession]) carrying frames ([MessageInterface]) of protobuf packets
    ([ProtocCommon]).  In each process one main thread runs the network
    call-backs, the timed events ([EventManager]), the queued call-backs
    ([DoubleQueue]) and the database results ([Database]) in turn; worker
    threads only hand work to it through queues.

    All paths below are relative to
    [src/server/server/dreamheroes_server-master/].

    ** The files

    Shared ground:
    - [Prelude]: machine integers ([u8] .. [u64], [s32]), little-endian byte
      buffers, the state/output/undefined-behaviour monad [M S O A] the handlers
      are written in with its lemmas and tactics, the ordered walk of a map.
    - [Text]: what [sprintf], [isIntger], [atoi], [strtol] print and read.

    The library, [common/]:
    - [CommonTemplate] ([common_template.h]): [obj_ptr_map], [obj_map].
    - [Crypt] ([crypt.cpp]): the substitution cipher over bytes and the CRC-32.
    - [Md5] ([md5.cpp]): the streaming digest and the one-shot reference.
    - [MessageInterface] ([message_interface.h/.cpp]): frame construction and
      decoding.
    - [TcpSession] ([tcpsession.h/.cpp]): one connection, its receive side
      ([Module TcpSession], [Stream]) and its send side ([SendSide]).
    - [TcpServer] ([tcpserver.h/.cpp]): the pool of sessions, accepting, the ban
      list, the threads' indices, starting and stopping.
    - [TcpClient] ([tcpclient.cpp], [io_service_pool.cpp]): connecting and
      reconnecting, the round robin of the [io_service]s.
    - [NetService] ([io_service_pool.cpp], [net_global] of [tcpserver.cpp]): the
      network threads, the sessions registered with each and their turns, the
      start and stop of the service.
    - [Combine] ([utilities.h], [search_combine_checksum]): the search for a set
      of elements with a given sum.
    - [Utilities] ([utilities.cpp]): alphanumeric substitution tables, [itoa],
      [SplitStringA], calendar predicates, [get_time].
    - [Clock] ([utilities.cpp], [database.cpp]): tick counter, dates as text and
      back, MySQL times.
    - [Logging] ([my_log.h/.cpp], [MyLog.h/.cpp]): the log's functions over their one
      buffer, the threads interleaved; lines made of values ([LogString]).
    - [Callbacks] ([event_call_back.h]): object, method and stored arguments of a
      timed call-back.
    - [EventManager] ([event_manager.h], [event_table_object.h/.cpp]): timed
      events on a heap with reference counts.
    - [EventHolders] (the same files): the table of event holders as they come and
      go.
    - [Database] ([database.h/.cpp], [run_object.h]): the asynchronous SQL layer
      and its worker threads.
    - [DbTask] ([database.h/.cpp]): the life of one task, its call-back object and
      its result set; [getString].
    - [DoubleQueue] ([call_back.cpp], [task_thread_pool.cpp], the receive queues
      of [tcpserver.cpp] and [tcpclient.cpp]): producer/consumer double queue.
    - [Receive] ([tcpserver.cpp], [tcpclient.cpp], [call_back.cpp]): the turn of the
      main thread, cut into the steps between which network threads act: accepting,
      call-backs, the receive queues and the dispatch; the client's turn.
    - [TaskPool] ([task_thread_pool.h/.cpp], [compress_send_task] of
      [tcpsession.cpp]): the threads that compress outgoing frames, over the
      sessions of [TcpSession] and the queues of [DoubleQueue].
    - [ProtocCommon] ([thread_buffer.h], [protoc_common.h]): scratch buffers, the
      packet around a protobuf message and its dispatch.
    - [PacketInterface] ([packet_interface.h]): packets of numbers, strings and
      containers over the same buffers, an instance of a class per overload.
    - [ObjectPool] ([memory.h], [object_pool.h]): created and released objects over
      pools, against the interface of an allocator.
    - [Ownership] ([mt_buffer.h], [utilities.h]): borrowed buffers and owning
      pointers with the aliasing of their copies.
    - [UpdateObject] ([update_object.h]): an object's words at several widths and
      the mask of those that changed.
    - [ServerFrame] ([version.h/.cpp], [server_frame.h/.cpp], the stop methods of
      the servers): version numbers, the main loop, stopping on a signal.

    The game server, [gameserver/]:
    - [GameData] ([common/message/*.proto] as the data the handlers read,
      [GameConfig.h/.cpp]): messages and configuration tables.
    - [GameWorld]: the process state ([gFuGameFather] of [stdafx.h]): sessions,
      gates, heroes, events; the effects of a handler; the send paths.
    - [DreamHero] ([DreamHero.cpp]): the client requests on a hero.
    - [HeroSave] ([DreamHero.cpp], [SaveHero]): a hero as SQL statements.
    - [GameServer] ([session.cpp], [gate_manager.cpp], [gate_session.cpp],
      [DreamHeroManager.cpp], [db_client .cpp], [server.cpp]): the life of a
      player's session, one [step] per entry point of the process.
    - [SessionInfo] ([gate_manager.cpp]): the periodic count of the sessions and
      the broadcast to the gates.
    - [Location] ([LocationVector.h]): positions and distances in single precision.

    The database server, [databaseserver/]:
    - [DbQuest] ([db_quest.cpp], [game_manager.cpp], [game_session.cpp]): the
      queries, their call-backs, the table of game servers.

    The way in:
    - [Login] ([login/account_manager.cpp], [gate_manager.cpp],
      [gate_session.cpp], [user_session.cpp]): accounts, the gates and the choice
      of one, the life of a login.
    - [Gate] ([gateserver/user_manager.cpp], [user_session.cpp],
      [game_manager.cpp], [game_client.cpp], [login_client.cpp]): who is
      expected, online or may come back, the game servers, relaying.
    - [GateTypes]: the declared integer types of the gate as an invariant.
    - [LoginFlow]: the login server, a gate and a game server joined by the
      messages they send each other.
    - [VirtualClient] ([virtualclient/client.cpp], [client_manager.cpp],
      [VirtualConfig.cpp]): the test client, many robots that log in and play.
    - [SystemFlow]: the test client, the three servers on its way and the database
      server joined by their messages.
    - [Startup] ([server.cpp] and [main.cpp] of the four servers,
      [common/server_frame.cpp], [json_help.cpp], [database.h]): configuration, the
      start of each server and its end.

    ** How the code is represented

    A C++ object is a [Record]; a method is a [Definition] on the record, or a
    computation of the monad [M S O A] when it reads shared state, calls out or
    can be undefined.  [M] threads the state [S], lists the effects [O] in the
    order the code performs them, and [UB] is C++ undefined behaviour (a null or
    dangling pointer, an index out of range, a read of a freed event), so a
    theorem that a run is [Ok] is a memory-safety statement.  Pointers are keys:
    a session object is the number of its creation, a hero its account, an event
    a heap address, so aliasing is explicit.  A [uN] is a [Z] kept in range by
    the conversions of the code; a [std::map] is a [gmap] visited in key order
    by [map_walk] (or [string_walk] for string keys); byte buffers are [list Z];
    results of [new char[n]] are arguments, since they are not initialised.
    Entry points (a received message, a timer tick, a lost connection, a worker
    thread's turn) are the constructors of a [step] relation, and invariants are
    proved on everything reachable.

    ** What the theorems show

    - Transport: frames survive any fragmentation of the byte stream, the
      receiver bans what [compress] cannot have made, the send queue is
      first-in-first-out with at most one write in flight and, when idle, empty
      ([TcpSession]); the cipher and its inverse, the CRC against the bitwise
      reference ([Crypt]); a packet built for a message is dispatched to that
      type's handler with equal contents ([ProtocCommon]).
    - Asynchrony: no task is lost or duplicated between caller, worker and
      main thread, and a stop finishes the queued work ([Database]); a query calls
      its owner once and frees what it made, but for the results of interrupted
      attempts ([DbTask]); the compression threads run every task once, in order
      and in the right place, and their shutdown ends ([TaskPool]); every session
      gets its turn ([NetService]); the double
      queue delivers in order ([DoubleQueue]); an event fires when its time has
      run down and as often as asked, no run touches a freed event, the update
      loop ends ([EventManager]); no holder is found that is gone
      ([EventHolders]).
    - Game logic: the session tables stay consistent under every entry point, a
      lost gate removes exactly its users, a player that enters twice takes over
      ([GameServer]); a level-up takes its price and gives the level or changes
      nothing; suits are added, changed and removed as asked ([DreamHero]); a
      hero saved as SQL and loaded back is the hero ([HeroSave], [DbQuest]).
    - Connections: every session object of a server is in one place of its life
      cycle at a time and none is lost, a ban lasts its time ([TcpServer]); a
      message never reaches another connection than its own although the objects
      are used again, and a turn hands out all that is queued ([Receive]); a
      client has one connect under way at most ([TcpClient]); the login server's
      loop ends on a stop request, the gate's runs into its deleted sockets
      ([ServerFrame]).
    - The way in: an account is in one gate at a time, the idle gate is a least
      loaded one, every outcome of a login has its answer ([Login]); a game
      server hears only of players the login server announced, a broken
      connection can be taken up again within its time ([Gate]); the gate's
      variables keep their machine types and its pointers stay valid
      ([GateTypes]); an accepted login ends in a session of a game server with
      messages passing both ways ([LoginFlow]).
    - The whole: a robot of the test client that connects ends with a hero on the
      game server, through all five processes ([SystemFlow]); it keeps to the
      protocol whatever the network does, but failed connects use up the places of
      its queue ([VirtualClient]).
    - Ground: the start of a server comes to an end whatever files, name server and
      databases answer, new equips take numbers no saved equip has ([Startup]);
      object pools are an allocator ([ObjectPool]); a typed packet is read back as
      written or refused when it does not fit ([PacketInterface]); lines logged
      under the mutex are neither torn nor mixed ([Logging]); a borrowed buffer has
      one holder and an owned object is deleted once, in programs that do not copy
      what must not be copied ([Ownership]); a replica that takes over the marked
      words of an object equals it ([UpdateObject]); a distance is the same both ways
      to the last bit ([Location]).
    - The subset-sum search finds a smallest set exactly when there is one
      ([Combine]).
    - Text: [itoa], [SplitStringA], the substitution tables and the text forms
      of suits and equips are read back to what was printed.

    ** Bounds and fuel

    Loops whose measure is not structural take fuel, and each fuel is shown
    sufficient: the receive loop consumes at least a header per round, so the
    length of the buffer is enough ([TcpSession]); [SplitStringA]'s search loop
    advances in the string and [itoa] divides by ten, so the length and 32 rounds
    are enough ([Utilities]); [DelSuit]'s walk meets each suit once ([DreamHero]);
    an event update visits each event of its list once ([EventManager],
    [update_terminates]); [SaveHero]'s batches are recursion on the list.
    Machine widths are kept where they matter: frame lengths, CRC and MD5
    words, counters, times, buffer sizes.

    ** Outside the model

    Code that is not in the repository is an argument or an effect: boost.asio
    (starting an operation is an effect, its completion is a step, run for the
    connection it was started on), MySQL++ (the
    outcome of a query and the rows are arguments), protobuf (the parser per type
    is an argument, with the round trip of a message as hypothesis), jsoncpp (a
    parsed file is an argument), boost::pool (an interface), log4cplus (the lines
    it is given), [UpdateMask] and [CheckFlag] (their headers are not there), [atan2],
    [localtime], [mktime], [time], [rand], [gethostbyname] and uninitialised memory
    (arguments).  Calls of the log in the other components have no effect on them and
    are left out there.

    Not modelled: the crash dumps and the window of the test client (Windows API), the
    protobuf-generated classes, the constructors of sessions in the files of the
    listeners, which have no logic of their own.  In [tcpserver.cpp] and
    [tcpclient.cpp] the set-up of sockets is left out, in [json_help.cpp] what reads
    and writes the files and the setters, in [utilities.cpp] the process id file and
    the platform atomics. *)

From Stdlib Require Import ZArith Lia.
From stdpp Require Import prelude gmap strings list sorting relations.

#[global] Open Scope Z_scope.

(** ** Machine integers

    A [uN] of [common_type.h] is a [Z] in [0, 2^N); the conversions below are
    the ones a C++ assignment to such a variable performs. *)

Definition u8 (x : Z) : Z := x mod 2 ^ 8.
Definition u16 (x : Z) : Z := x mod 2 ^ 16.
Definition u32 (x : Z) : Z := x mod 2 ^ 32.
Definition u64 (x : Z) : Z := x mod 2 ^ 64.
Definition s32 (x : Z) : Z := (x + 2 ^ 31) mod 2 ^ 32 - 2 ^ 31.

Definition is_u8 (x : Z) : Prop := 0 <= x < 2 ^ 8.
Definition is_u16 (x : Z) : Prop := 0 <= x < 2 ^ 16.
Definition is_u32 (x : Z) : Prop := 0 <= x < 2 ^ 32.
Definition is_u64 (x : Z) : Prop := 0 <= x < 2 ^ 64.
Definition is_s32 (x : Z) : Prop := - 2 ^ 31 <= x < 2 ^ 31.

(** ** Byte buffers *)

(** A memory buffer is the list of its bytes. *)
Definition bytes (l : list Z) : Prop := Forall is_u8 l.

(** The object representation of an [n]-byte unsigned integer on the
    little-endian machines the servers run on, and the value read back. *)
Fixpoint le_bytes (n : nat) (x : Z) : list Z :=
  match n with
  | O => []
  | S n' => x mod 256 :: le_bytes n' (x / 256)
  end.

Fixpoint le_val (bs : list Z) : Z :=
  match bs with
  | [] => 0
  | b :: bs' => b + 256 * le_val bs'
  end.

(** [memcpy (buf + pos) data len]: overwrite [length data] bytes. *)
Definition blit (buf : list Z) (pos : nat) (data : list Z) : list Z :=
  take pos buf ++ data ++ drop (pos + length data) buf.

(** The [n] bytes at [buf + pos]. *)
Definition peek (buf : list Z) (pos n : nat) : list Z := take n (drop pos buf).

(** ** C strings *)

(** [s.c_str()] used as a [const char*]: the bytes up to the first NUL. *)
Fixpoint c_str (s : string) : string :=
  match s with
  | EmptyString => EmptyString
  | String c s' =>
      if Ascii.eqb c Ascii.zero then EmptyString else String c (c_str s')
  end.

(** ** Ordered traversal of a [std::map]

    [std::map] iterates in increasing key order. *)
Definition key_le {A} (p q : Z * A) : Prop := p.1 <= q.1.

#[global] Instance key_le_dec {A} (p q : Z * A) : Decision (key_le p q).
Proof. unfold key_le. apply _. Defined.

Definition map_walk {A} (m : gmap Z A) : list (Z * A) :=
  merge_sort key_le (map_to_list m).

(** ** A monad for request handlers

    A handler of a server process reads and writes the objects of the process
    ([S]) and emits effects on the outside world ([O]: packets queued on a
    connection, SQL tasks, ...).  [UB] marks a path on which the C++ has
    undefined behaviour (a null dereference, an invalidated iterator), with
    the reason. *)

Inductive outcome (A : Type) : Type :=
| Ret (a : A)
| UB (why : string).
Arguments Ret {A} a.
Arguments UB {A} why.

Definition M (S O A : Type) : Type := S -> outcome (A * S * list O).

Section monad_ops.
Context {S O : Type}.

Definition mret' {A} (a : A) : M S O A := fun s => Ret (a, s, []).

Definition mbind' {A B} (m : M S O A) (k : A -> M S O B) : M S O B := fun s =>
  match m s with
  | UB why => UB why
  | Ret (a, s1, o1) =>
      match k a s1 with
      | UB why => UB why
      | Ret (b, s2, o2) => Ret (b, s2, o1 ++ o2)
      end
  end.

Definition mget : M S O S := fun s => Ret (s, s, []).
Definition mput (s' : S) : M S O unit := fun _ => Ret (tt, s', []).
Definition mmodify (f : S -> S) : M S O unit := fun s => Ret (tt, f s, []).
Definition memit (o : O) : M S O unit := fun s => Ret (tt, s, [o]).
Definition mub {A} (why : string) : M S O A := fun _ => UB why.

Definition mwhen (b : bool) (m : M S O unit) : M S O unit :=
  if b then m else mret' tt.

Fixpoint mfor {A} (l : list A) (f : A -> M S O unit) : M S O unit :=
  match l with
  | [] => mret' tt
  | x :: l' => mbind' (f x) (fun _ => mfor l' f)
  end.

(** [preserves I m]: whenever [m] runs to completion from a state where [I]
    holds, [I] holds afterwards. *)
Definition preserves (I : S -> Prop) {A} (m : M S O A) : Prop :=
  forall s, I s -> match m s with Ret (_, s', _) => I s' | UB _ => True end.

(** [safe I m]: from a state where [I] holds, [m] has no undefined behaviour. *)
Definition safe (I : S -> Prop) {A} (m : M S O A) : Prop :=
  forall s, I s -> match m s with Ret _ => True | UB _ => False end.

End monad_ops.

Declare Scope srv_scope.
Delimit Scope srv_scope with srv.
Notation "x <- m ;; k" := (mbind' m (fun x => k))
  (at level 100, m at next level, right associativity) : srv_scope.
Notation "m ;;; k" := (mbind' m (fun _ => k))
  (at level 100, right associativity) : srv_scope.
#[global] Open Scope srv_scope.

(** ** Tactics of the development *)

(** Split every [match] and [if] of the goal and hypotheses, then simplify. *)
Ltac dmatch :=
  repeat (case_match; simplify_eq/=).

(** Unfold the monad's operations at a given state. *)
Ltac mstep :=
  unfold mbind', mret', mget, mput, mmodify, memit, mub, mwhen in *; simpl in *.

(** Unfold the machine-integer conversions and range predicates and decide. *)
Ltac mach :=
  unfold u8, u16, u32, u64, s32, is_u8, is_u16, is_u32, is_u64, is_s32 in *;
  lia.

(** [lia] with the equations of the divisions and remainders in sight. *)
Ltac dlia := zify; Z.to_euclidean_division_equations; lia.

Create HintDb mach.
Create HintDb inv.
Create Rewrite HintDb mach_rw.

(** ** Lemmas on machine integers *)

Lemma u8_range x : is_u8 (u8 x).
Proof. unfold is_u8, u8. apply Z.mod_pos_bound. lia. Qed.

Lemma u16_range x : is_u16 (u16 x).
Proof. unfold is_u16, u16. apply Z.mod_pos_bound. lia. Qed.

Lemma u32_range x : is_u32 (u32 x).
Proof. unfold is_u32, u32. apply Z.mod_pos_bound. lia. Qed.

Lemma u64_range x : is_u64 (u64 x).
Proof. unfold is_u64, u64. apply Z.mod_pos_bound. lia. Qed.

Lemma s32_range x : is_s32 (s32 x).
Proof. unfold is_s32, s32. pose proof (Z.mod_pos_bound (x + 2 ^ 31) (2 ^ 32)). lia. Qed.

Lemma u8_id x : is_u8 x -> u8 x = x.
Proof. apply Z.mod_small. Qed.

Lemma u16_id x : is_u16 x -> u16 x = x.
Proof. apply Z.mod_small. Qed.

Lemma u32_id x : is_u32 x -> u32 x = x.
Proof. apply Z.mod_small. Qed.

Lemma u64_id x : is_u64 x -> u64 x = x.
Proof. apply Z.mod_small. Qed.

Lemma s32_id x : is_s32 x -> s32 x = x.
Proof. unfold is_s32, s32. intros. rewrite Z.mod_small; lia. Qed.

Lemma land_0xff x : Z.land x 0xff = x mod 256.
Proof. change 0xff with (Z.ones 8). by rewrite Z.land_ones. Qed.

Lemma land_0xffffffff x : Z.land x 0xffffffff = x mod 2 ^ 32.
Proof. change 0xffffffff with (Z.ones 32). by rewrite Z.land_ones. Qed.

Lemma land_lxor_distr_l a b c :
  Z.land (Z.lxor a b) c = Z.lxor (Z.land a c) (Z.land b c).
Proof.
  apply Z.bits_inj'. intros n _. rewrite !Z.land_spec, !Z.lxor_spec, !Z.land_spec.
  by destruct (Z.testbit a n), (Z.testbit b n), (Z.testbit c n).
Qed.

(** A bitwise combination of two [n]-bit values is an [n]-bit value. *)
Lemma lxor_bound n x y :
  0 <= n -> 0 <= x < 2 ^ n -> 0 <= y < 2 ^ n -> 0 <= Z.lxor x y < 2 ^ n.
Proof.
  intros Hn Hx Hy. split; [apply Z.lxor_nonneg; lia|].
  rewrite <- (Z.mod_small x (2 ^ n)), <- (Z.mod_small y (2 ^ n)) by lia.
  rewrite <- !Z.land_ones, <- land_lxor_distr_l, Z.land_ones by lia.
  apply Z.mod_pos_bound. lia.
Qed.

Lemma lor_bound n x y :
  0 <= n -> 0 <= x < 2 ^ n -> 0 <= y < 2 ^ n -> 0 <= Z.lor x y < 2 ^ n.
Proof.
  intros Hn Hx Hy. split; [apply Z.lor_nonneg; lia|].
  rewrite <- (Z.mod_small x (2 ^ n)), <- (Z.mod_small y (2 ^ n)) by lia.
  rewrite <- !Z.land_ones, <- Z.land_lor_distr_l, Z.land_ones by lia.
  apply Z.mod_pos_bound. lia.
Qed.

#[export] Hint Resolve u8_range u16_range u32_range u64_range s32_range : mach.
#[export] Hint Rewrite u8_id u16_id u32_id u64_id s32_id using mach : mach_rw.

(** ** Lemmas on buffers *)

Lemma length_le_bytes n x : length (le_bytes n x) = n.
Proof. revert x. induction n; intros; simpl; auto. Qed.

Lemma bytes_le_bytes n x : bytes (le_bytes n x).
Proof.
  revert x. induction n as [|n IH]; intros; simpl; constructor; auto.
  - unfold is_u8. apply (Z.mod_pos_bound x 256). lia.
  - apply IH.
Qed.

Lemma le_val_bytes n x :
  le_val (le_bytes n x) = x mod 256 ^ Z.of_nat n.
Proof.
  revert x. induction n as [|n IH]; intros x.
  - simpl. by rewrite Z.mod_1_r.
  - cbn [le_bytes le_val]. rewrite IH.
    replace (256 ^ Z.of_nat (S n)) with (256 * 256 ^ Z.of_nat n).
    + rewrite Z.rem_mul_r by (try apply Z.pow_nonzero; lia). lia.
    + rewrite Nat2Z.inj_succ, Z.pow_succ_r by lia. lia.
Qed.

Lemma le_val_u32 x : is_u32 x -> le_val (le_bytes 4 x) = x.
Proof. intros. rewrite le_val_bytes. apply Z.mod_small. exact H. Qed.

Lemma le_val_bound bs : bytes bs -> 0 <= le_val bs < 256 ^ Z.of_nat (length bs).
Proof.
  induction 1 as [|b bs Hb _ IH]; simpl le_val; simpl length.
  - simpl. lia.
  - rewrite Nat2Z.inj_succ, Z.pow_succ_r by lia. unfold is_u8 in Hb. lia.
Qed.

Lemma le_bytes_val bs : bytes bs -> le_bytes (length bs) (le_val bs) = bs.
Proof.
  induction 1 as [|b bs Hb _ IH]; [done|]. simpl.
  unfold is_u8 in Hb.
  replace ((b + 256 * le_val bs) mod 256) with b.
  - replace ((b + 256 * le_val bs) / 256) with (le_val bs); [by rewrite IH|].
    rewrite Z.add_comm, Z.mul_comm, Z.div_add_l by lia. rewrite Z.div_small; lia.
  - rewrite Z.add_comm, Z.mul_comm, Z.add_comm, Z_mod_plus_full, Z.mod_small; lia.
Qed.

Lemma length_blit buf pos data :
  (pos + length data <= length buf)%nat -> length (blit buf pos data) = length buf.
Proof. intros. unfold blit. rewrite !length_app, length_take, length_drop. lia. Qed.

Lemma blit_0 buf data : blit buf 0 data = data ++ drop (length data) buf.
Proof. unfold blit. by rewrite take_0, app_nil_l, Nat.add_0_l. Qed.

Lemma peek_blit buf pos data :
  (pos + length data <= length buf)%nat -> peek (blit buf pos data) pos (length data) = data.
Proof.
  intros. unfold peek, blit.
  rewrite drop_app_ge by (rewrite length_take; lia).
  rewrite length_take, Nat.min_l, Nat.sub_diag, drop_0 by lia.
  by rewrite take_app_length.
Qed.

Lemma take_blit buf pos data n :
  (pos + length data <= length buf)%nat ->
  n = (pos + length data)%nat -> take n (blit buf pos data) = take pos buf ++ data.
Proof.
  intros ? ->. unfold blit. rewrite app_assoc.
  rewrite take_app_le by (rewrite length_app, length_take; lia).
  rewrite take_ge; [done|]. rewrite length_app, length_take. lia.
Qed.

(** ** Lemmas on ordered traversal *)

#[global] Instance key_le_total {A} : Total (@key_le A).
Proof. intros p q. unfold key_le. lia. Qed.

#[global] Instance key_le_trans {A} : Transitive (@key_le A).
Proof. intros p q r. unfold key_le. lia. Qed.

Lemma map_walk_perm {A} (m : gmap Z A) : map_walk m ≡ₚ map_to_list m.
Proof. apply merge_sort_Permutation. Qed.

Lemma map_walk_sorted {A} (m : gmap Z A) : Sorted key_le (map_walk m).
Proof. apply (Sorted_merge_sort key_le). Qed.

Lemma elem_of_map_walk {A} (m : gmap Z A) k v :
  (k, v) ∈ map_walk m <-> m !! k = Some v.
Proof. rewrite map_walk_perm. apply elem_of_map_to_list. Qed.

Lemma length_map_walk {A} (m : gmap Z A) : length (map_walk m) = size m.
Proof. rewrite map_walk_perm. apply length_map_to_list. Qed.

(** ** Lemmas on the monad *)

Section monad_lemmas.
Context {S O : Type}.

Lemma mbind_ret_l {A B} (a : A) (k : A -> M S O B) s :
  mbind' (mret' a) k s = k a s.
Proof. unfold mbind', mret'. destruct (k a s) as [[[? ?] ?]|]; done. Qed.

(** Running [m] first, when its run is known. *)
Lemma mbind_run {A B} (m : M S O A) (k : A -> M S O B) s a s1 o1 :
  m s = Ret (a, s1, o1) ->
  mbind' m k s =
  match k a s1 with UB why => UB why | Ret (b, s2, o2) => Ret (b, s2, o1 ++ o2) end.
Proof. intros Hm. unfold mbind'. by rewrite Hm. Qed.

(** The same when [m] only computes. *)
Lemma mbind_pure {A B} (m : M S O A) (k : A -> M S O B) s a :
  m s = Ret (a, s, []) -> mbind' m k s = k a s.
Proof. intros Hm. rewrite (mbind_run _ _ _ _ _ _ Hm). by destruct (k a s) as [[[? ?] ?]|]. Qed.

(** A first part that is silent and changes the state. *)
Lemma mbind_silent {A B} (m : M S O A) (k : A -> M S O B) s a s1 :
  m s = Ret (a, s1, []) -> mbind' m k s = k a s1.
Proof. intros H. unfold mbind'. rewrite H. by destruct (k a s1) as [[[b s2] o2]|]. Qed.

(** A run of a sequence is a run of each part. *)
Lemma bind_inv {A B} (m : M S O A) (k : A -> M S O B) s b s2 o :
  mbind' m k s = Ret (b, s2, o) ->
  exists a s1 o1 o2, m s = Ret (a, s1, o1) /\ k a s1 = Ret (b, s2, o2) /\ o = o1 ++ o2.
Proof.
  unfold mbind'. destruct (m s) as [[[a s1] o1]|]; [|done].
  destruct (k a s1) as [[[b' s2'] o2]|] eqn:Hk; [|done]. intros [= -> -> <-]. eauto 10.
Qed.

Lemma mbind_assoc {A B C} (m : M S O A) (f : A -> M S O B) (g : B -> M S O C) s :
  mbind' (mbind' m f) g s = mbind' m (fun a => mbind' (f a) g) s.
Proof.
  unfold mbind'. destruct (m s) as [[[a s1] o1]|]; [|done].
  destruct (f a s1) as [[[b s2] o2]|]; [|done].
  destruct (g b s2) as [[[c s3] o3]|]; [|done]. by rewrite app_assoc.
Qed.

(** A loop over two lists runs over the first, then over the second. *)
Lemma mfor_app {A} (l1 l2 : list A) (f : A -> M S O unit) s :
  mfor (l1 ++ l2) f s = mbind' (mfor l1 f) (fun _ => mfor l2 f) s.
Proof.
  revert s. induction l1 as [|x l1 IH]; intros s; cbn [app mfor].
  - by rewrite mbind_ret_l.
  - rewrite mbind_assoc. unfold mbind' at 1 2. destruct (f x s) as [[[u s1] o1]|]; [|done]. by rewrite IH.
Qed.

(** [run_post ub m Q s]: the run of [m] from [s] ends with a result, a state and
    effects that satisfy [Q], or is undefined, where [ub] allows it. *)
Definition run_post (ub : Prop) {A} (m : M S O A) (Q : A -> S -> list O -> Prop) (s : S) : Prop :=
  match m s with Ret (a, s', o) => Q a s' o | UB _ => ub end.

Lemma wp_bind ub {A B} (m : M S O A) (k : A -> M S O B) (Q : B -> S -> list O -> Prop) s :
  run_post ub m (fun a s1 o1 => run_post ub (k a) (fun b s2 o2 => Q b s2 (o1 ++ o2)) s1) s ->
  run_post ub (mbind' m k) Q s.
Proof.
  unfold run_post, mbind'. destruct (m s) as [[[a s1] o1]|]; [|done].
  by destruct (k a s1) as [[[b s2] o2]|].
Qed.

Lemma wp_mono ub {A} (m : M S O A) (Q Q' : A -> S -> list O -> Prop) s :
  run_post ub m Q s -> (forall a s' o, Q a s' o -> Q' a s' o) -> run_post ub m Q' s.
Proof. unfold run_post. destruct (m s) as [[[a s1] o1]|]; auto. Qed.

(** Two facts of one run. *)
Lemma wp_and ub {A} (m : M S O A) (Q Q' : A -> S -> list O -> Prop) s :
  run_post ub m Q s -> run_post ub m Q' s -> run_post ub m (fun a s' o => Q a s' o /\ Q' a s' o) s.
Proof. unfold run_post. destruct (m s) as [[[a s1] o1]|]; auto. Qed.

(** A total run exists; a partial one satisfies its postcondition. *)
Lemma wp_run {A} (m : M S O A) (Q : A -> S -> list O -> Prop) s :
  run_post False m Q s -> exists a s' o, m s = Ret (a, s', o) /\ Q a s' o.
Proof. unfold run_post. destruct (m s) as [[[a s1] o1]|]; [eauto 10|done]. Qed.

Lemma wlp_run {A} (m : M S O A) (Q : A -> S -> list O -> Prop) s a s' o :
  run_post True m Q s -> m s = Ret (a, s', o) -> Q a s' o.
Proof. unfold run_post. intros H Hr. by rewrite Hr in H. Qed.

(** An invariant of a loop's body is one of the loop; [I] sees the effects so far. *)
Lemma wp_for ub (I : S -> list O -> Prop) {A} (l : list A) (f : A -> M S O unit) s tr :
  I s tr ->
  (forall x s tr, x ∈ l -> I s tr -> run_post ub (f x) (fun _ s' o => I s' (tr ++ o)) s) ->
  run_post ub (mfor l f) (fun _ s' o => I s' (tr ++ o)) s.
Proof.
  revert s tr. induction l as [|x l IH]; intros s tr HI Hf; cbn [mfor].
  - unfold run_post, mret'. by rewrite app_nil_r.
  - apply wp_bind. eapply wp_mono; [apply (Hf x); [apply elem_of_cons; auto|done]|].
    intros u s1 o1 H1. eapply wp_mono; [apply IH; [exact H1|]|].
    + intros y s2 tr2 Hy. apply Hf, elem_of_cons. auto.
    + intros v s2 o2. cbn beta. by rewrite app_assoc.
Qed.

Lemma preserves_ret (I : S -> Prop) {A} (a : A) : preserves I (mret' (O:=O) a).
Proof. intros s Hs. done. Qed.

Lemma preserves_get (I : S -> Prop) : preserves I (mget (O:=O)).
Proof. intros s Hs. done. Qed.

Lemma preserves_emit (I : S -> Prop) (o : O) : preserves I (memit o).
Proof. intros s Hs. done. Qed.

Lemma preserves_ub (I : S -> Prop) {A} why : preserves I (mub (O:=O) (A:=A) why).
Proof. intros s Hs. done. Qed.

Lemma preserves_modify (I : S -> Prop) (f : S -> S) :
  (forall s, I s -> I (f s)) -> preserves I (mmodify (O:=O) f).
Proof. intros Hf s Hs. simpl. auto. Qed.

Lemma preserves_bind (I : S -> Prop) {A B} (m : M S O A) (k : A -> M S O B) :
  preserves I m -> (forall a, preserves I (k a)) -> preserves I (mbind' m k).
Proof.
  intros Hm Hk s Hs. unfold mbind'. specialize (Hm s Hs).
  destruct (m s) as [[[a s1] o1]|]; [|done].
  specialize (Hk a s1 Hm). destruct (k a s1) as [[[b s2] o2]|]; done.
Qed.

Lemma preserves_when (I : S -> Prop) b (m : M S O unit) :
  preserves I m -> preserves I (mwhen b m).
Proof. intros Hm s Hs. destruct b; [by apply Hm|done]. Qed.

Lemma preserves_for (I : S -> Prop) {A} (l : list A) (f : A -> M S O unit) :
  (forall x, x ∈ l -> preserves I (f x)) -> preserves I (mfor l f).
Proof.
  induction l as [|x l IH]; intros Hf; simpl.
  - apply preserves_ret.
  - apply preserves_bind; [apply Hf; set_solver|].
    intros _. apply IH. set_solver.
Qed.

End monad_lemmas.

#[export] Hint Resolve preserves_ret preserves_get preserves_emit preserves_ub
  preserves_bind preserves_when preserves_for : inv.

(** [wp]: the run is defined; [wlp]: it may be undefined. *)
Abbreviation wp := (run_post False).
Abbreviation wlp := (run_post True).

(** Take such a goal apart at its binds and primitive operations. *)
Ltac wp_step :=
  match goal with
  | |- run_post _ (mbind' _ _) _ _ => apply wp_bind
  | |- run_post _ (mret' _) _ _ => unfold run_post at 1, mret' at 1
  | |- run_post _ mget _ _ => unfold run_post at 1, mget at 1
  | |- run_post _ (mput _) _ _ => unfold run_post at 1, mput at 1
  | |- run_post _ (mmodify _) _ _ => unfold run_post at 1, mmodify at 1
  | |- run_post _ (memit _) _ _ => unfold run_post at 1, memit at 1
  | |- run_post True (mub _) _ _ => exact I
  end; cbn beta iota.
Ltac wp_steps := repeat wp_step.
