(* ===== verification/CommonTemplate.v ===== *)
(** The containers of [common/common_template.h]: [obj_ptr_map] (a map of
    pointers) and [obj_map] (a map of values), over [std::map].  A map is a
    [gmap]; loops that visit it go through [map_walk], the increasing-key order
    of [std::map] iterators. *)

From S2P Require Import Prelude.
From stdpp Require Import prelude gmap strings list sorting.
#[local] Open Scope Z_scope.

(** The two builds of the repository: the [.vcxproj] files define [WIN32], the
    [CMakeLists.txt] build does not. *)
Inductive platform : Set := WIN32 | POSIX.

#[global] Instance platform_eq_dec : EqDecision platform.
Proof. solve_decision. Defined.

Module ObjPtrMap.
Section obj_ptr_map.
Context {T : Type}.

Definition getData (m : gmap Z T) (id : Z) : option T := m !! id.

Definition getSize (m : gmap Z T) : nat := size m.

Definition addData (m : gmap Z T) (id : Z) (data : T) : gmap Z T * bool :=
  match m !! id with
  | None => (<[id := data]> m, true)
  | Some _ => (m, false)
  end.

Definition eraseData (m : gmap Z T) (id : Z) : gmap Z T * option T :=
  match m !! id with
  | Some p => (delete id m, Some p)
  | None => (m, None)
  end.

End obj_ptr_map.
End ObjPtrMap.

Module ObjMap.
Section obj_map.
Context {T : Type} `{EqDecision T}.

(** [getData id data] leaves the out-parameter unchanged when [id] is absent. *)
Definition getData (m : gmap Z T) (id : Z) (data : T) : bool * T :=
  match m !! id with
  | Some v => (true, v)
  | None => (false, data)
  end.

Definition hasData (m : gmap Z T) (id : Z) : bool :=
  match m !! id with Some _ => true | None => false end.

Definition addData (m : gmap Z T) (id : Z) (data : T) : gmap Z T * bool :=
  match m !! id with
  | None => (<[id := data]> m, true)
  | Some _ => (m, false)
  end.

Definition getSize (m : gmap Z T) : nat := size m.

(** [eraseData(KEY id, T& v)]: the erased value goes to the out-parameter. *)
Definition eraseDataOut (m : gmap Z T) (id : Z) (v : T) : gmap Z T * (bool * T) :=
  match m !! id with
  | Some x => (delete id m, (true, x))
  | None => (m, (false, v))
  end.

(** [eraseData(KEY id)]. *)
Definition eraseData (m : gmap Z T) (id : Z) : gmap Z T * bool :=
  match m !! id with
  | Some _ => (delete id m, true)
  | None => (m, false)
  end.

(** [getKey]: the scan stops at the first entry, in key order, whose value is [t]. *)
Fixpoint getKey_scan (l : list (Z * T)) (t : T) : option Z :=
  match l with
  | [] => None
  | (k, a) :: l' => if decide (a = t) then Some k else getKey_scan l' t
  end.

Definition getKey (m : gmap Z T) (k : Z) (t : T) : bool * Z :=
  match getKey_scan (map_walk m) t with
  | Some k' => (true, k')
  | None => (false, k)
  end.

(** [eraseValue], the [#ifdef WIN32] loop: [it = m_DataMap.erase(it)] on a match
    and [++it] otherwise, from [begin()] to [end()]. *)
Fixpoint eraseValue_win32 (l : list (Z * T)) (m : gmap Z T) (v : T) : gmap Z T :=
  match l with
  | [] => m
  | (k, a) :: l' =>
      if decide (a = v) then eraseValue_win32 l' (delete k m) v
      else eraseValue_win32 l' m v
  end.

(** [eraseValue], the [#else] loop: after [m_DataMap.erase(it)] the loop
    increments the erased iterator. *)
Fixpoint eraseValue_posix (l : list (Z * T)) (m : gmap Z T) (v : T) : outcome (gmap Z T) :=
  match l with
  | [] => Ret m
  | (k, a) :: l' =>
      if decide (a = v) then UB "eraseValue: ++ on an erased std::map iterator"
      else eraseValue_posix l' m v
  end.

Definition eraseValue (plat : platform) (m : gmap Z T) (v : T) : outcome (gmap Z T) :=
  match plat with
  | WIN32 => Ret (eraseValue_win32 (map_walk m) m v)
  | POSIX => eraseValue_posix (map_walk m) m v
  end.

(** What [eraseValue] is for: the map without the entries bound to [v]. *)
Definition without_value (m : gmap Z T) (v : T) : gmap Z T :=
  filter (fun kv => kv.2 <> v) m.

End obj_map.
End ObjMap.

(** ** Lemmas *)

Section lemmas.
Context {T : Type} `{EqDecision T}.
Implicit Types (m : gmap Z T) (l : list (Z * T)).

Lemma without_value_lookup m v k :
  ObjMap.without_value m v !! k = match m !! k with
                                  | Some x => if decide (x = v) then None else Some x
                                  | None => None
                                  end.
Proof.
  unfold ObjMap.without_value. rewrite map_lookup_filter.
  destruct (m !! k) as [x|]; simpl; [|done].
  case_guard; case_decide; naive_solver.
Qed.

Lemma eraseValue_win32_notin l m v k :
  (k, v) ∉ l -> ObjMap.eraseValue_win32 l m v !! k = m !! k.
Proof.
  revert m. induction l as [|[k' a] l IH]; intros m Hn; simpl; [done|].
  apply not_elem_of_cons in Hn as [Hne Hn].
  case_decide; rewrite IH by done; [|done].
  rewrite lookup_delete_ne; [done|]. naive_solver.
Qed.

Lemma eraseValue_win32_in l m v k :
  (k, v) ∈ l -> ObjMap.eraseValue_win32 l m v !! k = None.
Proof.
  revert m. induction l as [|[k' a] l IH]; intros m Hin; simpl; [set_solver|].
  destruct (decide ((k, v) ∈ l)) as [|Hn]; [case_decide; by apply IH|].
  apply elem_of_cons in Hin as [?|?]; simplify_eq; [|done].
  rewrite decide_True, eraseValue_win32_notin by done. apply lookup_delete_eq.
Qed.

Lemma eraseValue_win32_without m v :
  ObjMap.eraseValue_win32 (map_walk m) m v = ObjMap.without_value m v.
Proof.
  apply map_eq. intros k. rewrite without_value_lookup.
  destruct (decide ((k, v) ∈ map_walk m)) as [Hin|Hn].
  - rewrite eraseValue_win32_in by done. apply elem_of_map_walk in Hin.
    by rewrite Hin, decide_True.
  - rewrite eraseValue_win32_notin by done. rewrite elem_of_map_walk in Hn.
    destruct (m !! k) as [x|]; [|done]. rewrite decide_False; [done|]. by intros ->.
Qed.

Lemma eraseValue_posix_notin l m v :
  (forall k, (k, v) ∉ l) -> ObjMap.eraseValue_posix l m v = Ret m.
Proof.
  induction l as [|[k a] l IH]; intros Hn; simpl; [done|].
  rewrite decide_False, IH; [done|set_solver|]. intros ->. apply (Hn k). set_solver.
Qed.

Lemma eraseValue_posix_in l m v k :
  (k, v) ∈ l -> exists why, ObjMap.eraseValue_posix l m v = UB why.
Proof.
  induction l as [|[k' a] l IH]; intros Hin; simpl; [set_solver|].
  case_decide; [eauto|]. apply IH. set_solver.
Qed.

Lemma without_value_absent m v :
  (forall k, m !! k <> Some v) -> ObjMap.without_value m v = m.
Proof.
  intros Hno. apply map_eq. intros k. rewrite without_value_lookup.
  destruct (m !! k) as [x|] eqn:Hk; [|done].
  rewrite decide_False; [done|]. intros ->. by apply (Hno k).
Qed.

Lemma getKey_scan_Some l t k :
  ObjMap.getKey_scan l t = Some k -> (k, t) ∈ l.
Proof.
  induction l as [|[k' a] l IH]; simpl; [done|].
  case_decide; intros; simplify_eq; set_solver.
Qed.

Lemma getKey_scan_None l t :
  ObjMap.getKey_scan l t = None -> forall k, (k, t) ∉ l.
Proof.
  induction l as [|[k' a] l IH]; simpl; [set_solver|].
  case_decide; [done|]. intros Hn k [?|?]%elem_of_cons; [naive_solver|].
  by apply (IH Hn k).
Qed.

(** The key [getKey] returns is a least key of the value. *)
Lemma getKey_scan_least l t k k' :
  Sorted key_le l -> ObjMap.getKey_scan l t = Some k -> (k', t) ∈ l -> k <= k'.
Proof.
  intros Hs%Sorted_StronglySorted; [|apply _].
  induction Hs as [|[k0 a] l Hs IH Hall]; simpl; [set_solver|].
  rewrite Forall_forall in Hall.
  case_decide; intros Hk [Heq|Hin]%elem_of_cons; simplify_eq; try lia; try done.
  - apply (Hall _ Hin).
  - by apply IH.
Qed.

(** *** Entries after an operation come from before it, or are the one added *)

Lemma addData_Some m k v k' v' :
  (ObjMap.addData m k v).1 !! k' = Some v' -> m !! k' = Some v' \/ (k' = k /\ v' = v).
Proof.
  unfold ObjMap.addData. destruct (m !! k); cbn; [auto|]. rewrite lookup_insert_Some. naive_solver.
Qed.

Lemma ptr_addData_Some m k v k' v' :
  (ObjPtrMap.addData m k v).1 !! k' = Some v' -> m !! k' = Some v' \/ (k' = k /\ v' = v).
Proof.
  unfold ObjPtrMap.addData. destruct (m !! k); cbn; [auto|]. rewrite lookup_insert_Some. naive_solver.
Qed.

Lemma eraseData_Some m k k' v' : (ObjMap.eraseData m k).1 !! k' = Some v' -> m !! k' = Some v'.
Proof. unfold ObjMap.eraseData. destruct (m !! k); cbn; [|done]. rewrite lookup_delete_Some. naive_solver. Qed.

Lemma ptr_eraseData_Some m k k' v' : (ObjPtrMap.eraseData m k).1 !! k' = Some v' -> m !! k' = Some v'.
Proof. unfold ObjPtrMap.eraseData. destruct (m !! k); cbn; [|done]. rewrite lookup_delete_Some. naive_solver. Qed.

Lemma eraseDataOut_Some m k v k' v' : (ObjMap.eraseDataOut m k v).1 !! k' = Some v' -> m !! k' = Some v'.
Proof. unfold ObjMap.eraseDataOut. destruct (m !! k); cbn; [|done]. rewrite lookup_delete_Some. naive_solver. Qed.

Lemma eraseValue_posix_Ret l m v m' :
  ObjMap.eraseValue_posix l m v = Ret m' -> m' = m /\ forall k, (k, v) ∉ l.
Proof.
  induction l as [|[k' a] l IH]; cbn [ObjMap.eraseValue_posix]; [intros [= <-]; set_solver|].
  case_decide as Ha; [done|]. intros [-> Hn]%IH. split; [done|].
  intros k [Heq|Hin]%elem_of_cons; [naive_solver|]. by apply (Hn k).
Qed.

(** When [eraseValue] is defined it removes the entries of the value, on both
    platforms. *)
Lemma eraseValue_without plat m v m' : ObjMap.eraseValue plat m v = Ret m' -> m' = ObjMap.without_value m v.
Proof.
  destruct plat; cbn [ObjMap.eraseValue]; [intros [= <-]; apply eraseValue_win32_without|].
  intros [-> Hn]%eraseValue_posix_Ret. symmetry. apply without_value_absent.
  intros k Hk. apply (Hn k). by apply elem_of_map_walk.
Qed.

Lemma eraseValue_Some plat m v m' k x :
  ObjMap.eraseValue plat m v = Ret m' -> m' !! k = Some x -> m !! k = Some x /\ x <> v.
Proof.
  intros ->%eraseValue_without. rewrite without_value_lookup. destruct (m !! k); [|done]. case_decide; naive_solver.
Qed.

End lemmas.
