(* ===== verification/Crypt.v ===== *)
(** [common/crypt.cpp]: the CRC-32 table and loop, and the byte-substitution
    cipher over ten dictionaries.  The file ends with the reference CRC (bit by
    bit, reflected polynomial 0xEDB88320) that the table-driven loop is proved
    equal to. *)

From S2P Require Import Prelude.
From stdpp Require Import prelude list strings.
#[local] Open Scope Z_scope.

Module Crypto.

(** [Crypto::crc_table]. *)
Definition crc_table : list Z :=
  [0x00000000; 0x77073096; 0xee0e612c; 0x990951ba; 0x076dc419; 0x706af48f; 0xe963a535;
   0x9e6495a3; 0x0edb8832; 0x79dcb8a4; 0xe0d5e91e; 0x97d2d988; 0x09b64c2b; 0x7eb17cbd;
   0xe7b82d07; 0x90bf1d91; 0x1db71064; 0x6ab020f2; 0xf3b97148; 0x84be41de; 0x1adad47d;
   0x6ddde4eb; 0xf4d4b551; 0x83d385c7; 0x136c9856; 0x646ba8c0; 0xfd62f97a; 0x8a65c9ec;
   0x14015c4f; 0x63066cd9; 0xfa0f3d63; 0x8d080df5; 0x3b6e20c8; 0x4c69105e; 0xd56041e4;
   0xa2677172; 0x3c03e4d1; 0x4b04d447; 0xd20d85fd; 0xa50ab56b; 0x35b5a8fa; 0x42b2986c;
   0xdbbbc9d6; 0xacbcf940; 0x32d86ce3; 0x45df5c75; 0xdcd60dcf; 0xabd13d59; 0x26d930ac;
   0x51de003a; 0xc8d75180; 0xbfd06116; 0x21b4f4b5; 0x56b3c423; 0xcfba9599; 0xb8bda50f;
   0x2802b89e; 0x5f058808; 0xc60cd9b2; 0xb10be924; 0x2f6f7c87; 0x58684c11; 0xc1611dab;
   0xb6662d3d; 0x76dc4190; 0x01db7106; 0x98d220bc; 0xefd5102a; 0x71b18589; 0x06b6b51f;
   0x9fbfe4a5; 0xe8b8d433; 0x7807c9a2; 0x0f00f934; 0x9609a88e; 0xe10e9818; 0x7f6a0dbb;
   0x086d3d2d; 0x91646c97; 0xe6635c01; 0x6b6b51f4; 0x1c6c6162; 0x856530d8; 0xf262004e;
   0x6c0695ed; 0x1b01a57b; 0x8208f4c1; 0xf50fc457; 0x65b0d9c6; 0x12b7e950; 0x8bbeb8ea;
   0xfcb9887c; 0x62dd1ddf; 0x15da2d49; 0x8cd37cf3; 0xfbd44c65; 0x4db26158; 0x3ab551ce;
   0xa3bc0074; 0xd4bb30e2; 0x4adfa541; 0x3dd895d7; 0xa4d1c46d; 0xd3d6f4fb; 0x4369e96a;
   0x346ed9fc; 0xad678846; 0xda60b8d0; 0x44042d73; 0x33031de5; 0xaa0a4c5f; 0xdd0d7cc9;
   0x5005713c; 0x270241aa; 0xbe0b1010; 0xc90c2086; 0x5768b525; 0x206f85b3; 0xb966d409;
   0xce61e49f; 0x5edef90e; 0x29d9c998; 0xb0d09822; 0xc7d7a8b4; 0x59b33d17; 0x2eb40d81;
   0xb7bd5c3b; 0xc0ba6cad; 0xedb88320; 0x9abfb3b6; 0x03b6e20c; 0x74b1d29a; 0xead54739;
   0x9dd277af; 0x04db2615; 0x73dc1683; 0xe3630b12; 0x94643b84; 0x0d6d6a3e; 0x7a6a5aa8;
   0xe40ecf0b; 0x9309ff9d; 0x0a00ae27; 0x7d079eb1; 0xf00f9344; 0x8708a3d2; 0x1e01f268;
   0x6906c2fe; 0xf762575d; 0x806567cb; 0x196c3671; 0x6e6b06e7; 0xfed41b76; 0x89d32be0;
   0x10da7a5a; 0x67dd4acc; 0xf9b9df6f; 0x8ebeeff9; 0x17b7be43; 0x60b08ed5; 0xd6d6a3e8;
   0xa1d1937e; 0x38d8c2c4; 0x4fdff252; 0xd1bb67f1; 0xa6bc5767; 0x3fb506dd; 0x48b2364b;
   0xd80d2bda; 0xaf0a1b4c; 0x36034af6; 0x41047a60; 0xdf60efc3; 0xa867df55; 0x316e8eef;
   0x4669be79; 0xcb61b38c; 0xbc66831a; 0x256fd2a0; 0x5268e236; 0xcc0c7795; 0xbb0b4703;
   0x220216b9; 0x5505262f; 0xc5ba3bbe; 0xb2bd0b28; 0x2bb45a92; 0x5cb36a04; 0xc2d7ffa7;
   0xb5d0cf31; 0x2cd99e8b; 0x5bdeae1d; 0x9b64c2b0; 0xec63f226; 0x756aa39c; 0x026d930a;
   0x9c0906a9; 0xeb0e363f; 0x72076785; 0x05005713; 0x95bf4a82; 0xe2b87a14; 0x7bb12bae;
   0x0cb61b38; 0x92d28e9b; 0xe5d5be0d; 0x7cdcefb7; 0x0bdbdf21; 0x86d3d2d4; 0xf1d4e242;
   0x68ddb3f8; 0x1fda836e; 0x81be16cd; 0xf6b9265b; 0x6fb077e1; 0x18b74777; 0x88085ae6;
   0xff0f6a70; 0x66063bca; 0x11010b5c; 0x8f659eff; 0xf862ae69; 0x616bffd3; 0x166ccf45;
   0xa00ae278; 0xd70dd2ee; 0x4e048354; 0x3903b3c2; 0xa7672661; 0xd06016f7; 0x4969474d;
   0x3e6e77db; 0xaed16a4a; 0xd9d65adc; 0x40df0b66; 0x37d83bf0; 0xa9bcae53; 0xdebb9ec5;
   0x47b2cf7f; 0x30b5ffe9; 0xbdbdf21c; 0xcabac28a; 0x53b39330; 0x24b4a3a6; 0xbad03605;
   0xcdd70693; 0x54de5729; 0x23d967bf; 0xb3667a2e; 0xc4614ab8; 0x5d681b02; 0x2a6f2b94;
   0xb40bbe37; 0xc30c8ea1; 0x5a05df1b; 0x2d02ef8d].

End Crypto.

Module Ssl.

(** [dictionary[10][256]]. *)
Definition dictionary : list (list Z) :=
  [[0x26; 0xef; 0xf7; 0x44; 0xd6; 0x32; 0xdf; 0x27; 0xa0; 0x3c; 0x74; 0xd0; 0x12; 0xe3;
   0xe4; 0x3d; 0x2d; 0x9; 0x4d; 0x21; 0x33; 0xce; 0xea; 0xfd; 0xcc; 0xe5; 0x6e; 0x4f;
   0x31; 0x2; 0xc6; 0x28; 0xae; 0x5b; 0xca; 0x81; 0xd2; 0xe; 0x3f; 0x94; 0x38; 0x7d;
   0x1; 0x1c; 0xc8; 0xf1; 0xec; 0xdd; 0x69; 0xf; 0xc1; 0x1a; 0xb6; 0x7e; 0xb8; 0x78;
   0x66; 0xb2; 0x85; 0x47; 0x10; 0x4a; 0x2e; 0xd8; 0x30; 0x19; 0x65; 0x84; 0xe8; 0x24;
   0x92; 0x46; 0xb0; 0x22; 0x54; 0x76; 0x97; 0x9e; 0xeb; 0x9c; 0x95; 0xa6; 0xf3; 0x91;
   0x82; 0x7a; 0x34; 0x52; 0x16; 0xe6; 0x90; 0x7c; 0xbb; 0xfb; 0x4; 0xa2; 0xe0; 0x18;
   0x61; 0xa8; 0x23; 0x55; 0x48; 0xb7; 0x58; 0x79; 0x50; 0xad; 0x56; 0xc9; 0x8b; 0x1d;
   0x11; 0x29; 0xd7; 0x68; 0x6d; 0x45; 0xa3; 0xf2; 0x39; 0xa9; 0xda; 0x8e; 0x41; 0x9d;
   0x9a; 0x70; 0xe7; 0x93; 0xf4; 0xbd; 0x72; 0xfa; 0xc; 0xa4; 0x7; 0x73; 0xff; 0xb4;
   0xde; 0xf6; 0xf9; 0x15; 0xc3; 0x42; 0x75; 0xc0; 0xee; 0xc2; 0xf0; 0x5a; 0x3b; 0x20;
   0x3a; 0x8c; 0x43; 0x2c; 0xcf; 0x8a; 0xb9; 0xb5; 0xd3; 0xcb; 0xaf; 0x80; 0xf5; 0x5e;
   0x2a; 0xb; 0x35; 0x8f; 0x13; 0xc5; 0x4e; 0x53; 0x1f; 0x98; 0x51; 0xe2; 0x60; 0x99;
   0xd1; 0x77; 0x57; 0xaa; 0x7f; 0x25; 0x63; 0xbe; 0x9f; 0x40; 0xd9; 0xf8; 0x6c; 0x5d;
   0xba; 0x5; 0xd5; 0x5f; 0xfc; 0x59; 0xb1; 0x4c; 0x88; 0x83; 0x62; 0xac; 0xa; 0x6f;
   0x9b; 0xdb; 0xfe; 0x6; 0x37; 0x8d; 0x8; 0x6b; 0x96; 0xed; 0x89; 0x17; 0xbc; 0xe9;
   0x14; 0x67; 0x4b; 0x36; 0xc7; 0x49; 0x5c; 0xa7; 0xcd; 0x7b; 0x2f; 0xdc; 0xc4; 0xd4;
   0xa1; 0xab; 0xa5; 0xd; 0x1e; 0xbf; 0x86; 0xe1; 0x3e; 0xb3; 0x3; 0x87; 0x64; 0x71;
   0x2b; 0x6a; 0x0; 0x1b];
   [0x20; 0xb3; 0xd; 0xf5; 0xc2; 0x9b; 0x18; 0x9f; 0x58; 0x6d; 0xa2; 0x47; 0xd5; 0x3d;
   0x23; 0x93; 0x8d; 0xf6; 0xc7; 0x4d; 0xe4; 0x10; 0xc9; 0x71; 0x75; 0x3a; 0x52; 0xd3;
   0xfb; 0x66; 0xa9; 0x2c; 0xf7; 0xf1; 0x6a; 0x25; 0xed; 0x6; 0xb6; 0xd8; 0x44; 0x4c;
   0xa3; 0x67; 0x39; 0x3f; 0x90; 0xd0; 0xd6; 0x32; 0xe9; 0x68; 0xb5; 0x7c; 0x96; 0xcd;
   0x5c; 0xe7; 0x51; 0xce; 0xfa; 0xb9; 0x5a; 0x9c; 0x9e; 0xa0; 0x4a; 0x24; 0xaf; 0x95;
   0x98; 0x42; 0x53; 0xec; 0xd2; 0x6c; 0x35; 0xf2; 0x99; 0x61; 0xca; 0x9d; 0x41; 0x37;
   0x29; 0xc0; 0x33; 0xb8; 0xba; 0xa6; 0xdf; 0xc6; 0xb; 0xe8; 0x60; 0x4f; 0x91; 0x8f;
   0x70; 0x22; 0x2e; 0x7e; 0x5e; 0x4e; 0xbf; 0x7; 0x7d; 0x97; 0xe3; 0xa; 0x2d; 0x54;
   0x6f; 0x7b; 0x50; 0x3; 0xa4; 0x62; 0xf3; 0xda; 0x2a; 0xb1; 0xf8; 0x15; 0xe2; 0x12;
   0x34; 0x85; 0xe1; 0x76; 0xf9; 0xd9; 0x46; 0x8a; 0xc; 0xc1; 0xcc; 0xbb; 0x1b; 0x49;
   0xab; 0x11; 0xb7; 0x87; 0x30; 0x4b; 0x77; 0xf4; 0xd7; 0xaa; 0xc3; 0x55; 0xef; 0x2;
   0xea; 0xe5; 0xfd; 0x16; 0x9; 0xd4; 0xa5; 0x28; 0x36; 0x79; 0x1c; 0xad; 0x2b; 0xb4;
   0x73; 0xe0; 0xbd; 0xbe; 0x1d; 0x64; 0x40; 0x5f; 0x8; 0x1a; 0x17; 0x92; 0x5d; 0x6b;
   0xfc; 0xde; 0x83; 0x31; 0x57; 0xf; 0x8c; 0x45; 0xb2; 0xc4; 0xeb; 0x82; 0xdd; 0x88;
   0xa7; 0x13; 0x1; 0x21; 0x74; 0x2f; 0xe; 0xff; 0x27; 0x94; 0x3e; 0xf0; 0xdc; 0x78;
   0x63; 0x1e; 0xc8; 0xcb; 0x1f; 0x43; 0x14; 0x8b; 0xae; 0xac; 0x26; 0x59; 0x38; 0x0;
   0xee; 0x8e; 0xd1; 0x48; 0xa1; 0xdb; 0x5b; 0x72; 0xb0; 0x5; 0xfe; 0x6e; 0x80; 0x89;
   0x65; 0x81; 0x56; 0xc5; 0x3c; 0x9a; 0x7a; 0x4; 0x84; 0x69; 0x7f; 0xbc; 0xcf; 0x86;
   0x19; 0xe6; 0xa8; 0x3b];
   [0x41; 0xb9; 0x73; 0xfa; 0xf8; 0x6c; 0x4d; 0xb8; 0x5f; 0x43; 0xe0; 0x4f; 0xa3; 0xbf;
   0x16; 0x47; 0x77; 0xf5; 0x8a; 0xc8; 0x3b; 0x99; 0x8e; 0x97; 0xdf; 0xaa; 0x71; 0x5b;
   0xd9; 0xc4; 0x2c; 0x5d; 0x44; 0x11; 0x17; 0xea; 0xba; 0x28; 0xf0; 0xa2; 0x2; 0x0;
   0xe3; 0xf; 0xfb; 0xce; 0x5c; 0xe5; 0x4b; 0xc; 0x40; 0x18; 0x82; 0x8d; 0x15; 0x87;
   0x24; 0x81; 0x4c; 0x89; 0xc5; 0x56; 0xd5; 0x1d; 0x2e; 0x1b; 0x32; 0x6b; 0x66; 0xfd;
   0xfc; 0x3d; 0x3c; 0x2b; 0xbb; 0x78; 0xaf; 0x98; 0xb3; 0x7d; 0xb5; 0x1; 0xae; 0xb1;
   0x53; 0x95; 0x35; 0xdb; 0x26; 0x4; 0x39; 0x3; 0x4a; 0x90; 0xad; 0xb2; 0x9e; 0x8b;
   0x14; 0xee; 0x57; 0xc2; 0x38; 0xd; 0x3a; 0x83; 0xfe; 0x7e; 0x84; 0x54; 0x1e; 0xe;
   0xcf; 0x70; 0x51; 0x7f; 0xd6; 0xb0; 0xa7; 0x29; 0xbd; 0x49; 0xf6; 0x80; 0x93; 0x6f;
   0xc9; 0x9b; 0x92; 0xec; 0x96; 0xf2; 0x68; 0x37; 0xda; 0xc6; 0x10; 0x59; 0x7; 0xb;
   0x63; 0x76; 0x91; 0x8; 0xa4; 0xc0; 0xdd; 0x5e; 0x33; 0x8c; 0x45; 0xb7; 0xcb; 0x60;
   0x1c; 0x9d; 0xe6; 0xca; 0x42; 0xed; 0x74; 0x9c; 0x9f; 0xdc; 0x2d; 0xf7; 0x85; 0x22;
   0xd8; 0x30; 0x75; 0xde; 0x6; 0xd7; 0x9a; 0xf1; 0xff; 0x67; 0xd3; 0x61; 0xa0; 0x7a;
   0xe1; 0xd2; 0xbc; 0xe9; 0x13; 0x9; 0xc3; 0xcd; 0xef; 0x27; 0x94; 0xab; 0x62; 0x50;
   0xeb; 0xbe; 0x12; 0xe2; 0xd4; 0xe7; 0x5a; 0x86; 0x23; 0xe8; 0xa8; 0x2f; 0x31; 0xd1;
   0xe4; 0x19; 0xc1; 0x88; 0xa1; 0x25; 0x48; 0xf9; 0xb4; 0x20; 0xf3; 0x3e; 0x34; 0xa6;
   0xa9; 0x8f; 0x7c; 0x79; 0xb6; 0x6e; 0x1f; 0x4e; 0xcc; 0x6d; 0x1a; 0x21; 0x65; 0x36;
   0x55; 0x64; 0xf4; 0x7b; 0xa; 0x72; 0xac; 0x46; 0x2a; 0x6a; 0xa5; 0x3f; 0x52; 0xc7;
   0x69; 0xd0; 0x5; 0x58];
   [0x9d; 0xa3; 0x24; 0x9c; 0x86; 0xed; 0x89; 0x31; 0x2b; 0x7; 0xe9; 0x6f; 0x3f; 0xb4;
   0xa0; 0x21; 0x28; 0xfe; 0xe7; 0x63; 0x20; 0x5b; 0x65; 0x42; 0xdf; 0xff; 0x2d; 0xd7;
   0x49; 0xef; 0x92; 0xaa; 0x80; 0xd3; 0x44; 0xc1; 0x6e; 0xce; 0x4b; 0xb7; 0xc6; 0x66;
   0xfa; 0xe8; 0xa4; 0x91; 0x97; 0x96; 0xb9; 0xd6; 0x5c; 0x61; 0x9a; 0x62; 0x85; 0xbe;
   0xac; 0x45; 0x17; 0x1c; 0x27; 0xf; 0x67; 0xcf; 0x38; 0x3a; 0xf1; 0x11; 0x47; 0xee;
   0xa9; 0x83; 0x9f; 0xca; 0x6; 0x6d; 0xe; 0x2f; 0x7a; 0x41; 0x2e; 0x78; 0x7d; 0xd9;
   0x25; 0x34; 0xb3; 0xa8; 0xfc; 0xb0; 0x4; 0x90; 0x50; 0x79; 0x48; 0xbd; 0xc4; 0xc5;
   0x22; 0x98; 0x81; 0x73; 0x29; 0x8a; 0x40; 0xf4; 0x54; 0x1e; 0xfb; 0xf9; 0xbb; 0xf0;
   0xcb; 0x2c; 0x57; 0x51; 0xc3; 0xd4; 0xab; 0x1d; 0xd; 0xc9; 0x19; 0xea; 0x72; 0x36;
   0xa5; 0x8b; 0x8; 0x15; 0x12; 0xeb; 0xaf; 0xb8; 0x3; 0xd2; 0xa1; 0xe4; 0x59; 0xc;
   0x70; 0xa7; 0x39; 0x23; 0xd1; 0x94; 0x18; 0xad; 0xb1; 0xd8; 0xfd; 0x46; 0xf2; 0xba;
   0x53; 0xd5; 0x10; 0x7c; 0xc0; 0x95; 0x3d; 0x43; 0x5a; 0x4c; 0x71; 0x55; 0x74; 0xcc;
   0x35; 0x6c; 0x4f; 0x5; 0x58; 0x82; 0x5d; 0x75; 0x9; 0xe6; 0x1a; 0xa2; 0x9b; 0xdb;
   0x8e; 0x5f; 0xe1; 0x69; 0x5e; 0xb2; 0x77; 0x76; 0x4d; 0x60; 0xb; 0x6a; 0x64; 0x33;
   0x4a; 0x3b; 0x8d; 0x2a; 0x84; 0x7e; 0x0; 0x1; 0x87; 0x56; 0x4e; 0xc2; 0xf3; 0x52;
   0xc8; 0x26; 0x2; 0xdd; 0x68; 0xb6; 0xde; 0x37; 0xec; 0x7b; 0x88; 0x99; 0x3e; 0x3c;
   0x32; 0x1b; 0xf7; 0x6b; 0xa; 0x8f; 0x9e; 0x14; 0x13; 0xda; 0x93; 0xf6; 0x16; 0xd0;
   0xa6; 0xe2; 0x30; 0xe0; 0xc7; 0xf5; 0xe5; 0x7f; 0xcd; 0xdc; 0xbf; 0x8c; 0xe3; 0xf8;
   0xb5; 0xae; 0x1f; 0xbc];
   [0x7f; 0x1b; 0xe; 0xda; 0x21; 0x7d; 0x52; 0xb2; 0x4a; 0xd5; 0x8a; 0x4d; 0x37; 0x26;
   0x99; 0xf6; 0x1a; 0xdd; 0x6e; 0xf2; 0x8e; 0x3d; 0x91; 0xab; 0x71; 0xcf; 0x3e; 0xd;
   0x62; 0x8f; 0x5d; 0x8; 0xf9; 0xf1; 0xef; 0x88; 0xec; 0xfe; 0x32; 0xd0; 0x87; 0x49;
   0x53; 0x30; 0xe7; 0x15; 0x3a; 0xed; 0x85; 0xba; 0x66; 0x75; 0x9d; 0xc1; 0xc8; 0xc9;
   0xf8; 0x13; 0x1d; 0x57; 0xa6; 0xde; 0x33; 0xa7; 0xd2; 0x46; 0x6b; 0xf5; 0xff; 0x19;
   0x68; 0x9e; 0xbf; 0x42; 0xea; 0x1f; 0x9f; 0x2f; 0x40; 0xfc; 0xa4; 0x3c; 0x5; 0xc;
   0xf4; 0xc2; 0x5b; 0x20; 0x84; 0x4f; 0x2; 0x97; 0xf7; 0xa2; 0x82; 0xbd; 0xb0; 0x18;
   0xc3; 0x14; 0x6c; 0xa3; 0xe5; 0x25; 0x7a; 0xf3; 0x9a; 0x35; 0xe6; 0x28; 0xe1; 0x6a;
   0xd1; 0xfd; 0x6; 0xb5; 0xa; 0x92; 0x5f; 0x1; 0x27; 0x38; 0xbb; 0xc6; 0x80; 0xeb;
   0x24; 0xb8; 0x86; 0xd8; 0xd3; 0x44; 0xee; 0x67; 0x61; 0x90; 0xaf; 0xdc; 0x4e; 0xcd;
   0x83; 0xb1; 0x1e; 0x45; 0x22; 0xbe; 0x2c; 0x69; 0x2a; 0x23; 0x74; 0x79; 0xb3; 0xa9;
   0x16; 0x73; 0x48; 0xe8; 0xc7; 0xe9; 0x1c; 0xd4; 0x76; 0xe0; 0xaa; 0xb4; 0x47; 0xb9;
   0xb7; 0x7b; 0x5e; 0x98; 0x93; 0x12; 0xc5; 0xca; 0x2d; 0x29; 0x96; 0x6f; 0x17; 0x50;
   0x34; 0x78; 0x6d; 0x7; 0xa8; 0x2e; 0xd7; 0xe3; 0xcb; 0xd9; 0x31; 0x58; 0x72; 0xe4;
   0xf0; 0x9b; 0x8c; 0x9; 0xae; 0x55; 0x11; 0x5a; 0x2b; 0x59; 0x8d; 0x43; 0xa1; 0x3f;
   0x63; 0xc4; 0x81; 0x10; 0x54; 0xbc; 0x3; 0xce; 0x65; 0x4c; 0xa5; 0xf; 0xac; 0x51;
   0x7e; 0x7c; 0xb; 0x41; 0xdb; 0x60; 0x94; 0x64; 0x5c; 0x4b; 0x4; 0x77; 0x8b; 0xd6;
   0xc0; 0x95; 0x39; 0x56; 0x3b; 0x9c; 0xfb; 0xdf; 0x89; 0x0; 0x70; 0xe2; 0xfa; 0xad;
   0xb6; 0xa0; 0x36; 0xcc];
   [0xa4; 0xc; 0xe9; 0x67; 0x7c; 0x3f; 0x2a; 0x0; 0xef; 0x8c; 0x39; 0x1e; 0x61; 0x55;
   0x8f; 0xc6; 0x23; 0x4d; 0x94; 0x3b; 0xe; 0x29; 0x71; 0x97; 0x73; 0x14; 0x5c; 0xc7;
   0xd0; 0x34; 0xb1; 0x18; 0x17; 0xfb; 0xcf; 0xea; 0xdf; 0x2e; 0xf7; 0xba; 0xd; 0xbf;
   0xbc; 0x30; 0x45; 0xc3; 0x9f; 0x8; 0xb4; 0xd6; 0x9a; 0x48; 0x11; 0x8e; 0x13; 0x99;
   0x49; 0xac; 0x5f; 0x8d; 0x3c; 0xbe; 0x36; 0x5a; 0x32; 0x87; 0x5d; 0x6c; 0xa; 0xd4;
   0xf4; 0x5; 0xf; 0xa5; 0x91; 0x77; 0x9e; 0x15; 0x47; 0x64; 0x24; 0x4c; 0xe4; 0x76;
   0xde; 0xff; 0xe6; 0xd5; 0xf0; 0xaf; 0xbb; 0x53; 0x83; 0x72; 0xee; 0x12; 0x4; 0xdc;
   0x78; 0xa2; 0x16; 0x81; 0x2; 0x6a; 0x68; 0xf1; 0x9b; 0x37; 0x8a; 0x58; 0xf9; 0x3e;
   0xfd; 0x35; 0x3; 0x1f; 0x7b; 0x7a; 0x90; 0xf3; 0xda; 0x82; 0x60; 0x80; 0xd1; 0x50;
   0xb8; 0xe7; 0x56; 0xb7; 0xae; 0x4e; 0xcc; 0x2f; 0x59; 0xce; 0xf5; 0xe1; 0x9d; 0x84;
   0xd2; 0xdb; 0x2b; 0x93; 0x6; 0x3a; 0x92; 0xa7; 0x9c; 0x7; 0x44; 0x6b; 0xbd; 0xd8;
   0xb6; 0x46; 0x8b; 0xf2; 0xa3; 0x74; 0xad; 0x88; 0x75; 0x69; 0x79; 0xd7; 0xb0; 0xe2;
   0x2c; 0x6f; 0x26; 0xca; 0x43; 0xcb; 0xfa; 0x96; 0x19; 0xc0; 0x7e; 0x22; 0x86; 0x31;
   0xcd; 0xa6; 0x62; 0x25; 0x42; 0x3d; 0x5b; 0x1; 0xc1; 0x57; 0xec; 0x1b; 0x1c; 0x95;
   0xfe; 0xab; 0x21; 0x20; 0xe8; 0xc8; 0xeb; 0xed; 0x1d; 0xaa; 0xc5; 0x66; 0x5e; 0xdd;
   0x98; 0xb; 0x85; 0xfc; 0x41; 0x4f; 0xc2; 0x6d; 0x4b; 0xb3; 0x27; 0xa1; 0xf6; 0x28;
   0x54; 0x40; 0x10; 0x4a; 0xa8; 0xc4; 0xe5; 0xb5; 0xc9; 0xf8; 0x33; 0x70; 0xa9; 0x51;
   0x65; 0xd3; 0x6e; 0xb9; 0x89; 0x7d; 0x9; 0x2d; 0x52; 0x38; 0xb2; 0x63; 0x7f; 0xd9;
   0xa0; 0xe3; 0xe0; 0x1a];
   [0x12; 0x22; 0x8e; 0xe6; 0x88; 0xc2; 0x99; 0xdd; 0x5d; 0x49; 0x60; 0x6c; 0x2d; 0xf4;
   0x85; 0x8b; 0x67; 0xc6; 0x5b; 0x1c; 0xb2; 0xdb; 0x38; 0xf8; 0xbb; 0xd4; 0xc4; 0xae;
   0x2a; 0xb5; 0x76; 0x80; 0xc9; 0x43; 0xe4; 0xcc; 0xc3; 0x3; 0x20; 0x5; 0x6f; 0x84;
   0x94; 0xce; 0xd9; 0xbe; 0xb8; 0xb6; 0x7d; 0x54; 0xf5; 0x13; 0x2; 0xdf; 0xfd; 0x86;
   0xa; 0x93; 0xee; 0x73; 0x9b; 0x68; 0x7a; 0xbd; 0xff; 0x31; 0x45; 0x92; 0xa0; 0xad;
   0x9; 0xf; 0x3d; 0x1d; 0xea; 0x7; 0x97; 0xda; 0x8d; 0x62; 0x56; 0x53; 0xde; 0x91;
   0xe; 0xba; 0xd8; 0x51; 0xd2; 0x4b; 0xe1; 0x5a; 0xa9; 0x4e; 0x70; 0x15; 0x35; 0xb3;
   0x75; 0x36; 0xac; 0xe3; 0x7f; 0xb1; 0x1b; 0xf7; 0xf9; 0x98; 0xd7; 0xec; 0x7b; 0x64;
   0xd0; 0xd3; 0x1; 0x11; 0xc1; 0x1a; 0x3f; 0xcd; 0x48; 0x21; 0x0; 0xf0; 0x74; 0x2f;
   0xa2; 0x55; 0xed; 0x78; 0xfa; 0x81; 0x42; 0x17; 0x37; 0xf3; 0xf6; 0xe8; 0x29; 0xb;
   0x50; 0x90; 0x3c; 0xfb; 0x16; 0x27; 0x3b; 0x59; 0xa1; 0x14; 0x96; 0x82; 0x71; 0x41;
   0x9a; 0xbf; 0x2b; 0x9d; 0x79; 0xe9; 0xa7; 0xcb; 0x89; 0x30; 0xca; 0xab; 0x8c; 0xc;
   0xef; 0x9e; 0x5f; 0x57; 0xd1; 0x69; 0x58; 0x18; 0x6d; 0x3a; 0x7c; 0x6; 0xc0; 0xc8;
   0xf1; 0x63; 0xa6; 0xa4; 0x9f; 0x4d; 0x8a; 0x24; 0xbc; 0xe0; 0xe7; 0x32; 0xaf; 0xd5;
   0x1f; 0x19; 0x8; 0x26; 0xb4; 0x34; 0x66; 0xb0; 0x95; 0x2e; 0x7e; 0x5c; 0xd; 0x28;
   0xa3; 0x61; 0x4c; 0xfc; 0xd6; 0x6a; 0x72; 0x33; 0xaa; 0xb7; 0x10; 0xe5; 0xc5; 0x46;
   0x25; 0x4; 0x4a; 0x44; 0x23; 0x47; 0xf2; 0xb9; 0xfe; 0x39; 0x40; 0x52; 0x1e; 0x4f;
   0x77; 0xc7; 0x5e; 0xeb; 0xa8; 0x87; 0xdc; 0x3e; 0x8f; 0x9c; 0x83; 0x2c; 0x65; 0xe2;
   0x6e; 0x6b; 0xcf; 0xa5];
   [0x72; 0xdd; 0x80; 0xb8; 0x33; 0x3d; 0xdf; 0x2b; 0xac; 0xd0; 0x6; 0x1; 0x9a; 0x4e;
   0x4c; 0xde; 0xf1; 0xe1; 0x20; 0x94; 0xf9; 0xe6; 0x8e; 0xfd; 0x14; 0xf6; 0xaa; 0x82;
   0x15; 0xce; 0x27; 0x49; 0x6a; 0x96; 0x8c; 0x1f; 0xb1; 0xd3; 0xe0; 0xa9; 0xc3; 0x51;
   0xa8; 0xeb; 0x23; 0x0; 0x4; 0x85; 0xae; 0x95; 0xd7; 0x58; 0x83; 0x7d; 0x25; 0xe3;
   0x76; 0xb2; 0xc6; 0xe7; 0xa; 0xbc; 0x2f; 0x67; 0x73; 0xad; 0x90; 0xdb; 0x5b; 0x8a;
   0xf8; 0x62; 0x21; 0xf0; 0x6d; 0xcb; 0x84; 0xb4; 0x11; 0x98; 0xaf; 0xb9; 0xab; 0x56;
   0xa3; 0xb0; 0xbb; 0x50; 0xf3; 0x8b; 0x5d; 0x5; 0x7e; 0x30; 0xf4; 0x91; 0xb7; 0x9e;
   0x2; 0xea; 0x9f; 0x7; 0x5a; 0x77; 0xc5; 0xc2; 0x99; 0xfe; 0x55; 0xa2; 0x26; 0xd8;
   0x79; 0x8f; 0xd2; 0xe4; 0xed; 0xff; 0x6e; 0x53; 0x64; 0xd; 0x45; 0xc7; 0xb; 0x3f;
   0x6c; 0xa1; 0xc4; 0x32; 0xe; 0x7c; 0xf5; 0x48; 0x9; 0x34; 0x66; 0x59; 0xb6; 0x1c;
   0x13; 0x42; 0xda; 0xd9; 0xbe; 0x38; 0x37; 0xec; 0x9d; 0xef; 0xba; 0xe9; 0x31; 0x3e;
   0x43; 0x47; 0x28; 0x70; 0xc9; 0x52; 0xb3; 0x7a; 0x71; 0xa7; 0x1e; 0x2c; 0x69; 0x19;
   0xfb; 0x41; 0xa6; 0x4a; 0x7b; 0x75; 0x6f; 0xe8; 0x22; 0xf2; 0xd1; 0xa4; 0x2e; 0x3b;
   0xfc; 0xcd; 0xc0; 0xc; 0x8d; 0xa5; 0x92; 0x5e; 0x57; 0xf; 0x39; 0x60; 0x36; 0xcf;
   0xdc; 0x88; 0x63; 0xee; 0x16; 0x78; 0xca; 0x4f; 0x9c; 0x1d; 0xc1; 0x2d; 0xbf; 0x18;
   0x93; 0x40; 0x4d; 0x97; 0x8; 0xa0; 0x4b; 0x6b; 0xcc; 0x87; 0xfa; 0x24; 0xbd; 0x17;
   0x86; 0x3c; 0xe5; 0x12; 0x35; 0x65; 0xf7; 0x5f; 0x68; 0x29; 0x3a; 0xe2; 0x9b; 0x5c;
   0x10; 0x44; 0x1b; 0xc8; 0xb5; 0x46; 0xd5; 0x61; 0x3; 0xd6; 0x2a; 0x81; 0x74; 0x1a;
   0x54; 0x89; 0x7f; 0xd4];
   [0x6e; 0xc3; 0x57; 0x46; 0x84; 0xed; 0x29; 0x83; 0xcb; 0xa3; 0x6a; 0x9d; 0xc8; 0x7e;
   0xac; 0x33; 0x4; 0xf6; 0x4b; 0x3f; 0xda; 0x6c; 0xa1; 0xd7; 0x2a; 0xba; 0x9f; 0x73;
   0x2; 0x23; 0x3d; 0xe5; 0xb4; 0xb7; 0x37; 0xf; 0x7c; 0x8a; 0xe8; 0x49; 0x64; 0xa0;
   0xaf; 0xf5; 0x42; 0x85; 0xf2; 0x32; 0x72; 0x17; 0xad; 0xde; 0x7f; 0xcf; 0x98; 0xf3;
   0x95; 0xf0; 0xf7; 0x22; 0x65; 0x1e; 0xc2; 0x10; 0x28; 0x58; 0xf9; 0xe; 0x1c; 0xaa;
   0x7a; 0xb0; 0x13; 0x78; 0x69; 0xf4; 0x21; 0x3b; 0x51; 0xb5; 0x4a; 0x81; 0x76; 0x94;
   0xdb; 0xd3; 0x2b; 0x80; 0x7b; 0x11; 0xc6; 0x6f; 0xd9; 0x41; 0x19; 0xd5; 0x40; 0x7d;
   0x6; 0xc4; 0x31; 0xb8; 0xe1; 0xa5; 0xca; 0x59; 0xe3; 0xe0; 0x63; 0x9c; 0x14; 0x5c;
   0xff; 0x3; 0x2f; 0xbd; 0xc7; 0x27; 0x5f; 0xe7; 0xb2; 0x56; 0x4d; 0x35; 0x8; 0x2c;
   0x47; 0x8f; 0x5e; 0xbc; 0x25; 0xe9; 0xc; 0xfd; 0xef; 0xb1; 0xfb; 0xdf; 0x5; 0xf8;
   0x53; 0x89; 0x97; 0x54; 0xd1; 0xe2; 0x1; 0xc0; 0x7; 0x8b; 0x52; 0x5a; 0xa2; 0xdc;
   0x9e; 0xcc; 0x0; 0x44; 0xab; 0xd8; 0x77; 0x36; 0xbb; 0xd0; 0xa6; 0xbe; 0xe4; 0x3c;
   0xea; 0xcd; 0x91; 0xa; 0xe6; 0x30; 0x4e; 0x74; 0xd2; 0x62; 0x6d; 0x3e; 0x90; 0x8e;
   0xf1; 0xd6; 0x3a; 0x48; 0x79; 0xd; 0x88; 0x70; 0xb; 0x39; 0x1b; 0xec; 0x68; 0x5d;
   0xc1; 0x9a; 0xb3; 0x1d; 0xeb; 0x75; 0xc5; 0x99; 0x18; 0x6b; 0x15; 0x20; 0x60; 0x38;
   0x12; 0x9b; 0x9; 0x67; 0x55; 0x8c; 0xb9; 0xa9; 0x82; 0x43; 0xa8; 0xee; 0x93; 0x2d;
   0xfe; 0x92; 0x5b; 0xae; 0xd4; 0x1a; 0x66; 0xa4; 0xb6; 0x61; 0x50; 0x2e; 0xfa; 0xdd;
   0x4c; 0x24; 0x4f; 0xce; 0x96; 0x45; 0x26; 0xa7; 0xfc; 0xc9; 0x34; 0xbf; 0x86; 0x1f;
   0x16; 0x8d; 0x87; 0x71];
   [0x66; 0x0; 0x81; 0x79; 0x2e; 0xc5; 0x6f; 0xe1; 0x1e; 0xb4; 0x7d; 0xff; 0x19; 0xd0;
   0xcd; 0x8d; 0x2c; 0xa2; 0x93; 0x24; 0xfd; 0x4b; 0xd8; 0x34; 0xd1; 0xf; 0xca; 0x68;
   0xb1; 0xe0; 0xba; 0x44; 0x43; 0xf9; 0x95; 0x91; 0xc3; 0x31; 0x6c; 0x11; 0x17; 0x32;
   0x9c; 0xb8; 0x16; 0xbe; 0xef; 0xfa; 0x4; 0x8; 0x28; 0xea; 0x39; 0xe9; 0x54; 0xac;
   0x71; 0x62; 0xf2; 0xd9; 0x36; 0x1b; 0x56; 0x9e; 0xf5; 0x99; 0xc2; 0xd3; 0xc1; 0x46;
   0x26; 0x83; 0xee; 0x1a; 0x9a; 0x27; 0x4d; 0xf7; 0x77; 0xd2; 0x74; 0xaf; 0xf1; 0x90;
   0x38; 0x63; 0xd6; 0xc4; 0x9; 0x1; 0xfe; 0x58; 0xe8; 0x84; 0xbb; 0x73; 0x3a; 0x4f;
   0x5d; 0xc0; 0x3f; 0x5c; 0x75; 0x2; 0x21; 0x61; 0x47; 0x86; 0x88; 0xdb; 0x13; 0xcf;
   0x6a; 0x40; 0x49; 0x6b; 0x8f; 0x57; 0x3b; 0x18; 0xfc; 0x9f; 0xa0; 0x92; 0x8e; 0x69;
   0xd; 0x59; 0xe4; 0xf6; 0x97; 0x37; 0x22; 0xde; 0x20; 0xd7; 0x76; 0xe5; 0xc8; 0xc7;
   0x65; 0x7; 0x5e; 0x3c; 0x35; 0xdc; 0x6e; 0x5a; 0xce; 0xf4; 0x98; 0x45; 0x41; 0xb5;
   0x51; 0x4c; 0x7e; 0x6; 0x23; 0x42; 0x52; 0xe; 0xb9; 0xbc; 0x3d; 0xcc; 0x2a; 0xdd;
   0x6d; 0x85; 0x29; 0x55; 0xa4; 0x8a; 0xb2; 0x30; 0x12; 0x8c; 0xb; 0x94; 0x8b; 0xc;
   0xa8; 0x7f; 0xe7; 0x78; 0x3; 0xa5; 0x89; 0x4a; 0x3e; 0xe3; 0xbf; 0x10; 0xf3; 0x2f;
   0xb3; 0x72; 0x7a; 0x15; 0xfb; 0x5; 0xb7; 0x5f; 0xe2; 0x50; 0x53; 0x70; 0xc9; 0xed;
   0x5b; 0xa9; 0xa; 0xb0; 0x7c; 0x67; 0xf8; 0x14; 0x2b; 0x1d; 0x80; 0x1c; 0xab; 0xa7;
   0xb6; 0xd5; 0xec; 0x64; 0xda; 0x96; 0x48; 0xdf; 0xa1; 0xae; 0xa3; 0xbd; 0xaa; 0xd4;
   0x2d; 0x25; 0x9d; 0xa6; 0xcb; 0xeb; 0x1f; 0xe6; 0x82; 0xf0; 0x33; 0x7b; 0x9b; 0x60;
   0xad; 0xc6; 0x4e; 0x87]].

(** The innermost loop of [sslInitDictionary]: the first [k] with
    [dictionary[i][k] == j], or the loop's final value 256. *)
Fixpoint find_code (row : list Z) (j k : Z) : Z :=
  match row with
  | [] => k
  | x :: row' => if x =? j then k else find_code row' j (k + 1)
  end.

(** [sslInitDictionary]: [reversed_dictionary[i][j] = k], an unsigned char. *)
Definition reversed_row (row : list Z) : list Z :=
  map (fun j => u8 (find_code row j 0)) (map Z.of_nat (seq 0 256)).

Definition sslInitDictionary : list (list Z) := map reversed_row dictionary.

(** [table[i % 10][c]], for a byte [c]. *)
Definition dict_at (table : list (list Z)) (i c : Z) : Z :=
  nth (Z.to_nat c) (nth (Z.to_nat (i mod 10)) table []) 0.

(** The loop [for( ; i < in_len; ++i ) out_data[i] = dictionary[...][in_data[i]] ^ *key];
    the row index is [(unsigned int)key2 + i], an unsigned int. *)
Fixpoint encrypt_loop (key key2 i : Z) (in_data : list Z) {struct in_data} : list Z :=
  match in_data with
  | [] => []
  | c :: in' =>
      Z.lxor (dict_at dictionary (u32 (u32 key2 + i)) c) key
        :: encrypt_loop key key2 (i + 1) in'
  end.

(** [sslEncrypt key in_data in_len out_data], with the value [rnd] of [rand()]:
    the output buffer after the call and the result. *)
Definition sslEncrypt (key rnd : Z) (in_data out_data : list Z) : list Z * Z :=
  let in_len := Z.of_nat (length in_data) in
  if key =? 0 then (out_data, in_len)
  else
    let key2 := Z.rem rnd 256 in
    (blit out_data 0 (encrypt_loop key key2 0 in_data ++ [key2]), in_len + 1).

Fixpoint decrypt_loop (table : list (list Z)) (key key2 i : Z) (in_data : list Z)
  {struct in_data} : list Z :=
  match in_data with
  | [] => []
  | c :: in' =>
      dict_at table (u32 (u32 key2 + i)) (Z.lxor c key)
        :: decrypt_loop table key key2 (i + 1) in'
  end.

(** [sslDecrypt]: [in_data[in_len - 1]] is read before anything else, so an
    empty input with a key is out of bounds.  The loop also decrypts the last
    byte (the key2 byte); the result does not count it. *)
Definition sslDecrypt (table : list (list Z)) (key : Z) (in_data out_data : list Z)
  : outcome (list Z * Z) :=
  let in_len := Z.of_nat (length in_data) in
  if key =? 0 then Ret (out_data, in_len)
  else
    match last in_data with
    | None => UB "sslDecrypt: in_data[-1]"
    | Some key2 =>
        Ret (blit out_data 0 (decrypt_loop table key key2 0 in_data), in_len - 1)
    end.

(** A [char] of the input as the [int] it promotes to. *)
Definition schar (b : Z) : Z := if b <? 128 then b else b - 256.

(** [DO1]: [crc = crc_table[((int)crc ^ ( *data++ )) & 0xff] ^ (crc >> 8)]. *)
Definition DO1 (crc b : Z) : Z :=
  Z.lxor (nth (Z.to_nat (Z.land (Z.lxor (s32 crc) (schar b)) 0xff)) Crypto.crc_table 0)
         (Z.shiftr crc 8).

(** [while (len >= 8) { DO8; len -= 8; } if (len) do { DO1; } while (--len);],
    with the body [DO1] as [do1]. *)
Fixpoint loop8 (do1 : Z -> Z -> Z) (crc : Z) (data : list Z) {struct data} : Z :=
  match data with
  | b1 :: b2 :: b3 :: b4 :: b5 :: b6 :: b7 :: b8 :: rest =>
      loop8 do1 (do1 (do1 (do1 (do1 (do1 (do1 (do1 (do1 crc b1) b2) b3) b4) b5) b6) b7) b8) rest
  | _ => fold_left do1 data crc
  end.

Definition crc_loop : Z -> list Z -> Z := loop8 DO1.

(** [ssl::crc32 crc data len]; [data] is [None] for a null pointer. *)
Definition crc32 (crc : Z) (data : option (list Z)) : Z :=
  match data with
  | None => 0
  | Some d => u32 (Z.lxor (crc_loop (Z.lxor crc 0xffffffff) d) 0xffffffff)
  end.

Definition sslCrc32 (data : option (list Z)) : Z := crc32 0 data.

Definition sslChecksum (data : option (list Z)) (key : Z) : bool :=
  key =? sslCrc32 data.

End Ssl.

(** ** Reference CRC-32 *)

Module CrcSpec.

(** One bit of the reflected CRC register. *)
Definition step (c : Z) : Z :=
  if Z.testbit c 0 then Z.lxor (Z.shiftr c 1) 0xedb88320 else Z.shiftr c 1.

Definition steps (c : Z) (n : nat) : Z := Nat.iter n step c.

Definition byte (c b : Z) : Z := steps (Z.lxor c b) 8.

Definition crc (data : list Z) : Z :=
  Z.lxor (fold_left byte data 0xffffffff) 0xffffffff.

End CrcSpec.

(** ** The substitution cipher *)

Lemma dictionary_bytes_b :
  forallb (fun row => (length row =? 256)%nat && forallb (fun b => (0 <=? b) && (b <? 256)) row)
    Ssl.dictionary = true.
Proof. vm_compute. reflexivity. Qed.

Lemma reversed_b :
  (fun rt => forallb (fun i => forallb (fun c =>
      let d := Ssl.dict_at Ssl.dictionary i c in
      (0 <=? d) && (d <? 256) && (Ssl.dict_at rt i d =? c))
    (map Z.of_nat (seq 0 256))) (map Z.of_nat (seq 0 10))) Ssl.sslInitDictionary = true.
Proof. vm_compute. reflexivity. Qed.

Lemma in_range_seq (x : Z) (n : nat) : 0 <= x < Z.of_nat n -> In x (map Z.of_nat (seq 0 n)).
Proof.
  intros Hx. apply in_map_iff. exists (Z.to_nat x). split; [lia|]. apply in_seq. lia.
Qed.

(** Every dictionary row is a permutation of the bytes and
    [sslInitDictionary] inverts it. *)
Lemma dict_at_mod table i c : Ssl.dict_at table (i mod 10) c = Ssl.dict_at table i c.
Proof. unfold Ssl.dict_at. by rewrite Z.mod_mod by lia. Qed.

Lemma dict_inverse i c :
  is_u8 c ->
  is_u8 (Ssl.dict_at Ssl.dictionary i c) /\
  Ssl.dict_at Ssl.sslInitDictionary i (Ssl.dict_at Ssl.dictionary i c) = c.
Proof.
  intros Hc. rewrite <- !(dict_at_mod _ i).
  pose proof reversed_b as Hb. cbv beta in Hb. rewrite forallb_forall in Hb.
  assert (Hi : In (i mod 10) (map Z.of_nat (seq 0 10))).
  { apply in_range_seq. pose proof (Z.mod_pos_bound i 10). lia. }
  specialize (Hb _ Hi). rewrite forallb_forall in Hb.
  specialize (Hb c (in_range_seq c 256 ltac:(unfold is_u8 in Hc; lia))).
  cbv zeta in Hb. rewrite !andb_true_iff, Z.leb_le, Z.ltb_lt, Z.eqb_eq in Hb.
  unfold is_u8. destruct Hb as [[? ?] ->]. split; [lia|done].
Qed.

Lemma length_encrypt_loop key key2 i d : length (Ssl.encrypt_loop key key2 i d) = length d.
Proof. revert i. induction d; intros; simpl; auto. Qed.

Lemma decrypt_loop_encrypt key key2 i d :
  is_u8 key -> bytes d ->
  Ssl.decrypt_loop Ssl.sslInitDictionary key key2 i (Ssl.encrypt_loop key key2 i d) = d.
Proof.
  intros Hk Hd. revert i. induction Hd as [|c d Hc _ IH]; intros i; [done|].
  cbn [Ssl.encrypt_loop Ssl.decrypt_loop].
  rewrite Z.lxor_assoc, Z.lxor_nilpotent, Z.lxor_0_r.
  by rewrite (proj2 (dict_inverse _ c Hc)), IH.
Qed.

Lemma decrypt_loop_app table key key2 i d1 d2 :
  Ssl.decrypt_loop table key key2 i (d1 ++ d2) =
  Ssl.decrypt_loop table key key2 i d1 ++
  Ssl.decrypt_loop table key key2 (i + Z.of_nat (length d1)) d2.
Proof.
  revert i. induction d1 as [|c d1 IH]; intros i; simpl.
  - by rewrite Z.add_0_r.
  - rewrite IH. replace (i + 1 + Z.of_nat (length d1)) with (i + Z.of_nat (S (length d1))) by lia. done.
Qed.

Lemma encrypted_bytes key key2 i d :
  is_u8 key -> bytes d -> bytes (Ssl.encrypt_loop key key2 i d).
Proof.
  intros Hk Hd. revert i. induction Hd as [|c d Hc _ IH]; intros i; constructor.
  - apply (lxor_bound 8); [lia| |done]. by apply dict_inverse.
  - apply IH.
Qed.

(** ** The table-driven CRC *)

Lemma crc_table_b :
  forallb (fun n => (nth (Z.to_nat n) Crypto.crc_table 0 =? CrcSpec.steps n 8)
                    && (0 <=? CrcSpec.steps n 8) && (CrcSpec.steps n 8 <? 2 ^ 32))
    (map Z.of_nat (seq 0 256)) = true.
Proof. vm_compute. reflexivity. Qed.

Lemma crc_table_steps n :
  0 <= n < 256 ->
  nth (Z.to_nat n) Crypto.crc_table 0 = CrcSpec.steps n 8 /\ is_u32 (CrcSpec.steps n 8).
Proof.
  intros Hn. pose proof crc_table_b as Hb. rewrite forallb_forall in Hb.
  specialize (Hb n (in_range_seq n 256 ltac:(lia))).
  rewrite !andb_true_iff, Z.leb_le, Z.ltb_lt, Z.eqb_eq in Hb. unfold is_u32. naive_solver.
Qed.

(** The bit step is linear over xor. *)
Lemma step_lxor a b :
  CrcSpec.step (Z.lxor a b) = Z.lxor (CrcSpec.step a) (CrcSpec.step b).
Proof.
  unfold CrcSpec.step. rewrite Z.lxor_spec, Z.shiftr_lxor.
  apply Z.bits_inj'. intros n _.
  destruct (Z.testbit a 0), (Z.testbit b 0); cbn [xorb]; rewrite !Z.lxor_spec;
    destruct (Z.testbit (Z.shiftr a 1) n), (Z.testbit (Z.shiftr b 1) n),
      (Z.testbit 0xedb88320 n); done.
Qed.

Lemma steps_lxor n a b :
  CrcSpec.steps (Z.lxor a b) n = Z.lxor (CrcSpec.steps a n) (CrcSpec.steps b n).
Proof.
  unfold CrcSpec.steps. induction n as [|n IH]; [done|].
  cbn [Nat.iter nat_rect]. unfold Nat.iter in *. by rewrite IH, step_lxor.
Qed.

Lemma step_even c : CrcSpec.step (2 * c) = c.
Proof.
  unfold CrcSpec.step. rewrite Z.testbit_even_0.
  rewrite Z.shiftr_div_pow2 by lia. change (2 ^ 1) with 2. rewrite Z.mul_comm. by apply Z.div_mul.
Qed.

Lemma steps_shift c : CrcSpec.steps (256 * c) 8 = c.
Proof.
  replace (256 * c) with (2 * (2 * (2 * (2 * (2 * (2 * (2 * (2 * c)))))))) by lia.
  unfold CrcSpec.steps. cbn [Nat.iter nat_rect]. by rewrite !step_even.
Qed.

Lemma split_low_byte c : c = Z.lxor (c mod 256) (256 * (c / 256)).
Proof.
  rewrite <- Z.add_nocarry_lxor.
  - pose proof (Z.div_mod c 256). lia.
  - apply Z.bits_inj'. intros n Hn. rewrite Z.land_spec, Z.bits_0.
    change 256 with (2 ^ 8). rewrite (Z.mul_comm (2 ^ 8)).
    destruct (decide (n < 8)).
    + rewrite Z.mul_pow2_bits_low by lia. apply andb_false_r.
    + by rewrite Z.mod_pow2_bits_high by lia.
Qed.

Lemma steps_byte c :
  CrcSpec.steps c 8 = Z.lxor (CrcSpec.steps (c mod 256) 8) (c / 256).
Proof. by rewrite (split_low_byte c) at 1; rewrite steps_lxor, steps_shift. Qed.

Lemma schar_mod b : is_u8 b -> Ssl.schar b mod 256 = b.
Proof.
  intros Hb. unfold is_u8 in Hb. unfold Ssl.schar. case_match; [apply Z.mod_small; lia|].
  apply Z.ltb_ge in H. replace (b - 256) with (b + (-1) * 256) by lia.
  rewrite Z.mod_add by lia. apply Z.mod_small. lia.
Qed.

Lemma s32_mod_256 x : s32 x mod 256 = x mod 256.
Proof.
  unfold s32. pose proof (Z.div_mod (x + 2 ^ 31) (2 ^ 32)).
  replace ((x + 2 ^ 31) mod 2 ^ 32 - 2 ^ 31)
    with (x + - (2 ^ 24 * ((x + 2 ^ 31) / 2 ^ 32)) * 256) by lia.
  by rewrite Z.mod_add.
Qed.

Lemma lxor_mod_256 x y : Z.lxor x y mod 256 = Z.lxor (x mod 256) (y mod 256).
Proof.
  change 256 with (2 ^ 8). rewrite <- !Z.land_ones by lia. apply land_lxor_distr_l.
Qed.

Lemma DO1_byte crc b :
  is_u32 crc -> is_u8 b -> Ssl.DO1 crc b = CrcSpec.byte crc b.
Proof.
  intros Hc Hb. unfold Ssl.DO1, CrcSpec.byte. rewrite land_0xff, steps_byte.
  pose proof (Z.mod_pos_bound (Z.lxor crc b) 256 ltac:(lia)).
  assert (He : Z.lxor (s32 crc) (Ssl.schar b) mod 256 = Z.lxor crc b mod 256).
  { rewrite !lxor_mod_256, s32_mod_256, schar_mod by done.
    by rewrite (Z.mod_small b) by (unfold is_u8 in Hb; lia). }
  rewrite He, (proj1 (crc_table_steps _ H)). f_equal.
  rewrite <- !(Z.shiftr_div_pow2 _ 8), Z.shiftr_lxor by lia.
  rewrite (Z.shiftr_div_pow2 b) by lia.
  rewrite (Z.div_small b) by (unfold is_u8 in Hb; lia). by rewrite Z.lxor_0_r.
Qed.

Lemma byte_range crc b : is_u32 crc -> is_u8 b -> is_u32 (CrcSpec.byte crc b).
Proof.
  intros Hc Hb. unfold CrcSpec.byte. rewrite steps_byte.
  assert (Hx : 0 <= Z.lxor crc b < 2 ^ 32).
  { apply lxor_bound; [lia|exact Hc|]. unfold is_u8 in Hb. lia. }
  apply lxor_bound; [lia| |].
  - apply crc_table_steps. apply Z.mod_pos_bound. lia.
  - split; [apply Z.div_pos; lia|]. apply Z.div_lt_upper_bound; lia.
Qed.

Lemma fold_DO1 d crc :
  is_u32 crc -> bytes d ->
  fold_left Ssl.DO1 d crc = fold_left CrcSpec.byte d crc /\
  is_u32 (fold_left CrcSpec.byte d crc).
Proof.
  intros Hc Hd. revert crc Hc. induction Hd as [|b d Hb _ IH]; intros crc Hc; [done|].
  cbn [fold_left]. rewrite DO1_byte by done. by apply IH, byte_range.
Qed.

(** The unrolled loop is the byte-by-byte loop. *)
Lemma loop8_fold do1 d crc : Ssl.loop8 do1 crc d = fold_left do1 d crc.
Proof.
  revert crc. induction d as [d IH] using (induction_ltof1 _ (@length Z)). intros crc.
  destruct d as [|b1 [|b2 [|b3 [|b4 [|b5 [|b6 [|b7 [|b8 d]]]]]]]]; try done.
  cbn [Ssl.loop8 fold_left]. apply IH. unfold ltof. simpl. lia.
Qed.

(** ** Properties *)

(** C35: [ssl::sslCrc32] computes the standard reflected CRC-32 (polynomial
    0xEDB88320, initial value and final xor 0xFFFFFFFF) of any byte string:
    the table, the eight-fold unrolled loop and the signed-[char] promotion
    together implement the bit-by-bit reference. *)
Theorem sslCrc32_reference d :
  bytes d -> Ssl.sslCrc32 (Some d) = CrcSpec.crc d.
Proof.
  intros Hd. unfold Ssl.sslCrc32, Ssl.crc32, CrcSpec.crc.
  unfold Ssl.crc_loop.
  rewrite Z.lxor_0_l, loop8_fold.
  destruct (fold_DO1 d 0xffffffff ltac:(mach) Hd) as [-> Hr].
  apply u32_id. apply lxor_bound; [lia|exact Hr|lia].
Qed.

Lemma sslCrc32_reference_witness :
  bytes [0x31; 0x32; 0x33; 0x34; 0x35; 0x36; 0x37; 0x38; 0x39] /\
  Ssl.sslCrc32 (Some [0x31; 0x32; 0x33; 0x34; 0x35; 0x36; 0x37; 0x38; 0x39]) = 0xcbf43926.
Proof.
  assert (H : bytes [0x31; 0x32; 0x33; 0x34; 0x35; 0x36; 0x37; 0x38; 0x39]).
  { repeat constructor; unfold is_u8; lia. }
  split; [exact H|]. rewrite (sslCrc32_reference _ H). vm_compute. reflexivity.
Defined.

(** C34: decryption inverts encryption.  With a non-zero session key, for every
    plaintext and every value of [rand()], decrypting the [n] bytes
    [sslEncrypt] reports gives back the plaintext in the first bytes of the
    output buffer, and the reported length is the plaintext's. *)
Theorem sslDecrypt_sslEncrypt key rnd d out out' :
  is_u8 key -> key <> 0 -> 0 <= rnd -> bytes d ->
  (length d < length out)%nat -> (length d < length out')%nat ->
  exists dec,
    let '(enc, n) := Ssl.sslEncrypt key rnd d out in
    n = Z.of_nat (length d) + 1 /\
    Ssl.sslDecrypt Ssl.sslInitDictionary key (take (Z.to_nat n) enc) out'
      = Ret (dec, Z.of_nat (length d)) /\
    take (length d) dec = d.
Proof.
  intros Hk Hk0 Hr Hd Hout Hout'.
  set (k2 := Z.rem rnd 256).
  exists (blit out' 0 (d ++ Ssl.decrypt_loop Ssl.sslInitDictionary key k2 (Z.of_nat (length d)) [k2])).
  unfold Ssl.sslEncrypt, Ssl.sslDecrypt. fold k2. rewrite (proj2 (Z.eqb_neq key 0) Hk0).
  replace (Z.to_nat (Z.of_nat (length d) + 1))
    with (length (Ssl.encrypt_loop key k2 0 d ++ [k2]))
    by (rewrite length_app, length_encrypt_loop; simpl; lia).
  rewrite !blit_0, take_app_length.
  rewrite last_snoc, decrypt_loop_app, length_app, length_encrypt_loop.
  rewrite decrypt_loop_encrypt, Z.add_0_l by done.
  split_and!; [done| |].
  - do 2 f_equal. simpl. lia.
  - rewrite <- app_assoc. apply take_app_length.
Qed.

Lemma sslDecrypt_sslEncrypt_witness :
  exists dec,
    let '(enc, n) := Ssl.sslEncrypt 7 300 [1; 2; 255] (replicate 8 0) in
    n = 4 /\
    Ssl.sslDecrypt Ssl.sslInitDictionary 7 (take (Z.to_nat n) enc) (replicate 8 0) = Ret (dec, 3) /\
    take 3 dec = [1; 2; 255].
Proof.
  apply (sslDecrypt_sslEncrypt 7 300 [1; 2; 255] (replicate 8 0) (replicate 8 0));
    try (unfold is_u8; lia); try (simpl; lia).
  repeat constructor; unfold is_u8; lia.
Defined.
