(* ===== verification/Md5.v ===== *)
(** [common/md5.cpp]: the streaming MD5 object.  [transform], [update],
    [final], [digest] and [tostring] are translated with the object's buffer
    and 64-bit count; [Md5Spec] is the one-shot digest of RFC 1321 (pad, then
    compress block by block) that the streaming object is proved equal to. *)

From Stdlib Require Import Ascii ZifyNat.
From S2P Require Import Prelude.
From stdpp Require Import prelude list strings.
#[local] Open Scope Z_scope.

Module Md5.

Definition S11 := 7.
Definition S12 := 12.
Definition S13 := 17.
Definition S14 := 22.
Definition S21 := 5.
Definition S22 := 9.
Definition S23 := 14.
Definition S24 := 20.
Definition S31 := 4.
Definition S32 := 11.
Definition S33 := 16.
Definition S34 := 23.
Definition S41 := 6.
Definition S42 := 10.
Definition S43 := 15.
Definition S44 := 21.

(** [~x] on an [unsigned int]. *)
Definition not32 (x : Z) : Z := Z.lxor x 0xffffffff.

Definition F (x y z : Z) : Z := Z.lor (Z.land x y) (Z.land (not32 x) z).
Definition G (x y z : Z) : Z := Z.lor (Z.land x z) (Z.land y (not32 z)).
Definition H (x y z : Z) : Z := Z.lxor (Z.lxor x y) z.
Definition I (x y z : Z) : Z := Z.lxor y (Z.lor x (not32 z)).

Definition ROTATE_LEFT (x n : Z) : Z :=
  Z.lor (u32 (Z.shiftl x n)) (Z.shiftr x (32 - n)).

(** [FF(a,b,c,d,x,s,ac)] and its siblings return the new [a]. *)
Definition FF (a b c d x s ac : Z) : Z :=
  u32 (ROTATE_LEFT (u32 (a + (F b c d + x + ac))) s + b).
Definition GG (a b c d x s ac : Z) : Z :=
  u32 (ROTATE_LEFT (u32 (a + (G b c d + x + ac))) s + b).
Definition HH (a b c d x s ac : Z) : Z :=
  u32 (ROTATE_LEFT (u32 (a + (H b c d + x + ac))) s + b).
Definition II (a b c d x s ac : Z) : Z :=
  u32 (ROTATE_LEFT (u32 (a + (I b c d + x + ac))) s + b).

Definition PADDING : list Z := 0x80 :: replicate 63 0.

Definition HEX : list Ascii.ascii :=
  ["0"; "1"; "2"; "3"; "4"; "5"; "6"; "7"; "8"; "9"; "a"; "b"; "c"; "d"; "e"; "f"]%char.

Definition words : Type := Z * Z * Z * Z.

Record md5 : Type := mk_md5 {
  _state : words;
  _count : Z * Z;
  _buffer : list Z;
  _digest : list Z;
  _finished : bool
}.

(** Words to bytes, low byte first. *)
Fixpoint encode (input : list Z) : list Z :=
  match input with
  | [] => []
  | w :: input' =>
      Z.land w 0xff :: Z.land (Z.shiftr w 8) 0xff :: Z.land (Z.shiftr w 16) 0xff
        :: Z.land (Z.shiftr w 24) 0xff :: encode input'
  end.

Fixpoint decode (input : list Z) : list Z :=
  match input with
  | b0 :: b1 :: b2 :: b3 :: input' =>
      Z.lor (Z.lor (Z.lor b0 (Z.shiftl b1 8)) (Z.shiftl b2 16)) (Z.shiftl b3 24)
        :: decode input'
  | _ => []
  end.

Definition words_list (st : words) : list Z :=
  let '(a, b, c, d) := st in [a; b; c; d].

Definition transform (st : words) (block : list Z) : words :=
  let '(a0, b0, c0, d0) := st in
  let x i := nth i (decode block) 0 in
  let a := a0 in let b := b0 in let c := c0 in let d := d0 in
  (* Round 1 *)
  let a := FF a b c d (x 0%nat) S11 0xd76aa478 in
  let d := FF d a b c (x 1%nat) S12 0xe8c7b756 in
  let c := FF c d a b (x 2%nat) S13 0x242070db in
  let b := FF b c d a (x 3%nat) S14 0xc1bdceee in
  let a := FF a b c d (x 4%nat) S11 0xf57c0faf in
  let d := FF d a b c (x 5%nat) S12 0x4787c62a in
  let c := FF c d a b (x 6%nat) S13 0xa8304613 in
  let b := FF b c d a (x 7%nat) S14 0xfd469501 in
  let a := FF a b c d (x 8%nat) S11 0x698098d8 in
  let d := FF d a b c (x 9%nat) S12 0x8b44f7af in
  let c := FF c d a b (x 10%nat) S13 0xffff5bb1 in
  let b := FF b c d a (x 11%nat) S14 0x895cd7be in
  let a := FF a b c d (x 12%nat) S11 0x6b901122 in
  let d := FF d a b c (x 13%nat) S12 0xfd987193 in
  let c := FF c d a b (x 14%nat) S13 0xa679438e in
  let b := FF b c d a (x 15%nat) S14 0x49b40821 in
  (* Round 2 *)
  let a := GG a b c d (x 1%nat) S21 0xf61e2562 in
  let d := GG d a b c (x 6%nat) S22 0xc040b340 in
  let c := GG c d a b (x 11%nat) S23 0x265e5a51 in
  let b := GG b c d a (x 0%nat) S24 0xe9b6c7aa in
  let a := GG a b c d (x 5%nat) S21 0xd62f105d in
  let d := GG d a b c (x 10%nat) S22 0x2441453 in
  let c := GG c d a b (x 15%nat) S23 0xd8a1e681 in
  let b := GG b c d a (x 4%nat) S24 0xe7d3fbc8 in
  let a := GG a b c d (x 9%nat) S21 0x21e1cde6 in
  let d := GG d a b c (x 14%nat) S22 0xc33707d6 in
  let c := GG c d a b (x 3%nat) S23 0xf4d50d87 in
  let b := GG b c d a (x 8%nat) S24 0x455a14ed in
  let a := GG a b c d (x 13%nat) S21 0xa9e3e905 in
  let d := GG d a b c (x 2%nat) S22 0xfcefa3f8 in
  let c := GG c d a b (x 7%nat) S23 0x676f02d9 in
  let b := GG b c d a (x 12%nat) S24 0x8d2a4c8a in
  (* Round 3 *)
  let a := HH a b c d (x 5%nat) S31 0xfffa3942 in
  let d := HH d a b c (x 8%nat) S32 0x8771f681 in
  let c := HH c d a b (x 11%nat) S33 0x6d9d6122 in
  let b := HH b c d a (x 14%nat) S34 0xfde5380c in
  let a := HH a b c d (x 1%nat) S31 0xa4beea44 in
  let d := HH d a b c (x 4%nat) S32 0x4bdecfa9 in
  let c := HH c d a b (x 7%nat) S33 0xf6bb4b60 in
  let b := HH b c d a (x 10%nat) S34 0xbebfbc70 in
  let a := HH a b c d (x 13%nat) S31 0x289b7ec6 in
  let d := HH d a b c (x 0%nat) S32 0xeaa127fa in
  let c := HH c d a b (x 3%nat) S33 0xd4ef3085 in
  let b := HH b c d a (x 6%nat) S34 0x4881d05 in
  let a := HH a b c d (x 9%nat) S31 0xd9d4d039 in
  let d := HH d a b c (x 12%nat) S32 0xe6db99e5 in
  let c := HH c d a b (x 15%nat) S33 0x1fa27cf8 in
  let b := HH b c d a (x 2%nat) S34 0xc4ac5665 in
  (* Round 4 *)
  let a := II a b c d (x 0%nat) S41 0xf4292244 in
  let d := II d a b c (x 7%nat) S42 0x432aff97 in
  let c := II c d a b (x 14%nat) S43 0xab9423a7 in
  let b := II b c d a (x 5%nat) S44 0xfc93a039 in
  let a := II a b c d (x 12%nat) S41 0x655b59c3 in
  let d := II d a b c (x 3%nat) S42 0x8f0ccc92 in
  let c := II c d a b (x 10%nat) S43 0xffeff47d in
  let b := II b c d a (x 1%nat) S44 0x85845dd1 in
  let a := II a b c d (x 8%nat) S41 0x6fa87e4f in
  let d := II d a b c (x 15%nat) S42 0xfe2ce6e0 in
  let c := II c d a b (x 6%nat) S43 0xa3014314 in
  let b := II b c d a (x 13%nat) S44 0x4e0811a1 in
  let a := II a b c d (x 4%nat) S41 0xf7537e82 in
  let d := II d a b c (x 11%nat) S42 0xbd3af235 in
  let c := II c d a b (x 2%nat) S43 0x2ad7d2bb in
  let b := II b c d a (x 9%nat) S44 0xeb86d391 in
  (u32 (a0 + a), u32 (b0 + b), u32 (c0 + c), u32 (d0 + d)).

(** [for (i = partLen; i + 63 < length; i += 64) transform(&input[i]);]: the
    state and the final [i]; [i + 63] is computed on an [unsigned int]. *)
Fixpoint transform_loop (fuel : nat) (st : words) (input : list Z) (i : Z) : words * Z :=
  match fuel with
  | O => (st, i)
  | S fuel' =>
      if u32 (i + 63) <? Z.of_nat (length input)
      then transform_loop fuel' (transform st (peek input (Z.to_nat i) 64)) input (u32 (i + 64))
      else (st, i)
  end.

(** The [memcpy] of the remaining input, after the transforms. *)
Definition store_rest (o : md5) (count : Z * Z) (st : words) (buf input : list Z)
    (index i : Z) : md5 :=
  mk_md5 st count (blit buf (Z.to_nat index) (drop (Z.to_nat i) input)) (_digest o) false.

Definition update_count (count : Z * Z) (length : Z) : Z * Z :=
  let '(c0, c1) := count in
  let bits := u32 (Z.shiftl (u32 length) 3) in
  let c0' := u32 (c0 + bits) in
  let c1' := if c0' <? bits then u32 (c1 + 1) else c1 in
  (c0', u32 (c1' + Z.shiftr (u32 length) 29)).

Definition update (o : md5) (input : list Z) : md5 :=
  let len := Z.of_nat (length input) in
  let index := Z.land (Z.shiftr (fst (_count o)) 3) 0x3f in
  let count := update_count (_count o) len in
  let partLen := 64 - index in
  if partLen <=? len then
    let buf := blit (_buffer o) (Z.to_nat index) (take (Z.to_nat partLen) input) in
    let '(st, i) := transform_loop (length input) (transform (_state o) buf) input partLen in
    store_rest o count st buf input 0 i
  else store_rest o count (_state o) (_buffer o) input index 0.

Definition final (o : md5) : md5 :=
  let bits := encode [fst (_count o); snd (_count o)] in
  let index := Z.land (Z.shiftr (fst (_count o)) 3) 0x3f in
  let padLen := if index <? 56 then 56 - index else 120 - index in
  let o1 := update o (take (Z.to_nat padLen) PADDING) in
  let o2 := update o1 bits in
  mk_md5 (_state o) (_count o) (_buffer o2) (encode (words_list (_state o2))) (_finished o2).

Definition reset (o : md5) : md5 :=
  mk_md5 (0x67452301, 0xefcdab89, 0x98badcfe, 0x10325476) (0, 0) (_buffer o) (_digest o) false.

(** [md5::md5(input, length)]: the buffer and the digest start as the
    memory's content [junk]. *)
Definition md5_construct (junk : md5) (input : list Z) : md5 := update (reset junk) input.

(** [update (const void*, size_t)], [update (const string&)] and the constructors. *)
Definition update_string (o : md5) (str : list Z) : md5 := update o str.
Definition md5_default (junk : md5) : md5 := reset junk.
Definition md5_of_string (junk : md5) (str : list Z) : md5 := update_string (reset junk) str.

Definition BUFFER_SIZE : nat := 1024.

(** An [ifstream]: the bytes ahead, its state, and whether the device fails, and not
    just ends, after them. *)
Record ifstream : Type := mk_stream { ahead : list Z; eof : bool; fail : bool; faulty : bool; open : bool }.

(** [read] and [gcount]: the bytes read.  A read past the last byte sets [eof] and
    [fail]; a device that fails sets [fail] (and [badbit]) only, and so does a read of
    a stream that is not good. *)
Definition read (i : ifstream) (n : nat) : list Z * ifstream :=
  if eof i || fail i then ([], mk_stream (ahead i) (eof i) true (faulty i) (open i))
  else if (n <=? length (ahead i))%nat then
    (take n (ahead i), mk_stream (drop n (ahead i)) false false (faulty i) (open i))
  else (ahead i, mk_stream [] (negb (faulty i)) true (faulty i) (open i)).

(** The loop of [update (ifstream&)]; [None] out of fuel. *)
Fixpoint stream_loop (fuel : nat) (o : md5) (i : ifstream) : option (md5 * ifstream) :=
  if eof i then Some (o, mk_stream (ahead i) (eof i) (fail i) (faulty i) false)
  else
    match fuel with
    | O => None
    | S fuel' =>
        let '(buffer, i') := read i BUFFER_SIZE in
        stream_loop fuel' (if (0 <? length buffer)%nat then update o buffer else o) i'
    end.

Definition update_stream (fuel : nat) (o : md5) (i : ifstream) : option (md5 * ifstream) :=
  if fail i then Some (o, i) else stream_loop fuel o i.

Definition md5_of_stream (fuel : nat) (junk : md5) (i : ifstream) : option (md5 * ifstream) :=
  update_stream fuel (reset junk) i.

Definition digest (o : md5) : md5 * list Z :=
  let o' :=
    if _finished o then o
    else final (mk_md5 (_state o) (_count o) (_buffer o) (_digest o) true) in
  (o', _digest o').

Fixpoint bytesToHexString (input : list Z) : string :=
  match input with
  | [] => EmptyString
  | t :: input' =>
      String (nth (Z.to_nat (t / 16)) HEX Ascii.zero)
        (String (nth (Z.to_nat (t mod 16)) HEX Ascii.zero) (bytesToHexString input'))
  end.

Definition tostring (o : md5) : md5 * string :=
  let '(o', dg) := digest o in (o', bytesToHexString dg).

End Md5.

Module Md5Spec.

(** RFC 1321: append 0x80, zeros up to 56 modulo 64, and the bit length. *)
Definition pad (m : list Z) : list Z :=
  let r := Nat.modulo (length m) 64 in
  let z := if (r <? 56)%nat then (55 - r)%nat else (119 - r)%nat in
  m ++ 0x80 :: replicate z 0 ++ le_bytes 8 (8 * Z.of_nat (length m)).

(** Compress the first [n] 64-byte blocks of [m]. *)
Fixpoint absorb (n : nat) (st : Md5.words) (m : list Z) : Md5.words :=
  match n with
  | O => st
  | S n' => absorb n' (Md5.transform st (take 64 m)) (drop 64 m)
  end.

Definition init : Md5.words := (0x67452301, 0xefcdab89, 0x98badcfe, 0x10325476).

Definition md5 (m : list Z) : list Z :=
  let p := pad m in Md5.encode (Md5.words_list (absorb (length p / 64) init p)).

End Md5Spec.

Definition junk0 : Md5.md5 := Md5.mk_md5 (0, 0, 0, 0) (0, 0) (replicate 64 0) [] false.

(** RFC 1321's test suite. *)
Example md5_empty : snd (Md5.tostring (Md5.md5_construct junk0 [])) = "d41d8cd98f00b204e9800998ecf8427e"%string.
Proof. vm_compute. reflexivity. Qed.

Example md5_abc : snd (Md5.tostring (Md5.md5_construct junk0 [0x61; 0x62; 0x63])) = "900150983cd24fb0d6963f7d28e17f72"%string.
Proof. vm_compute. reflexivity. Qed.

(** ** Words and bytes *)

Lemma land_shift_byte w k : 0 <= k -> Z.land (Z.shiftr w k) 0xff = (w / 2 ^ k) mod 256.
Proof. intros. by rewrite land_0xff, Z.shiftr_div_pow2. Qed.

Lemma encode_cons w ws : Md5.encode (w :: ws) = le_bytes 4 w ++ Md5.encode ws.
Proof.
  cbn [Md5.encode le_bytes app].
  rewrite land_0xff, !land_shift_byte by lia.
  replace (w / 256 / 256 / 256) with (w / 2 ^ 24) by (rewrite !Z.div_div by lia; done).
  replace (w / 256 / 256) with (w / 2 ^ 16) by (rewrite !Z.div_div by lia; done).
  done.
Qed.

Lemma lor_shift x y n :
  0 <= n -> 0 <= x < 2 ^ n -> Z.lor x (Z.shiftl y n) = x + 2 ^ n * y.
Proof.
  intros Hn Hx. rewrite Z.shiftl_mul_pow2, (Z.mul_comm y) by lia. symmetry.
  rewrite <- Z.lxor_lor, <- Z.add_nocarry_lxor; [done| |].
  all: apply Z.bits_inj'; intros k Hk; rewrite Z.land_spec, Z.bits_0, (Z.mul_comm (2 ^ n)).
  all: destruct (decide (k < n));
    [rewrite Z.mul_pow2_bits_low by lia; apply andb_false_r|].
  all: rewrite <- (Z.mod_small x (2 ^ n)) by lia; by rewrite Z.mod_pow2_bits_high by lia.
Qed.

Lemma decode_cons4 b0 b1 b2 b3 l :
  bytes [b0; b1; b2; b3] ->
  Md5.decode (b0 :: b1 :: b2 :: b3 :: l) = le_val [b0; b1; b2; b3] :: Md5.decode l.
Proof.
  intros Hb. unfold bytes in Hb. rewrite !Forall_cons in Hb. unfold is_u8 in Hb.
  cbn [Md5.decode le_val]. f_equal.
  rewrite (lor_shift b0), (lor_shift (b0 + _)), lor_shift by lia. lia.
Qed.

Lemma decode_le_bytes w l :
  is_u32 w -> Md5.decode (le_bytes 4 w ++ l) = w :: Md5.decode l.
Proof.
  intros Hw. pose proof (bytes_le_bytes 4 w) as Hb.
  cbn [le_bytes app] in *. rewrite decode_cons4 by done. f_equal.
  by apply (le_val_u32 w).
Qed.

Lemma decode_encode ws : Forall is_u32 ws -> Md5.decode (Md5.encode ws) = ws.
Proof.
  induction 1 as [|w ws Hw _ IH]; [done|]. by rewrite encode_cons, decode_le_bytes, IH.
Qed.

(** ** The absorbed message *)

Lemma absorb_add a b st m :
  Md5Spec.absorb (a + b) st m = Md5Spec.absorb b (Md5Spec.absorb a st m) (drop (64 * a) m).
Proof.
  revert st m. induction a as [|a IH]; intros st m; [done|].
  cbn [Md5Spec.absorb Nat.add]. rewrite IH, drop_drop. do 2 f_equal. lia.
Qed.

Lemma absorb_app n st m d :
  (64 * n <= length m)%nat -> Md5Spec.absorb n st (m ++ d) = Md5Spec.absorb n st m.
Proof.
  revert st m. induction n as [|n IH]; intros st m Hn; [done|].
  cbn [Md5Spec.absorb]. rewrite take_app_le, drop_app_le by lia.
  apply IH. rewrite length_drop. lia.
Qed.

(** [absorbs o m]: the object holds the state of having been fed [m]. *)
Definition absorbs (o : Md5.md5) (m : list Z) : Prop :=
  Md5._state o = Md5Spec.absorb (length m / 64) Md5Spec.init m /\
  length (Md5._buffer o) = 64%nat /\
  take (length m mod 64) (Md5._buffer o) = drop (64 * (length m / 64)) m /\
  Md5._count o = ((8 * Z.of_nat (length m)) mod 2 ^ 32,
                  (8 * Z.of_nat (length m) / 2 ^ 32) mod 2 ^ 32).

Lemma absorbs_index n :
  0 <= n -> Z.land (Z.shiftr ((8 * n) mod 2 ^ 32) 3) 0x3f = n mod 64.
Proof.
  intros. change 0x3f with (Z.ones 6). rewrite Z.land_ones, Z.shiftr_div_pow2 by lia.
  change (2 ^ 3) with 8. change (2 ^ 6) with 64.
  replace (2 ^ 32) with (8 * 2 ^ 29) by lia. rewrite Zmult_mod_distr_l, Z.mul_comm, Z.div_mul by lia.
  change (2 ^ 29) with (2 ^ 23 * 64). rewrite Z.mul_comm, Z.rem_mul_r by lia.
  rewrite Z.mul_comm, Z.mod_add by lia. apply Z.mod_mod. lia.
Qed.

(** Adding two numbers word by word: the low words wrap exactly when the sum is
    below either of them. *)
Lemma carry_add P a b :
  0 < P -> 0 <= a -> 0 <= b ->
  let lo := (a mod P + b mod P) mod P in
  lo = (a + b) mod P /\
  (a + b) / P = a / P + b / P + (if lo <? b mod P then 1 else 0).
Proof.
  intros HP Ha Hb lo. assert (Hlo : lo = (a + b) mod P) by (unfold lo; by rewrite <- Z.add_mod by lia).
  split; [done|].
  pose proof (Z.div_mod a P ltac:(lia)). pose proof (Z.div_mod b P ltac:(lia)).
  pose proof (Z.mod_pos_bound a P ltac:(lia)). pose proof (Z.mod_pos_bound b P ltac:(lia)).
  destruct (Z.ltb_spec (a mod P + b mod P) P).
  - unfold lo. rewrite (Z.mod_small (_ + _)) by lia.
    destruct (Z.ltb_spec (a mod P + b mod P) (b mod P)); [lia|].
    symmetry. apply Z.div_unique with (a mod P + b mod P); lia.
  - assert (lo = a mod P + b mod P - P) as ->.
    { symmetry. apply Z.mod_unique with 1; lia. }
    destruct (Z.ltb_spec (a mod P + b mod P - P) (b mod P)); [|lia].
    symmetry. apply Z.div_unique with (a mod P + b mod P - P); lia.
Qed.

Lemma update_count_ok n l :
  0 <= n -> 0 <= l < 2 ^ 32 ->
  Md5.update_count ((8 * n) mod 2 ^ 32, (8 * n / 2 ^ 32) mod 2 ^ 32) l =
  ((8 * (n + l)) mod 2 ^ 32, (8 * (n + l) / 2 ^ 32) mod 2 ^ 32).
Proof.
  intros Hn Hl. unfold Md5.update_count, u32.
  rewrite (Z.mod_small l) by lia. rewrite Z.shiftl_mul_pow2, Z.shiftr_div_pow2 by lia.
  change (2 ^ 3) with 8. rewrite (Z.mul_comm l 8).
  replace (l / 2 ^ 29) with (8 * l / 2 ^ 32)
    by (change (2 ^ 32) with (8 * 2 ^ 29); by rewrite Z.div_mul_cancel_l by lia).
  destruct (carry_add (2 ^ 32) (8 * n) (8 * l) ltac:(lia) ltac:(lia) ltac:(lia)) as [Hlo Hhi].
  cbv zeta in Hlo, Hhi. rewrite Z.mul_add_distr_l, Hhi. generalize dependent (2 ^ 32).
  intros P ? ? _. rewrite Hlo. f_equal.
  destruct (_ <? _); rewrite ?Zplus_mod_idemp_l, <- ?Z.add_assoc, ?Zplus_mod_idemp_l; f_equal; lia.
Qed.

Lemma transform_loop_ok fuel st input i :
  Z.of_nat (length input) < 2 ^ 31 -> (i <= length input)%nat ->
  (length input - i < fuel)%nat ->
  Md5.transform_loop fuel st input (Z.of_nat i) =
  (Md5Spec.absorb ((length input - i) / 64) st (drop i input),
   Z.of_nat (i + 64 * ((length input - i) / 64))).
Proof.
  intros Hlen. revert st i. induction fuel as [|fuel IH]; intros st i Hi Hf; [lia|].
  cbn [Md5.transform_loop]. rewrite u32_id by mach.
  destruct (Z.ltb_spec (Z.of_nat i + 63) (Z.of_nat (length input))).
  - rewrite u32_id, Nat2Z.id by mach.
    replace (Z.of_nat i + 64) with (Z.of_nat (i + 64)) by lia.
    rewrite IH by lia.
    replace ((length input - i) / 64)%nat with (1 + (length input - (i + 64)) / 64)%nat
      by (symmetry; rewrite <- (Nat.div_add_l 1 64) by lia; f_equal; lia).
    rewrite absorb_add. cbn [Md5Spec.absorb]. unfold peek. rewrite drop_drop.
    f_equal. lia.
  - rewrite Nat.div_small by lia. cbn [Md5Spec.absorb]. f_equal. lia.
Qed.

Lemma absorbs_reset junk : length (Md5._buffer junk) = 64%nat -> absorbs (Md5.reset junk) [].
Proof. intros. unfold absorbs, Md5.reset. by simpl. Qed.

(** The bytes of [m] not yet compressed. *)
Definition tail_of (m : list Z) : list Z := drop (64 * (length m / 64)) m.

Lemma length_tail_of m : length (tail_of m) = (length m mod 64)%nat.
Proof. unfold tail_of. rewrite length_drop. lia. Qed.

Lemma absorb_continue m d n :
  (length m / 64 <= n)%nat ->
  Md5Spec.absorb n Md5Spec.init (m ++ d) =
  Md5Spec.absorb (n - length m / 64)
    (Md5Spec.absorb (length m / 64) Md5Spec.init m) (tail_of m ++ d).
Proof.
  intros Hn. replace n with (length m / 64 + (n - length m / 64))%nat at 1 by lia.
  rewrite absorb_add, absorb_app by lia. unfold tail_of. by rewrite drop_app_le by lia.
Qed.

Lemma tail_of_app m d :
  tail_of (m ++ d) =
  drop (64 * (length (m ++ d) / 64 - length m / 64)) (tail_of m ++ d).
Proof.
  unfold tail_of. rewrite <- (drop_app_le m d), drop_drop by lia. f_equal.
  rewrite length_app. lia.
Qed.

Lemma update_absorbs o m d :
  absorbs o m -> Z.of_nat (length d) < 2 ^ 31 -> absorbs (Md5.update o d) (m ++ d).
Proof.
  intros (Hst & Hlen & Htake & Hcount) Hd.
  assert (Hr : length (tail_of m) = (length m mod 64)%nat) by apply length_tail_of.
  fold (tail_of m) in Htake.
  assert (Hbuf : Md5._buffer o = tail_of m ++ drop (length m mod 64) (Md5._buffer o))
    by (rewrite <- Htake; symmetry; apply take_drop).
  unfold Md5.update. rewrite Hcount. cbn [fst].
  rewrite absorbs_index, update_count_ok by lia.
  unfold absorbs, Md5.store_rest. cbn [Md5._count].
  replace (8 * Z.of_nat (length (m ++ d))) with (8 * (Z.of_nat (length m) + Z.of_nat (length d)))
    by (rewrite length_app; lia).
  fold (tail_of (m ++ d)). rewrite tail_of_app, absorb_continue by (rewrite length_app; lia).
  rewrite length_app, <- Hst.
  replace (Z.to_nat (Z.of_nat (length m) mod 64)) with (length m mod 64)%nat by lia.
  destruct (Z.leb_spec (64 - Z.of_nat (length m) mod 64) (Z.of_nat (length d))).
  - set (p := (64 - length m mod 64)%nat).
    replace (64 - Z.of_nat (length m) mod 64) with (Z.of_nat p) by lia. rewrite Nat2Z.id.
    rewrite transform_loop_ok by lia. cbn [Md5._state Md5._buffer].
    assert (Hfull : blit (Md5._buffer o) (length m mod 64) (take p d) = take 64 (tail_of m ++ d)).
    { unfold blit. rewrite Htake, drop_ge, app_nil_r by (rewrite length_take; lia).
      rewrite take_app, (take_ge (tail_of m)) by lia. do 2 f_equal. lia. }
    assert (Hd64 : drop p d = drop 64 (tail_of m ++ d)).
    { rewrite drop_app_ge by lia. f_equal. lia. }
    rewrite Hfull, Hd64, Nat2Z.id.
    replace ((length m + length d) / 64 - length m / 64)%nat
      with (1 + (length d - p) / 64)%nat by lia.
    split_and!; [done| | |done].
    + rewrite length_blit; [rewrite length_take, length_app; lia|].
      rewrite length_take, length_drop, length_app. lia.
    + rewrite <- (drop_drop _ _ p), Hd64, drop_drop, blit_0.
      replace (64 * (1 + (length d - p) / 64))%nat with (64 + 64 * ((length d - p) / 64))%nat by lia.
      apply take_app_length'. rewrite length_drop, length_app. lia.
  - cbn [Md5._state Md5._buffer]. rewrite drop_0.
    replace ((length m + length d) / 64 - length m / 64)%nat with 0%nat by lia.
    split_and!; [done| | |done].
    + rewrite length_blit; lia.
    + rewrite Nat.mul_0_r, drop_0.
      rewrite (take_blit _ _ _ ((length m + length d) mod 64)) by lia. by rewrite Htake.
Qed.

(** ** Padding and the digest *)

Lemma le_bytes_app a b x :
  le_bytes (a + b) x = le_bytes a x ++ le_bytes b (x / 256 ^ Z.of_nat a).
Proof.
  revert x. induction a as [|a IH]; intros x.
  - cbn [le_bytes Nat.add app]. f_equal. cbn. symmetry. apply Z.div_1_r.
  - cbn [le_bytes Nat.add app]. rewrite IH, Z.div_div by lia. do 3 f_equal.
    rewrite Nat2Z.inj_succ, Z.pow_succ_r; lia.
Qed.

Lemma le_bytes_mod n x : le_bytes n (x mod 256 ^ Z.of_nat n) = le_bytes n x.
Proof.
  rewrite <- (le_val_bytes n x).
  rewrite <- (length_le_bytes n x) at 1. apply le_bytes_val, bytes_le_bytes.
Qed.

Lemma count_bits n :
  Md5.encode [n mod 2 ^ 32; (n / 2 ^ 32) mod 2 ^ 32] = le_bytes 8 n.
Proof.
  rewrite !encode_cons. change (2 ^ 32) with (256 ^ Z.of_nat 4).
  rewrite !le_bytes_mod. symmetry. rewrite app_nil_r. apply (le_bytes_app 4 4).
Qed.

Definition padLen (m : list Z) : nat :=
  if (length m mod 64 <? 56)%nat then (56 - length m mod 64)%nat else (120 - length m mod 64)%nat.

Lemma padded m :
  (m ++ take (padLen m) Md5.PADDING) ++ le_bytes 8 (8 * Z.of_nat (length m)) = Md5Spec.pad m.
Proof.
  unfold Md5Spec.pad. rewrite <- app_assoc. f_equal. unfold Md5.PADDING, padLen.
  destruct (Nat.ltb_spec (length m mod 64) 56).
  - replace (56 - length m mod 64)%nat with (S (55 - length m mod 64)) by lia.
    cbn [take app]. by rewrite take_replicate, Nat.min_l by lia.
  - replace (120 - length m mod 64)%nat with (S (119 - length m mod 64)) by lia.
    cbn [take app]. by rewrite take_replicate, Nat.min_l by lia.
Qed.

Lemma final_eq o m :
  absorbs o m ->
  exists o2, absorbs o2 (Md5Spec.pad m) /\
    o2 = Md5.update (Md5.update o (take (padLen m) Md5.PADDING)) (le_bytes 8 (8 * Z.of_nat (length m))) /\
    Md5.final o = Md5.mk_md5 (Md5._state o) (Md5._count o) (Md5._buffer o2)
      (Md5.encode (Md5.words_list (Md5._state o2))) (Md5._finished o2).
Proof.
  intros Ho. eexists. split; [|split; [reflexivity|]].
  - rewrite <- padded. apply update_absorbs; [apply update_absorbs; [done|]|].
    + rewrite length_take. change (length Md5.PADDING) with 64%nat. lia.
    + rewrite length_le_bytes. lia.
  - unfold Md5.final. destruct Ho as (_ & _ & _ & ->). cbn [fst snd].
    rewrite count_bits, absorbs_index by lia.
    replace (Z.to_nat _) with (padLen m); [done|]. unfold padLen.
    destruct (Z.ltb_spec (Z.of_nat (length m) mod 64) 56), (Nat.ltb_spec (length m mod 64) 56); lia.
Qed.

Lemma final_digest o m : absorbs o m -> Md5._digest (Md5.final o) = Md5Spec.md5 m.
Proof. intros Ho. destruct (final_eq o m Ho) as (o2 & (Hst & _) & _ & ->). simpl. by rewrite Hst. Qed.

(** The padding leaves the buffered tail alone when it fits in the block. *)
Lemma final_keeps o m :
  absorbs o m -> (length m mod 64 < 56)%nat -> absorbs (Md5.final o) m.
Proof.
  intros Ho Hi. destruct (final_eq o m Ho) as (o2 & Ho2 & -> & ->).
  assert (Hp : padLen m = (56 - length m mod 64)%nat).
  { unfold padLen. destruct (Nat.ltb_spec (length m mod 64) 56); lia. }
  set (p := take (padLen m) Md5.PADDING) in *.
  assert (Hlp : length p = (56 - length m mod 64)%nat).
  { unfold p. rewrite length_take. change (length Md5.PADDING) with 64%nat. lia. }
  pose proof (update_absorbs o m p Ho ltac:(lia)) as Ho1.
  destruct Ho as (Hst & Hlen & Htake & Hcount), Ho1 as (_ & Hlen1 & Htake1 & Hcount1).
  split_and!; [done|apply Ho2| |done]. cbn [Md5._buffer].
  unfold Md5.update at 1. rewrite Hcount1. cbn [fst].
  rewrite absorbs_index, length_app, length_le_bytes by lia.
  replace (Z.of_nat (length m + length p) mod 64) with 56 by lia.
  change (64 - 56 <=? Z.of_nat 8) with true. cbv iota.
  set (buf := blit _ _ _).
  assert (Hbuf : buf = take 56 (Md5._buffer (Md5.update o p)) ++ le_bytes 8 (8 * Z.of_nat (length m))).
  { unfold buf, blit. change (Z.to_nat (64 - 56)) with 8%nat. change (Z.to_nat 56) with 56%nat.
    rewrite (take_ge (le_bytes 8 _)), length_le_bytes by (rewrite length_le_bytes; lia).
    rewrite (drop_ge _ (56 + 8)), app_nil_r by lia. done. }
  rewrite <- Htake.
  rewrite (transform_loop_ok _ _ _ 8); rewrite ?length_le_bytes; [|lia..].
  unfold Md5.store_rest. cbn [Md5._buffer].
  rewrite Nat.sub_diag, drop_ge by (rewrite length_le_bytes; simpl; lia).
  rewrite blit_0. cbn [app length]. rewrite drop_0, Hbuf.
  rewrite take_app_le by (rewrite length_take; lia).
  rewrite take_take, Nat.min_l by lia.
  rewrite length_app in Htake1.
  replace ((length m + length p) mod 64)%nat with 56%nat in Htake1 by lia.
  replace (64 * ((length m + length p) / 64))%nat with (64 * (length m / 64))%nat in Htake1 by lia.
  replace (length m mod 64)%nat with (Nat.min (length m mod 64) 56) at 1 by lia.
  rewrite <- take_take, Htake1, drop_app_le by lia. rewrite Htake. fold (tail_of m).
  apply take_app_length'. symmetry. apply length_tail_of.
Qed.

(** ** Properties *)



(** [digest] may be asked again, and the object may be fed more, when the
    buffered tail is shorter than 56 bytes: the object still holds the message
    it was fed, so every later digest is that of all the bytes fed so far. *)
Theorem digest_preserves_message o m d :
  absorbs o m -> (length m mod 64 < 56)%nat -> Md5._finished o = false ->
  Z.of_nat (length d) < 2 ^ 31 ->
  let o1 := fst (Md5.digest o) in
  absorbs o1 m /\
  snd (Md5.digest o1) = Md5Spec.md5 m /\
  snd (Md5.digest (Md5.update o1 d)) = Md5Spec.md5 (m ++ d).
Proof.
  intros Ho Hi Hf Hd o1.
  assert (Hu : forall o d, Md5._finished (Md5.update o d) = false).
  { intros. unfold Md5.update. by repeat case_match. }
  assert (Ho1 : absorbs o1 m /\ Md5._finished o1 = false).
  { unfold o1, Md5.digest. rewrite Hf. cbn [fst]. split.
    - apply final_keeps; [exact Ho|done].
    - unfold Md5.final. cbn [Md5._finished]. apply Hu. }
  destruct Ho1 as [Ho1 Hf1]. split_and!; [done| |].
  - unfold Md5.digest. rewrite Hf1. apply final_digest. exact Ho1.
  - unfold Md5.digest. rewrite Hu. apply final_digest.
    exact (update_absorbs o1 m d Ho1 Hd).
Qed.

Lemma digest_preserves_message_witness :
  let o := Md5.reset junk0 in
  snd (Md5.digest (Md5.update (fst (Md5.digest o)) [0x61])) = Md5Spec.md5 [0x61].
Proof.
  apply (digest_preserves_message (Md5.reset junk0) [] [0x61]);
    [apply absorbs_reset; reflexivity|simpl; lia|reflexivity|simpl; lia].
Defined.

(** With a tail of 56 to 63 bytes [final] runs the padding through the buffer
    and restores the state and the count, not the buffer: the second digest
    of the same object differs from the first. *)
Lemma digest_twice_differs :
  let o := Md5.md5_construct junk0 (replicate 56 0x61) in
  let '(o1, d1) := Md5.digest o in
  snd (Md5.digest o1) <> d1.
Proof. vm_compute. discriminate. Qed.

(** *** Files *)

Lemma update_unfinished o d : Md5._finished (Md5.update o d) = false.
Proof. unfold Md5.update. by repeat case_match. Qed.

Lemma stream_loop_absorbs fuel o i m :
  absorbs o m -> Md5._finished o = false -> Md5.eof i = false -> Md5.fail i = false -> Md5.faulty i = false ->
  (length (Md5.ahead i) / Md5.BUFFER_SIZE < fuel)%nat ->
  exists o' i', Md5.stream_loop fuel o i = Some (o', i') /\ absorbs o' (m ++ Md5.ahead i) /\
    Md5._finished o' = false /\ Md5.open i' = false.
Proof.
  revert o i m. induction fuel as [|fuel IH]; intros o i m Ho Hf He Hfl Hfa Hfuel; [lia|].
  cbn [Md5.stream_loop]. rewrite He. unfold Md5.read. rewrite He, Hfl. cbn [orb].
  destruct (Nat.leb_spec Md5.BUFFER_SIZE (length (Md5.ahead i))) as [Hge|Hlt].
  - rewrite length_take, Nat.min_l by done. change (0 <? Md5.BUFFER_SIZE)%nat with true. cbv beta iota.
    destruct (IH (Md5.update o (take Md5.BUFFER_SIZE (Md5.ahead i)))
      (Md5.mk_stream (drop Md5.BUFFER_SIZE (Md5.ahead i)) false false (Md5.faulty i) (Md5.open i))
      (m ++ take Md5.BUFFER_SIZE (Md5.ahead i))) as (o' & i' & Hr & Ha & Hrest); try done.
    + apply update_absorbs; [done|]. rewrite length_take. unfold Md5.BUFFER_SIZE. lia.
    + apply update_unfinished.
    + cbn [Md5.ahead]. rewrite length_drop. unfold Md5.BUFFER_SIZE in *. lia.
    + exists o', i'. rewrite Hr. cbn [Md5.ahead] in Ha. rewrite <- app_assoc, take_drop in Ha. exact (conj eq_refl (conj Ha Hrest)).
  - assert (Hend : forall x, Md5.stream_loop fuel x (Md5.mk_stream [] (negb (Md5.faulty i)) true (Md5.faulty i) (Md5.open i)) =
      Some (x, Md5.mk_stream [] true true (Md5.faulty i) false)) by (intros x; rewrite Hfa; by destruct fuel).
    rewrite Hend. do 2 eexists. split; [done|]. destruct (Nat.ltb_spec 0 (length (Md5.ahead i))).
    + split; [|split; [apply update_unfinished|done]]. apply update_absorbs; [done|]. unfold Md5.BUFFER_SIZE in Hlt. lia.
    + destruct (Md5.ahead i); [|cbn in *; lia]. by rewrite app_nil_r.
Qed.

(** The digest of a file that can be read to its end is that of its bytes, after one
    round of the loop for every 1024 bytes and one more; the file is closed. *)
Lemma file_md5 fuel junk content :
  length (Md5._buffer junk) = 64%nat -> (length content / 1024 < fuel)%nat ->
  exists o i, Md5.md5_of_stream fuel junk (Md5.mk_stream content false false false true) = Some (o, i) /\
    snd (Md5.tostring o) = Md5.bytesToHexString (Md5Spec.md5 content) /\ Md5.open i = false.
Proof.
  intros Hj Hfuel. unfold Md5.md5_of_stream, Md5.update_stream. cbn [Md5.fail].
  destruct (stream_loop_absorbs fuel (Md5.reset junk) (Md5.mk_stream content false false false true) [])
    as (o & i & Hr & Ha & Hf & Ho); [by apply absorbs_reset|done..|].
  exists o, i. split; [done|]. split; [|done]. unfold Md5.tostring, Md5.digest. rewrite Hf. cbn [snd].
  by rewrite (final_digest _ content).
Qed.

(** A file whose device fails (a directory, for one) is read for ever: [eof] stays
    false. *)
Lemma faulty_file_never_ends fuel junk content :
  Md5.md5_of_stream fuel junk (Md5.mk_stream content false false true true) = None.
Proof.
  assert (Hbad : forall fuel o l, Md5.stream_loop fuel o (Md5.mk_stream l false true true true) = None).
  { induction fuel0 as [|n IH]; intros o l; [done|]. apply IH. }
  unfold Md5.md5_of_stream, Md5.update_stream. cbn [Md5.fail].
  revert content. generalize (Md5.reset junk) as o. induction fuel as [|fuel IH]; intros o content; [done|].
  cbn [Md5.stream_loop Md5.eof]. unfold Md5.read. cbn [Md5.eof Md5.fail Md5.ahead Md5.faulty Md5.open orb negb].
  destruct (Md5.BUFFER_SIZE <=? length content)%nat; [apply IH|apply Hbad].
Qed.
