(* ===== verification/MessageInterface.v ===== *)
(** [common/message_interface.h/.cpp]: the frame put around every payload sent
    on a TCP connection (4-byte length, 2-byte mask, 4-byte CRC, payload), its
    construction ([makeMessage], [compress]) and its decoding ([uncompress]).

    The bytes of a [new char[len]] are the argument [junk]: [makeMessage] leaves
    some of them as they were.  The compression codec is the interface
    [compress_strategy]; the servers install none ([NULL]). *)

From S2P Require Import Prelude Crypt.
From stdpp Require Import prelude list.
#[local] Open Scope Z_scope.

Module Message.

Definition MESSAGE_HEAD_MASK_BEGIN : Z := 4.
Definition MESSAGE_HEAD_BASIC_BEGIN : Z := MESSAGE_HEAD_MASK_BEGIN + 2.
Definition MESSAGE_HEAD_LEN : Z := 4 + 2 + 4.
Definition MESSAGE_COMPRESS_LEN : Z := 512.
Definition COMPRESS_MASK : Z := Z.shiftl 1 15.

(** [message_t]: [len] is the length of [data]. *)
Record message_t : Type := mk_message { data : list Z }.

Definition len (m : message_t) : Z := Z.of_nat (length (data m)).

(** [compress_strategy]: [compress dest &destlen src] writes at most [destlen]
    bytes and returns false (here [None]) when it fails. *)
Record compress_strategy : Type := {
  cs_compress : Z -> list Z -> option (list Z);
  cs_uncompress : Z -> list Z -> option (list Z)
}.

(** Write [bs] at offset [pos] of the message. *)
Definition poke (m : message_t) (pos : Z) (bs : list Z) : message_t :=
  mk_message (blit (data m) (Z.to_nat pos) bs).

(** [createMessage]: an uninitialised buffer of [len] bytes. *)
Definition createMessage (junk : nat -> Z) (len : Z) : message_t :=
  mk_message (map junk (seq 0 (Z.to_nat len))).

(** [ *(unsigned short* )(data + pos) ] and [ *(unsigned int* )(data + pos) ]. *)
Definition get_u16 (d : list Z) (pos : Z) : Z := le_val (peek d (Z.to_nat pos) 2).
Definition get_u32 (d : list Z) (pos : Z) : Z := le_val (peek d (Z.to_nat pos) 4).

Definition makeMessage (junk : nat -> Z) (payload : list Z) (_compress : bool) : message_t :=
  let len := Z.of_nat (length payload) in
  let lenMax := u32 (len + MESSAGE_HEAD_LEN) in
  let p := createMessage junk lenMax in
  let p := poke p MESSAGE_HEAD_LEN payload in
  if 1 <? len then
    let p := poke p MESSAGE_HEAD_BASIC_BEGIN (le_bytes 4 0) in
    let p := poke p MESSAGE_HEAD_BASIC_BEGIN
               (le_bytes 4 (Ssl.sslCrc32 (Some (peek (data p) (Z.to_nat MESSAGE_HEAD_LEN) (length payload))))) in
    let p :=
      if _compress then
        poke p MESSAGE_HEAD_MASK_BEGIN
          (le_bytes 2 (Z.lor (get_u16 (data p) MESSAGE_HEAD_MASK_BEGIN) COMPRESS_MASK))
      else p in
    let _encrypt_len := u32 (lenMax - 4) in
    poke p 0 (le_bytes 4 (u32 (4 + _encrypt_len)))
  else p.

Definition compress (cs : option compress_strategy) (junk : nat -> Z) (payload : list Z)
    (size : Z) : message_t :=
  match cs with
  | Some c =>
      if MESSAGE_COMPRESS_LEN <? Z.of_nat (length payload) then
        match cs_compress c size payload with
        | Some packed =>
            if Z.of_nat (length packed) <? Z.of_nat (length payload)
            then makeMessage junk packed true
            else makeMessage junk payload false
        | None => makeMessage junk payload false
        end
      else makeMessage junk payload false
  | None => makeMessage junk payload false
  end.

(** [uncompress from data key buffptr size]; [d] is the memory from [data] on.
    The checksum is read and not compared. *)
Definition uncompress (cs : option compress_strategy) (d : list Z) (size : Z)
  : option message_t :=
  let datalen := get_u32 d 0 in
  if datalen <=? MESSAGE_HEAD_MASK_BEGIN then None
  else
    let _decrypt_len := u32 (datalen - 4) in
    let datalen := u32 (4 + _decrypt_len) in
    let type := u16 (get_u32 d MESSAGE_HEAD_MASK_BEGIN) in
    let body := peek d (Z.to_nat MESSAGE_HEAD_LEN) (Z.to_nat (u32 (datalen - MESSAGE_HEAD_LEN))) in
    match cs with
    | Some c =>
        if negb (Z.land type COMPRESS_MASK =? 0) then
          match cs_uncompress c size body with
          | Some plain => Some (mk_message plain)
          | None => None
          end
        else Some (mk_message body)
    | None => Some (mk_message body)
    end.

End Message.

Import Message.

(** The law the pair of codecs promises to each other: what [compress] packs,
    [uncompress] with the same bound gives back, and packed data is never a
    single byte. *)
Class CompressStrategyOk (c : compress_strategy) : Prop := {
  uncompress_compress : forall size plain packed,
    Z.of_nat (length plain) <= size ->
    cs_compress c size plain = Some packed -> cs_uncompress c size packed = Some plain;
  compress_not_tiny : forall size plain packed,
    cs_compress c size plain = Some packed -> 1 < Z.of_nat (length packed)
}.

(** ** The layout of a built frame *)

(** A frame as the receiver sees it: length, mask, check code, payload. *)
Definition frame (mask : Z) (crc : Z) (payload : list Z) : list Z :=
  le_bytes 4 (Z.of_nat (length payload) + 10) ++ le_bytes 2 mask ++ le_bytes 4 crc ++ payload.

Lemma length_frame mask crc payload :
  length (frame mask crc payload) = (length payload + 10)%nat.
Proof. unfold frame. rewrite !length_app, !length_le_bytes. lia. Qed.

(** The mask bytes [makeMessage] leaves in a frame: the allocator's. *)
Definition junk_mask (junk : nat -> Z) : list Z := [junk 4%nat; junk 5%nat].

Lemma map_seq_split {A} (f : nat -> A) n :
  map f (seq 0 (n + 10)) =
  [f 0; f 1; f 2; f 3]%nat ++ [f 4; f 5]%nat ++ [f 6; f 7; f 8; f 9]%nat ++ map f (seq 10 n).
Proof.
  rewrite (Nat.add_comm n 10), seq_app, map_app. reflexivity.
Qed.

Lemma blit_mid a old new b pos :
  length a = pos -> length old = length new ->
  blit (a ++ old ++ b) pos new = a ++ new ++ b.
Proof.
  intros <- Hl. unfold blit. rewrite take_app_length. do 2 f_equal.
  rewrite <- Hl, drop_app_ge by lia. rewrite Nat.add_comm, Nat.add_sub.
  apply drop_app_length.
Qed.

Lemma blit_end a old new pos :
  length a = pos -> length old = length new -> blit (a ++ old) pos new = a ++ new.
Proof.
  intros Ha Hl. pose proof (blit_mid a old new [] pos Ha Hl) as Hb.
  by rewrite !app_nil_r in Hb.
Qed.

Lemma peek_mid (a b c : list Z) pos n :
  length a = pos -> length b = n -> peek (a ++ b ++ c) pos n = b.
Proof. intros <- <-. unfold peek. by rewrite drop_app_length, take_app_length. Qed.

Lemma peek_end (a b : list Z) pos n :
  length a = pos -> length b = n -> peek (a ++ b) pos n = b.
Proof. intros Ha Hb. pose proof (peek_mid a b [] pos n Ha Hb) as Hp. by rewrite app_nil_r in Hp. Qed.

(** The mask of a frame whose mask bytes are [m]. *)
Definition mask_value (junk : nat -> Z) (_compress : bool) : Z :=
  if _compress then Z.lor (le_val (junk_mask junk)) COMPRESS_MASK else le_val (junk_mask junk).

Lemma makeMessage_layout junk payload c :
  (forall i, is_u8 (junk i)) ->
  1 < Z.of_nat (length payload) -> Z.of_nat (length payload) + 10 < 2 ^ 32 ->
  data (makeMessage junk payload c) =
  frame (mask_value junk c) (Ssl.sslCrc32 (Some payload)) payload.
Proof.
  intros Hj Hlo Hhi. unfold makeMessage, createMessage, MESSAGE_HEAD_LEN.
  set (n := length payload) in *. change (4 + 2 + 4) with 10.
  rewrite (u32_id (Z.of_nat n + 10)) by mach.
  destruct (Z.ltb_spec 1 (Z.of_nat n)); [|lia].
  rewrite (u32_id (Z.of_nat n + 10 - 4)), u32_id by mach.
  replace (4 + (Z.of_nat n + 10 - 4)) with (Z.of_nat n + 10) by lia.
  replace (Z.to_nat (Z.of_nat n + 10)) with (n + 10)%nat by lia.
  unfold poke. cbn [data]. rewrite map_seq_split.
  set (h := [junk 0; junk 1; junk 2; junk 3]%nat). set (k := [junk 4; junk 5]%nat).
  set (z := [junk 6; junk 7; junk 8; junk 9]%nat).
  replace (h ++ k ++ z ++ map junk (seq 10 n)) with ((h ++ k ++ z) ++ map junk (seq 10 n))
    by (by rewrite <- !app_assoc).
  rewrite (blit_end (h ++ k ++ z)) by (unfold h, k, z; rewrite ?length_map, ?length_seq; done).
  rewrite <- !app_assoc, (app_assoc h k).
  change (Z.to_nat MESSAGE_HEAD_BASIC_BEGIN) with 6%nat.
  rewrite !(blit_mid (h ++ k)) by (rewrite ?length_le_bytes; reflexivity).
  assert (Hp : peek ((h ++ k) ++ le_bytes 4 0 ++ payload) (Z.to_nat 10) n = payload).
  { rewrite app_assoc. by apply peek_end. }
  rewrite Hp.
  rewrite <- !(app_assoc h k).
  assert (Hk : bytes k) by (repeat constructor; apply Hj).
  unfold frame, mask_value. fold n. destruct c; cbn [data].
  - unfold get_u16. change (Z.to_nat MESSAGE_HEAD_MASK_BEGIN) with 4%nat.
    rewrite (peek_mid h k) by (rewrite ?length_le_bytes; reflexivity). rewrite (blit_mid h k) by (rewrite ?length_le_bytes; reflexivity).
    rewrite blit_0. done.
  - rewrite blit_0. cbn [length le_bytes]. unfold h. cbn [app drop].
    do 4 f_equal. change (le_val (junk_mask junk)) with (le_val k).
    by rewrite <- (le_bytes_val k Hk) at 1.
Qed.

(** ** Decoding a frame *)

Lemma peek_app_mid a b c pos n :
  length a = pos -> length b = n -> peek ((a ++ b) ++ c) pos n = b.
Proof. rewrite <- app_assoc. apply peek_mid. Qed.

(** The three fields the receiver reads, whatever follows the frame. *)
Lemma frame_fields mask crc payload rest :
  is_u16 mask -> Z.of_nat (length payload) + 10 < 2 ^ 32 ->
  let d := frame mask crc payload ++ rest in
  get_u32 d 0 = Z.of_nat (length payload) + 10 /\
  u16 (get_u32 d 4) = mask /\
  peek d 10 (length payload) = payload.
Proof.
  intros Hm Hl d. unfold d, frame. rewrite <- !app_assoc. split_and!.
  - unfold get_u32, peek. change (Z.to_nat 0) with 0%nat. rewrite drop_0.
    rewrite take_app_length' by (by rewrite length_le_bytes). apply le_val_u32. mach.
  - unfold get_u32. change (Z.to_nat 4) with 4%nat.
    destruct (le_bytes 4 crc) as [|c0 [|c1 [|c2 [|c3 [|]]]]] eqn:Hc; try discriminate Hc.
    unfold peek. rewrite drop_app_length' by (by rewrite length_le_bytes).
    cbn [le_bytes app take le_val]. unfold u16, is_u16 in *. change (2 ^ 16) with 65536 in *.
    rewrite (Z.mod_small (mask / 256)) by dlia.
    replace (_ + _) with (mask + (c0 + 256 * c1) * 65536) by dlia.
    rewrite Z.mod_add by lia. apply Z.mod_small. lia.
  - rewrite 2!app_assoc, (app_assoc _ payload). apply peek_app_mid; [|done].
    rewrite !length_app, !length_le_bytes. done.
Qed.

Lemma body_len n :
  Z.of_nat n + 10 < 2 ^ 32 ->
  Z.to_nat (u32 (u32 (4 + u32 (Z.of_nat n + 10 - 4)) - (4 + 2 + 4))) = n.
Proof.
  intros Hn. rewrite (u32_id (Z.of_nat n + 10 - 4)) by mach.
  rewrite (u32_id (4 + _)), u32_id by mach. lia.
Qed.

(** Decoding a frame whose compression bit is clear, or on a receiver without
    a codec, gives its payload. *)
Lemma uncompress_plain cs mask crc payload rest size :
  is_u16 mask -> Z.of_nat (length payload) + 10 < 2 ^ 32 ->
  cs = None \/ Z.land mask COMPRESS_MASK = 0 ->
  uncompress cs (frame mask crc payload ++ rest) size = Some (mk_message payload).
Proof.
  intros Hm Hl Hcs. unfold uncompress, MESSAGE_HEAD_LEN, MESSAGE_HEAD_MASK_BEGIN.
  destruct (frame_fields mask crc payload rest Hm Hl) as (-> & -> & Hb).
  destruct (Z.leb_spec (Z.of_nat (length payload) + 10) 4); [lia|].
  rewrite body_len by done.
  change (Z.to_nat (4 + 2 + 4)) with 10%nat. rewrite Hb.
  destruct cs as [c|]; [|done]. destruct Hcs as [Hc|Hc]; [discriminate|]. by rewrite Hc.
Qed.

Lemma uncompress_packed c mask crc payload rest size :
  is_u16 mask -> Z.of_nat (length payload) + 10 < 2 ^ 32 ->
  Z.land mask COMPRESS_MASK <> 0 ->
  uncompress (Some c) (frame mask crc payload ++ rest) size =
  match cs_uncompress c size payload with Some p => Some (mk_message p) | None => None end.
Proof.
  intros Hm Hl Hc. unfold uncompress, MESSAGE_HEAD_LEN, MESSAGE_HEAD_MASK_BEGIN.
  destruct (frame_fields mask crc payload rest Hm Hl) as (-> & -> & Hb).
  destruct (Z.leb_spec (Z.of_nat (length payload) + 10) 4); [lia|].
  rewrite body_len by done.
  change (Z.to_nat (4 + 2 + 4)) with 10%nat. rewrite Hb.
  by rewrite (proj2 (Z.eqb_neq _ _) Hc).
Qed.

Lemma junk_mask_u16 junk : (forall i, is_u8 (junk i)) -> is_u16 (le_val (junk_mask junk)).
Proof.
  intros Hj. pose proof (Hj 4%nat). pose proof (Hj 5%nat).
  unfold junk_mask. cbn [le_val]. mach.
Qed.

Lemma mask_value_u16 junk c : (forall i, is_u8 (junk i)) -> is_u16 (mask_value junk c).
Proof.
  intros Hj. pose proof (junk_mask_u16 junk Hj). unfold mask_value. destruct c; [|done].
  apply (lor_bound 16); [lia|done|]. unfold COMPRESS_MASK. split; vm_compute; congruence.
Qed.

Lemma mask_compressed junk : Z.land (mask_value junk true) COMPRESS_MASK <> 0.
Proof.
  unfold mask_value. intros Hz. apply (f_equal (fun x => Z.testbit x 15)) in Hz.
  rewrite Z.land_spec, Z.lor_spec, Z.bits_0 in Hz.
  change (Z.testbit COMPRESS_MASK 15) with true in Hz. by rewrite orb_true_r in Hz.
Qed.

(** ** The round trip of one message *)

(** A message built by [compress] and decoded by [uncompress] is the
    payload, with or without a codec, whatever follows the frame in the
    receive buffer, for payloads of at least two bytes.  With a codec the two
    mask bytes, which [makeMessage] takes from the allocator, must have the
    compression bit clear. *)
Lemma uncompress_compress_message cs junk payload size rest :
  (forall i, is_u8 (junk i)) ->
  match cs with
  | None => True
  | Some c => CompressStrategyOk c /\ Z.land (le_val (junk_mask junk)) COMPRESS_MASK = 0
  end ->
  1 < Z.of_nat (length payload) <= size -> size + 10 < 2 ^ 32 ->
  uncompress cs (data (compress cs junk payload size) ++ rest) size = Some (mk_message payload).
Proof.
  intros Hj Hcs Hlen Hsize.
  assert (Hplain : uncompress cs (data (makeMessage junk payload false) ++ rest) size
                   = Some (mk_message payload)).
  { rewrite makeMessage_layout by (done || lia).
    apply uncompress_plain; [by apply mask_value_u16|lia|]. destruct cs; naive_solver. }
  unfold compress. destruct cs as [c|]; [|exact Hplain]. destruct Hcs as [Hok _].
  case_match; [|exact Hplain]. destruct (cs_compress c size payload) as [packed|] eqn:Hp; [|exact Hplain].
  destruct (Z.ltb_spec (Z.of_nat (length packed)) (Z.of_nat (length payload))); [|exact Hplain].
  pose proof (compress_not_tiny _ _ _ Hp).
  rewrite makeMessage_layout by (done || lia).
  rewrite uncompress_packed; [|by apply mask_value_u16|lia|apply mask_compressed].
  by rewrite (uncompress_compress size payload packed) by (done || lia).
Qed.

(** A run-length codec for the concrete examples: a block of equal bytes packs
    to [byte; 4 length bytes]. *)
Definition rle : compress_strategy := {|
  cs_compress := fun size plain =>
    match plain with
    | b :: _ =>
        if bool_decide (plain = replicate (length plain) b) && (Z.of_nat (length plain) <? 2 ^ 32)
        then Some (b :: le_bytes 4 (Z.of_nat (length plain))) else None
    | [] => None
    end;
  cs_uncompress := fun size packed =>
    match packed with
    | b :: n => Some (replicate (Z.to_nat (le_val n)) b)
    | [] => None
    end
|}.

#[global] Instance rle_ok : CompressStrategyOk rle.
Proof.
  split.
  - intros size [|b plain] packed _ Hc; [discriminate|]. cbn [cs_compress cs_uncompress rle] in *.
    destruct (andb _ _) eqn:E; [|discriminate]. apply andb_true_iff in E as [E1 E2].
    apply bool_decide_eq_true in E1. apply Z.ltb_lt in E2. apply (inj Some) in Hc as <-.
    rewrite le_val_u32 by mach. by rewrite Nat2Z.id, <- E1.
  - intros size [|b plain] packed Hc; [discriminate|]. cbn [cs_compress rle] in Hc.
    case_match; [|discriminate]. injection Hc as <-. simpl. lia.
Qed.

(** The mask is never initialised: with a codec installed on both sides, a
    frame sent uncompressed from a buffer whose sixth byte has its high bit set
    is not decoded to its payload. *)
Lemma junk_mask_is_misread :
  uncompress (Some rle) (data (compress (Some rle) (fun _ => 0xcd) [7; 1; 0; 0; 0] 65000)) 65000
  = Some (mk_message [7]).
Proof. vm_compute. reflexivity. Qed.

(** The header of a one-byte payload is never written: the receiver reads the
    frame's length from uninitialised memory. *)
Lemma one_byte_header_is_junk junk b :
  (forall i, is_u8 (junk i)) ->
  get_u32 (data (makeMessage junk [b] false)) 0 = le_val (map junk (seq 0 4)).
Proof. intros Hj. reflexivity. Qed.

(** Whatever [compress] builds is a frame no longer than the plain one. *)
Lemma compress_is_frame cs junk payload size :
  (forall i, is_u8 (junk i)) ->
  match cs with None => True | Some c => CompressStrategyOk c end ->
  1 < Z.of_nat (length payload) -> Z.of_nat (length payload) + 10 < 2 ^ 32 ->
  exists mask crc body, is_u16 mask /\ (length body <= length payload)%nat /\
    data (compress cs junk payload size) = frame mask crc body.
Proof.
  intros Hj Hcs Hlo Hhi.
  assert (Hplain : exists mask crc body, is_u16 mask /\ (length body <= length payload)%nat /\
    data (makeMessage junk payload false) = frame mask crc body).
  { eexists _, _, payload. split; [apply (mask_value_u16 junk false Hj)|].
    split; [done|]. by apply makeMessage_layout. }
  unfold compress. destruct cs as [c|]; [|exact Hplain].
  case_match; [|exact Hplain]. destruct (cs_compress c size payload) as [packed|] eqn:Hp; [|exact Hplain].
  destruct (Z.ltb_spec (Z.of_nat (length packed)) (Z.of_nat (length payload))); [|exact Hplain].
  pose proof (compress_not_tiny _ _ _ Hp).
  eexists _, _, packed. split; [apply (mask_value_u16 junk true Hj)|].
  split; [lia|]. apply makeMessage_layout; done || lia.
Qed.
