(* ===== verification/TcpSession.v ===== *)
(** [common/tcpsession.h/.cpp]: one TCP connection.  The receive side
    ([handle_read_some], [_uncompress_message]) cuts the byte stream into frames;
    the send side ([send_message], [_send_message], [_write_message],
    [handle_write]) queues frames and keeps at most one [async_write] in flight.

    Calls into boost.asio and into the session's server are effects: posting a
    handler, starting an asynchronous read or write, [add_ban_ip], [add_cb], the
    virtual [push_message].  A [boost::system::error_code] is the boolean "is
    set". *)

From S2P Require Import Prelude Crypt MessageInterface.
From stdpp Require Import prelude list strings.
#[local] Open Scope Z_scope.

Import Message.

Module TcpSession.

Definition MAX_MESSAGE_LEN : Z := 65000.
Definition QUEUE_MESSAGE_LIMIT_SIZE : Z := MAX_MESSAGE_LEN * 30.

Inductive ban_reason_t : Set :=
| BAN_REASON_WRONG_CHECK_SUM
| BAN_REASON_TOO_MANY_AUTH_FAIL
| BAN_REASON_UNCOMPRESS_FAIL
| BAN_REASON_HACK_PACKET
| BAN_REASON_TOO_MANY_PACKET
| BAN_REASON_TOO_MANY_IDLE_CONNECTION
| BAN_REASON_SHIFTING_GEAR.

(** What the session reads of its [tcp_server]. *)
Record father : Type := {
  is_limit_mode : bool;
  is_thread_task_transfer_id_mode : bool;
  get_task_thread_count : Z
}.

Inductive effect : Type :=
| PushMessage (msg : message_t)                    (* virtual push_message *)
| AddBanIp (sec : Z) (reason : ban_reason_t)       (* m_father->add_ban_ip *)
| PostClose                                        (* post handle_close *)
| PostWrite                                        (* post _write_message(0) *)
| SocketClose                                      (* shutdown and close *)
| CbOnClose (error : bool)                         (* cb: on_close *)
| CbOnAccept                                       (* cb: on_accept *)
| AsyncRead                                        (* async_read_some *)
| AsyncWrite (block : list Z)                      (* async_write *)
| PushTask (payload : list Z) (thread_index : Z)   (* compress_send_task *)
| AddSession
| DelSession
| FreeSession.

Record tcp_session : Type := mk_session {
  m_isconnected : bool;
  m_father : option father;
  m_queue_send_msg : list message_t;
  m_recv_buffer : list Z;
  m_recive_buffer_pos : Z;
  m_iscompress : bool;
  m_isvalid : bool;
  m_isclosing : bool;
  m_thread_index : Z;
  m_sending_data : list Z;
  m_is_sending_data : bool;
  m_not_sent_size : Z
}.

Definition set_recv (s : tcp_session) (buf : list Z) (pos : Z) : tcp_session :=
  mk_session (m_isconnected s) (m_father s) (m_queue_send_msg s) buf pos (m_iscompress s)
    (m_isvalid s) (m_isclosing s) (m_thread_index s) (m_sending_data s)
    (m_is_sending_data s) (m_not_sent_size s).

Definition set_send (s : tcp_session) (q : list message_t) (sd : list Z) (b : bool) (n : Z)
  : tcp_session :=
  mk_session (m_isconnected s) (m_father s) q (m_recv_buffer s) (m_recive_buffer_pos s)
    (m_iscompress s) (m_isvalid s) (m_isclosing s) (m_thread_index s) sd b n.

Definition set_conn (s : tcp_session) (c v : bool) (ti : Z) : tcp_session :=
  mk_session c (m_father s) (m_queue_send_msg s) (m_recv_buffer s) (m_recive_buffer_pos s)
    (m_iscompress s) v (m_isclosing s) ti (m_sending_data s)
    (m_is_sending_data s) (m_not_sent_size s).

Definition set_father (s : tcp_session) (f : option father) : tcp_session :=
  mk_session (m_isconnected s) f (m_queue_send_msg s) (m_recv_buffer s) (m_recive_buffer_pos s)
    (m_iscompress s) (m_isvalid s) (m_isclosing s) (m_thread_index s) (m_sending_data s)
    (m_is_sending_data s) (m_not_sent_size s).

(** The constructor; [m_isconnected] and [m_father] are set by [reset]. *)
Definition construct : tcp_session :=
  mk_session false None [] (replicate (Z.to_nat (MAX_MESSAGE_LEN * 2)) 0) 0 false false false 0
    (replicate (Z.to_nat MAX_MESSAGE_LEN) 0) false 0.

Definition is_valid (s : tcp_session) : bool := m_isvalid s.

Abbreviation H := (M tcp_session effect).

Definition close : H unit := memit PostClose.

Definition close_and_ban : H unit :=
  s <- mget;;
  mwhen (match m_father s with Some _ => true | None => false end)
    (memit (AddBanIp 5 BAN_REASON_HACK_PACKET));;;
  close.

(** The socket exists from [reset] on. *)
Definition handle_close : H unit :=
  memit SocketClose;;;
  mmodify (fun s => set_conn s false (m_isvalid s) 0).

Definition _clear_send_msg : H unit :=
  mmodify (fun s => set_send s [] (m_sending_data s) (m_is_sending_data s) (m_not_sent_size s)).

(** [_get_cb_mgr] is the server's call-back manager, null without a server. *)
Definition _on_close (error : bool) : H unit :=
  _clear_send_msg;;;
  memit SocketClose;;;
  mmodify (fun s => set_conn s false (m_isvalid s) (m_thread_index s));;;
  s <- mget;;
  mwhen (match m_father s with Some _ => true | None => false end) (memit (CbOnClose error)).

Definition begin_read_message : H unit :=
  mmodify (fun s => set_recv s (m_recv_buffer s) 0);;; memit AsyncRead.

(** [handle_accept p] with [ti = p->generate_thread_index()]. *)
Definition handle_accept (p : father) (ti : Z) : H unit :=
  mmodify (fun s => set_father (set_recv (set_conn s true true (m_thread_index s)) (m_recv_buffer s) 0) (Some p));;;
  begin_read_message;;;
  mmodify (fun s => set_conn s (m_isconnected s) (m_isvalid s) ti);;;
  memit CbOnAccept;;;
  memit AddSession.

(** [tcp_session::on_close], run by the server's call-back queue. *)
Definition on_close : H unit :=
  s <- mget;;
  match m_father s with
  | Some _ => memit FreeSession;;; memit DelSession
  | None => mret' tt
  end.

Definition reset : H unit :=
  mmodify (fun s =>
    mk_session false None (m_queue_send_msg s) (m_recv_buffer s) 0 (m_iscompress s) false false 0
      (m_sending_data s) false 0);;;
  _clear_send_msg.

Section codec.
Context (cs : option compress_strategy).

(** [_uncompress_message data]; [d] is the receive buffer from [data] on. *)
Definition _uncompress_message (d : list Z) : H bool :=
  match uncompress cs d MAX_MESSAGE_LEN with
  | None =>
      s <- mget;;
      mwhen (match m_father s with Some _ => true | None => false end)
        (memit (AddBanIp 120 BAN_REASON_WRONG_CHECK_SUM));;;
      close;;;
      mret' false
  | Some msg => memit (PushMessage msg);;; mret' true
  end.

Definition bad_len (len : Z) : bool := (len <? MESSAGE_HEAD_LEN) || (MAX_MESSAGE_LEN <? len).

(** The loop [while (m_recive_buffer_pos - now_pos >= len)]: [None] when the
    function returns from inside it. *)
Fixpoint read_loop (fuel : nat) (now_pos len : Z) : H (option Z) :=
  match fuel with
  | O => mub "read_loop: fuel"
  | S fuel' =>
      s <- mget;;
      if len <=? m_recive_buffer_pos s - now_pos then
        ok <- _uncompress_message (drop (Z.to_nat now_pos) (m_recv_buffer s));;
        if negb ok then _on_close false;;; mret' None
        else
          let now_pos := now_pos + len in
          if MESSAGE_HEAD_LEN <=? m_recive_buffer_pos s - now_pos then
            let len := get_u32 (m_recv_buffer s) now_pos in
            if bad_len len then close_and_ban;;; mret' None
            else read_loop fuel' now_pos len
          else mret' (Some now_pos)
      else mret' (Some now_pos)
  end.

(** [memmove] of the unparsed bytes to the front of the buffer. *)
Definition shift_buffer (s : tcp_session) (now_pos : Z) : tcp_session :=
  let rest := m_recive_buffer_pos s - now_pos in
  let buf :=
    if (0 <? now_pos) && (now_pos <? m_recive_buffer_pos s)
    then blit (m_recv_buffer s) 0 (peek (m_recv_buffer s) (Z.to_nat now_pos) (Z.to_nat rest))
    else m_recv_buffer s in
  set_recv s buf rest.

(** [handle_read_some error bytes_transferred]: [buffer_] holds [read]. A write
    past the end of [m_recv_buffer] is undefined behaviour. *)
Definition handle_read_some (error : bool) (read : list Z) : H unit :=
  s <- mget;;
  if negb (is_valid s) then mret' tt
  else if error then _on_close error
  else if Z.of_nat (length (m_recv_buffer s)) <? m_recive_buffer_pos s + Z.of_nat (length read)
  then mub "handle_read_some: m_recv_buffer overflow"
  else
    mput (set_recv s (blit (m_recv_buffer s) (Z.to_nat (m_recive_buffer_pos s)) read)
            (m_recive_buffer_pos s + Z.of_nat (length read)));;;
    s <- mget;;
    if MESSAGE_HEAD_LEN <=? m_recive_buffer_pos s then
      let len := get_u32 (m_recv_buffer s) 0 in
      if bad_len len then close_and_ban
      else
        r <- read_loop (S (Z.to_nat (m_recive_buffer_pos s))) 0 len;;
        match r with
        | None => mret' tt
        | Some now_pos => mmodify (fun s => shift_buffer s now_pos);;; memit AsyncRead
        end
    else memit AsyncRead.

(** ** Sending *)

Context (junk : nat -> Z).

Definition _compress_message (payload : list Z) : message_t :=
  compress cs junk payload MAX_MESSAGE_LEN.

Definition _make_message (payload : list Z) : message_t := makeMessage junk payload false.

Definition _send_message (msg : message_t) : H unit :=
  s <- mget;;
  if negb (m_isconnected s) then mret' tt
  else
    mput (set_send s (m_queue_send_msg s ++ [msg]) (m_sending_data s) (m_is_sending_data s)
            (m_not_sent_size s + Message.len msg));;;
    s <- mget;;
    if (match m_father s with Some f => is_limit_mode f | None => false end)
       && (QUEUE_MESSAGE_LIMIT_SIZE <=? m_not_sent_size s)
    then close
    else memit PostWrite.

(** [send_message data len]: [payload] is [None] for a null pointer. *)
Definition send_message (payload : option (list Z)) : H unit :=
  s <- mget;;
  match payload with
  | None => mret' tt
  | Some d =>
      let len := Z.of_nat (length d) in
      if negb (is_valid s) || negb (m_isconnected s) || (len =? 0) || (MAX_MESSAGE_LEN - 1 <? len)
      then mret' tt
      else
        match m_father s with
        | Some f =>
            if m_iscompress s then
              if is_thread_task_transfer_id_mode f then
                if get_task_thread_count f =? 0 then mub "send_message: division by zero"
                else memit (PushTask d (get_u32 d 4 mod get_task_thread_count f))
              else memit (PushTask d (m_thread_index s))
            else _send_message (_make_message d)
        | None => _send_message (_compress_message d)
        end
  end.

(** The packing loop of [_write_message]: pops messages while they fit. *)
Fixpoint pack (q : list message_t) (sd : list Z) (len : Z) : list message_t * list Z * Z :=
  match q with
  | [] => (q, sd, len)
  | msg :: q' =>
      if len + Message.len msg <=? MAX_MESSAGE_LEN
      then pack q' (blit sd (Z.to_nat len) (data msg)) (len + Message.len msg)
      else (q, sd, len)
  end.

Definition _write_message (sent_size : Z) : H unit :=
  mmodify (fun s => set_send s (m_queue_send_msg s) (m_sending_data s) (m_is_sending_data s)
                      (m_not_sent_size s - sent_size));;;
  s <- mget;;
  if negb (m_isconnected s) then mret' tt
  else if m_is_sending_data s then mret' tt
  else
    match m_queue_send_msg s with
    | [] => mret' tt
    | _ =>
        let '(q, sd, len) := pack (m_queue_send_msg s) (m_sending_data s) 0 in
        mput (set_send s q sd true (m_not_sent_size s));;;
        memit (AsyncWrite (take (Z.to_nat len) sd))
    end.

(** [handle_write] takes the lock twice: [handle_write_unlock] is its first
    critical section, [_write_message size] the second. *)
Definition handle_write_unlock : H unit :=
  mmodify (fun s => set_send s (m_queue_send_msg s) (m_sending_data s) false (m_not_sent_size s)).

Definition handle_write (error : bool) (size : Z) : H unit :=
  s <- mget;;
  if negb (is_valid s) then mret' tt
  else if error then _on_close error
  else handle_write_unlock;;; _write_message size.

End codec.

End TcpSession.

Import TcpSession.

(** ** The stream specification

    What a receiver that saw the whole byte stream at once would do: cut frames
    off its front while they are complete. *)
Module Stream.

Inductive verdict : Type :=
| Rest (unparsed : list Z)     (* all complete frames delivered *)
| Bad                          (* a length outside [10, 65000] *)
| Undecodable.                 (* uncompress failed *)

Section codec.
Context (cs : option compress_strategy).

Fixpoint parse_fuel (fuel : nat) (s : list Z) : list message_t * verdict :=
  match fuel with
  | O => ([], Rest s)
  | S fuel' =>
      if Z.of_nat (length s) <? MESSAGE_HEAD_LEN then ([], Rest s)
      else
        let len := get_u32 s 0 in
        if bad_len len then ([], Bad)
        else if Z.of_nat (length s) <? len then ([], Rest s)
        else
          match uncompress cs (take (Z.to_nat len) s) MAX_MESSAGE_LEN with
          | None => ([], Undecodable)
          | Some m =>
              let '(ms, v) := parse_fuel fuel' (drop (Z.to_nat len) s) in (m :: ms, v)
          end
  end.

Definition parse (s : list Z) : list message_t * verdict := parse_fuel (S (length s)) s.

(** The socket delivers the stream in fragments [fs]; each is handled if the
    previous handler armed another [async_read_some].  The flag says whether the
    last one did. *)
Definition armed (o : list effect) : bool :=
  existsb (fun e => match e with AsyncRead => true | _ => false end) o.

Fixpoint feed (fs : list (list Z)) (s : tcp_session)
  : outcome (tcp_session * list effect * bool) :=
  match fs with
  | [] => Ret (s, [], true)
  | f :: fs' =>
      match handle_read_some cs false f s with
      | UB why => UB why
      | Ret (_, s1, o1) =>
          if armed o1 then
            match feed fs' s1 with
            | UB why => UB why
            | Ret (s2, o2, b) => Ret (s2, o1 ++ o2, b)
            end
          else Ret (s1, o1, false)
      end
  end.

Definition pushed (o : list effect) : list message_t :=
  omap (fun e => match e with PushMessage m => Some m | _ => None end) o.

End codec.
End Stream.

Import Stream.

Section receive.
Context (cs : option compress_strategy).

#[local] Abbreviation parse := (parse cs).

(** *** Lemmas on the specification *)

Lemma bad_len_false len : bad_len len = false <-> 10 <= len <= 65000.
Proof.
  unfold bad_len, MESSAGE_HEAD_LEN, MAX_MESSAGE_LEN.
  rewrite orb_false_iff, !Z.ltb_ge. lia.
Qed.

Lemma parse_fuel_irrel f1 f2 s :
  (length s < f1)%nat -> (length s < f2)%nat -> parse_fuel cs f1 s = parse_fuel cs f2 s.
Proof.
  revert f2 s. induction f1 as [|f1 IH]; intros [|f2] s H1 H2; [lia..|].
  cbn [parse_fuel]. destruct (Z.ltb_spec (Z.of_nat (length s)) MESSAGE_HEAD_LEN); [done|].
  unfold MESSAGE_HEAD_LEN in *.
  destruct (bad_len (get_u32 s 0)) eqn:Hb; [done|]. apply bad_len_false in Hb.
  case_match; [done|]. case_match; [|done].
  by rewrite (IH f2) by (rewrite length_drop; lia).
Qed.

Lemma parse_eq s :
  parse s =
  if Z.of_nat (length s) <? MESSAGE_HEAD_LEN then ([], Rest s)
  else
    let len := get_u32 s 0 in
    if bad_len len then ([], Bad)
    else if Z.of_nat (length s) <? len then ([], Rest s)
    else
      match uncompress cs (take (Z.to_nat len) s) MAX_MESSAGE_LEN with
      | None => ([], Undecodable)
      | Some m => let '(ms, v) := parse (drop (Z.to_nat len) s) in (m :: ms, v)
      end.
Proof.
  unfold Stream.parse at 1. cbn [parse_fuel].
  destruct (Z.ltb_spec (Z.of_nat (length s)) MESSAGE_HEAD_LEN); [done|].
  unfold MESSAGE_HEAD_LEN in *. cbv zeta.
  destruct (bad_len (get_u32 s 0)) eqn:Hb; [done|]. apply bad_len_false in Hb.
  case_match; [done|]. case_match; [|done]. unfold Stream.parse.
  by rewrite (parse_fuel_irrel _ (S (length (drop (Z.to_nat (get_u32 s 0)) s))))
    by (rewrite length_drop; lia).
Qed.

Lemma peek_app_l (a b : list Z) p n : (p + n <= length a)%nat -> peek (a ++ b) p n = peek a p n.
Proof.
  intros. unfold peek. rewrite drop_app_le by lia. apply take_app_le. rewrite length_drop. lia.
Qed.

Lemma get_u32_app a b : (4 <= length a)%nat -> get_u32 (a ++ b) 0 = get_u32 a 0.
Proof. intros. unfold get_u32. by rewrite peek_app_l by (simpl; lia). Qed.

(** [uncompress] looks at one frame only. *)
Lemma uncompress_local a b :
  10 <= get_u32 a 0 <= 65000 -> get_u32 a 0 <= Z.of_nat (length a) ->
  uncompress cs (a ++ b) MAX_MESSAGE_LEN = uncompress cs a MAX_MESSAGE_LEN.
Proof.
  intros Hg Hl. unfold uncompress. rewrite get_u32_app by lia.
  case_match; [done|]. set (n := u32 (4 + u32 (get_u32 a 0 - 4))). unfold MESSAGE_HEAD_LEN.
  assert (Hn : n = get_u32 a 0).
  { unfold n. rewrite (u32_id (get_u32 a 0 - 4)), u32_id by mach. lia. }
  rewrite Hn, (u32_id (get_u32 a 0 - (4 + 2 + 4))) by mach.
  rewrite peek_app_l by lia.
  unfold get_u32 at 1 3. unfold MESSAGE_HEAD_MASK_BEGIN. rewrite peek_app_l by (simpl; lia). done.
Qed.

Lemma parse_head s m ms v :
  parse s = (m :: ms, v) ->
  exists len, len = get_u32 s 0 /\ 10 <= len <= 65000 /\ len <= Z.of_nat (length s) /\
    10 <= Z.of_nat (length s) /\
    uncompress cs (take (Z.to_nat len) s) MAX_MESSAGE_LEN = Some m /\
    parse (drop (Z.to_nat len) s) = (ms, v).
Proof.
  rewrite parse_eq. unfold MESSAGE_HEAD_LEN. cbv zeta.
  destruct (Z.ltb_spec (Z.of_nat (length s)) (4 + 2 + 4)); [discriminate|].
  destruct (bad_len _) eqn:Hb; [discriminate|]. apply bad_len_false in Hb.
  destruct (Z.ltb_spec (Z.of_nat (length s)) (get_u32 s 0)); [discriminate|].
  destruct (uncompress _ _ _) as [m'|] eqn:Hu; [|discriminate].
  destruct (parse (drop _ s)) as [ms' v'] eqn:Hd. intros [= <- <- <-].
  exists (get_u32 s 0). split_and!; done || lia.
Qed.

(** Parsing a longer stream continues from the unparsed rest. *)
Lemma parse_app s t :
  parse (s ++ t) =
  match parse s with
  | (ms, Rest r) => let '(ms', v) := parse (r ++ t) in (ms ++ ms', v)
  | (ms, v) => (ms, v)
  end.
Proof.
  induction s as [s IH] using (induction_ltof1 _ (@length Z)).
  rewrite (parse_eq s). unfold MESSAGE_HEAD_LEN.
  destruct (Z.ltb_spec (Z.of_nat (length s)) (4 + 2 + 4)); [by destruct (parse (s ++ t))|].
  cbv zeta. destruct (bad_len (get_u32 s 0)) eqn:Hb.
  { rewrite parse_eq. unfold MESSAGE_HEAD_LEN. rewrite length_app, get_u32_app by lia. cbv zeta.
    rewrite Hb. by destruct (Z.ltb_spec (Z.of_nat (length s + length t)) (4 + 2 + 4)); [lia|]. }
  pose proof Hb as Hr. apply bad_len_false in Hr.
  destruct (Z.ltb_spec (Z.of_nat (length s)) (get_u32 s 0)); [by destruct (parse (s ++ t))|].
  rewrite (parse_eq (s ++ t)). unfold MESSAGE_HEAD_LEN. rewrite length_app, get_u32_app by lia.
  cbv zeta. rewrite Hb.
  destruct (Z.ltb_spec (Z.of_nat (length s + length t)) (4 + 2 + 4)); [lia|].
  destruct (Z.ltb_spec (Z.of_nat (length s + length t)) (get_u32 s 0)); [lia|].
  rewrite take_app_le, drop_app_le by lia.
  destruct (uncompress _ _ _); [|done].
  rewrite (IH (drop (Z.to_nat (get_u32 s 0)) s)) by (unfold ltof; rewrite length_drop; lia).
  destruct (parse (drop _ s)) as [ms [r| |]]; [|done..]. by destruct (parse (r ++ t)).
Qed.

(** An unparsed rest is an incomplete frame: parsing it again delivers
    nothing, and it is shorter than a message. *)
Lemma parse_rest s ms r :
  parse s = (ms, Rest r) ->
  parse r = ([], Rest r) /\ (length r <= length s)%nat /\ Z.of_nat (length r) < 65000.
Proof.
  revert ms. induction s as [s IH] using (induction_ltof1 _ (@length Z)). intros [|m ms] Hs.
  - pose proof Hs as Hs'. rewrite parse_eq in Hs'. unfold MESSAGE_HEAD_LEN in Hs'. cbv zeta in Hs'.
    destruct (Z.ltb_spec (Z.of_nat (length s)) (4 + 2 + 4)).
    { injection Hs' as <-. split_and!; done || lia. }
    destruct (bad_len _) eqn:Hb; [discriminate|]. apply bad_len_false in Hb.
    destruct (Z.ltb_spec (Z.of_nat (length s)) (get_u32 s 0)).
    { injection Hs' as <-. split_and!; done || lia. }
    destruct (uncompress _ _ _); [|discriminate]. by destruct (parse (drop _ s)).
  - apply parse_head in Hs as (len & _ & Hlen & Hle & _ & _ & Hd).
    apply IH in Hd; [|unfold ltof; rewrite length_drop; lia].
    rewrite length_drop in Hd. split_and!; [apply Hd|lia|apply Hd].
Qed.

(** *** The receive buffer *)

(** [m_recv_buffer] holds the unparsed rest [r] of the stream. *)
Record receiving (s : tcp_session) (r : list Z) : Prop := {
  rc_valid : m_isvalid s = true;
  rc_size : Z.of_nat (length (m_recv_buffer s)) = 130000;
  rc_pos : m_recive_buffer_pos s = Z.of_nat (length r);
  rc_bytes : take (length r) (m_recv_buffer s) = r;
  rc_rest : parse r = ([], Rest r)
}.

Lemma receiving_small s r : receiving s r -> Z.of_nat (length r) < 65000.
Proof. intros Hr. apply (parse_rest r [] r), Hr. Qed.

Definition ban_if (s : tcp_session) (sec : Z) (why : ban_reason_t) : list effect :=
  match m_father s with Some _ => [AddBanIp sec why] | None => [] end.

(** What the handler does when the stream ends in each verdict. *)
Definition ends_with (s : tcp_session) (v : verdict) : list effect :=
  match v with
  | Rest _ => [AsyncRead]
  | Bad => ban_if s 5 BAN_REASON_HACK_PACKET ++ [PostClose]
  | Undecodable =>
      ban_if s 120 BAN_REASON_WRONG_CHECK_SUM ++ [PostClose; SocketClose] ++
      match m_father s with Some _ => [CbOnClose false] | None => [] end
  end.

Lemma run_close_and_ban s :
  close_and_ban s = Ret (tt, s, ban_if s 5 BAN_REASON_HACK_PACKET ++ [PostClose]).
Proof. unfold close_and_ban, close, ban_if. mstep. by destruct (m_father s). Qed.

Lemma run_uncompress d s m :
  uncompress cs d MAX_MESSAGE_LEN = Some m ->
  _uncompress_message cs d s = Ret (true, s, [PushMessage m]).
Proof. intros Hu. unfold _uncompress_message. by rewrite Hu. Qed.

Lemma run_undecodable d s :
  uncompress cs d MAX_MESSAGE_LEN = None ->
  _uncompress_message cs d s =
  Ret (false, s, ban_if s 120 BAN_REASON_WRONG_CHECK_SUM ++ [PostClose]).
Proof.
  intros Hu. unfold _uncompress_message, close, ban_if. rewrite Hu. mstep.
  by destruct (m_father s).
Qed.

Definition closed (s : tcp_session) : tcp_session :=
  set_conn (set_send s [] (m_sending_data s) (m_is_sending_data s) (m_not_sent_size s))
    false (m_isvalid s) (m_thread_index s).

Lemma run_on_close error s :
  _on_close error s =
  Ret (tt, closed s,
       SocketClose :: match m_father s with Some _ => [CbOnClose error] | None => [] end).
Proof. unfold _on_close, _clear_send_msg. mstep. by destruct (m_father s). Qed.

(** The frame at [now_pos] of the buffer is the head of the unparsed stream. *)
Lemma drop_peek (buf : list Z) p n : drop p buf = peek buf p n ++ drop (p + n) buf.
Proof. unfold peek. rewrite <- drop_drop. symmetry. apply take_drop. Qed.

Lemma peek_drop (buf u : list Z) p n k :
  peek buf p n = u -> peek buf (p + k) (n - k) = drop k u.
Proof. intros <-. unfold peek. by rewrite skipn_firstn_comm, drop_drop. Qed.

Lemma get_u32_drop buf p : 0 <= p -> get_u32 buf p = get_u32 (drop (Z.to_nat p) buf) 0.
Proof. intros. unfold get_u32, peek. by rewrite drop_0. Qed.

(** [read_loop] from [now_pos] parses the bytes between [now_pos] and
    [m_recive_buffer_pos]. *)
Lemma read_loop_parse fuel s p u ms v :
  let n := length u in
  m_recive_buffer_pos s = Z.of_nat (p + n) -> (p + n <= length (m_recv_buffer s))%nat ->
  peek (m_recv_buffer s) p n = u -> (n < fuel)%nat -> 10 <= Z.of_nat n ->
  bad_len (get_u32 u 0) = false ->
  parse u = (ms, v) ->
  match v with
  | Rest r =>
      read_loop cs fuel (Z.of_nat p) (get_u32 u 0) s =
      Ret (Some (Z.of_nat (p + n - length r)), s, map PushMessage ms) /\
      (length r <= n)%nat /\ peek (m_recv_buffer s) (p + n - length r) (length r) = r
  | _ => exists s', read_loop cs fuel (Z.of_nat p) (get_u32 u 0) s =
      Ret (None, s', map PushMessage ms ++ ends_with s v)
  end.
Proof.
  cbv zeta. revert p u ms v. induction fuel as [|fuel IH]; intros p u ms v Hpos Hsz Hu Hf Hn Hb Hp; [lia|].
  pose proof Hb as Hg. apply bad_len_false in Hg.
  assert (Hd : drop p (m_recv_buffer s) = u ++ drop (p + length u) (m_recv_buffer s))
    by (rewrite (drop_peek _ p (length u)), Hu; done).
  assert (Hloc : bad_len (get_u32 u 0) = false -> forall L, get_u32 u 0 = Z.of_nat L ->
    Z.of_nat L <= Z.of_nat (length u) ->
    uncompress cs (u ++ drop (p + length u) (m_recv_buffer s)) MAX_MESSAGE_LEN
    = uncompress cs (take L u) MAX_MESSAGE_LEN).
  { intros _ L HL HLu. rewrite <- (take_drop L u) at 1. rewrite <- app_assoc.
    apply uncompress_local;
      rewrite <- (get_u32_app (take L u) (drop L u)), take_drop
        by (rewrite length_take; lia); rewrite ?length_take; lia. }
  cbn [read_loop]. rewrite (mbind_run mget _ s s s []) by done.
  rewrite Hpos, Nat2Z.id, Hd.
  replace (Z.of_nat (p + length u) - Z.of_nat p) with (Z.of_nat (length u)) by lia.
  rewrite parse_eq in Hp. unfold MESSAGE_HEAD_LEN in Hp. cbv zeta in Hp. rewrite Hb in Hp.
  destruct (Z.ltb_spec (Z.of_nat (length u)) (4 + 2 + 4)); [lia|].
  destruct (Z.ltb_spec (Z.of_nat (length u)) (get_u32 u 0)) as [Hlt|Hge].
  { injection Hp as <- <-. destruct (Z.leb_spec (get_u32 u 0) (Z.of_nat (length u))); [lia|].
    replace (p + length u - length u)%nat with p by lia. done. }
  destruct (Z.leb_spec (get_u32 u 0) (Z.of_nat (length u))); [|lia].
  set (L := Z.to_nat (get_u32 u 0)) in *.
  assert (HL : get_u32 u 0 = Z.of_nat L) by lia.
  specialize (Hloc Hb L HL ltac:(lia)).
  destruct (uncompress cs (take L u) MAX_MESSAGE_LEN) as [m|] eqn:Hm.
  2: { injection Hp as <- <-. rewrite (mbind_run _ _ _ _ _ _ (run_undecodable _ s Hloc)).
       cbn [negb]. rewrite (mbind_run _ _ _ _ _ _ (run_on_close false s)).
       eexists. cbn [mret']. unfold mret', ends_with. rewrite app_nil_r, <- app_assoc. done. }
  destruct (parse (drop L u)) as [ms' v'] eqn:Hp'. injection Hp as <- <-.
  rewrite (mbind_run _ _ _ _ _ _ (run_uncompress _ s m Hloc)). cbn [negb].
  assert (Hu' : peek (m_recv_buffer s) (p + L) (length (drop L u)) = drop L u).
  { rewrite length_drop. by apply peek_drop. }
  replace (Z.of_nat p + get_u32 u 0) with (Z.of_nat (p + L)) by lia.
  assert (Hlen : (length u = L + length (drop L u))%nat) by (rewrite length_drop; lia).
  replace (Z.of_nat (p + length u) - Z.of_nat (p + L)) with (Z.of_nat (length (drop L u))) by lia.
  set (u' := drop L u) in *. unfold MESSAGE_HEAD_LEN.
  destruct (Z.leb_spec (4 + 2 + 4) (Z.of_nat (length u'))) as [H10|H10].
  - assert (Hg' : get_u32 (m_recv_buffer s) (Z.of_nat (p + L)) = get_u32 u' 0).
    { rewrite get_u32_drop, Nat2Z.id, (drop_peek _ (p + L) (length u')), Hu' by lia.
      apply get_u32_app. lia. }
    rewrite Hg'. destruct (bad_len (get_u32 u' 0)) eqn:Hb'.
    + rewrite parse_eq in Hp'. unfold MESSAGE_HEAD_LEN in Hp'. cbv zeta in Hp'.
      rewrite Hb' in Hp'.
      destruct (Z.ltb_spec (Z.of_nat (length u')) (4 + 2 + 4)); [lia|]. injection Hp' as <- <-.
      rewrite (mbind_run _ _ _ _ _ _ (run_close_and_ban s)). eexists.
      unfold mret'. rewrite app_nil_r. done.
    + specialize (IH (p + L)%nat u' ms' v' ltac:(lia) ltac:(lia) Hu' ltac:(lia) ltac:(lia) Hb' Hp').
      destruct v' as [r| |].
      * destruct IH as (-> & Hle & Hr). split_and!; [|lia|].
        -- do 4 f_equal. lia.
        -- replace (p + length u - length r)%nat with (p + L + length u' - length r)%nat by lia.
           done.
      * destruct IH as [s' ->]. by eexists.
      * destruct IH as [s' ->]. by eexists.
  - rewrite parse_eq in Hp'. unfold MESSAGE_HEAD_LEN in Hp'.
    destruct (Z.ltb_spec (Z.of_nat (length u')) (4 + 2 + 4)); [|lia]. injection Hp' as <- <-.
    replace (p + length u - length u')%nat with (p + L)%nat by lia.
    split_and!; [done|lia|done].
Qed.

(** [shift_buffer] keeps exactly the unparsed rest. *)
Lemma shift_buffer_receiving s n r :
  m_isvalid s = true -> Z.of_nat (length (m_recv_buffer s)) = 130000 ->
  m_recive_buffer_pos s = Z.of_nat n -> (n <= length (m_recv_buffer s))%nat ->
  (length r <= n)%nat -> peek (m_recv_buffer s) (n - length r) (length r) = r ->
  parse r = ([], Rest r) ->
  receiving (shift_buffer s (Z.of_nat (n - length r))) r.
Proof.
  intros Hv Hsz Hpos Hn Hr Hpeek Hp. unfold shift_buffer. rewrite Hpos.
  replace (Z.of_nat n - Z.of_nat (n - length r)) with (Z.of_nat (length r)) by lia.
  rewrite !Nat2Z.id, Hpeek.
  destruct (Z.ltb_spec 0 (Z.of_nat (n - length r))), (Z.ltb_spec (Z.of_nat (n - length r)) (Z.of_nat n)).
  all: constructor; cbn [m_isvalid m_recv_buffer m_recive_buffer_pos set_recv andb]; try done.
  - rewrite length_blit; [done|lia].
  - rewrite blit_0. by apply take_app_length'.
  - assert (r = []) as -> by (apply length_zero_iff_nil; lia). done.
  - rewrite <- Hpeek at 2. replace (n - length r)%nat with 0%nat by lia. unfold peek. by rewrite drop_0.
  - assert (r = []) as -> by (apply length_zero_iff_nil; lia). done.
Qed.

(** One handler run is one step of the specification, and the receive buffer
    cannot overflow. *)
Lemma handle_read_some_parse s r f ms v :
  receiving s r -> Z.of_nat (length f) <= 65000 -> parse (r ++ f) = (ms, v) ->
  exists s', handle_read_some cs false f s = Ret (tt, s', map PushMessage ms ++ ends_with s v) /\
    match v with Rest r' => receiving s' r' /\ m_father s' = m_father s | _ => True end.
Proof.
  intros Hr Hf Hp. pose proof (receiving_small s r Hr) as Hsmall.
  destruct Hr as [Hv Hsz Hpos Hby Hrest].
  unfold handle_read_some. rewrite (mbind_run mget _ s s s []) by done.
  unfold is_valid. rewrite Hv. cbn [negb].
  destruct (Z.ltb_spec (Z.of_nat (length (m_recv_buffer s))) (m_recive_buffer_pos s + Z.of_nat (length f)));
    [lia|].
  rewrite Hpos, Nat2Z.id. set (u := r ++ f) in *.
  assert (Hlu : length u = (length r + length f)%nat) by apply length_app.
  replace (Z.of_nat (length r) + Z.of_nat (length f)) with (Z.of_nat (length u)) by lia.
  set (s1 := set_recv s (blit (m_recv_buffer s) (length r) f) (Z.of_nat (length u))).
  rewrite (mbind_run (mput s1) _ s tt s1 []) by done.
  rewrite (mbind_run mget _ s1 s1 s1 []) by done.
  assert (Hl1 : length (m_recv_buffer s1) = length (m_recv_buffer s)) by (apply length_blit; lia).
  assert (Hu1 : take (length u) (m_recv_buffer s1) = u).
  { cbn [s1 m_recv_buffer set_recv]. unfold s1. cbn [m_recv_buffer set_recv].
    rewrite (take_blit _ _ _ (length u)) by lia. by rewrite Hby. }
  change (m_recive_buffer_pos s1) with (Z.of_nat (length u)).
  pose proof (parse_rest u ms) as Hprest.
  destruct (Z.leb_spec MESSAGE_HEAD_LEN (Z.of_nat (length u))) as [H10|H10]; unfold MESSAGE_HEAD_LEN in H10.
  - assert (Hg : get_u32 (m_recv_buffer s1) 0 = get_u32 u 0).
    { rewrite <- (take_drop (length u) (m_recv_buffer s1)), Hu1. apply get_u32_app. lia. }
    rewrite Hg. destruct (bad_len (get_u32 u 0)) eqn:Hb.
    + rewrite parse_eq in Hp. unfold MESSAGE_HEAD_LEN in Hp. cbv zeta in Hp. rewrite Hb in Hp.
      destruct (Z.ltb_spec (Z.of_nat (length u)) (4 + 2 + 4)); [lia|]. injection Hp as <- <-.
      rewrite run_close_and_ban. by eexists.
    + pose proof (read_loop_parse (S (length u)) s1 0 u ms v eq_refl ltac:(lia)) as Hloop.
      cbv zeta in Hloop. unfold peek in Hloop at 1. rewrite drop_0 in Hloop.
      specialize (Hloop Hu1 ltac:(lia) ltac:(lia) Hb Hp). rewrite Nat2Z.id.
      destruct v as [r'| |].
      * destruct Hloop as (Hloop & Hle & Hr'). specialize (Hprest _ Hp) as (Hp' & _ & _).
        rewrite (mbind_run _ _ _ _ _ _ Hloop). eexists. split; [reflexivity|].
        split; [|done]. apply shift_buffer_receiving; try done; lia.
      * destruct Hloop as [s' Hloop]. rewrite (mbind_run _ _ _ _ _ _ Hloop). eexists.
        unfold mret'. rewrite app_nil_r. done.
      * destruct Hloop as [s' Hloop]. rewrite (mbind_run _ _ _ _ _ _ Hloop). eexists.
        unfold mret'. rewrite app_nil_r. done.
  - rewrite parse_eq in Hp. unfold MESSAGE_HEAD_LEN in Hp.
    destruct (Z.ltb_spec (Z.of_nat (length u)) (4 + 2 + 4)); [|lia]. injection Hp as <- <-.
    eexists. split; [reflexivity|]. split; [|done]. constructor; try done.
    + by rewrite <- Hl1 in Hsz.
    + rewrite parse_eq. unfold MESSAGE_HEAD_LEN.
      by destruct (Z.ltb_spec (Z.of_nat (length u)) (4 + 2 + 4)); [|lia].
Qed.

(** *** Any fragmentation of the stream *)

Lemma pushed_app o1 o2 : pushed (o1 ++ o2) = pushed o1 ++ pushed o2.
Proof. apply omap_app. Qed.

Lemma pushed_messages ms : pushed (map PushMessage ms) = ms.
Proof. induction ms as [|m ms IH]; [done|]. simpl. by f_equal. Qed.

Lemma pushed_end s v : pushed (ends_with s v) = [].
Proof. unfold ends_with, ban_if. by destruct v, (m_father s). Qed.

Lemma armed_end s ms v :
  armed (map PushMessage ms ++ ends_with s v) = match v with Rest _ => true | _ => false end.
Proof.
  unfold armed. rewrite existsb_app.
  assert (existsb (fun e => match e with AsyncRead => true | _ => false end) (map PushMessage ms) = false) as ->
    by (induction ms; done).
  unfold ends_with, ban_if. by destruct v, (m_father s).
Qed.

Lemma feed_parse fs s r ms v :
  receiving s r -> Forall (fun f => Z.of_nat (length f) <= 65000) fs ->
  parse (r ++ concat fs) = (ms, v) ->
  exists s' o, feed cs fs s = Ret (s', o, match v with Rest _ => true | _ => false end) /\
    pushed o = ms /\
    match v with Rest r' => receiving s' r' | _ => exists o', o = o' ++ ends_with s v end.
Proof.
  intros Hr Hfs. revert s r ms v Hr. induction Hfs as [|f fs Hf _ IH]; intros s r ms v Hr Hp.
  - cbn [concat] in Hp. rewrite app_nil_r, (rc_rest _ _ Hr) in Hp. injection Hp as <- <-.
    by exists s, [].
  - cbn [concat] in Hp. rewrite app_assoc, parse_app in Hp.
    destruct (parse (r ++ f)) as [ms1 v1] eqn:Hp1.
    destruct (handle_read_some_parse s r f ms1 v1 Hr Hf Hp1) as (s1 & Hrun & Hnext).
    cbn [feed]. rewrite Hrun, armed_end.
    destruct v1 as [r1| |].
    2,3: injection Hp as <- <-; exists s1; eexists; (split; [reflexivity|]);
      rewrite pushed_app, pushed_messages, pushed_end, app_nil_r; by eauto.
    destruct (parse (r1 ++ concat fs)) as [ms2 v2] eqn:Hp2. injection Hp as <- <-.
    destruct Hnext as [Hr1 Hfather].
    destruct (IH s1 r1 ms2 v2 Hr1 Hp2) as (s2 & o2 & -> & Ho2 & Hend).
    exists s2; eexists. split; [reflexivity|]. split.
    + by rewrite pushed_app, pushed_app, pushed_messages, pushed_end, app_nil_r, Ho2.
    + destruct v2; [done| |]; destruct Hend as [o' ->]; rewrite app_assoc;
        unfold ends_with, ban_if; rewrite Hfather; by eauto.
Qed.

End receive.

(** ** The send side as a transition system

    The threads that touch a connection's send side: callers of
    [_send_message], the posted [_write_message(0)] handlers, and the
    completions of [async_write].  Each takes [m_mutex]; [handle_write] takes it
    twice, so a completion is two steps. *)
Module SendSide.

Record conn : Type := mk_conn {
  ses : tcp_session;
  posted : nat;                   (* _write_message(0) handlers posted *)
  inflight : option (list Z);     (* the block of the outstanding async_write *)
  acks : list Z;                  (* completions between the two critical sections *)
  wire : list Z;                  (* bytes the peer has been sent *)
  accepted : list message_t;      (* frames queued so far *)
  closing : bool                  (* handle_close posted *)
}.

Definition count_posts (o : list effect) : nat :=
  length (List.filter (fun e => match e with PostWrite => true | _ => false end) o).

Definition has_close (o : list effect) : bool :=
  existsb (fun e => match e with PostClose => true | _ => false end) o.

Definition started (o : list effect) (old : option (list Z)) : option (list Z) :=
  fold_left (fun acc e => match e with AsyncWrite b => Some b | _ => acc end) o old.

Inductive step : conn -> conn -> Prop :=
| step_send c msg s' o :
    m_isconnected (ses c) = true ->
    _send_message msg (ses c) = Ret (tt, s', o) ->
    step c (mk_conn s' (posted c + count_posts o) (inflight c) (acks c) (wire c)
              (accepted c ++ [msg]) (closing c || has_close o))
| step_posted c s' o n :
    posted c = S n ->
    _write_message 0 (ses c) = Ret (tt, s', o) ->
    step c (mk_conn s' n (started o (inflight c)) (acks c) (wire c) (accepted c) (closing c))
| step_complete c b s' o :
    inflight c = Some b ->
    handle_write_unlock (ses c) = Ret (tt, s', o) ->
    step c (mk_conn s' (posted c) None (Z.of_nat (length b) :: acks c) (wire c ++ b)
              (accepted c) (closing c))
| step_ack c k l1 l2 s' o :
    acks c = l1 ++ k :: l2 ->
    _write_message k (ses c) = Ret (tt, s', o) ->
    step c (mk_conn s' (posted c) (started o (inflight c)) (l1 ++ l2) (wire c)
              (accepted c) (closing c))
| step_close c s' o :
    closing c = true ->
    handle_close (ses c) = Ret (tt, s', o) ->
    step c (mk_conn s' (posted c) (inflight c) (acks c) (wire c) (accepted c) true).

Definition initial (s : tcp_session) : conn := mk_conn s 0 None [] [] [] false.

(** A session just accepted. *)
Definition idle (s : tcp_session) : Prop :=
  m_queue_send_msg s = [] /\ m_is_sending_data s = false /\ m_not_sent_size s = 0 /\
  Z.of_nat (length (m_sending_data s)) = MAX_MESSAGE_LEN.

Definition reachable (s : tcp_session) (c : conn) : Prop := rtc step (initial s) c.

Definition frames_bytes (q : list message_t) : list Z := concat (map data q).

Definition sum (l : list Z) : Z := fold_right Z.add 0 l.

Definition inflight_bytes (c : conn) : list Z :=
  match inflight c with Some b => b | None => [] end.

Record ok (c : conn) : Prop := {
  (* one async_write at a time, over an unmodified m_sending_data *)
  ok_flag : m_is_sending_data (ses c) = match inflight c with Some _ => true | None => false end;
  ok_buffer : forall b, inflight c = Some b -> take (length b) (m_sending_data (ses c)) = b;
  ok_size : Z.of_nat (length (m_sending_data (ses c))) = MAX_MESSAGE_LEN;
  (* every frame, in order, once *)
  ok_fifo : wire c ++ inflight_bytes c ++ frames_bytes (m_queue_send_msg (ses c))
            = frames_bytes (accepted c);
  ok_count : m_not_sent_size (ses c) =
    Z.of_nat (length (frames_bytes (m_queue_send_msg (ses c)))) +
    Z.of_nat (length (inflight_bytes c)) + sum (acks c);
  (* a queued frame has a handler on the way *)
  ok_wakeup : m_queue_send_msg (ses c) <> [] -> m_isconnected (ses c) = true ->
    closing c = false -> (0 < posted c)%nat \/ inflight c <> None \/ acks c <> []
}.

End SendSide.

Import SendSide.

Lemma frames_bytes_app q1 q2 : frames_bytes (q1 ++ q2) = frames_bytes q1 ++ frames_bytes q2.
Proof. unfold frames_bytes. by rewrite map_app, concat_app. Qed.

Lemma frames_bytes_single m : frames_bytes [m] = data m.
Proof. unfold frames_bytes. cbn. apply app_nil_r. Qed.

Lemma sum_app l1 l2 : sum (l1 ++ l2) = sum l1 + sum l2.
Proof. unfold sum. induction l1; simpl; lia. Qed.

(** The packing loop moves a prefix of the queue into the sending buffer. *)
Lemma pack_spec q sd n q' sd' n' :
  0 <= n -> n <= MAX_MESSAGE_LEN -> Z.of_nat (length sd) = MAX_MESSAGE_LEN ->
  pack q sd n = (q', sd', n') ->
  exists popped, q = popped ++ q' /\
    n' = n + Z.of_nat (length (frames_bytes popped)) /\ n' <= MAX_MESSAGE_LEN /\
    length sd' = length sd /\
    take (Z.to_nat n') sd' = take (Z.to_nat n) sd ++ frames_bytes popped /\
    match q' with [] => True | m :: _ => MAX_MESSAGE_LEN < n' + Message.len m end.
Proof.
  revert sd n. induction q as [|m q IH]; intros sd n Hn0 Hn Hsd Hp; cbn [pack] in Hp.
  - injection Hp as <- <- <-. exists []. split_and!; try done; [simpl; lia|].
    unfold frames_bytes. by rewrite app_nil_r.
  - destruct (Z.leb_spec (n + Message.len m) MAX_MESSAGE_LEN) as [Hle|Hgt].
    + unfold Message.len in *.
      apply IH in Hp as (popped & -> & -> & Hle' & Hlen & Htake & Hhead);
        [|lia|lia|rewrite length_blit by lia; lia].
      exists (m :: popped). change (m :: popped) with ([m] ++ popped).
      rewrite frames_bytes_app, frames_bytes_single, length_app.
      rewrite length_blit in Hlen by lia.
      replace (n + Z.of_nat (length (data m) + length (frames_bytes popped)))
        with (n + Z.of_nat (length (data m)) + Z.of_nat (length (frames_bytes popped))) by lia.
      split_and!; try done; try lia.
      rewrite Htake, (take_blit _ _ _ (Z.to_nat (n + Z.of_nat (length (data m))))) by lia.
      by rewrite app_assoc.
    + injection Hp as <- <- <-. exists []. unfold frames_bytes. cbn [map concat].
      split_and!; try done; [simpl; lia|by rewrite app_nil_r].
Qed.

(** What one [_write_message] does. *)
Lemma write_message_run k s :
  exists s' o, _write_message k s = Ret (tt, s', o) /\
    m_isconnected s' = m_isconnected s /\ m_father s' = m_father s /\
    m_not_sent_size s' = m_not_sent_size s - k /\
    ((o = [] /\ m_queue_send_msg s' = m_queue_send_msg s /\
      m_is_sending_data s' = m_is_sending_data s /\ m_sending_data s' = m_sending_data s /\
      (m_isconnected s = false \/ m_is_sending_data s = true \/ m_queue_send_msg s = [])) \/
     (m_is_sending_data s = false /\ m_is_sending_data s' = true /\ m_queue_send_msg s <> [] /\
      exists n, pack (m_queue_send_msg s) (m_sending_data s) 0
                = (m_queue_send_msg s', m_sending_data s', n) /\
        o = [AsyncWrite (take (Z.to_nat n) (m_sending_data s'))])).
Proof.
  unfold _write_message. rewrite (mbind_run (mmodify _) _ s tt _ []) by reflexivity.
  set (s1 := set_send _ _ _ _ _). rewrite (mbind_run mget _ s1 s1 s1 []) by done.
  change (m_isconnected s1) with (m_isconnected s).
  change (m_is_sending_data s1) with (m_is_sending_data s).
  change (m_queue_send_msg s1) with (m_queue_send_msg s).
  change (m_sending_data s1) with (m_sending_data s).
  destruct (m_isconnected s) eqn:Hc; cbn [negb].
  2: { exists s1, []. split_and!; try done. left. split_and!; try done. by left. }
  destruct (m_is_sending_data s) eqn:Hs.
  { exists s1, []. split_and!; try done. left. split_and!; try done. by right; left. }
  destruct (m_queue_send_msg s) as [|m q] eqn:Hq.
  { exists s1, []. split_and!; try done. left. split_and!; try done. by right; right. }
  destruct (pack (m :: q) (m_sending_data s) 0) as [[q' sd'] n] eqn:Hp.
  eexists; eexists. split; [reflexivity|]. split_and!; try done.
  right. split_and!; try done. exists n. done.
Qed.

(** [_write_message k] keeps the invariant when [k] leaves the pending
    acknowledgements, whichever handler ran it. *)
Lemma write_message_ok c k p' acks' s' o :
  ok c -> sum acks' + k = sum (acks c) ->
  _write_message k (ses c) = Ret (tt, s', o) ->
  ok (mk_conn s' p' (started o (inflight c)) acks' (wire c) (accepted c) (closing c)).
Proof.
  intros [Hflag Hbuf Hsize Hfifo Hcount Hwake] Hacks Hrun.
  destruct (write_message_run k (ses c)) as (s1 & o1 & Hrun1 & Hconn & _ & Hns & Hcase).
  rewrite Hrun in Hrun1. injection Hrun1 as <- <-.
  destruct Hcase as [(-> & Hq & Hs & Hsd & Hwhy)|(Hs & Hs' & Hne & n & Hp & ->)].
  - cbn [started fold_left]. constructor; cbn [ses posted inflight acks wire accepted closing];
      rewrite ?Hq, ?Hs, ?Hsd; try done.
    + rewrite Hns, Hcount. unfold inflight_bytes. cbn [inflight]. lia.
    + intros Hne Hc _. rewrite Hconn in Hc. right; left. rewrite Hflag in Hwhy.
      destruct Hwhy as [Hw|[Hw|Hw]]; [congruence| |congruence]. by destruct (inflight c).
  - rewrite Hflag in Hs. destruct (inflight c) as [b|] eqn:Hi; [discriminate|].
    apply pack_spec in Hp as (popped & Hq & -> & Hle & Hlen & Htake & _); [|lia|done|done].
    rewrite take_0, app_nil_l in Htake. cbn [started fold_left]. rewrite Htake.
    unfold inflight_bytes in Hfifo, Hcount. rewrite Hi in Hfifo, Hcount.
    rewrite Hq, frames_bytes_app in Hfifo, Hcount. rewrite length_app in Hcount.
    constructor; unfold inflight_bytes; cbn [ses posted inflight acks wire accepted closing]; try done.
    + intros b [= <-]. rewrite <- Htake at 2. f_equal. lia.
    + by rewrite Hlen.
    + rewrite Hns, Hcount. simpl. lia.
    + intros _ _ _. right; left. done.
Qed.

Lemma step_ok c c' : ok c -> step c c' -> ok c'.
Proof.
  intros Hok Hstep. destruct Hstep as [c msg s' o Hc Hrun|c s' o n _ Hrun|c b s' o Hi Hrun|
    c k l1 l2 s' o Ha Hrun|c s' o Hcl Hrun].
  - destruct Hok as [Hflag Hbuf Hsize Hfifo Hcount Hwake].
    unfold _send_message in Hrun. rewrite (mbind_run mget _ _ (ses c) (ses c) []) in Hrun by done.
    rewrite Hc in Hrun. cbn [negb] in Hrun.
    set (s1 := set_send (ses c) _ _ _ _) in Hrun.
    rewrite (mbind_run (mput s1) _ _ tt s1 []) in Hrun by done.
    rewrite (mbind_run mget _ s1 s1 s1 []) in Hrun by done.
    assert (Hs' : s' = s1 /\ (has_close o = true \/ count_posts o = 1%nat)).
    { destruct (andb _ _) in Hrun; cbn in Hrun; injection Hrun as <- <-; auto. }
    destruct Hs' as [-> Ho].
    constructor; unfold s1, inflight_bytes in *;
      cbn [ses posted inflight acks wire accepted closing set_send m_queue_send_msg
           m_is_sending_data m_sending_data m_not_sent_size m_isconnected]; try done.
    + rewrite !frames_bytes_app, frames_bytes_single, <- Hfifo, <- !app_assoc. done.
    + rewrite frames_bytes_app, frames_bytes_single, length_app, Hcount. unfold Message.len. lia.
    + intros _ _ Hcl. left. destruct Ho as [Ho|Ho]; [|lia].
      rewrite Ho, orb_true_r in Hcl. done.
  - apply (write_message_ok c 0 n (acks c)); done || lia.
  - destruct Hok as [Hflag Hbuf Hsize Hfifo Hcount Hwake].
    injection Hrun as <- <-. rewrite Hi in *.
    unfold inflight_bytes in *. rewrite Hi in *.
    constructor; unfold inflight_bytes;
      cbn [ses posted inflight acks wire accepted closing set_send m_queue_send_msg
           m_is_sending_data m_sending_data m_not_sent_size m_isconnected]; try done.
    + by rewrite app_nil_l, <- app_assoc.
    + rewrite Hcount. simpl. lia.
    + intros _ _ _. by right; right.
  - apply (write_message_ok c k (posted c) (l1 ++ l2)); [done| |done].
    rewrite Ha, !sum_app. simpl. lia.
  - destruct Hok as [Hflag Hbuf Hsize Hfifo Hcount Hwake]. injection Hrun as <- <-.
    constructor; try done.
Qed.

Lemma reachable_ok s c : idle s -> reachable s c -> ok c.
Proof.
  intros (Hq & Hs & Hn & Hl) Hr.
  assert (Hinit : ok (initial s)).
  { constructor; cbn; rewrite ?Hq, ?Hs, ?Hn; done. }
  clear Hq Hs Hn Hl. unfold reachable in Hr. revert Hinit. generalize (initial s) Hr.
  clear. induction 1; eauto using step_ok.
Qed.

(** ** Properties *)

Section end_to_end.
Context (cs : option compress_strategy).

(** What the two ends agree on: the sender's allocator leaves the compression
    bit clear when a codec is installed. *)
Definition codec_ok (junk : nat -> Z) : Prop :=
  (forall i, is_u8 (junk i)) /\
  match cs with
  | None => True
  | Some c => CompressStrategyOk c /\ Z.land (le_val (junk_mask junk)) COMPRESS_MASK = 0
  end.

Lemma parse_one junk payload rest ms v :
  codec_ok junk -> 2 <= Z.of_nat (length payload) <= 64990 ->
  parse cs rest = (ms, v) ->
  parse cs (data (_compress_message cs junk payload) ++ rest) = (mk_message payload :: ms, v).
Proof.
  intros [Hj Hcs] Hlen Hrest. unfold _compress_message.
  destruct (compress_is_frame cs junk payload MAX_MESSAGE_LEN Hj) as (mask & crc & body & Hm & Hb & Hd);
    [destruct cs; naive_solver|lia|lia|].
  pose proof (uncompress_compress_message cs junk payload MAX_MESSAGE_LEN [] Hj Hcs) as Hun.
  unfold MAX_MESSAGE_LEN in Hun at 1 2. specialize (Hun ltac:(lia) ltac:(lia)).
  rewrite app_nil_r in Hun. rewrite Hd in Hun |- *.
  destruct (frame_fields mask crc body rest Hm ltac:(lia)) as (Hg & _ & _).
  pose proof (length_frame mask crc body) as Hlf.
  rewrite parse_eq. unfold MESSAGE_HEAD_LEN. rewrite length_app, Hlf, Hg.
  destruct (Z.ltb_spec (Z.of_nat (length body + 10 + length rest)) (4 + 2 + 4)); [lia|].
  cbv zeta.
  assert (bad_len (Z.of_nat (length body) + 10) = false) as -> by (apply bad_len_false; lia).
  destruct (Z.ltb_spec (Z.of_nat (length body + 10 + length rest)) (Z.of_nat (length body) + 10)); [lia|].
  replace (Z.to_nat (Z.of_nat (length body) + 10)) with (length (frame mask crc body)) by lia.
  rewrite take_app_length, drop_app_length, Hun, Hrest. done.
Qed.

Lemma parse_stream sent :
  Forall (fun x => codec_ok (fst x) /\ 2 <= Z.of_nat (length (snd x)) <= 64990) sent ->
  parse cs (frames_bytes (map (fun x => _compress_message cs (fst x) (snd x)) sent))
  = (map (fun x => mk_message (snd x)) sent, Rest []).
Proof.
  induction 1 as [|[junk payload] sent [Hok Hlen] _ IH]; [done|].
  cbn [map fst snd] in *. unfold frames_bytes in *. cbn [map concat].
  by apply parse_one.
Qed.

Definition accepted_session (p : father) (ti : Z) : tcp_session :=
  set_conn (set_father (set_recv (set_conn construct true true 0) (m_recv_buffer construct) 0)
    (Some p)) true true ti.

Lemma accepted_receiving p ti : receiving cs (accepted_session p ti) [].
Proof. by constructor. Qed.

(** C1: the receiver's handlers cut the stream as if they saw it at once.  A
    session just accepted, fed the fragments [fs] of a byte stream by
    [async_read_some] (each at most the 65000 bytes of [buffer_]), never
    overflows [m_recv_buffer], delivers exactly the messages of the stream, in
    order, and stops with a ban (bad length) or a ban and a close (undecodable
    frame) exactly when the stream says so. *)
Theorem receive_any_fragmentation p ti fs ms v :
  Forall (fun f => Z.of_nat (length f) <= 65000) fs ->
  parse cs (concat fs) = (ms, v) ->
  exists s0 o0 s' o,
    handle_accept p ti construct = Ret (tt, s0, o0) /\ armed o0 = true /\
    feed cs fs s0 = Ret (s', o, match v with Rest _ => true | _ => false end) /\
    pushed o = ms /\
    match v with
    | Rest r => m_recive_buffer_pos s' = Z.of_nat (length r) /\ take (length r) (m_recv_buffer s') = r
    | Bad => exists o', o = o' ++ [AddBanIp 5 BAN_REASON_HACK_PACKET; PostClose]
    | Undecodable => exists o',
        o = o' ++ [AddBanIp 120 BAN_REASON_WRONG_CHECK_SUM; PostClose; SocketClose; CbOnClose false]
    end.
Proof.
  intros Hfs Hp. eexists _, _.
  pose proof (accepted_receiving p ti) as Hr.
  destruct (feed_parse cs fs _ [] ms v Hr Hfs Hp) as (s' & o & Hfeed & Hpush & Hend).
  exists s', o. split; [reflexivity|]. split; [reflexivity|]. split; [exact Hfeed|]. split; [done|].
  destruct v as [r| |]; [split; apply Hend| |].
  all: destruct Hend as [o' ->]; by exists o'.
Qed.

(** C6: what [send_message] accepted on one side is what [push_message] gets on
    the other.  For payloads of 2 to 64990 bytes, framed by [_compress_message]
    and cut into any fragments by the network, the accepted session delivers
    exactly the payloads, in order. *)
Theorem frames_survive_transport p ti sent fs :
  Forall (fun x => codec_ok (fst x) /\ 2 <= Z.of_nat (length (snd x)) <= 64990) sent ->
  Forall (fun f => Z.of_nat (length f) <= 65000) fs ->
  concat fs = frames_bytes (map (fun x => _compress_message cs (fst x) (snd x)) sent) ->
  exists s0 o0 s' o,
    handle_accept p ti construct = Ret (tt, s0, o0) /\
    feed cs fs s0 = Ret (s', o, true) /\
    map data (pushed o) = map snd sent /\ m_recive_buffer_pos s' = 0.
Proof.
  intros Hsent Hfs Hwire. pose proof (parse_stream sent Hsent) as Hp. rewrite <- Hwire in Hp.
  pose proof (accepted_receiving p ti) as Hr.
  destruct (feed_parse cs fs _ [] _ _ Hr Hfs Hp) as (s' & o & Hfeed & Hpush & Hend).
  eexists _, _, s', o. split; [reflexivity|]. split; [exact Hfeed|]. split.
  - by rewrite Hpush, map_map.
  - apply (rc_pos _ _ _ Hend).
Qed.

End end_to_end.

(** Two fragments of the frame of [[5; 6]]. *)
Lemma receive_any_fragmentation_witness :
  exists s0 o0 s' o,
    handle_accept (Build_father false false 1) 3 construct = Ret (tt, s0, o0) /\ armed o0 = true /\
    feed None [[12; 0; 0; 0; 0]; [0; 1; 2; 3; 4; 5; 6; 12]] s0 = Ret (s', o, true) /\
    pushed o = [mk_message [5; 6]] /\
    m_recive_buffer_pos s' = Z.of_nat (length [12]) /\ take (length [12]) (m_recv_buffer s') = [12].
Proof.
  apply (receive_any_fragmentation None (Build_father false false 1) 3
    [[12; 0; 0; 0; 0]; [0; 1; 2; 3; 4; 5; 6; 12]] [mk_message [5; 6]] (Rest [12])).
  - repeat constructor; simpl; lia.
  - vm_compute. reflexivity.
Defined.

Lemma frames_survive_transport_witness :
  exists s0 o0 s' o,
    handle_accept (Build_father false false 1) 3 construct = Ret (tt, s0, o0) /\
    feed None [data (_compress_message None (fun _ => 0xcd) [1; 2; 3]);
               data (_compress_message None (fun _ => 0) [4; 5])] s0 = Ret (s', o, true) /\
    map data (pushed o) = [[1; 2; 3]; [4; 5]] /\ m_recive_buffer_pos s' = 0.
Proof.
  apply (frames_survive_transport None (Build_father false false 1) 3
    [((fun _ => 0xcd), [1; 2; 3]); ((fun _ => 0), [4; 5])]).
  - repeat constructor; unfold is_u8; simpl; lia.
  - repeat constructor; vm_compute; congruence.
  - vm_compute. reflexivity.
Defined.

(** C2: the send side is a FIFO of bytes.  In every reachable state of a session
    that started idle, the bytes on the wire, then the block of the outstanding
    [async_write], then the frames still queued, are exactly the frames
    accepted, in order; [m_sending_data] still holds that block (no other thread
    overwrote it); at most one write is outstanding; and [m_not_sent_size] is
    the number of accepted bytes not yet acknowledged. *)
Theorem send_queue_fifo s c :
  idle s -> reachable s c ->
  wire c ++ inflight_bytes c ++ frames_bytes (m_queue_send_msg (ses c)) = frames_bytes (accepted c) /\
  (forall b, inflight c = Some b -> take (length b) (m_sending_data (ses c)) = b) /\
  (m_is_sending_data (ses c) = true <-> inflight c <> None) /\
  m_not_sent_size (ses c) =
    Z.of_nat (length (frames_bytes (accepted c))) - Z.of_nat (length (wire c)) + sum (acks c).
Proof.
  intros Hi Hr. destruct (reachable_ok s c Hi Hr) as [Hflag Hbuf Hsize Hfifo Hcount Hwake].
  split_and!; try done.
  - rewrite Hflag. destruct (inflight c); split; congruence.
  - rewrite Hcount, <- Hfifo, !length_app. lia.
Qed.

(** C7: no wake-up is lost.  A connected session with nothing left to run (no
    posted handler, no outstanding write, no completion in progress) and not
    being closed has sent every byte of every frame it accepted. *)
Theorem send_queue_quiescent s c :
  idle s -> reachable s c ->
  m_isconnected (ses c) = true -> closing c = false ->
  posted c = 0%nat -> inflight c = None -> acks c = [] ->
  wire c = frames_bytes (accepted c) /\ m_queue_send_msg (ses c) = [] /\ m_not_sent_size (ses c) = 0.
Proof.
  intros Hi Hr Hc Hcl Hp Hin Ha.
  destruct (reachable_ok s c Hi Hr) as [Hflag Hbuf Hsize Hfifo Hcount Hwake].
  destruct (m_queue_send_msg (ses c)) as [|m q] eqn:Hq.
  - unfold inflight_bytes in *. rewrite Hin, ?Ha in *. rewrite <- Hfifo, Hcount.
    cbn [app frames_bytes map concat]. rewrite !app_nil_r. done.
  - destruct Hwake as [H1|[H1|H1]]; [done..| | |]; [lia|congruence|congruence].
Qed.

Definition idle_session : tcp_session := accepted_session (Build_father false false 1) 0.

Definition one_sent : conn :=
  mk_conn (set_send idle_session [mk_message [1; 2]] (m_sending_data idle_session) false 2)
    1 None [] [] [mk_message [1; 2]] false.

Lemma one_sent_reachable : reachable idle_session one_sent.
Proof.
  eapply rtc_l; [|apply rtc_refl].
  exact (step_send (initial idle_session) (mk_message [1; 2]) (ses one_sent) [PostWrite] eq_refl eq_refl).
Qed.

Lemma send_queue_fifo_witness :
  wire one_sent ++ inflight_bytes one_sent ++ frames_bytes (m_queue_send_msg (ses one_sent)) = [1; 2].
Proof. exact (proj1 (send_queue_fifo idle_session one_sent ltac:(done) one_sent_reachable)). Defined.

Definition written : tcp_session :=
  set_send idle_session [] (blit (m_sending_data idle_session) 0 [1; 2]) false 0.

(** Sent, written, completed, acknowledged. *)
Definition all_sent : conn := mk_conn written 0 None [] [1; 2] [mk_message [1; 2]] false.

Lemma all_sent_reachable : reachable idle_session all_sent.
Proof.
  eapply rtc_r; [eapply rtc_r; [eapply rtc_r; [exact one_sent_reachable|]|]|].
  - eapply (step_posted one_sent); [reflexivity|]. reflexivity.
  - eapply step_complete; reflexivity.
  - exact (step_ack (mk_conn (set_send written [] (m_sending_data written) false 2) 0 None [2] [1; 2]
      [mk_message [1; 2]] false) 2 [] [] written [] eq_refl eq_refl).
Qed.

Lemma send_queue_quiescent_witness : wire all_sent = [1; 2].
Proof.
  exact (proj1 (send_queue_quiescent idle_session all_sent ltac:(done) all_sent_reachable
    eq_refl eq_refl eq_refl eq_refl eq_refl)).
Defined.

(** A frame above [MAX_MESSAGE_LEN] at the head of the queue is never written:
    every write sends an empty block and leaves the queue as it was. *)
Lemma oversize_head_stuck s m q k :
  m_isconnected s = true -> m_is_sending_data s = false ->
  m_queue_send_msg s = m :: q -> MAX_MESSAGE_LEN < Message.len m ->
  exists s', _write_message k s = Ret (tt, s', [AsyncWrite []]) /\ m_queue_send_msg s' = m :: q.
Proof.
  intros Hc Hs Hq Hm. unfold _write_message.
  rewrite (mbind_run (mmodify _) _ s tt _ []) by reflexivity.
  rewrite (mbind_run mget _ _ _ _ []) by reflexivity.
  cbn [set_send m_isconnected m_is_sending_data m_queue_send_msg m_sending_data].
  rewrite Hc, Hs, Hq. cbn [negb pack].
  destruct (Z.leb_spec (0 + Message.len m) MAX_MESSAGE_LEN); [lia|].
  eexists. split; reflexivity.
Qed.

(** [send_message] bounds the payload, not the frame: payloads of 64991 to
    64999 bytes are accepted and their frames exceed what [_write_message] can
    send and what the receiver accepts. *)
Lemma send_message_accepts_oversize junk s d f :
  m_isvalid s = true -> m_isconnected s = true -> m_father s = Some f ->
  is_limit_mode f = false -> m_iscompress s = false -> m_queue_send_msg s = [] ->
  (forall i, is_u8 (junk i)) ->
  64990 < Z.of_nat (length d) < 65000 ->
  exists s' m, send_message None junk (Some d) s = Ret (tt, s', [PostWrite]) /\
    m_queue_send_msg s' = [m] /\ MAX_MESSAGE_LEN < Message.len m /\
    bad_len (get_u32 (data m) 0) = true.
Proof.
  intros Hv Hc Hf Hlim Hcomp Hq Hj Hlen.
  unfold send_message, is_valid. rewrite (mbind_run mget _ s s s []) by done.
  rewrite Hv, Hc, Hf, Hcomp. cbn [negb orb].
  destruct (Z.eqb_spec (Z.of_nat (length d)) 0); [lia|].
  destruct (Z.ltb_spec (MAX_MESSAGE_LEN - 1) (Z.of_nat (length d))); [unfold MAX_MESSAGE_LEN in *; lia|].
  cbn [orb]. unfold _send_message, _make_message.
  set (m := makeMessage junk d false).
  rewrite (mbind_run mget _ s s s []) by done. rewrite Hc. cbn [negb].
  set (s1 := set_send s _ _ _ _). rewrite (mbind_run (mput s1) _ s tt s1 []) by done.
  rewrite (mbind_run mget _ s1 s1 s1 []) by done.
  change (m_father s1) with (m_father s). rewrite Hf, Hlim. cbn [andb].
  assert (Hm : data m = frame (mask_value junk false) (Ssl.sslCrc32 (Some d)) d)
    by (apply makeMessage_layout; done || lia).
  exists s1, m. split; [reflexivity|]. split; [cbn; by rewrite Hq|].
  unfold Message.len. rewrite Hm, length_frame. split; [unfold MAX_MESSAGE_LEN; lia|].
  destruct (frame_fields (mask_value junk false) (Ssl.sslCrc32 (Some d)) d []
    (mask_value_u16 junk false Hj) ltac:(lia)) as (Hg & _ & _).
  rewrite app_nil_r in Hg. rewrite Hg. unfold bad_len, MAX_MESSAGE_LEN.
  apply orb_true_iff. right. apply Z.ltb_lt. lia.
Qed.
