(* ===== verification/TcpServer.v ===== *)
(** [common/tcpserver.h/.cpp]: the listening side of every server process (the
    pool of session objects, the accept loop, the ban list, the choice of a worker
    thread), and [common/io_service_pool.cpp] (the choice of an [io_service]).

    The session objects are those of [TcpSession].  What boost.asio and the
    call-back queue still owe the server is part of the state: the accepts under
    way ([accepting]), the posted [tcp_session::handle_accept] ([posted]) and the
    queued [on_close] call-backs ([closing]). *)

From S2P Require Import Prelude MessageInterface TcpSession.
From stdpp Require Import prelude gmap strings list relations.
#[local] Open Scope Z_scope.

Module TcpServer.
Import Message TcpSession.

(** [class tcp_server]; [objs] are the session objects it has created. *)
Record tcp_server : Type := mk_server {
  m_sessions : list Z;
  m_accepting_count : Z;
  m_poolcount : Z;
  m_thread_count : Z;
  m_cur_thread_index : Z;
  m_ttti_mode : bool;
  m_limit_mode : bool;
  m_unix_time : Z;
  m_banip : gmap Z (Z * ban_reason_t);
  objs : gmap Z tcp_session;
  next_obj : Z;
  accepting : list Z;
  posted : list Z;
  closing : list Z
}.

Inductive effect : Type :=
| AsyncAccept (p : Z)
| OfSession (p : Z) (e : TcpSession.effect).

Abbreviation Srv := (M tcp_server effect).

(** The constructor, at time [now]. *)
Definition construct (now : Z) : tcp_server :=
  mk_server [] 0 0 0 0 false false (u32 now) ∅ ∅ 0 [] [] [].

(** *** Field updates *)

Definition set_pool (s : tcp_server) l n : tcp_server :=
  mk_server l n (m_poolcount s) (m_thread_count s) (m_cur_thread_index s) (m_ttti_mode s)
    (m_limit_mode s) (m_unix_time s) (m_banip s) (objs s) (next_obj s) (accepting s) (posted s) (closing s).
Definition set_threads (s : tcp_server) pool n i : tcp_server :=
  mk_server (m_sessions s) (m_accepting_count s) pool n i (m_ttti_mode s)
    (m_limit_mode s) (m_unix_time s) (m_banip s) (objs s) (next_obj s) (accepting s) (posted s) (closing s).
Definition set_time (s : tcp_server) t : tcp_server :=
  mk_server (m_sessions s) (m_accepting_count s) (m_poolcount s) (m_thread_count s) (m_cur_thread_index s) (m_ttti_mode s)
    (m_limit_mode s) t (m_banip s) (objs s) (next_obj s) (accepting s) (posted s) (closing s).
Definition set_banip (s : tcp_server) b : tcp_server :=
  mk_server (m_sessions s) (m_accepting_count s) (m_poolcount s) (m_thread_count s) (m_cur_thread_index s) (m_ttti_mode s)
    (m_limit_mode s) (m_unix_time s) b (objs s) (next_obj s) (accepting s) (posted s) (closing s).
Definition set_objs (s : tcp_server) o n : tcp_server :=
  mk_server (m_sessions s) (m_accepting_count s) (m_poolcount s) (m_thread_count s) (m_cur_thread_index s) (m_ttti_mode s)
    (m_limit_mode s) (m_unix_time s) (m_banip s) o n (accepting s) (posted s) (closing s).
Definition set_owed (s : tcp_server) a p c : tcp_server :=
  mk_server (m_sessions s) (m_accepting_count s) (m_poolcount s) (m_thread_count s) (m_cur_thread_index s) (m_ttti_mode s)
    (m_limit_mode s) (m_unix_time s) (m_banip s) (objs s) (next_obj s) a p c.

(** *** Sessions *)

(** What a session reads of its server. *)
Definition as_father (s : tcp_server) : father :=
  {| is_limit_mode := m_limit_mode s; is_thread_task_transfer_id_mode := m_ttti_mode s;
     get_task_thread_count := m_thread_count s |}.

(** Run a method of session [p]; the result lists its effects. *)
Definition run_session {A} (p : Z) (m : H A) : Srv (A * list TcpSession.effect) :=
  s <- mget ;;
  match objs s !! p with
  | None => mub "null tcp_session"
  | Some x =>
      match m x with
      | UB why => mub why
      | Ret (a, x', o) => mput (set_objs s (<[p := x']> (objs s)) (next_obj s)) ;;; mret' (a, o)
      end
  end.

(** [free_session]: [p->reset (); p->set_valid (false); push_back]. *)
Definition free_session (p : Z) : Srv unit :=
  _ <- run_session p (reset ;;; mmodify (fun x => set_conn x (m_isconnected x) false (m_thread_index x))) ;;
  mmodify (fun s => set_pool s (m_sessions s ++ [p]) (m_accepting_count s)).

(** The effects of a session on its own server are performed, the others leave
    the process. *)
Definition deliver (p : Z) (e : TcpSession.effect) : Srv unit :=
  match e with
  | FreeSession => free_session p
  | CbOnClose _ => mmodify (fun s => set_owed s (accepting s) (posted s) (closing s ++ [p]))
  | _ => memit (OfSession p e)
  end.

Definition call_session {A} (p : Z) (m : H A) : Srv unit :=
  r <- run_session p m ;; mfor r.2 (deliver p).

(** [create_session] of the servers: [new] of a subclass of [tcp_session]. *)
Definition create_session : Srv Z :=
  s <- mget ;;
  let p := next_obj s in
  mput (set_objs s (<[p := TcpSession.construct]> (objs s)) (p + 1)) ;;;
  mret' p.

(** [create] after the listening socket is open; [m_ttp->startup] starts threads. *)
Definition create (poolcount thread_count : Z) : Srv unit :=
  mmodify (fun s => set_threads s (if poolcount =? 0 then 20 else poolcount) thread_count (m_cur_thread_index s)) ;;;
  s <- mget ;;
  mfor (seq 0 (Z.to_nat (m_poolcount s))) (fun _ => p <- create_session ;; free_session p).

Definition generate_thread_index : Srv Z :=
  s <- mget ;;
  let i := m_cur_thread_index s in
  let n := if m_thread_count s <=? i + 1 then 0 else i + 1 in
  mput (set_threads s (m_poolcount s) (m_thread_count s) n) ;;;
  mret' (if m_thread_count s <=? i then 0 else i).

(** *** The ban list; times are seconds in 32 bits *)

Definition is_ban_ip (addr : Z) : Srv bool :=
  s <- mget ;;
  match m_banip s !! addr with
  | Some (until, _) =>
      if until <? m_unix_time s then mput (set_banip s (delete addr (m_banip s))) ;;; mret' false
      else mret' true
  | None => mret' false
  end.

Definition add_ban_ip (addr sec : Z) (br : ban_reason_t) : Srv unit :=
  s <- mget ;;
  match m_banip s !! addr with
  | Some (until, _) => if until <? sec then mput (set_banip s (<[addr := (sec, br)]> (m_banip s))) else mret' tt
  | None => mput (set_banip s (<[addr := (u32 (m_unix_time s + sec), br)]> (m_banip s)))
  end.

Definition remove_ban_ip (addr : Z) : Srv unit :=
  mmodify (fun s => set_banip s (delete addr (m_banip s))).

(** *** Accepting *)

(** One turn of the loop of [_real_run]; [p] is at the front of [m_sessions]. *)
Definition accept_one (p : Z) (rest : list Z) : Srv unit :=
  _ <- run_session p (mmodify (fun x => set_conn x (m_isconnected x) true (m_thread_index x))) ;;
  memit (AsyncAccept p) ;;;
  mmodify (fun s => set_owed (set_pool s rest (u32 (m_accepting_count s + 1)))
                      (accepting s ++ [p]) (posted s) (closing s)).

(** [while (m_accepting_count < s_io_once_listen_session_count)]; [l] is
    [m_sessions]. *)
Fixpoint accept_loop (limit : Z) (l : list Z) : Srv unit :=
  match l with
  | [] => mret' tt
  | p :: rest =>
      s <- mget ;;
      if m_accepting_count s <? limit then accept_one p rest ;;; accept_loop limit rest else mret' tt
  end.

(** [_real_run] up to [m_cb_mgr.poll ()]; the call-backs and the messages are
    steps of their own ([Receive]). *)
Definition _real_run (now limit : Z) : Srv unit :=
  mmodify (fun s => set_time s (u32 now)) ;;;
  s <- mget ;;
  accept_loop (u32 limit) (m_sessions s).

(** The dispatch of a received message: whether [msg->from->proc_message] runs. *)
Definition message_wanted (s : tcp_server) (from : Z) : bool :=
  match objs s !! from with
  | Some x => is_valid x && m_isconnected x
  | None => false
  end.

(** [handle_accept]; [addr] is the peer's address. *)
Definition handle_accept (p addr : Z) (error : bool) : Srv unit :=
  mmodify (fun s => set_owed (set_pool s (m_sessions s) (u32 (m_accepting_count s - 1)))
                      (accepting s) (posted s) (closing s)) ;;;
  banned <- is_ban_ip addr ;;
  if banned then call_session p handle_close ;;; free_session p
  else if negb error then mmodify (fun s => set_owed s (accepting s) (posted s ++ [p]) (closing s))
  else call_session p handle_close ;;; free_session p.

(** [tcp_session::handle_accept (this)] as posted. *)
Definition session_accepted (p : Z) : Srv unit :=
  ti <- generate_thread_index ;;
  s <- mget ;;
  call_session p (TcpSession.handle_accept (as_father s) ti).

(** *** Everything that happens to the server *)

Inductive event : Type :=
| Create (poolcount thread_count : Z)
| Run (now limit : Z)
| Accepted (p addr : Z) (error : bool)
| PostedAccept (p : Z)
| ConnectionLost (p : Z) (error : bool)
| PolledClose (p : Z)
| Ban (addr sec : Z) (br : ban_reason_t)
| Unban (addr : Z).

(** Remove the first occurrence: the completion is delivered once. *)
Fixpoint remove_first (p : Z) (l : list Z) : list Z :=
  match l with
  | [] => []
  | q :: l' => if q =? p then l' else q :: remove_first p l'
  end.

(** [enabled]: boost.asio runs a handler that is pending; a session closes on an
    error of its own reads and writes, which are checked for validity. *)
Definition enabled (e : event) (s : tcp_server) : bool :=
  match e with
  | Create _ _ => m_poolcount s =? 0
  | Accepted p _ _ => bool_decide (p ∈ accepting s)
  | PostedAccept p => bool_decide (p ∈ posted s)
  | ConnectionLost p _ => match objs s !! p with Some x => is_valid x | None => false end
  | PolledClose p => bool_decide (p ∈ closing s)
  | _ => true
  end.

Definition handle (e : event) : Srv unit :=
  match e with
  | Create poolcount thread_count => create poolcount thread_count
  | Run now limit => _real_run now limit
  | Accepted p addr error =>
      mmodify (fun s => set_owed s (remove_first p (accepting s)) (posted s) (closing s)) ;;;
      handle_accept p addr error
  | PostedAccept p =>
      mmodify (fun s => set_owed s (accepting s) (remove_first p (posted s)) (closing s)) ;;;
      session_accepted p
  | ConnectionLost p error => call_session p (_on_close error)
  | PolledClose p =>
      mmodify (fun s => set_owed s (accepting s) (posted s) (remove_first p (closing s))) ;;;
      call_session p on_close
  | Ban addr sec br => add_ban_ip addr sec br
  | Unban addr => remove_ban_ip addr
  end.

(** A run of the server over a list of events. *)
Definition run (l : list event) : Srv unit :=
  mfor l (fun e => s <- mget ;; if enabled e s then handle e else mret' tt).

End TcpServer.

(** The listening socket and the threads of a [tcp_server]: the pointers that
    [create] and [stop] manage. *)
Module Listener.

Inductive pointer : Set := Null | Alive | Deleted.

Record listener : Type := mk_listener { m_acceptor : pointer; m_ttp : pointer; m_thread_buffer : pointer }.

(** [new task_thread_pool] in the constructor. *)
Definition construct : listener := mk_listener Null Alive Null.

(** [if (p) delete p], and a call through [p]. *)
Definition release (p : pointer) : outcome unit :=
  match p with Deleted => UB "delete of a deleted object" | _ => Ret tt end.
Definition use (p : pointer) : outcome unit :=
  match p with Alive => Ret tt | _ => UB "call through a null or deleted pointer" end.

Definition also {A} (m : outcome unit) (k : outcome A) : outcome A :=
  match m with Ret _ => k | UB why => UB why end.

(** [create]; [listens] says whether opening, binding and listening succeed. *)
Definition create (listens : bool) (l : listener) : outcome (bool * listener) :=
  also (release (m_acceptor l))
    (if negb listens then Ret (false, mk_listener Alive (m_ttp l) (m_thread_buffer l))
     else
       also (use (m_ttp l)) (also (release (m_thread_buffer l))
         (Ret (true, mk_listener Alive (m_ttp l) Alive)))).

Definition deleted (p : pointer) : pointer := match p with Null => Null | _ => Deleted end.

(** [stop]: none of the pointers is cleared. *)
Definition stop (l : listener) : outcome listener :=
  also (use (m_acceptor l)) (also (use (m_ttp l))
    (also (release (m_acceptor l)) (also (release (m_ttp l)) (also (release (m_thread_buffer l))
      (Ret (mk_listener (deleted (m_acceptor l)) (deleted (m_ttp l)) (deleted (m_thread_buffer l)))))))).

End Listener.

Import TcpSession TcpServer.

(** ** What the session's methods do to its father *)

Definition reset_of (x : tcp_session) : tcp_session :=
  TcpSession.mk_session false None [] (m_recv_buffer x) 0 (m_iscompress x) false false 0
    (m_sending_data x) false 0.

Lemma reset_run x :
  (reset ;;; mmodify (fun x => set_conn x (m_isconnected x) false (m_thread_index x))) x = Ret (tt, reset_of x, []).
Proof. reflexivity. Qed.

Lemma handle_close_run x : handle_close x = Ret (tt, set_conn x false (m_isvalid x) 0, [SocketClose]).
Proof. reflexivity. Qed.

Lemma session_accept_run f ti x :
  exists x', TcpSession.handle_accept f ti x = Ret (tt, x', [AsyncRead; CbOnAccept; AddSession]) /\ m_father x' = Some f.
Proof. eexists. split; reflexivity. Qed.

Lemma on_close_run x :
  on_close x = Ret (tt, x, match m_father x with Some _ => [FreeSession; DelSession] | None => [] end).
Proof. unfold on_close, mbind', mget. destruct (m_father x); reflexivity. Qed.

Lemma _on_close_run e x :
  exists x', _on_close e x =
    Ret (tt, x', SocketClose :: match m_father x with Some _ => [CbOnClose e] | None => [] end) /\
    m_father x' = m_father x.
Proof. destruct x as [? [f|] ? ? ? ? ? ? ? ? ? ?]; eexists; split; reflexivity. Qed.

(** ** The pool of sessions *)

(** The sessions that serve no connection are exactly those in the pool, being
    accepted or accepted and posted, each once; [held] are those a handler has in
    hand. *)
Record pool_ok (held : list Z) (s : tcp_server) : Prop := {
  ok_nodup : NoDup (held ++ m_sessions s ++ accepting s ++ posted s);
  ok_idle : forall p, p ∈ held ++ m_sessions s ++ accepting s ++ posted s <->
                      exists x, objs s !! p = Some x /\ m_father x = None;
  ok_count : m_accepting_count s = Z.of_nat (length (accepting s));
  ok_small : Z.of_nat (length (accepting s)) < 2 ^ 32;
  ok_closing : forall p, p ∈ closing s -> is_Some (objs s !! p);
  ok_fresh : forall p x, objs s !! p = Some x -> p < next_obj s
}.

(** Operations that touch neither the pool nor the objects. *)
Lemma pool_ok_same held s s' :
  m_sessions s' = m_sessions s -> accepting s' = accepting s -> posted s' = posted s ->
  closing s' = closing s -> objs s' = objs s -> next_obj s' = next_obj s ->
  m_accepting_count s' = m_accepting_count s -> pool_ok held s -> pool_ok held s'.
Proof. intros H1 H2 H3 H4 H5 H6 H7 []. constructor; rewrite ?H1, ?H2, ?H3, ?H4, ?H5, ?H6, ?H7; auto. Qed.

(** Replacing an object by one with a server iff the old one had. *)
Lemma pool_ok_object held s p x x' :
  objs s !! p = Some x -> (m_father x' = None <-> m_father x = None) ->
  pool_ok held s -> pool_ok held (set_objs s (<[p := x']> (objs s)) (next_obj s)).
Proof.
  intros Hx Hf []. constructor; cbn; auto.
  - intros q. rewrite ok_idle0. destruct (decide (q = p)) as [->|].
    + rewrite lookup_insert_eq, Hx. naive_solver.
    + by rewrite lookup_insert_ne.
  - intros q Hq. destruct (decide (q = p)) as [->|]; [rewrite lookup_insert_eq; eauto|].
    rewrite lookup_insert_ne; auto.
  - intros q y. destruct (decide (q = p)) as [->|]; [|rewrite lookup_insert_ne; eauto].
    intros _. eauto.
Qed.

(** [p] ends in the pool with no server. *)
Definition freed (s : tcp_server) (p : Z) (x : tcp_session) : tcp_server :=
  set_pool (set_objs s (<[p := reset_of x]> (objs s)) (next_obj s)) (m_sessions s ++ [p]) (m_accepting_count s).

Lemma free_session_run s p x :
  objs s !! p = Some x -> free_session p s = Ret (tt, freed s p x, []).
Proof.
  intros Hx. unfold free_session, run_session, mbind', mget. rewrite Hx, reset_run. reflexivity.
Qed.

(** Elements of the four lists, whatever their order. *)
Ltac elem := rewrite ?elem_of_app, ?list_elem_of_singleton, ?elem_of_cons in *; naive_solver.

Lemma freed_ok held held' s p x :
  objs s !! p = Some x ->
  (held = p :: held' \/ (held = held' /\ m_father x <> None)) ->
  pool_ok held s -> pool_ok held' (freed s p x).
Proof.
  intros Hx Hh []. assert (Hn : p ∉ held' ++ m_sessions s ++ accepting s ++ posted s).
  { destruct Hh as [->|[-> Hf]]; [by inversion ok_nodup0|].
    intros [y [Hy Hy']]%ok_idle0. rewrite Hx in Hy. by injection Hy as ->. }
  constructor; cbn; auto.
  - assert (HN : NoDup (p :: held' ++ m_sessions s ++ accepting s ++ posted s)).
    { destruct Hh as [->|[-> _]]; [done|]. by constructor. }
    revert HN. apply NoDup_Permutation_proper. rewrite <- app_assoc. cbn. solve_Permutation.
  - intros q. destruct (decide (q = p)) as [->|Hq].
    + rewrite lookup_insert_eq. split; [eauto|]. intros _. elem.
    + rewrite lookup_insert_ne, <- ok_idle0 by done. destruct Hh as [->|[-> _]]; elem.
  - intros q Hq. destruct (decide (q = p)) as [->|]; [rewrite lookup_insert_eq; eauto|].
    rewrite lookup_insert_ne; auto.
  - intros q y. destruct (decide (q = p)) as [->|]; [|rewrite lookup_insert_ne; eauto].
    intros _. eauto.
Qed.

(** A new object is in hand. *)
Lemma created_ok s :
  pool_ok [] s ->
  pool_ok [next_obj s] (set_objs s (<[next_obj s := TcpSession.construct]> (objs s)) (next_obj s + 1)).
Proof.
  intros []. assert (Hn : objs s !! next_obj s = None).
  { destruct (objs s !! next_obj s) eqn:Hx; [|done]. apply ok_fresh0 in Hx. lia. }
  constructor; cbn; auto.
  - constructor; [|done]. intros [x [Hx _]]%ok_idle0. congruence.
  - intros q. destruct (decide (q = next_obj s)) as [->|].
    + rewrite lookup_insert_eq. split; [eauto|]. intros _. elem.
    + rewrite lookup_insert_ne by done. rewrite <- (ok_idle0 q). cbn. clear -n. set_solver.
  - intros q Hq. destruct (decide (q = next_obj s)) as [->|]; [rewrite lookup_insert_eq; eauto|].
    rewrite lookup_insert_ne; auto.
  - intros q y. destruct (decide (q = next_obj s)) as [->|]; [lia|].
    rewrite lookup_insert_ne by done. intros ?%ok_fresh0. lia.
Qed.

Lemma free_session_held s p held :
  pool_ok (p :: held) s -> wp (free_session p) (fun _ s' _ => pool_ok held s') s.
Proof.
  intros Hok. destruct (proj1 (ok_idle _ _ Hok p)) as (x & Hx & _); [elem|].
  unfold run_post. rewrite (free_session_run s p x Hx). eapply freed_ok; eauto.
Qed.

Lemma create_wp s n t : pool_ok [] s -> wp (create n t) (fun _ s' _ => pool_ok [] s') s.
Proof.
  intros Hok. unfold create. wp_steps.
  eapply (wp_for False (fun s' _ => pool_ok [] s') _ _ _ []).
  - cbn. eapply pool_ok_same; [..|exact Hok]; done.
  - intros _ s1 tr _ H1. unfold create_session. wp_steps. apply free_session_held, created_ok, H1.
Qed.

(** The front of the pool goes to [async_accept]. *)
Lemma accept_one_wp s p rest limit :
  m_sessions s = p :: rest -> m_accepting_count s < u32 limit -> pool_ok [] s ->
  wp (accept_one p rest)
     (fun _ s' _ => pool_ok [] s' /\ m_sessions s' = rest /\ m_accepting_count s' = m_accepting_count s + 1) s.
Proof.
  intros Hs Hl Hok. destruct (proj1 (ok_idle _ _ Hok p)) as (x & Hx & Hf); [rewrite Hs; elem|].
  unfold accept_one. wp_steps. unfold run_post at 1, run_session, mbind', mget. rewrite Hx. cbn.
  eapply (pool_ok_object [] s p x (set_conn x (m_isconnected x) true (m_thread_index x)) Hx) in Hok; [|done].
  assert (Hc : u32 (m_accepting_count s + 1) = m_accepting_count s + 1).
  { apply u32_id. pose proof (ok_count _ _ Hok) as Hcnt. cbn in Hcnt. pose proof (u32_range limit). mach. }
  split; [|by rewrite Hc].
  destruct Hok. rewrite Hc. constructor; cbn in *; auto.
  - revert ok_nodup0. rewrite Hs. apply NoDup_Permutation_proper. solve_Permutation.
  - intros q. rewrite <- ok_idle0, Hs. elem.
  - rewrite length_app. cbn. lia.
  - rewrite length_app. cbn. pose proof (u32_range limit). mach.
Qed.

(** The accept loop fills the accepts up to [limit], or empties the pool. *)
Lemma accept_loop_wp limit l s :
  m_sessions s = l -> pool_ok [] s ->
  wp (accept_loop (u32 limit) l)
     (fun _ s' _ => pool_ok [] s' /\ (m_sessions s' = [] \/ u32 limit <= m_accepting_count s')) s.
Proof.
  revert s. induction l as [|p l IH]; intros s Hs Hok; cbn [accept_loop]; wp_steps; [by auto|].
  case_match eqn:Hlt; wp_steps; [|split; [done|right; apply Z.ltb_ge in Hlt; lia]].
  apply Z.ltb_lt in Hlt. eapply wp_mono; [by eapply accept_one_wp|].
  intros u s1 o1 (H1 & H2 & _). by apply IH.
Qed.

Lemma real_run_wp now limit s :
  pool_ok [] s ->
  wp (_real_run now limit)
     (fun _ s' _ => pool_ok [] s' /\ (m_sessions s' = [] \/ u32 limit <= m_accepting_count s')) s.
Proof.
  intros Hok. unfold _real_run. wp_steps. apply accept_loop_wp; [done|].
  eapply pool_ok_same; [..|exact Hok]; done.
Qed.

(** The ban list is apart from the pool. *)
Lemma is_ban_ip_wp held addr s :
  pool_ok held s ->
  wp (is_ban_ip addr) (fun _ s' _ => pool_ok held s' /\ objs s' = objs s) s.
Proof.
  intros Hok. unfold is_ban_ip. wp_steps.
  destruct (m_banip s !! addr) as [[until br]|]; [case_match|]; wp_steps; split; try done.
  eapply pool_ok_same; [..|exact Hok]; done.
Qed.

Lemma add_ban_ip_wp addr sec br s : pool_ok [] s -> wp (add_ban_ip addr sec br) (fun _ s' _ => pool_ok [] s') s.
Proof.
  intros Hok. unfold add_ban_ip. wp_steps.
  destruct (m_banip s !! addr) as [[until ?]|]; [case_match|]; wp_steps; try done;
    (eapply pool_ok_same; [..|exact Hok]; done).
Qed.

(** A session closed in hand goes back to the pool. *)
Lemma close_and_free_wp s p :
  pool_ok [p] s -> wp (call_session p handle_close ;;; free_session p) (fun _ s' _ => pool_ok [] s') s.
Proof.
  intros Hok. destruct (proj1 (ok_idle _ _ Hok p)) as (x & Hx & Hf); [elem|].
  unfold call_session. wp_steps. unfold run_post at 1, run_session, mbind', mget. rewrite Hx, handle_close_run. cbn.
  apply free_session_held. eapply pool_ok_object; eauto.
Qed.

Lemma remove_first_perm p l : p ∈ l -> l ≡ₚ p :: remove_first p l.
Proof.
  induction l as [|q l IH]; [by intros ?%elem_of_nil|]. cbn [remove_first].
  destruct (Z.eqb_spec q p) as [->|Hq]; [done|].
  intros [->|Hin]%elem_of_cons; [done|]. rewrite (IH Hin) at 1. apply Permutation_swap.
Qed.

(** Taking a pending session in hand. *)
Lemma take_accepting s p :
  p ∈ accepting s -> pool_ok [] s ->
  pool_ok [p] (set_owed (set_pool s (m_sessions s) (u32 (m_accepting_count s - 1)))
                 (remove_first p (accepting s)) (posted s) (closing s)).
Proof.
  intros Hp []. pose proof (remove_first_perm p _ Hp) as HP.
  pose proof (Permutation_length HP) as Hl. cbn in Hl.
  assert (HL : [p] ++ m_sessions s ++ remove_first p (accepting s) ++ posted s
               ≡ₚ [] ++ m_sessions s ++ accepting s ++ posted s).
  { rewrite HP at 2. cbn. solve_Permutation. }
  constructor; cbn [m_sessions accepting posted closing objs next_obj m_accepting_count set_owed set_pool]; auto.
  - by rewrite HL.
  - intros q. by rewrite HL.
  - rewrite u32_id; [lia|mach].
  - lia.
Qed.

Lemma take_posted s p :
  p ∈ posted s -> pool_ok [] s ->
  pool_ok [p] (set_owed s (accepting s) (remove_first p (posted s)) (closing s)).
Proof.
  intros Hp []. pose proof (remove_first_perm p _ Hp) as HP.
  assert (HL : [p] ++ m_sessions s ++ accepting s ++ remove_first p (posted s)
               ≡ₚ [] ++ m_sessions s ++ accepting s ++ posted s).
  { rewrite HP at 2. cbn. solve_Permutation. }
  constructor; cbn [m_sessions accepting posted closing objs next_obj m_accepting_count set_owed]; auto.
  - by rewrite HL.
  - intros q. by rewrite HL.
Qed.

Lemma accepted_wp s p addr error :
  p ∈ accepting s -> pool_ok [] s -> wp (handle (Accepted p addr error)) (fun _ s' _ => pool_ok [] s') s.
Proof.
  intros Hp Hok. cbn [handle]. unfold handle_accept. wp_steps.
  eapply wp_mono; [apply is_ban_ip_wp, (take_accepting s p Hp Hok)|].
  intros banned s1 o1 (H1 & _). destruct banned; [by apply close_and_free_wp|].
  destruct error; cbn [negb]; [by apply close_and_free_wp|]. wp_steps.
  destruct H1. constructor; cbn in *; auto.
  - revert ok_nodup0. apply NoDup_Permutation_proper. solve_Permutation.
  - intros q. rewrite <- ok_idle0. clear. set_solver.
Qed.

(** A session in hand gets the server and leaves the hands. *)
Lemma session_accepted_wp s p :
  pool_ok [p] s -> wp (session_accepted p) (fun _ s' _ => pool_ok [] s') s.
Proof.
  intros Hok. unfold session_accepted, generate_thread_index. wp_steps.
  set (s1 := set_threads _ _ _ _). apply (pool_ok_same _ _ s1) in Hok; [|reflexivity..]. clearbody s1.
  destruct (proj1 (ok_idle _ _ Hok p)) as (x & Hx & Hf); [elem|].
  unfold call_session. wp_steps. unfold run_post at 1, run_session, mbind', mget. rewrite Hx.
  match goal with |- context [TcpSession.handle_accept ?f ?ti x] =>
    destruct (session_accept_run f ti x) as (x' & Hr & Hf') end.
  rewrite Hr. cbn. destruct Hok as [Hnd Hid Hcnt Hsm Hcl Hfr]. constructor; cbn in *; auto.
  - by inversion Hnd.
  - intros q. destruct (decide (q = p)) as [->|Hq].
    + rewrite lookup_insert_eq. split; [by inversion Hnd|]. intros (y & [= <-] & ?). congruence.
    + rewrite lookup_insert_ne, <- Hid by done. clear -Hq. set_solver.
  - intros q Hq. destruct (decide (q = p)) as [->|]; [rewrite lookup_insert_eq; eauto|].
    rewrite lookup_insert_ne; auto.
  - intros q y. destruct (decide (q = p)) as [->|]; [|rewrite lookup_insert_ne; eauto]. eauto.
Qed.

(** A server's session that loses its connection owes an [on_close]. *)
Lemma lost_wp s p x error :
  objs s !! p = Some x -> pool_ok [] s ->
  wp (handle (ConnectionLost p error)) (fun _ s' _ => pool_ok [] s') s.
Proof.
  intros Hx Hok. cbn [handle]. unfold call_session. wp_steps.
  unfold run_post at 1, run_session, mbind', mget. rewrite Hx.
  destruct (_on_close_run error x) as (x' & Hr & Hf). rewrite Hr. cbn.
  assert (Hok' : pool_ok [] (set_objs s (<[p := x']> (objs s)) (next_obj s)))
    by (eapply pool_ok_object; eauto; by rewrite Hf).
  destruct (m_father x); cbn; [|done].
  destruct Hok'. constructor; cbn in *; auto.
  intros q [Hq|Hq]%elem_of_app; [auto|]. apply list_elem_of_singleton in Hq as ->. rewrite lookup_insert_eq. eauto.
Qed.

Lemma remove_first_subset p q l : q ∈ remove_first p l -> q ∈ l.
Proof.
  induction l as [|y l IH]; [done|]. cbn [remove_first]. destruct (y =? p); rewrite !elem_of_cons; naive_solver.
Qed.

Lemma polled_close_wp s p :
  is_Some (objs s !! p) -> pool_ok [] s -> wp (handle (PolledClose p)) (fun _ s' _ => pool_ok [] s') s.
Proof.
  intros Hp Hok. cbn [handle]. wp_steps.
  assert (Hok' : pool_ok [] (set_owed s (accepting s) (posted s) (remove_first p (closing s)))).
  { destruct Hok. constructor; cbn; auto. intros q Hq. by eapply ok_closing0, remove_first_subset. }
  destruct Hp as [x Hx].
  set (s1 := set_owed _ _ _ _) in *. unfold call_session. wp_steps.
  unfold run_post at 1, run_session, mbind', mget. change (objs s1) with (objs s). rewrite Hx, on_close_run. cbn.
  set (s2 := set_objs _ _ _). assert (Hx2 : objs s2 !! p = Some x) by (cbn; by rewrite lookup_insert_eq).
  assert (Hok2 : pool_ok [] s2) by (by apply (pool_ok_object [] s1 p x x Hx)).
  destruct (m_father x) eqn:Hf; cbn [mfor deliver]; wp_steps; [|done].
  unfold run_post at 1. rewrite (free_session_run s2 p x Hx2). wp_steps.
  apply (freed_ok [] []); [done| |done]. right. split; [done|]. by rewrite Hf.
Qed.

Lemma handle_wp e s : enabled e s = true -> pool_ok [] s -> wp (handle e) (fun _ s' _ => pool_ok [] s') s.
Proof.
  intros He Hok. destruct e; cbn [enabled] in He; rewrite ?bool_decide_eq_true in He.
  - by apply create_wp.
  - eapply wp_mono; [by apply real_run_wp|]. by intros u s' o (H & _).
  - by apply accepted_wp.
  - cbn [handle]. wp_steps. by apply session_accepted_wp, take_posted.
  - destruct (objs s !! p) as [x|] eqn:Hx; [|done]. by eapply lost_wp.
  - apply polled_close_wp; [by apply (ok_closing _ _ Hok)|done].
  - by apply add_ban_ip_wp.
  - cbn [handle]. unfold remove_ban_ip. wp_steps. eapply pool_ok_same; [..|exact Hok]; done.
Qed.

Lemma construct_ok now : pool_ok [] (construct now).
Proof. split; cbn; try done; [apply NoDup_nil_2|set_solver|set_solver]. Qed.

Lemma run_wp l s : pool_ok [] s -> wp (run l) (fun _ s' _ => pool_ok [] s') s.
Proof.
  intros Hok. unfold run. apply (wp_for False (fun s' _ => pool_ok [] s') l _ s [] Hok).
  intros e s1 tr _ H1. wp_steps. destruct (enabled e s1) eqn:He; [by apply handle_wp|done].
Qed.

(** The sessions that serve a connection. *)
Definition serving (s : tcp_server) : list Z :=
  (map_to_list (filter (fun kv => m_father kv.2 <> None) (objs s))).*1.

Lemma elem_of_serving s p : p ∈ serving s <-> exists x, objs s !! p = Some x /\ m_father x <> None.
Proof.
  unfold serving. rewrite list_elem_of_fmap. split.
  - intros ([q x] & -> & Hin%elem_of_map_to_list). apply map_lookup_filter_Some in Hin. cbn in *. naive_solver.
  - intros (x & Hx & Hf). exists (p, x). split; [done|]. apply elem_of_map_to_list, map_lookup_filter_Some. naive_solver.
Qed.

(** C18: Whatever the order in which connections arrive, are refused, are lost and
    are polled, no entry point of the server touches an object that does not
    exist, and no session object is ever lost or used twice: each one the server
    has created is in exactly one of four places, the pool, an accept under way, a
    posted [handle_accept] or a connection it serves; and [m_accepting_count]
    is the number of accepts under way. *)
Theorem session_pool_conserved now l :
  exists s o,
    run l (construct now) = Ret (tt, s, o) /\
    m_sessions s ++ accepting s ++ posted s ++ serving s ≡ₚ (map_to_list (objs s)).*1 /\
    m_accepting_count s = Z.of_nat (length (accepting s)).
Proof.
  destruct (wp_run _ _ _ (run_wp l _ (construct_ok now))) as ([] & s & o & Hr & Hok).
  exists s, o. split; [done|]. destruct Hok. split; [|done].
  apply NoDup_Permutation.
  - rewrite !app_assoc, <- (app_assoc _ _ (posted s)). apply NoDup_app. split; [done|]. split.
    + intros p Hp%ok_idle0 Hs%elem_of_serving. naive_solver.
    + apply NoDup_fst_map_to_list.
  - apply NoDup_fst_map_to_list.
  - intros p. rewrite !app_assoc, elem_of_app, <- app_assoc, elem_of_serving, (ok_idle0 p), list_elem_of_fmap.
    split.
    + intros [(x & Hx & _)|(x & Hx & _)]; exists (p, x); by rewrite elem_of_map_to_list.
    + intros ([q x] & -> & Hx%elem_of_map_to_list). cbn.
      destruct (m_father x) eqn:Hf; [right|left]; exists x; rewrite Hf; naive_solver.
Qed.

(** ** Bans *)

(** [handle_accept] after its verdict on the address. *)
Lemma handle_accept_free p addr s x s1 :
  objs s !! p = Some x ->
  is_ban_ip addr (set_owed (set_pool s (m_sessions s) (u32 (m_accepting_count s - 1)))
                    (accepting s) (posted s) (closing s)) = Ret (false, s1, []) ->
  handle_accept p addr false s = Ret (tt, set_owed s1 (accepting s1) (posted s1 ++ [p]) (closing s1), []).
Proof. intros Hx Hb. unfold handle_accept. unfold mbind' at 1, mmodify at 1. by rewrite (mbind_run _ _ _ _ _ _ Hb). Qed.

Lemma handle_accept_banned p addr s x error :
  objs s !! p = Some x ->
  let s0 := set_owed (set_pool s (m_sessions s) (u32 (m_accepting_count s - 1)))
              (accepting s) (posted s) (closing s) in
  is_ban_ip addr s0 = Ret (true, s0, []) ->
  exists s', handle_accept p addr error s = Ret (tt, s', [OfSession p SocketClose]) /\
    m_sessions s' = m_sessions s ++ [p] /\ posted s' = posted s /\ m_banip s' = m_banip s.
Proof.
  intros Hx s0 Hb. unfold handle_accept. unfold mbind' at 1, mmodify at 1. fold s0.
  rewrite (mbind_pure _ _ _ _ Hb). unfold call_session, run_session, mbind' at 1 2 3, mget. change (objs s0) with (objs s).
  rewrite Hx, handle_close_run. cbn.
  rewrite (free_session_run _ p (set_conn x false (m_isvalid x) 0)) by (cbn; apply lookup_insert_eq).
  eexists. split; [reflexivity|]. done.
Qed.

(** C31: An address banned at time [m_unix_time] for [sec] seconds is refused until
    that time has passed: a connection from it goes back to the pool while
    [t <= m_unix_time + sec], is accepted from the next second on, and the ban is
    then forgotten.  A second ban for no more than the absolute expiry time in
    seconds changes nothing.  The sum must not exceed the 32 bits the server adds
    in. *)
Theorem ban_lasts s addr sec br p x t :
  m_banip s !! addr = None -> is_u32 (m_unix_time s) -> 0 <= sec -> m_unix_time s + sec < 2 ^ 32 ->
  objs s !! p = Some x ->
  exists s1, add_ban_ip addr sec br s = Ret (tt, s1, []) /\
    (forall sec' br', sec' <= m_unix_time s + sec -> add_ban_ip addr sec' br' s1 = Ret (tt, s1, [])) /\
    (t <= m_unix_time s + sec ->
     exists s2, handle_accept p addr false (set_time s1 t) = Ret (tt, s2, [OfSession p SocketClose]) /\
       m_sessions s2 = m_sessions s ++ [p] /\ posted s2 = posted s /\ m_banip s2 = m_banip s1) /\
    (m_unix_time s + sec < t ->
     exists s2, handle_accept p addr false (set_time s1 t) = Ret (tt, s2, []) /\
       m_sessions s2 = m_sessions s /\ posted s2 = posted s ++ [p] /\ m_banip s2 = m_banip s).
Proof.
  intros Hn Ht Hsec Hsum Hx. assert (Hu : u32 (m_unix_time s + sec) = m_unix_time s + sec) by (apply u32_id; mach).
  set (s1 := set_banip s (<[addr := (m_unix_time s + sec, br)]> (m_banip s))).
  assert (Hban : forall n, is_ban_ip addr (set_owed (set_pool (set_time s1 t) (m_sessions s) n)
      (accepting s) (posted s) (closing s)) =
    Ret (if m_unix_time s + sec <? t then (false, set_banip (set_owed (set_pool (set_time s1 t) (m_sessions s) n)
      (accepting s) (posted s) (closing s)) (m_banip s), [])
      else (true, set_owed (set_pool (set_time s1 t) (m_sessions s) n) (accepting s) (posted s) (closing s), []))).
  { intros n. unfold is_ban_ip, mbind', mget. cbn. rewrite lookup_insert_eq. destruct (_ <? t); [|done]. cbn.
    by rewrite delete_insert_id. }
  exists s1. split; [unfold add_ban_ip, mbind', mget; by rewrite Hn, Hu|]. split_and!.
  - intros sec' br' Hle. unfold add_ban_ip, mbind', mget. cbn. rewrite lookup_insert_eq.
    replace (_ <? sec') with false; [done|]. symmetry. apply Z.ltb_ge. lia.
  - intros Hle. apply (handle_accept_banned p addr (set_time s1 t) x false Hx). cbn in Hban |- *. rewrite Hban.
    by replace (_ <? t) with false by (symmetry; apply Z.ltb_ge; lia).
  - intros Hlt. eexists. split.
    + eapply (handle_accept_free p addr (set_time s1 t) x _ Hx). cbn in Hban |- *. rewrite Hban.
      replace (_ <? t) with true by (symmetry; apply Z.ltb_lt; lia). reflexivity.
    + by cbn.
Qed.

(** A server with one session object, being accepted; the ban of 60 seconds
    starts at time 1000. *)
Definition ban_server : tcp_server :=
  set_owed (set_objs (construct 1000) {[ 0 := TcpSession.construct ]} 1) [0] [] [].

Lemma ban_lasts_witness :
  exists s1, add_ban_ip 7 60 BAN_REASON_HACK_PACKET ban_server = Ret (tt, s1, []) /\
    exists s2, handle_accept 0 7 false (set_time s1 1060) = Ret (tt, s2, [OfSession 0 SocketClose]).
Proof.
  destruct (ban_lasts ban_server 7 60 BAN_REASON_HACK_PACKET 0 TcpSession.construct 1060 eq_refl
    ltac:(done) ltac:(lia) ltac:(done) ltac:(apply lookup_singleton_eq)) as (s1 & Hb & _ & Hr & _).
  exists s1. split; [exact Hb|]. destruct Hr as (s2 & Hr & _); [done|]. exists s2. exact Hr.
Defined.

(** ** Starting and stopping *)

(** A server that listens can be stopped, once. *)
Lemma listener_stops_once : exists l1 l2,
  Listener.create true Listener.construct = Ret (true, l1) /\ Listener.stop l1 = Ret l2 /\
  Listener.stop l2 = UB "call through a null or deleted pointer".
Proof. eexists _, _. split; [reflexivity|]. split; reflexivity. Qed.

Lemma second_stop_undefined l l' : Listener.stop l = Ret l' -> exists why, Listener.stop l' = UB why.
Proof. destruct l as [[] [] []]; try discriminate; intros [= <-]; eexists; reflexivity. Qed.
