(* ===== verification/TcpClient.v ===== *)
(** [common/tcpclient.h/.cpp]: the connecting side of the gate and game servers
    (connect, reconnect after a loss), and [common/io_service_pool.cpp]: the
    threads that run the sockets.

    A client is a [tcp_session] with a few fields more.  Of the call-backs and
    asynchronous operations, the connects under way are counted in the state
    ([in_flight]): boost.asio answers each of them once, with [handle_connect]. *)

From S2P Require Import Prelude MessageInterface TcpSession TcpServer.
From stdpp Require Import prelude gmap strings list relations.
#[local] Open Scope Z_scope.

Module TcpClient.
Import Message TcpSession.

Record tcp_client : Type := mk_client {
  session : tcp_session;
  m_isreconnect : bool;
  m_reconnect_time : Z;
  m_isinitconncted : bool;
  m_last_reconnect_time : Z;
  m_isconnecting : bool;
  in_flight : nat
}.

Inductive effect : Type :=
| AsyncConnect
| CbOnConnect
| CbOnConnectFailed
| CbClose (error : bool)
| NotifyWaiter
| OfClientSession (e : TcpSession.effect).

Abbreviation C := (M tcp_client effect).

(** The constructor: [reset ()] and [m_isvalid = true]. *)
Definition construct : tcp_client :=
  mk_client (set_conn (reset_of TcpSession.construct) false true 0) false 5 false 0 false 0.

Definition connected (c : tcp_client) : bool := m_isconnected (session c).

Definition set_session (c : tcp_client) s : tcp_client :=
  mk_client s (m_isreconnect c) (m_reconnect_time c) (m_isinitconncted c) (m_last_reconnect_time c)
    (m_isconnecting c) (in_flight c).
Definition set_connected (c : tcp_client) (b : bool) : tcp_client :=
  set_session c (set_conn (session c) b (m_isvalid (session c)) (m_thread_index (session c))).
Definition set_connecting (c : tcp_client) b n : tcp_client :=
  mk_client (session c) (m_isreconnect c) (m_reconnect_time c) (m_isinitconncted c) (m_last_reconnect_time c) b n.
Definition set_last (c : tcp_client) t : tcp_client :=
  mk_client (session c) (m_isreconnect c) (m_reconnect_time c) (m_isinitconncted c) t (m_isconnecting c) (in_flight c).
Definition set_init (c : tcp_client) b : tcp_client :=
  mk_client (session c) (m_isreconnect c) (m_reconnect_time c) b (m_last_reconnect_time c) (m_isconnecting c) (in_flight c).

Definition set_reconnect (b : bool) : C unit :=
  mmodify (fun c => mk_client (session c) b (m_reconnect_time c) (m_isinitconncted c) (m_last_reconnect_time c)
                      (m_isconnecting c) (in_flight c)).

(** A method of the session, its effects passed on. *)
Definition on_session {A} (m : H A) : C A :=
  c <- mget ;;
  match m (session c) with
  | UB why => mub why
  | Ret (a, s', o) => mput (set_session c s') ;;; mfor o (fun e => memit (OfClientSession e)) ;;; mret' a
  end.

Definition on_connect : C unit := on_session begin_read_message.

Definition reconnect : C unit :=
  c <- mget ;;
  if connected c then mret' tt
  else if m_isconnecting c then mret' tt
  else mput (set_connecting c true (in_flight c)) ;;;
       memit AsyncConnect ;;;
       mmodify (fun c => set_connecting c (m_isconnecting c) (S (in_flight c))).

(** [_connect]: the endpoint is not part of the model. *)
Definition _connect : C unit := reconnect ;;; mmodify (fun c => set_init c true).

(** [handle_connect] at time [now]. *)
Definition handle_connect (now : Z) (error : bool) : C unit :=
  mmodify (fun c => set_connecting c false (in_flight c)) ;;;
  c <- mget ;;
  if connected c then mret' tt
  else
    mput (set_last c (u32 now)) ;;;
    if negb error then
      mmodify (fun c => set_connected c true) ;;; memit CbOnConnect ;;; memit NotifyWaiter
    else
      mmodify (fun c => set_connected c false) ;;; memit CbOnConnectFailed ;;; memit NotifyWaiter.

(** The reconnection of [run] and [run_no_wait] at time [now]; seconds are
    subtracted in 32 bits. *)
Definition run_no_wait (now : Z) : C unit :=
  c <- mget ;;
  if negb (connected c) && m_isreconnect c && negb (m_isconnecting c) && m_isinitconncted c then
    if m_reconnect_time c <? u32 (u32 now - m_last_reconnect_time c) then reconnect else mret' tt
  else mret' tt.

(** [tcp_session::_on_close] with the client's own [_get_cb_mgr]. *)
Definition _on_close (error : bool) : C unit :=
  on_session _clear_send_msg ;;;
  memit (OfClientSession SocketClose) ;;;
  mmodify (fun c => set_connected c false) ;;;
  memit (CbClose error).

Definition close_now : C unit := on_session handle_close.

Inductive event : Type :=
| Connect
| ConnectDone (now : Z) (error : bool)
| Tick (now : Z)
| Lost (error : bool)
| Closed
| Reconnecting (b : bool).

(** A [handle_connect] runs for a connect under way only. *)
Definition handle (e : event) : C unit :=
  match e with
  | Connect => _connect
  | ConnectDone now error =>
      c <- mget ;;
      match in_flight c with
      | O => mret' tt
      | S n => mput (set_connecting c (m_isconnecting c) n) ;;; handle_connect now error
      end
  | Tick now => run_no_wait now
  | Lost error => _on_close error
  | Closed => close_now
  | Reconnecting b => set_reconnect b
  end.

Definition run (l : list event) : C unit := mfor l handle.

End TcpClient.

Module IoServicePool.

(** [io_services_.size ()] and the two indices. *)
Record io_service_pool : Type := mk_pool { size : Z; next_io_service_ : Z; next_update_index : Z }.

(** The constructor throws on an empty pool. *)
Definition construct (pool_size : Z) : option io_service_pool :=
  if pool_size =? 0 then None else Some (mk_pool pool_size 0 0).

(** [get_io_service]: the index of the [io_service]. *)
Definition get_io_service (p : io_service_pool) : outcome (Z * io_service_pool) :=
  if (0 <=? next_io_service_ p) && (next_io_service_ p <? size p) then
    let n := next_io_service_ p + 1 in
    Ret (next_io_service_ p, mk_pool (size p) (if n =? size p then 0 else n) (next_update_index p))
  else UB "io_services_ out of range".

(** [update]: the index of the [io_service] updated. *)
Definition update (p : io_service_pool) : outcome (Z * io_service_pool) :=
  if (0 <=? next_update_index p) && (next_update_index p <? size p) then
    let n := next_update_index p + 1 in
    Ret (next_update_index p, mk_pool (size p) (next_io_service_ p) (if size p <=? n then 0 else n))
  else UB "io_services_ out of range".

(** [n] sockets made one after the other. *)
Fixpoint get_many (n : nat) (p : io_service_pool) : outcome (list Z * io_service_pool) :=
  match n with
  | O => Ret ([], p)
  | S n' =>
      match get_io_service p with
      | UB why => UB why
      | Ret (i, p') =>
          match get_many n' p' with
          | UB why => UB why
          | Ret (l, p'') => Ret (i :: l, p'')
          end
      end
  end.

End IoServicePool.

Import TcpSession TcpClient.

(** ** One connect at a time *)

(** A connect is under way exactly when the client says so, and it has no
    connection then. *)
Definition client_ok (c : tcp_client) : Prop :=
  in_flight c = (if m_isconnecting c then 1%nat else 0%nat) /\ (m_isconnecting c = true -> connected c = false).

Lemma on_session_wp {A} (m : H A) (Q : A -> tcp_client -> Prop) c :
  (match m (session c) with Ret (a, s', _) => Q a (set_session c s') | UB _ => False end) ->
  wp (on_session m) (fun a c' _ => Q a c') c.
Proof.
  unfold on_session. intros HQ. wp_steps. destruct (m (session c)) as [[[a s'] o]|]; [|done]. wp_steps.
  eapply wp_mono; [apply (wp_for False (fun c' _ => c' = set_session c s') o _ _ []); [done|]|].
  - intros e c' tr _ ->. by wp_steps.
  - cbn. intros u c' o' ->. by wp_steps.
Qed.

Lemma reconnect_wp c : client_ok c -> wp reconnect (fun _ c' _ => client_ok c') c.
Proof.
  intros [Hf Hc]. unfold reconnect. wp_steps.
  destruct (connected c) eqn:Hcon; wp_steps; [by split; [|rewrite Hcon]|].
  destruct (m_isconnecting c) eqn:Hing; wp_steps; [by split; rewrite Hing|].
  split; cbn; [by rewrite Hf|done].
Qed.

Lemma handle_connect_wp now error c :
  client_ok (set_connecting c false (in_flight c)) ->
  wp (handle_connect now error) (fun _ c' _ => client_ok c') c.
Proof.
  intros Hok. unfold handle_connect. wp_steps.
  case_match; wp_steps; [done|]. destruct error; cbn [negb]; wp_steps; destruct Hok; by split; cbn in *.
Qed.

Lemma client_handle_wp e c : client_ok c -> wp (handle e) (fun _ c' _ => client_ok c') c.
Proof.
  intros Hok. destruct e; cbn [handle].
  - unfold _connect. wp_steps. eapply wp_mono; [by apply reconnect_wp|]. intros u c' o H1. by wp_steps.
  - wp_steps. destruct Hok as [Hf Hc]. destruct (in_flight c) as [|n] eqn:Hn; wp_steps; [split; [by rewrite Hn|done]|].
    apply handle_connect_wp. split; cbn; [|done]. by destruct (m_isconnecting c); [injection Hf|].
  - unfold run_no_wait. wp_steps. repeat (case_match; wp_steps; try done). by apply reconnect_wp.
  - unfold _on_close. wp_steps. apply on_session_wp. cbn. wp_steps. destruct Hok as [Hf Hc]. by split.
  - unfold close_now. apply on_session_wp. cbn. destruct Hok as [Hf Hc]. by split.
  - unfold set_reconnect. wp_steps. done.
Qed.

Lemma client_run_wp l c : client_ok c -> wp (run l) (fun _ c' _ => client_ok c') c.
Proof.
  intros Hok. unfold run. apply (wp_for False (fun c' _ => client_ok c') l _ c [] Hok).
  intros e c1 tr _ H1. by apply client_handle_wp.
Qed.

(** C28: Whatever is asked of a client and however the network answers, at most one
    [async_connect] is under way, none while the client is connected, and
    [m_isconnecting] says which.  In such a state [run_no_wait] starts one exactly
    when reconnection is on, the first connect was made and more than
    [m_reconnect_time] seconds, in 32 bits, have gone by since the last answer. *)
Theorem client_connects_one_at_a_time l now :
  exists c o, run l construct = Ret (tt, c, o) /\
    in_flight c = (if m_isconnecting c then 1%nat else 0%nat) /\
    (connected c = true -> in_flight c = 0%nat) /\
    exists c' o', run_no_wait now c = Ret (tt, c', o') /\
      (o' = [AsyncConnect] <->
       connected c = false /\ m_isconnecting c = false /\ m_isreconnect c = true /\ m_isinitconncted c = true /\
       m_reconnect_time c < u32 (u32 now - m_last_reconnect_time c)).
Proof.
  destruct (wp_run _ _ _ (client_run_wp l construct ltac:(done))) as ([] & c & o & Hr & Hf & Hc).
  exists c, o. split_and!; [done..| |].
  - intros Hcon. rewrite Hf. destruct (m_isconnecting c); [|done]. rewrite Hc in Hcon; done.
  - unfold run_no_wait, reconnect. mstep.
    destruct (connected c) eqn:H1; cbn; [eexists _, _; split; [reflexivity|]; naive_solver|].
    destruct (m_isreconnect c) eqn:H2; cbn; [|eexists _, _; split; [reflexivity|]; naive_solver].
    destruct (m_isconnecting c) eqn:H3; cbn; [eexists _, _; split; [reflexivity|]; naive_solver|].
    destruct (m_isinitconncted c) eqn:H4; cbn; [|eexists _, _; split; [reflexivity|]; naive_solver].
    destruct (Z.ltb_spec (m_reconnect_time c) (u32 (u32 now - m_last_reconnect_time c))); rewrite ?H1, ?H3.
    + eexists _, _. split; [reflexivity|]. naive_solver.
    + eexists _, _. split; [reflexivity|]. split; [done|]. lia.
Qed.

(** ** Round robin *)

Import IoServicePool.

(** Sockets take the [io_service]s in turn. *)
Lemma get_many_round_robin n p :
  0 <= next_io_service_ p < size p ->
  exists p', get_many n p = Ret ((fun k => (next_io_service_ p + Z.of_nat k) mod size p) <$> seq 0 n, p') /\
    0 <= next_io_service_ p' < size p'.
Proof.
  revert p. induction n as [|n IH]; intros p Hp; cbn [get_many seq fmap list_fmap]; [eauto|].
  unfold get_io_service. rewrite (proj2 (Z.leb_le 0 _)), (proj2 (Z.ltb_lt _ _)) by lia. cbn [andb].
  set (i := if _ =? _ then 0 else _).
  assert (Hi : i = (next_io_service_ p + 1) mod size p /\ 0 <= i < size p).
  { subst i. destruct (Z.eqb_spec (next_io_service_ p + 1) (size p)) as [->|]; [rewrite Z.mod_same; lia|].
    rewrite Z.mod_small; lia. }
  destruct (IH (mk_pool (size p) i (next_update_index p))) as (p' & -> & Hp'); [apply Hi|].
  exists p'. split; [|done]. f_equal. f_equal. f_equal; [rewrite Z.add_0_r, Z.mod_small; lia|].
  rewrite <- (fmap_S_seq 0 n), <- list_fmap_compose. apply list_fmap_ext. intros _ k _. cbn -[Z.add Z.of_nat].
  destruct Hi as [-> _]. rewrite Zplus_mod_idemp_l. f_equal. lia.
Qed.
