(* ===== verification/NetService.v ===== *)
(** The network threads of a process: [common/io_service_pool.h/.cpp]
    ([advanced_io_service], [io_service_pool]) and their life in
    [common/tcpserver.cpp] ([net_global::init_net_service], [update_net_service],
    [get_io_service], [stop_net_service], [free_net_service]).

    A session registers with its own [io_service] when its connection is accepted and
    leaves when the connection has closed; the main thread's [update_net_service] lets
    the sessions of one [io_service] run at each turn.  [add_session] and [del_session]
    come from other threads between the turns; each holds the mutex. *)

From S2P Require Import Prelude.
From stdpp Require Import prelude gmap strings list sorting.
#[local] Open Scope Z_scope.

Module NetService.

(** [io_services_] by their [sessions_]; [threads_] is how many run. *)
Record io_service_pool : Type := mk_pool { io_services_ : list (gset Z); next_io_service_ : Z; threads_ : nat }.

(** [s_io_service_pool], [net_service_stoped] and the global [next_update_index]. *)
Record net : Type := mk_net {
  s_io_service_pool : option io_service_pool;
  net_service_stoped : bool;
  next_update_index : Z
}.

(** A session's [run]; the threads of a pool stopped and joined; a pool nobody points
    to any more, with its threads running. *)
Inductive effect : Type :=
| Run (p : Z)
| Joined (threads : nat)
| Leaked (threads : nat).

Abbreviation Net := (M net effect).

Definition start : net := mk_net None false 0.

Definition size (pl : io_service_pool) : Z := Z.of_nat (length (io_services_ pl)).

(** The constructor and [run]; [None]: the constructor throws. *)
Definition construct (pool_size : Z) : option io_service_pool :=
  if pool_size =? 0 then None else Some (mk_pool (replicate (Z.to_nat pool_size) ∅) 0 0).

Definition pool_run (pl : io_service_pool) : io_service_pool :=
  mk_pool (io_services_ pl) (next_io_service_ pl) (threads_ pl + length (io_services_ pl)).

(** [init_net_service]; [false]: it throws.  A pool already there is not stopped. *)
Definition init_net_service (thread_count : Z) : Net bool :=
  s <- mget ;;
  match construct thread_count with
  | None => mput (mk_net (s_io_service_pool s) false (next_update_index s)) ;;; mret' false
  | Some pl =>
      match s_io_service_pool s with Some old => memit (Leaked (threads_ old)) | None => mret' tt end ;;;
      mput (mk_net (Some (pool_run pl)) false (next_update_index s)) ;;; mret' true
  end.

Definition stop_net_service : Net unit :=
  s <- mget ;;
  if negb (net_service_stoped s) then
    match s_io_service_pool s with
    | None => mub "stop_net_service: null s_io_service_pool"
    | Some pl => memit (Joined (threads_ pl)) ;;; mput (mk_net None true (next_update_index s))
    end
  else mret' tt.

Definition free_net_service : Net unit := stop_net_service.

(** The number of the [io_service]. *)
Definition get_io_service : Net Z :=
  s <- mget ;;
  match s_io_service_pool s with
  | None => mub "get_io_service: null s_io_service_pool"
  | Some pl =>
      let i := next_io_service_ pl in
      if (0 <=? i) && (i <? size pl) then
        let n := i + 1 in
        mput (mk_net (Some (mk_pool (io_services_ pl) (if n =? size pl then 0 else n) (threads_ pl)))
                (net_service_stoped s) (next_update_index s)) ;;;
        mret' i
      else mub "io_services_ out of range"
  end.

(** [advanced_io_service::update] runs a copy of the set, in the order of the
    pointers. *)
Definition service_update (sessions : gset Z) : Net unit :=
  mfor (merge_sort Z.le (elements sessions)) (fun p => memit (Run p)).

(** [io_service_pool::update] through [update_net_service]. *)
Definition update_net_service : Net unit :=
  s <- mget ;;
  match s_io_service_pool s with
  | None => mret' tt
  | Some pl =>
      let i := next_update_index s in
      if 0 <=? i then
        match io_services_ pl !! Z.to_nat i with
        | None => mub "io_services_ out of range"
        | Some sessions =>
            service_update sessions ;;;
            mmodify (fun s => mk_net (s_io_service_pool s) (net_service_stoped s) (if size pl <=? i + 1 then 0 else i + 1))
        end
      else mub "io_services_ out of range"
  end.

(** [add_session] and [del_session] on [io_service] number [i]. *)
Definition change (i : Z) (f : gset Z -> gset Z) : Net unit :=
  mmodify (fun s => mk_net
    (match s_io_service_pool s with
     | Some pl => Some (mk_pool (alter f (Z.to_nat i) (io_services_ pl)) (next_io_service_ pl) (threads_ pl))
     | None => None
     end) (net_service_stoped s) (next_update_index s)).

Definition add_session (i p : Z) : Net unit := change i (fun x => {[p]} ∪ x).
Definition del_session (i p : Z) : Net unit := change i (fun x => x ∖ {[p]}).

(** A session's [m_io_service] is chosen when it is made: [home p]. *)
Inductive op : Type :=
| Update
| Add (p : Z)
| Del (p : Z).

Definition handle (home : Z -> Z) (o : op) : Net unit :=
  match o with
  | Update => update_net_service
  | Add p => add_session (home p) p
  | Del p => del_session (home p) p
  end.

Definition run (home : Z -> Z) (l : list op) : Net unit := mfor l (handle home).

End NetService.
Import NetService.

(** ** Lemmas *)

Fixpoint updates (l : list op) : Z :=
  match l with [] => 0 | Update :: l' => 1 + updates l' | _ :: l' => updates l' end.

(** How often session [p] was run. *)
Fixpoint runs (p : Z) (tr : list effect) : Z :=
  match tr with
  | [] => 0
  | Run q :: tr' => (if q =? p then 1 else 0) + runs p tr'
  | _ :: tr' => runs p tr'
  end.

Lemma runs_app p tr1 tr2 : runs p (tr1 ++ tr2) = runs p tr1 + runs p tr2.
Proof. induction tr1 as [|[q| |] tr1 IH]; cbn; lia. Qed.

Lemma runs_list p l : NoDup l -> runs p (map Run l) = if decide (p ∈ l) then 1 else 0.
Proof.
  induction 1 as [|q l Hq _ IH]; [done|]. cbn. rewrite IH. destruct (Z.eqb_spec q p) as [->|Hne].
  - rewrite (decide_False (P := p ∈ l)), decide_True by set_solver. done.
  - destruct (decide (p ∈ l)); [rewrite decide_True by set_solver|rewrite decide_False by set_solver]; done.
Qed.

Lemma service_update_run (x : gset Z) s : service_update x s = Ret (tt, s, map Run (merge_sort Z.le (elements x))).
Proof.
  unfold service_update. generalize (merge_sort Z.le (elements x)) as l. induction l as [|q l IH]; [done|].
  cbn [mfor map]. unfold mbind'. cbn. by rewrite IH.
Qed.

Lemma service_update_runs (x : gset Z) p : runs p (map Run (merge_sort Z.le (elements x))) = if decide (p ∈ x) then 1 else 0.
Proof.
  rewrite runs_list; [|by rewrite merge_sort_Permutation; apply NoDup_elements].
  destruct (decide (p ∈ x)); [rewrite decide_True|rewrite decide_False]; rewrite ?merge_sort_Permutation, ?elem_of_elements; done.
Qed.

(** *** Turns *)

(** How often [m] turns that start at [io_service] [k] of [n] come to [h]. *)
Fixpoint hits (n h k : Z) (m : nat) : Z :=
  match m with
  | O => 0
  | S m' => (if k =? h then 1 else 0) + hits n h (if n <=? k + 1 then 0 else k + 1) m'
  end.

Lemma hits_spec n h k m :
  0 <= h < n -> 0 <= k < n -> Z.of_nat m <= n -> hits n h k m = if (h - k) mod n <? Z.of_nat m then 1 else 0.
Proof.
  intros Hh. revert k. induction m as [|m IH]; intros k Hk Hm; cbn [hits].
  - pose proof (Z.mod_pos_bound (h - k) n). by rewrite (proj2 (Z.ltb_ge _ _)) by lia.
  - set (k' := if n <=? k + 1 then 0 else k + 1).
    assert (Hk' : 0 <= k' < n /\ (h - k') mod n = if k =? h then n - 1 else (h - k) mod n - 1).
    { subst k'. destruct (Z.leb_spec n (k + 1)).
      - split; [lia|]. rewrite Z.sub_0_r, Z.mod_small by lia. destruct (Z.eqb_spec k h); [lia|].
        rewrite <- (Z.mod_unique (h - k) n (-1) (h - k + n)); lia.
      - split; [lia|]. destruct (Z.eqb_spec k h) as [->|]; [rewrite <- (Z.mod_unique _ n (-1) (n - 1)); lia|].
        destruct (Z_lt_le_dec h k).
        + rewrite <- (Z.mod_unique (h - k) n (-1) (h - k + n)) by lia.
          rewrite <- (Z.mod_unique _ n (-1) (h - (k + 1) + n)); lia.
        + rewrite !Z.mod_small; lia. }
    destruct Hk' as [Hk' Hm']. rewrite IH, Hm' by lia. destruct (Z.eqb_spec k h) as [->|Hne].
    + rewrite Z.sub_diag, Z.mod_0_l by lia. rewrite (proj2 (Z.ltb_ge _ _)), (proj2 (Z.ltb_lt _ _)) by lia. done.
    + destruct (Z.ltb_spec ((h - k) mod n - 1) (Z.of_nat m)), (Z.ltb_spec ((h - k) mod n) (Z.of_nat (S m))); lia.
Qed.

Section turns.
Context (home : Z -> Z) (n : Z) (p : Z).

(** Sessions are registered at home; [p] is. *)
Record registered (k : Z) (s : net) (pl : io_service_pool) : Prop := {
  g_pool : s_io_service_pool s = Some pl;
  g_size : size pl = n;
  g_index : next_update_index s = k /\ 0 <= k < n;
  g_home : forall i x q, io_services_ pl !! i = Some x -> q ∈ x -> home q = Z.of_nat i;
  g_here : 0 <= home p < n /\ exists x, io_services_ pl !! Z.to_nat (home p) = Some x /\ p ∈ x
}.

Definition held (k : Z) (s : net) : Prop := exists pl, registered k s pl.

(** A set changed at the home of [q], [p] staying where it is. *)
Lemma change_held k s q f :
  held k s -> (forall x r, r ∈ f x -> r ∈ x \/ r = q) -> (forall x, p ∈ x -> home q = home p -> p ∈ f x) ->
  0 <= home q ->
  wp (change (home q) f) (fun _ s' o => held k s' /\ runs p o = 0) s.
Proof.
  intros [pl [Hp Hs Hk Hh [Hb (x & Hx & Hpx)]]] Hf Hfp Hq. unfold change. wp_steps. rewrite Hp. split; [|done].
  eexists. constructor; cbn; [done|unfold size in *; cbn; by rewrite length_alter|done| |].
  - intros i y r Hy Hr. cbn [io_services_] in Hy. destruct (decide (i = Z.to_nat (home q))) as [->|Hne].
    + rewrite list_lookup_alter_eq in Hy. destruct (io_services_ pl !! Z.to_nat (home q)) as [z|] eqn:Hz; [|done].
      injection Hy as <-. destruct (Hf _ _ Hr) as [Hr'| ->]; [by eapply Hh|lia].
    + rewrite list_lookup_alter_ne in Hy by done. by eapply Hh.
  - split; [done|]. destruct (decide (home q = home p)) as [Heq|Hne].
    + exists (f x). cbn [io_services_]. rewrite Heq, list_lookup_alter_eq, Hx. split; [done|by apply Hfp].
    + exists x. cbn [io_services_]. rewrite list_lookup_alter_ne by lia. done.
Qed.

Lemma update_held k s :
  held k s ->
  wp update_net_service (fun _ s' o => held (if n <=? k + 1 then 0 else k + 1) s' /\
    runs p o = if k =? home p then 1 else 0) s.
Proof.
  intros [pl [Hp Hs [Hk Hb] Hh [Hn (x & Hx & Hpx)]]]. unfold update_net_service. wp_steps. rewrite Hp, Hk.
  rewrite (proj2 (Z.leb_le 0 k)) by lia. unfold size in Hs.
  destruct (lookup_lt_is_Some_2 (io_services_ pl) (Z.to_nat k)) as [y Hy]; [lia|]. rewrite Hy. wp_steps.
  unfold run_post at 1. rewrite service_update_run. wp_steps. cbn [app]. rewrite app_nil_r, service_update_runs.
  unfold size. rewrite Hs. split.
  - exists pl. constructor; cbn; try done; [|by split; [|exists x]]. split; [done|]. destruct (Z.leb_spec n (k + 1)); lia.
  - destruct (Z.eqb_spec k (home p)) as [->|Hne].
    + rewrite Hx in Hy. injection Hy as <-. by rewrite decide_True.
    + rewrite decide_False; [done|]. intros Hpy. apply (Hh _ _ _ Hy) in Hpy. lia.
Qed.

End turns.

Lemma run_held home n p l k s :
  held home n p k s -> (forall q, Del q ∈ l -> q <> p) -> (forall q, 0 <= home q) -> 0 <= updates l <= n ->
  wp (run home l) (fun _ s' o => (exists k', held home n p k' s') /\
    runs p o = hits n (home p) k (Z.to_nat (updates l))) s.
Proof.
  intros Hh Hd Hq. revert k s Hh. induction l as [|o l IH]; intros k s Hh Hu; cbn [mfor]; unfold run; cbn [mfor].
  - wp_steps. cbn. eauto.
  - assert (Hd' : forall q, Del q ∈ l -> q <> p) by (intros q ?; apply Hd; set_solver).
    assert (0 <= updates l) by (clear; induction l as [|[] ? ?]; cbn; lia).
    wp_steps. destruct o as [|q|q]; cbn [handle updates] in *.
    + eapply wp_mono; [by apply update_held|]. intros [] s1 o1 [Hh1 Hr1].
      eapply wp_mono; [apply (IH Hd' _ _ Hh1); lia|]. intros [] s2 o2 [Hh2 Hr2]. split; [done|].
      rewrite runs_app, Hr1, Hr2. replace (Z.to_nat (1 + updates l)) with (S (Z.to_nat (updates l))) by lia. done.
    + eapply wp_mono; [apply (change_held home n p k); [done|set_solver|set_solver|done]|]. intros [] s1 o1 [Hh1 Hr1].
      eapply wp_mono; [apply (IH Hd' _ _ Hh1); lia|]. intros [] s2 o2 [Hh2 Hr2]. by rewrite runs_app, Hr1, Hr2.
    + assert (q <> p) by (apply Hd; set_solver).
      eapply wp_mono; [apply (change_held home n p k); [done|set_solver|set_solver|done]|]. intros [] s1 o1 [Hh1 Hr1].
      eapply wp_mono; [apply (IH Hd' _ _ Hh1); lia|]. intros [] s2 o2 [Hh2 Hr2]. by rewrite runs_app, Hr1, Hr2.
Qed.

(** ** Properties *)

(** C17: Every session gets its turn.  In as many calls of [update_net_service] as there
    are network threads, whatever sessions come and go between them, a session that
    stays registered is run exactly once; nothing is undefined. *)
Theorem sessions_run_in_turn home n p l s pl :
  s_io_service_pool s = Some pl -> size pl = n -> 0 <= next_update_index s < n ->
  (forall i x q, io_services_ pl !! i = Some x -> q ∈ x -> home q = Z.of_nat i) ->
  (exists x, io_services_ pl !! Z.to_nat (home p) = Some x /\ p ∈ x) ->
  (forall q, 0 <= home q) -> (forall q, Del q ∈ l -> q <> p) -> updates l = n ->
  exists s' o, run home l s = Ret (tt, s', o) /\ runs p o = 1.
Proof.
  intros Hp Hs Hk Hh (x & Hx & Hpx) Hq Hd Hu.
  assert (Hlt : home p < n).
  { apply lookup_lt_Some in Hx as Hl. unfold size in Hs. specialize (Hq p). lia. }
  assert (Hheld : held home n p (next_update_index s) s).
  { exists pl. constructor; try done. split; [by split|]. by exists x. }
  destruct (wp_run _ _ _ (run_held home n p l _ s Hheld Hd Hq ltac:(lia))) as ([] & s' & o & Hr & _ & Hruns).
  exists s', o. split; [done|]. rewrite Hruns, hits_spec by (specialize (Hq p); lia).
  pose proof (Z.mod_pos_bound (home p - next_update_index s) n). by rewrite (proj2 (Z.ltb_lt _ _)) by lia.
Qed.

(** Three network threads, sessions 7 and 9 at home on the first and the last. *)
Definition three_threads : net := mk_net (Some (mk_pool [{[7]}; ∅; {[9]}] 0 3)) false 1.
Definition homes (p : Z) : Z := if p =? 9 then 2 else if p =? 4 then 1 else 0.

Lemma sessions_run_in_turn_witness :
  exists s' o, run homes [Update; Add 4; Update; Del 9; Update] three_threads = Ret (tt, s', o) /\ runs 7 o = 1.
Proof.
  eapply (sessions_run_in_turn homes 3 7 _ three_threads); try reflexivity; try (cbn; lia).
  - intros i x q Hi Hq. destruct i as [|[|[|i]]]; cbn in Hi; try done; injection Hi as <-.
    + apply elem_of_singleton in Hq as ->. reflexivity.
    + by apply elem_of_empty in Hq.
    + apply elem_of_singleton in Hq as ->. reflexivity.
  - eexists. split; [reflexivity|]. cbn. by apply elem_of_singleton.
  - intros q. unfold homes. destruct (q =? 9), (q =? 4); lia.
  - intros q Hq ->. repeat (apply elem_of_cons in Hq as [Hq|Hq]; [done|]). by apply elem_of_nil in Hq.
Defined.

(** *** The life of the service *)

(** Started, stopped and freed: the threads are joined once and the second stop does
    nothing. *)
Lemma stopped_once n s :
  0 < n -> s_io_service_pool s = None ->
  wp (init_net_service n ;;; stop_net_service ;;; free_net_service)
    (fun _ s' o => o = [Joined (Z.to_nat n)] /\ s_io_service_pool s' = None) s.
Proof.
  intros Hn Hs. unfold init_net_service, construct. wp_steps. rewrite (proj2 (Z.eqb_neq n 0)) by lia. rewrite Hs. wp_steps.
  unfold stop_net_service, free_net_service. wp_steps. cbn. wp_steps. cbn. rewrite length_replicate. by split.
Qed.

(** [next_update_index] is not the pool's: a service started again with fewer threads
    updates an [io_service] that is not there. *)
Example restarted_with_fewer_threads :
  (init_net_service 4 ;;; update_net_service ;;; update_net_service ;;; update_net_service ;;;
   stop_net_service ;;; init_net_service 2 ;;; update_net_service) start = UB "io_services_ out of range".
Proof. reflexivity. Qed.

(** A service stopped before it was started, or whose start threw; a socket made after
    the stop; a service started twice. *)
Example stopped_before_started : stop_net_service start = UB "stop_net_service: null s_io_service_pool".
Proof. reflexivity. Qed.

Example stopped_after_throw :
  (init_net_service 0 ;;; stop_net_service) start = UB "stop_net_service: null s_io_service_pool".
Proof. reflexivity. Qed.

Example socket_after_stop :
  (init_net_service 2 ;;; stop_net_service ;;; get_io_service) start = UB "get_io_service: null s_io_service_pool".
Proof. reflexivity. Qed.

Example started_twice :
  match (init_net_service 2 ;;; init_net_service 3 ;;; stop_net_service) start with
  | Ret (_, _, o) => o = [Leaked 2; Joined 3]
  | UB _ => False
  end.
Proof. reflexivity. Qed.
