(* ===== verification/Combine.v ===== *)
(** [search_combine_checksum] of [common/utilities.h]: which elements of an array
    add up to a given sum.

    A pointer into the array [a] is an index; [a[i].first] is [a !! i].  The state is
    the array [b] of the indices chosen so far and the vector [out]. *)

From Stdlib Require Import String.
From S2P Require Import Prelude.
From stdpp Require Import prelude strings list.
#[local] Open Scope Z_scope.

Module Combine.

Record state : Type := mk_state { b : list nat; out : list nat }.

Abbreviation C := (M state Empty_set).

Section search.
Context (a : list Z) (sum : Z).

(** [s += a[b[j]].first] on an [int]; signed overflow is undefined. *)
Definition add_first (s : Z) (i : nat) : C Z :=
  match a !! i with
  | None => mub "a[b[j]] out of range"
  | Some x => if (- 2 ^ 31 <=? s + x) && (s + x <? 2 ^ 31) then mret' (s + x) else mub "signed overflow"
  end.

(** [b[M - 1]], ..., [b[0]]. *)
Definition chosen (M : nat) (s : state) : list nat := reverse (take M (b s)).

(** The first loop over the chosen indices: whether a partial sum is [sum]. *)
Fixpoint scan (l : list nat) (s : Z) (su : bool) : C bool :=
  match l with
  | [] => mret' su
  | i :: l' => s' <- add_first s i ;; scan l' s' (su || (s' =? sum))
  end.

(** The second loop: [out.push_back] until the partial sum is [sum]. *)
Fixpoint collect (l : list nat) (s : Z) : C bool :=
  match l with
  | [] => mret' false
  | i :: l' =>
      s' <- add_first s i ;;
      mmodify (fun st => mk_state (b st) (out st ++ [i])) ;;;
      if s' =? sum then mret' true else collect l' s'
  end.

(** [for (i = n; i >= m; --i)]. *)
Definition downto (n m : nat) : list nat := reverse (seq m (S n - m)).

(** A loop whose body may return [true] from the function. *)
Fixpoint any {A} (l : list A) (f : A -> C bool) : C bool :=
  match l with
  | [] => mret' false
  | x :: l' => r <- f x ;; if r then mret' true else any l' f
  end.

Definition set_b (k i : nat) : C unit := mmodify (fun st => mk_state (<[k := i]> (b st)) (out st)).

(** The body for [m = 1], after [b[0]] is set. *)
Definition try_chosen (M : nat) : C bool :=
  st <- mget ;;
  su <- scan (chosen M st) 0 false ;;
  if su then mmodify (fun st => mk_state (b st) []) ;;; collect (chosen M st) 0 else mret' false.

Fixpoint combine_checksum (M : nat) (m n : nat) {struct m} : C bool :=
  match m with
  | O => mret' false
  | S m' =>
      any (downto n m) (fun i =>
        set_b m' (i - 1) ;;;
        match m' with
        | S _ => combine_checksum M m' (i - 1)
        | O => try_chosen M
        end)
  end.

(** [search_combine_checksum]; [b] is [int b[1024] = { 0 }]. *)
Definition search_combine_checksum (out0 : list nat) : outcome (bool * list nat) :=
  if (1024 <? length a)%nat then Ret (false, out0)
  else
    match any (seq 1 (length a)) (fun j => combine_checksum j j (length a)) (mk_state (replicate 1024 0%nat) out0) with
    | Ret (r, st, _) => Ret (r, out st)
    | UB why => UB why
    end.

End search.
End Combine.

Import Combine.

(** ** Sets of indices as decreasing lists *)

(** Strictly decreasing, all below [n]. *)
Fixpoint below (n : nat) (l : list nat) : Prop :=
  match l with [] => True | i :: l' => (i < n)%nat /\ below i l' end.

Lemma below_mono n n' l : (n <= n')%nat -> below n l -> below n' l.
Proof. destruct l; cbn; [done|]. intros ? [? ?]. split; [lia|done]. Qed.

Lemma below_length n l : below n l -> (length l <= n)%nat.
Proof. revert n. induction l as [|i l IH]; intros n; cbn; [lia|]. intros [Hi Hl]. apply IH in Hl. lia. Qed.

Lemma below_all n l : below n l -> Forall (fun i => (i < n)%nat) l.
Proof.
  revert n. induction l as [|i l IH]; intros n; cbn; [done|]. intros [Hi Hl]. constructor; [done|].
  eapply Forall_impl; [by apply IH|]. cbn. lia.
Qed.

Lemma below_NoDup n l : below n l -> NoDup l.
Proof.
  revert n. induction l as [|i l IH]; intros n; cbn; [constructor|]. intros [Hi Hl]. constructor; [|by eapply IH].
  intros Hin. apply below_all in Hl. rewrite Forall_forall in Hl. specialize (Hl _ Hin). lia.
Qed.

Lemma below_prefix n l1 l2 : below n (l1 ++ l2) -> below n l1.
Proof. revert n. induction l1 as [|i l1 IH]; intros n; cbn; [done|]. intros [? ?]. split; [done|by apply IH]. Qed.

(** Every set of indices is such a list. *)
Lemma below_sorted n e : NoDup e -> Forall (fun i => (i < n)%nat) e -> exists l, l ≡ₚ e /\ below n l.
Proof.
  revert e. induction n as [|n IH]; intros e Hnd Hall.
  - destruct e as [|i e]; [by exists []|]. inversion Hall. lia.
  - destruct (decide (n ∈ e)) as [Hin|Hin].
    + apply elem_of_Permutation in Hin as [e' He]. rewrite He in Hnd, Hall. apply NoDup_cons in Hnd as [Hn Hnd].
      inversion Hall as [|? ? _ Hall']; subst. destruct (IH e' Hnd) as (l & Hl & Hb).
      * rewrite Forall_forall in *. intros i Hi. specialize (Hall' i Hi). destruct (decide (i = n)) as [->|]; [done|lia].
      * exists (n :: l). split; [by rewrite Hl|]. cbn. split; [lia|done].
    + destruct (IH e Hnd) as (l & Hl & Hb).
      * rewrite Forall_forall in *. intros i Hi. specialize (Hall i Hi). destruct (decide (i = n)) as [->|]; [done|lia].
      * exists l. split; [done|]. by eapply below_mono; [|done]; lia.
Qed.

(** ** Sums *)

Definition value (a : list Z) (i : nat) : Z := default 0 (a !! i).
Definition sum_of (l : list Z) : Z := foldr Z.add 0 l.
Definition total (a : list Z) (l : list nat) : Z := sum_of (value a <$> l).
Definition magnitude (a : list Z) : Z := sum_of (Z.abs <$> a).

#[export] Instance sum_of_perm : Proper ((≡ₚ) ==> (=)) sum_of.
Proof. intros l1 l2 Hp. unfold sum_of. induction Hp; cbn; lia. Qed.

Lemma sum_of_app l1 l2 : sum_of (l1 ++ l2) = sum_of l1 + sum_of l2.
Proof. unfold sum_of. induction l1; cbn; lia. Qed.

Lemma sum_of_abs_nonneg l : 0 <= sum_of (Z.abs <$> l).
Proof. unfold sum_of. induction l; cbn; lia. Qed.

Lemma total_abs a l : Z.abs (total a l) <= sum_of (Z.abs <$> (value a <$> l)).
Proof. unfold total, sum_of. induction l as [|i l IH]; cbn in *; lia. Qed.

Lemma values_all a : value a <$> seq 0 (length a) = a.
Proof.
  apply list_eq. intros i. rewrite list_lookup_fmap. destruct (decide (i < length a)%nat) as [Hi|Hi].
  - rewrite lookup_seq_lt by done. cbn. unfold value. destruct (lookup_lt_is_Some_2 a i Hi) as [x ->]. done.
  - rewrite (lookup_ge_None_2 a) by lia. by rewrite lookup_seq_ge by lia.
Qed.

(** No set of indices adds up to more than the magnitudes. *)
Lemma total_bound a l : below (length a) l -> Z.abs (total a l) <= magnitude a.
Proof.
  intros Hb. pose proof (below_NoDup _ _ Hb) as Hnd. apply below_all in Hb. rewrite Forall_forall in Hb.
  destruct (submseteq_Permutation l (seq 0 (length a))) as [k Hk].
  { apply NoDup_submseteq; [done|]. intros i Hi. apply elem_of_seq. specialize (Hb i Hi). lia. }
  etrans; [apply total_abs|]. unfold magnitude. rewrite <- (values_all a) at 2. rewrite Hk, !fmap_app, sum_of_app.
  pose proof (sum_of_abs_nonneg (value a <$> k)). lia.
Qed.

Lemma total_perm a l1 l2 : l1 ≡ₚ l2 -> total a l1 = total a l2.
Proof. intros Hp. unfold total. by rewrite Hp. Qed.

Lemma total_snoc a l i : total a (l ++ [i]) = total a l + value a i.
Proof. unfold total. rewrite fmap_app, sum_of_app. cbn. lia. Qed.

(** ** The search *)

Section correct.
Context (a : list Z) (sum : Z).
Hypothesis no_overflow : magnitude a < 2 ^ 31.

(** The shortest non-empty prefix of the chosen indices that adds up. *)
Fixpoint first_hit (s : Z) (l : list nat) : option (list nat) :=
  match l with
  | [] => None
  | i :: l' => if s + value a i =? sum then Some [i] else cons i <$> first_hit (s + value a i) l'
  end.

Lemma add_first_run pre i l st :
  below (length a) (pre ++ i :: l) -> add_first a (total a pre) i st = Ret (total a (pre ++ [i]), st, []).
Proof.
  intros Hb. assert (Hp : below (length a) (pre ++ [i])) by (eapply below_prefix; rewrite <- app_assoc; exact Hb).
  pose proof (total_bound _ _ Hp) as Hle. pose proof (below_all _ _ Hp) as Hall.
  apply Forall_app in Hall as [_ Hi]. apply Forall_inv in Hi. destruct (lookup_lt_is_Some_2 a i Hi) as [x Hx].
  unfold add_first. rewrite total_snoc in *. assert (Hv : value a i = x) by (unfold value; by rewrite Hx). rewrite Hv in *. rewrite Hx.
  destruct (Z.leb_spec (- 2 ^ 31) (total a pre + x)), (Z.ltb_spec (total a pre + x) (2 ^ 31)); cbn [andb]; (done || lia).
Qed.

Lemma scan_run pre l su st :
  below (length a) (pre ++ l) ->
  scan a sum l (total a pre) su st = Ret (su || bool_decide (is_Some (first_hit (total a pre) l)), st, []).
Proof.
  revert pre su. induction l as [|i l IH]; intros pre su Hb; cbn [scan first_hit].
  - rewrite bool_decide_false by (intros [? [=]]). by rewrite orb_false_r.
  - rewrite (mbind_pure _ _ _ _ (add_first_run pre i l st Hb)). rewrite IH by (by rewrite <- app_assoc).
    do 3 f_equal. rewrite total_snoc. destruct (_ =? sum); [rewrite (bool_decide_true (is_Some (Some [i]))) by eauto; by rewrite !orb_true_r|].
    rewrite orb_false_r. f_equal. apply bool_decide_ext. by rewrite fmap_is_Some.
Qed.

Lemma collect_run pre l st :
  below (length a) (pre ++ l) ->
  collect a sum l (total a pre) st =
  match first_hit (total a pre) l with
  | Some p => Ret (true, mk_state (b st) (out st ++ p), [])
  | None => Ret (false, mk_state (b st) (out st ++ l), [])
  end.
Proof.
  revert pre st. induction l as [|i l IH]; intros pre st Hb; cbn [collect first_hit].
  - rewrite app_nil_r. by destruct st.
  - rewrite (mbind_pure _ _ _ _ (add_first_run pre i l st Hb)). rewrite (mbind_run (mmodify _) _ _ tt _ []) by done.
    rewrite total_snoc. destruct (_ =? sum) eqn:He; [done|]. rewrite <- total_snoc, IH by (by rewrite <- app_assoc).
    cbn [b out]. destruct (first_hit _ l); cbn; by rewrite <- app_assoc.
Qed.

Lemma try_chosen_run M st :
  below (length a) (chosen M st) ->
  try_chosen a sum M st =
  match first_hit 0 (chosen M st) with
  | Some p => Ret (true, mk_state (b st) p, [])
  | None => Ret (false, st, [])
  end.
Proof.
  intros Hb. unfold try_chosen. rewrite (mbind_pure mget _ st st) by done.
  pose proof (scan_run [] (chosen M st) false st Hb) as Hs. change (total a []) with 0 in Hs.
  rewrite (mbind_pure _ _ _ _ Hs). destruct (first_hit 0 (chosen M st)) as [p|] eqn:Hp; cbn [orb].
  - rewrite bool_decide_true by done. rewrite (mbind_run (mmodify _) _ st tt (mk_state (b st) []) []) by done.
    pose proof (collect_run [] (chosen M st) (mk_state (b st) []) Hb) as Hc. change (total a []) with 0 in Hc.
    rewrite Hp in Hc. by rewrite Hc.
  - by rewrite bool_decide_false by (intros [? [=]]).
Qed.

(** A search loop: it stops with the first element that is [good], or all are
    [bad] and the invariant holds at the end. *)
Lemma any_run {A} (I : state -> Prop) (good : A -> state -> Prop) (bad : A -> Prop) (l : list A) (f : A -> C bool) st :
  (forall x s, x ∈ l -> I s -> exists r s', f x s = Ret (r, s', []) /\ if r then good x s' else I s' /\ bad x) ->
  I st ->
  exists r s', any l f st = Ret (r, s', []) /\
    if r then exists l1 x l2, l = l1 ++ x :: l2 /\ good x s' /\ forall y, y ∈ l1 -> bad y
    else I s' /\ forall x, x ∈ l -> bad x.
Proof.
  revert st. induction l as [|x l IH]; intros st Hf HI; cbn [any]; [exists false, st; split; [done|]; set_solver|].
  destruct (Hf x st (list_elem_of_here _ _) HI) as (r & s1 & Hr & Hpost). rewrite (mbind_run _ _ _ _ _ _ Hr).
  destruct r; [exists true, s1; split; [done|]; exists [], x, l; set_solver|]. destruct Hpost as [H1 Hbad].
  destruct (IH s1) as (r & s2 & -> & H2); [set_solver|done|]. exists r, s2. split; [done|].
  destruct r; [|set_solver]. destruct H2 as (l1 & y & l2 & -> & Hg & Hb). exists (x :: l1), y, l2. set_solver.
Qed.

(** The indices fixed by the outer calls, last first. *)
Definition fixed (M m : nat) (st : state) : list nat := reverse (drop m (take M (b st))).

Lemma fixed_set M m i st :
  (m < M)%nat -> (M <= length (b st))%nat ->
  fixed M m (mk_state (<[m := i]> (b st)) (out st)) = fixed M (S m) st ++ [i].
Proof.
  intros Hm HM. unfold fixed. cbn [b]. rewrite <- reverse_cons. f_equal.
  rewrite take_insert_lt by done. rewrite (drop_S _ i).
  - f_equal. apply drop_insert_lt. lia.
  - apply list_lookup_insert_eq. rewrite length_take. lia.
Qed.

Lemma fixed_outer M m q c i : fixed M m q = c ++ [i] -> fixed M (S m) q = c.
Proof.
  unfold fixed. intros Hf. apply (f_equal reverse) in Hf. rewrite reverse_involutive, reverse_snoc in Hf.
  rewrite <- Nat.add_1_r, <- drop_drop, Hf. apply reverse_involutive.
Qed.

Lemma downto_range n m i : (1 <= m)%nat -> i ∈ downto n m <-> (m <= i <= n)%nat.
Proof. intros Hm. unfold downto. rewrite elem_of_reverse, elem_of_seq. lia. Qed.

(** What a call of [combine_checksum] has found out: an extension of the fixed
    indices with a hit, or that there is none. *)
Definition combined (M m n : nat) (st : state) (r : bool) (st' : state) : Prop :=
  length (b st') = length (b st) /\
  if r then exists d, below n d /\ length d = m /\ first_hit 0 (fixed M m st ++ d) = Some (out st')
  else fixed M m st' = fixed M m st /\ out st' = out st /\
       forall d, below n d -> length d = m -> first_hit 0 (fixed M m st ++ d) = None.

Lemma combine_checksum_run M m n st :
  (1 <= m <= M)%nat -> (M <= length (b st))%nat -> (forall d, below n d -> below (length a) (fixed M m st ++ d)) ->
  exists r st', combine_checksum a sum M m n st = Ret (r, st', []) /\ combined M m n st r st'.
Proof.
  revert n st. induction m as [|m IH]; intros n st Hm HM Hbelow; [lia|]. cbn [combine_checksum].
  set (c := fixed M (S m) st).
  destruct (any_run (fun s => fixed M (S m) s = c /\ length (b s) = length (b st) /\ out s = out st)
    (fun i s => length (b s) = length (b st) /\
       exists d, below (i - 1) d /\ length d = m /\ first_hit 0 (c ++ (i - 1)%nat :: d) = Some (out s))
    (fun i => forall d, below (i - 1) d -> length d = m -> first_hit 0 (c ++ (i - 1)%nat :: d) = None)
    (downto n (S m))
    (fun i => set_b m (i - 1) ;;; match m with S _ => combine_checksum a sum M m (i - 1) | O => try_chosen a sum M end) st)
    as (r & st' & Hr & Hpost); [|done|].
  - intros i s Hi (Hc & Hlen & Hout). apply downto_range in Hi; [|lia]. rewrite (mbind_silent (set_b _ _) _ s tt (mk_state (<[m := (i - 1)%nat]> (b s)) (out s))) by done.
    set (s1 := mk_state (<[m := (i - 1)%nat]> (b s)) (out s)).
    assert (H1 : fixed M m s1 = c ++ [(i - 1)%nat]) by (unfold s1; rewrite fixed_set by lia; by rewrite Hc).
    assert (Hlen1 : length (b s1) = length (b st)) by (cbn; by rewrite length_insert).
    assert (Hbel : forall d, below (i - 1) d -> below (length a) (fixed M m s1 ++ d)).
    { intros d Hd. rewrite H1, <- app_assoc. apply Hbelow. cbn. split; [lia|done]. }
    destruct m as [|m'].
    + specialize (Hbel [] I). rewrite app_nil_r in Hbel. change (fixed M 0 s1) with (chosen M s1) in *.
      rewrite (try_chosen_run M s1 Hbel), H1. destruct (first_hit 0 (c ++ [(i - 1)%nat])) as [p|] eqn:Hp.
      * eexists true, _. split; [reflexivity|]. split; [done|]. exists []. done.
      * exists false, s1. split; [reflexivity|]. rewrite <- Hc. split; [|intros [|? ?] ? [=]; congruence].
        split; [|done]. unfold fixed, s1. cbn [b]. rewrite take_insert_lt by lia. by rewrite drop_insert_lt by lia.
    + destruct (IH (i - 1)%nat s1 ltac:(lia) ltac:(lia) Hbel) as (r & s2 & Hr & Hl & Hpost). exists r, s2. split; [exact Hr|].
      assert (Hx : forall d, fixed M (S m') s1 ++ d = c ++ (i - 1)%nat :: d) by (intros d; by rewrite H1, <- app_assoc).
      destruct r; [destruct Hpost as (d & Hd & Hld & Hh); split; [congruence|]; exists d; by rewrite <- Hx|].
      destruct Hpost as (Hf & Ho & Hno). split; [|intros d; rewrite <- Hx; apply Hno].
      split_and!; [|congruence|by rewrite Ho].
      by apply (fixed_outer _ _ _ _ (i - 1)); rewrite Hf, H1.
  - exists r, st'. split; [done|]. destruct r.
    + destruct Hpost as (l1 & i & l2 & Hl & (Hlen & d & Hd & Hld & Hhit) & _). split; [done|].
      assert (Hi : i ∈ downto n (S m)) by (rewrite Hl; set_solver). apply downto_range in Hi; [|lia].
      exists ((i - 1)%nat :: d). cbn. split_and!; [lia|done|lia|done].
    + destruct Hpost as ((Hc & Hlen & Hout) & Hno). split; [done|]. split_and!; [done..|].
      intros [|i d] Hd [=]. destruct Hd as [Hi Hd]. pose proof (below_length _ _ Hd).
      specialize (Hno (S i)). replace (S i - 1)%nat with i in Hno by lia. apply Hno; [|done..].
      apply downto_range; lia.
Qed.

(** The search proper over the sizes from 1 on. *)
Lemma sizes_run out0 :
  (length a <= 1024)%nat ->
  exists r st', any (seq 1 (length a)) (fun j => combine_checksum a sum j j (length a)) (mk_state (replicate 1024 0%nat) out0)
      = Ret (r, st', []) /\
    if r then exists j d, below (length a) d /\ length d = j /\ first_hit 0 d = Some (out st') /\
        forall e, below (length a) e -> (1 <= length e < j)%nat -> first_hit 0 e = None
    else forall e, below (length a) e -> e <> [] -> first_hit 0 e = None.
Proof.
  intros Hlen.
  destruct (any_run (fun s => (length (b s) = 1024)%nat)
    (fun j s => exists d, below (length a) d /\ length d = j /\ first_hit 0 d = Some (out s))
    (fun j => forall d, below (length a) d -> length d = j -> first_hit 0 d = None)
    (seq 1 (length a)) (fun j => combine_checksum a sum j j (length a)) (mk_state (replicate 1024 0%nat) out0))
    as (r & st' & Hr & Hpost); [|apply length_replicate|].
  - intros j s [Hj1 Hj2]%elem_of_seq Hb.
    assert (Hf : fixed j j s = []) by (unfold fixed; by rewrite drop_ge by (rewrite length_take; lia)).
    destruct (combine_checksum_run j j (length a) s ltac:(lia) ltac:(lia) ltac:(by rewrite Hf)) as (r & s' & Hr & Hl & Hc).
    exists r, s'. split; [done|]. rewrite Hf in Hc. destruct r; [done|]. split; [congruence|apply Hc].
  - exists r, st'. split; [done|]. destruct r.
    + destruct Hpost as (l1 & j & l2 & Hl & (d & Hd & Hld & Hh) & Hbad). exists j, d. split_and!; [done..|].
      intros e He Hle. eapply Hbad; [|done|reflexivity].
      assert (Hjin : seq 1 (length a) !! length l1 = Some j) by (rewrite Hl; by apply list_lookup_middle).
      apply lookup_seq in Hjin as [-> Hjl].
      assert (Hin : seq 1 (length a) !! (length e - 1)%nat = Some (length e)) by (apply lookup_seq; lia).
      rewrite Hl, lookup_app_l in Hin by lia. by eapply list_elem_of_lookup_2.
    + intros e He Hne. destruct Hpost as [_ Hbad]. eapply (Hbad (length e)); [|done|done].
      apply elem_of_seq. apply below_length in He. destruct e; [done|]. cbn in *. lia.
Qed.

Lemma first_hit_Some s l p :
  first_hit s l = Some p -> exists l', l = p ++ l' /\ p <> [] /\ s + total a p = sum.
Proof.
  revert s p. induction l as [|i l IH]; intros s p; cbn [first_hit]; [done|].
  destruct (Z.eqb_spec (s + value a i) sum) as [He|He].
  - intros [= <-]. exists l. split_and!; [done..|]. unfold total, sum_of. cbn. lia.
  - intros (q & Hq & ->)%fmap_Some. apply IH in Hq as (l' & -> & _ & Hs). exists l'. split_and!; [done..|].
    unfold total, sum_of in *. cbn. lia.
Qed.

(** A list that adds up has a hit: it or a prefix. *)
Lemma first_hit_total s l : l <> [] -> s + total a l = sum -> first_hit s l <> None.
Proof.
  revert s. induction l as [|i l IH]; intros s Hne Hs; [done|]. cbn [first_hit].
  destruct (Z.eqb_spec (s + value a i) sum) as [He|He]; [done|]. unfold total, sum_of in *. cbn in Hs.
  intros Hn%fmap_None. destruct l as [|j l]; [cbn in Hs; lia|]. eapply (IH (s + value a i)); [done| |done]. cbn in *. lia.
Qed.

(** A non-empty set of positions of [a] whose values add up to [sum]. *)
Definition adds_up (e : list nat) : Prop :=
  NoDup e /\ e <> [] /\ Forall (fun i => (i < length a)%nat) e /\ total a e = sum.

Lemma adds_up_hit e : adds_up e -> exists l, below (length a) l /\ length l = length e /\ l <> [] /\ first_hit 0 l <> None.
Proof.
  intros (Hnd & Hne & Hall & Hs). destruct (below_sorted _ _ Hnd Hall) as (l & Hl & Hb).
  assert (l <> []) by (intros ->; by apply Permutation_nil in Hl).
  exists l. split_and!; [done|by rewrite Hl|done|]. apply first_hit_total; [done|]. by rewrite (total_perm _ _ _ Hl).
Qed.

End correct.

(** [search_combine_checksum] is a correct subset-sum search.  On at most 1024
    elements whose magnitudes add up to less than 2^31 it ends without an
    overflow or an access out of range; it returns [true] exactly when some
    non-empty set of elements adds up to [sum], and then [out] is such a set, each
    element once, and no smaller set does. *)
Theorem search_finds_smallest a sum out0 :
  (length a <= 1024)%nat -> magnitude a < 2 ^ 31 ->
  exists r out', search_combine_checksum a sum out0 = Ret (r, out') /\
    (r = true <-> exists e, adds_up a sum e) /\
    (r = true -> adds_up a sum out' /\ forall e, adds_up a sum e -> (length out' <= length e)%nat).
Proof.
  intros Hlen Hmag. unfold search_combine_checksum. rewrite (proj2 (Nat.ltb_ge _ _)) by done.
  destruct (sizes_run a sum Hmag out0 Hlen) as (r & st' & -> & Hpost). exists r, (out st'). split; [done|].
  destruct r.
  - destruct Hpost as (j & d & Hd & Hj & Hh & Hmin). apply first_hit_Some in Hh as (d' & Heq & Hne & Hs). subst d.
    assert (Hout : adds_up a sum (out st')).
    { apply below_prefix in Hd. split_and!; [by eapply below_NoDup|done|by apply below_all|done]. }
    split; [split; [by exists (out st')|done]|]. intros _. split; [done|]. intros e He.
    destruct (adds_up_hit a sum e He) as (l & Hl & Hll & Hlne & Hhit).
    destruct (decide (length e < j)%nat); [|rewrite length_app in Hj; lia].
    exfalso. apply Hhit, Hmin; [done|]. destruct l; [done|]. cbn in *. lia.
  - split; [|done]. split; [done|]. intros [e He]. destruct (adds_up_hit a sum e He) as (l & Hl & _ & Hlne & Hhit).
    exfalso. by apply Hhit, Hpost.
Qed.

Lemma search_finds_smallest_witness :
  search_combine_checksum [5; 3; 9; 4; 1] 13 [] = Ret (true, [3; 2]%nat) /\
  exists r out', search_combine_checksum [5; 3; 9; 4; 1] 13 [] = Ret (r, out') /\
    (r = true <-> exists e, adds_up [5; 3; 9; 4; 1] 13 e).
Proof.
  split; [vm_compute; reflexivity|].
  destruct (search_finds_smallest [5; 3; 9; 4; 1] 13 [] ltac:(cbn; lia) ltac:(reflexivity)) as (r & out' & H & Hr & _).
  exists r, out'. split; [exact H|exact Hr].
Defined.
