(* ===== verification/Utilities.v ===== *)
(** [common/utilities.cpp]: the string and time helpers of the servers.
    Substitution of alphanumeric strings over fifty tables, [itoa],
    [SplitStringA], the calendar predicates, [get_time] and the stream verifier.

    [localtime] is the C library's, an argument of type [time_t -> tm]; the
    current time is an argument too.  A [std::string] is a [string]. *)

From Stdlib Require Import Ascii String.
From S2P Require Import Prelude Crypt.
From stdpp Require Import prelude list strings.
#[local] Open Scope Z_scope.

Module Utilities.

(** ** Substitution tables *)

Definition character_original_table : string :=
  "abcdefghijklmnopqrstuvwxyzABCDEFGHIJKLMNOPQRSTUVWXYZ0123456789".

(** [encrypt_table::tables]: [character_encrypt_table] cut every 62 bytes. *)
Definition tables : list string :=
  ["h2OXAzK4ym3EFwJ5Gk7jCeRS8DcYMIPUQZHlq1oiNa6VgtfrxLvsn0uTdB9pbW";
   "F37VKZcUJdNpgljBnTG1SzWLYOs48vRutkPXDy9iMr0H5mhQexoabI6fAEq2wC";
   "zvFqehQwJB94ArsE51NL8fxbtSPGc0KOkIYylU67DodH2MCnVpgRWiaZjTXmu3";
   "X3RYHziS4JQ6ogLsNIpjPK5xdUlV27Otuc91CaDbveyZ0TB8WfFAwnhEGmMrkq";
   "zQ9gtdpAFlbI7OxnkrG06VsJhYcTXuWZD84Bq5R1fjeS2HLvmKywEoCi3MNaPU";
   "uHPt12gU3dKf8WmpERYhrCjInA6aLFN9JyMl0ZQvqbkTzoB75es4wxDXiGVOSc";
   "iqbYtXWrlp65RcS0ga3nyUZovHjzE1efBDI9TCL27NK4VwGdmMhskPuJxQFA8O";
   "ESmgflDu19qUjZLXnipzG5yakCMVoIr6QcRHvhWt8OxBdYA70bTsP243FeKJNw";
   "D6XdKbc8mxvYuzGAeWtfh2iE45PUnBoLg3HCRJjT9qwksFSVZpQ1MI7yOrN0al";
   "gw4Hi13ILuZtnm05pFoTz9MBy8RCfVJNjb2SOqEcUrPxvGA7eYldDWXQK6hska";
   "K4BgHUhPQJYt1Lrz97DCumwfNcp8WVSyMGeX3dAZixbTOknlF5v6a0sIjEqRo2";
   "PUpGbXWA6Nnm4KYu9t1T5zhcVqQiDjdEHLJ0OvZxwgsoBkIrl823yMaCeFR7Sf";
   "iBqCt1kzfayc2oervTPExw9ZhIJpuXY63MNKLQRnmVsH0b5W7jDGFUl8AdSgO4";
   "4OLnCqdZbyfExmX6a0Hvtrp9A8TGkzQWRPoJMViK1I2ghNlSDeuB7FjwcUs5Y3";
   "BIYrX96qVx3fwi5A2TlN4ZKDnERCt1byk0jJs8GWL7SchgpOFHPQvmoeMduazU";
   "3vVphnyJ4wQ0tO5R92YuAzbDHlC8fogqKG6SicBjmZaWTUMP7xeELsNk1XIFrd";
   "drOVYJg6AeznivK8BtW1pqGuTFXaIkbhUxLoRy43PZ9lC5wQcDNHS2sEMf7mj0";
   "XhPS2QwyUZiHWG8evLsblxFcjJrdROAmNq7Vk091DKzT5gEoI6tp4BCnYMua3f";
   "UvgNmKqMTF4WzAcaj6OP15rHGJV7S3ln0IZBYCeL8pRsDEyQk2fbhiXxudto9w";
   "8y7u3tJDYRxedKmH0WVbL9qlpGUrv2CTjQocInAZihXOB4SawN6P1fM5FgzkEs";
   "y6vpTgfkwLeBY28hlDjEqnKsVHbtuoQrMImX79xAZSa0JiFUOcR3GNd14PCW5z";
   "c4ABsWNdYEF9lODpgfzQxkPo3mUHeia0XrtvnJ7MTqj5G8uS6bVwCI2yZLK1hR";
   "Dz1rL3UgKxkvq7Qp289XbNVTcHlfWdYIBsRjnG6CEiSFoJtA5yaeZuPhO0m4Mw";
   "gFAOLYpSmKNQ0BJ26l8ykTubwUnMZXCIH1fDWqaidzE593VxjtPRos4rGh7vec";
   "NrzAmxfBWq6Dy3HJhnL7ubRT91MOtpcoPG2lgFCEwiIVaYveksSU085K4jZdXQ";
   "bmf6kl5CyE9r2uToL0Bzd3Vtqn1ZhpgUMXaKPSARHciOwQG78YWIvJsDj4xFNe";
   "4Qwrbuftad9OZ07RWTenjhA3BIcK2qEv8SJFLXNG15PiV6zgykmlxoDHpUYMCs";
   "YmoAFP3Dw0ZRcM724xJ9gzp8GjiHlXOkKEtNfqnUSr6bLsQ5u1ICBTVyhvdeaW";
   "6fw3KniqIx1PRtOF0U2CvbJTQehzMXcDZVyau5mGpsEdW9l7BHSNor8kLYA4gj";
   "uCITPp0DnbQrUlgRhS47X3dB1KcEeGMHyWANfiV2OmYv6txLFwkz8qa5osjZ9J";
   "N8mrGqe7JSgUE1ZVkozKDMjPQwTu92BtOFf0nbaxAcXH5siLdvyYC6hl3IWR4p";
   "r1XdREYSgWoThC4MjuJI3bUlfLmak2VNvc5sz9Z0tpBG8nwQFKH7eAPqDxi6Oy";
   "kCmIuVyoHrxgdbAZiS1tGpqJTK4zhWsULnvB7l3Mj6YQcPNE85ORwD02FefaX9";
   "n7OqFVPEW5KGctbUXk8Cy4YazI1Zwu9dpsfojJBS0g3HQMvelrmAT2Lx6iDNRh";
   "2PDoG6kazepcRAVgxSFvBWNLym97KidrXnYZ851Oj3M4CUEslQtHuwqbhTIfJ0";
   "jClKN4n71FTX9peHDbtfUQ82gSO5rqYwA36V0PZdzWJhLvRyaomEkGBiIMuxsc";
   "n3u0aSHWAeXTtvl2YfKr7BhzwF15qUQ4GIM8PbNJsRigdjZyOD6x9EmVcLpkCo";
   "zra0yAvDm4jB2x3pNKqR1f8C6VEwSktgs5LluFdMoZbhPI7GUcHWnX9TYieJOQ";
   "4uM6o2XkTwqFC5ZlYe8nzmivH9OdWLDxIRfJQar0NPpcSUy3gEAV7KthsjB1bG";
   "VNAzwyiGP52SImYsBnpQvtFcJCu8krod3X614TEZK0qfaexLHbR7UjM9lDOghW";
   "AqMXFevwOZygIYRNiD70khdc6JLUB5tCxb9EPr4Glzo1Q8f2s3uKTaVWnSHmpj";
   "Y1ZdOPeTg2jnbR6LH0qXupBflFwMsGErxoiaC3t4mkv7DQ5hUSJzI9VAN8yWcK";
   "DvHxq0oS4w5lb9paudR3YktPCFGOKzBgr1TMcf8VhWLAsy2iZjU6enJX7mNIEQ";
   "dHVUMsK1wB98Pbf0jJyDtaClvcR6xG7kITpm2EZoLXz3igSWneQNqrYOAFu5h4";
   "DzFbu0de6LAJ5vMBNRYQT7awjfCrKqiyZH8omIE9UPlShn4OWpcG2st1XxgV3k";
   "3BGrh7onLzRjQeAf1Tl9ZODEWxCYkbJUuP4qNIyaF5Vw6dH2pX0vtg8micMKSs";
   "NBxXuRI1w4kt8Jq6pOzml9hACFYbo2nevZaL7GiQfSsyDHPTcKr3UjWMdgV5E0";
   "4xXDbLem7Soa3Mf5r0NuyVWZpAIc2PUhC9Et68Rws1YFTkKJlvHzigjdBGQOqn";
   "uPHI8hpqQjGtwM5kabLR1OZdz6XFTcfY0vgm39CUDesrKN7JVE4S2noiWAlyBx";
   "OwgVpx290UmcsRyl8LHj3b4PqChGY6vKnST5iNfJADB7tdauXzQIrZokeWFM1E"].

Definition TABLE_COUNT : Z := 50.
Definition TABLE_SIZE : Z := 26 * 2 + 10.

(** [std::find]: the index of [a], or [None] for the end. *)
Fixpoint find_char (a : ascii) (t : string) : option nat :=
  match t with
  | EmptyString => None
  | String c t' => if Ascii.eqb c a then Some O else S <$> find_char a t'
  end.

Definition char_at (t : string) (i : nat) : ascii := default Ascii.zero (String.get i t).

(** [encrypt_get] and [decrypt_get] return the NUL character when the argument
    is not in the table. *)
Definition encrypt_get (data : string) (a : ascii) : ascii :=
  match find_char a character_original_table with
  | None => Ascii.zero
  | Some i => char_at data i
  end.

Definition decrypt_get (data : string) (a : ascii) : ascii :=
  match find_char a data with
  | None => Ascii.zero
  | Some i => char_at character_original_table i
  end.

(** The loop of [encrypt_string]/[decrypt_string] with [get]; [out] is the
    characters appended so far, and is cleared on the first unknown one. *)
Fixpoint crypt_loop (get : ascii -> ascii) (p out : string) : string :=
  match p with
  | EmptyString => out
  | String a p' =>
      let c := get a in
      if Ascii.eqb c Ascii.zero then EmptyString
      else crypt_loop get p' (out ++ String c EmptyString)
  end.

Definition encrypt_string (input out : string) (table : Z) : string :=
  if TABLE_COUNT <=? table then out
  else crypt_loop (encrypt_get (nth (Z.to_nat table) tables EmptyString)) input EmptyString.

Definition decrypt_string (input out : string) (table : Z) : string :=
  if TABLE_COUNT <=? table then out
  else crypt_loop (decrypt_get (nth (Z.to_nat table) tables EmptyString)) input EmptyString.

(** [generate_table_key] with the value of [rand()]. *)
Definition generate_table_key (rnd : Z) : Z := u32 (Z.rem rnd TABLE_COUNT).

(** ** [itoa] *)

Definition num : string := "0123456789abcdefghijklmnopqrstuvwxyz".

(** [strreverse begin end] on the characters between the two pointers: swap the
    ends and move inwards. *)
Fixpoint strreverse (fuel : nat) (s : list ascii) : list ascii :=
  match fuel with
  | O => s
  | S fuel' =>
      match s with
      | [] => []
      | b :: s1 =>
          match last s1 with
          | None => [b]
          | Some e => e :: strreverse fuel' (removelast s1) ++ [b]
          end
      end
  end.

(** [do { res = div(value, base); *wstr++ = num[res.rem]; } while (value = res.quot);]
    for [value >= 0]. *)
Fixpoint itoa_loop (fuel : nat) (value base : Z) : list ascii :=
  match fuel with
  | O => []
  | S fuel' =>
      let rem := Z.rem value base in
      let quot := Z.quot value base in
      char_at num (Z.to_nat rem) :: (if quot =? 0 then [] else itoa_loop fuel' quot base)
  end.

(** [itoa value str base]: the characters written before the NUL.  [-value]
    overflows on the least [int]. *)
Definition itoa (value base : Z) : outcome (list ascii) :=
  if (base <? 2) || (35 <? base) then Ret []
  else if value =? - 2 ^ 31 then UB "itoa: -INT_MIN"
  else
    let digits := itoa_loop 32 (Z.abs value) base in
    let wstr := if value <? 0 then digits ++ ["-"%char] else digits in
    Ret (strreverse (length wstr) wstr).

(** ** [SplitStringA] *)

(** [std::string::find], as the [int] the code assigns it to ([npos] is -1). *)
Definition find (s d : string) (pos : Z) : Z :=
  match String.index (Z.to_nat pos) d s with
  | Some n => Z.of_nat n
  | None => -1
  end.

(** [while (newPos >= iPos)]: the positions of the delimiters. *)
Fixpoint find_loop (fuel : nat) (s d : string) (iPos newPos : Z) : list Z :=
  match fuel with
  | O => []
  | S fuel' =>
      if iPos <=? newPos
      then newPos :: find_loop fuel' s d newPos (find s d (newPos + Z.of_nat (String.length d)))
      else []
  end.

Definition substr (s : string) (offset count : Z) : string :=
  String.substring (Z.to_nat offset) (Z.to_nat count) s.

(** [for (i = 0; i <= positions.size(); ++i)]: [prev] is [positions[i - 1]] and
    [positions] starts at [positions[i]]. *)
Fixpoint cut_loop (s : string) (dl : Z) (prev : option Z) (positions : list Z) : list string :=
  let strInLength := Z.of_nat (String.length s) in
  let piece :=
    match prev, positions with
    | None, p :: _ => substr s 0 p
    | None, [] => EmptyString
    | Some q, _ =>
        let offset := q + dl in
        if offset <? strInLength then
          match positions with
          | [] => substr s offset strInLength
          | p :: _ => substr s offset (p - q - dl)
          end
        else EmptyString
    end in
  let rest := match positions with [] => [] | p :: ps => cut_loop s dl (Some p) ps end in
  if (0 <? Z.of_nat (String.length piece)) then piece :: rest else rest.

(** The result and the vector [ret]. *)
Definition SplitStringA (strIn strDelimiter : string) : Z * list string :=
  if (Z.of_nat (String.length strDelimiter) =? 0) || (Z.of_nat (String.length strIn) =? 0)
  then (0, [])
  else
    let newPos := find strIn strDelimiter 0 in
    if newPos <? 0 then (1, [strIn])
    else
      let positions := find_loop (S (String.length strIn)) strIn strDelimiter 0 newPos in
      (Z.of_nat (length positions),
       cut_loop strIn (Z.of_nat (String.length strDelimiter)) None positions).

(** [is_valid_string]: bytes above 0x80 swallow the next one. *)
Fixpoint is_valid_string (s : string) : bool :=
  let between lo c hi := (lo <=? c) && (c <=? hi) in
  match s with
  | EmptyString => true
  | String a s' =>
      let c := Z.of_N (N_of_ascii a) in
      if 0x80 <? c then match s' with EmptyString => true | String _ s'' => is_valid_string s'' end
      else if between 97 c 122 || between 65 c 90 || between 48 c 57 then is_valid_string s'
      else false
  end.

(** ** Dates *)

Record tm : Type := mk_tm {
  tm_sec : Z; tm_min : Z; tm_hour : Z; tm_mday : Z; tm_mon : Z; tm_year : Z;
  tm_wday : Z; tm_yday : Z
}.

Section calendar.
Context (localtime : Z -> tm).

(** The pointer argument is [None] when null; [now] is [time()]. *)
Definition is_in_current_mon (now : Z) (t : option Z) : bool :=
  match t with
  | None => false
  | Some last =>
      if last =? 0 then true
      else (tm_year (localtime last) =? tm_year (localtime now))
           && (tm_mon (localtime last) =? tm_mon (localtime now))
  end.

Definition is_in_today (now : Z) (t : option Z) : bool :=
  match t with
  | None => false
  | Some last =>
      if last =? 0 then false
      else (tm_year (localtime last) =? tm_year (localtime now))
           && (tm_yday (localtime last) =? tm_yday (localtime now))
  end.

(** The six values, as written to the out-parameters. *)
Definition convert_unix_time (t : Z) : Z * Z * Z * Z * Z * Z :=
  let p := localtime t in
  (tm_year p + 1900, tm_mon p + 1, tm_mday p, tm_hour p, tm_min p, tm_sec p).

Definition same_month (t1 t2 : Z) : bool :=
  (tm_year (localtime t1) =? tm_year (localtime t2))
  && (tm_mon (localtime t1) =? tm_mon (localtime t2)).

Definition same_week (t1 t2 : Z) : bool :=
  let p1 := localtime t1 in let p2 := localtime t2 in
  if (tm_year p1 =? tm_year p2) && (tm_mon p1 =? tm_mon p2)
  then tm_wday p1 + (tm_mday p2 - tm_mday p1) <? 7
  else false.

Definition is_dayofweek (t dow : Z) : bool := tm_wday (localtime t) =? dow.

Definition in_duration (t hstart hend : Z) : bool :=
  (hstart <=? tm_hour (localtime t)) && (tm_hour (localtime t) <? hend).

(** The six numbers [get_time] prints with ["%d-%d-%d %d:%d:%d"]; [now] is
    [time()]. *)
Definition get_time (now cur_time : Z) : Z * Z * Z * Z * Z * Z :=
  let cur := localtime (if cur_time =? 0 then now else cur_time) in
  (tm_year cur + 1900, tm_mon cur + 1, tm_mday cur + 1, tm_hour cur, tm_min cur, tm_sec cur).

End calendar.

(** ** [data_stream_verifier] *)

Definition make_checksum (d : list Z) : Z := Ssl.sslCrc32 (Some d).

Definition verify_data_stream (d : list Z) (checksum : Z) : bool :=
  checksum =? Ssl.sslCrc32 (Some d).

Definition char_table : string :=
  ("2PDoG6kazepcRAVgxSFvBWNLym97KidrXnYZ851Oj3M4CUEslQtHuwqbhTIfJ0"
   ++ "jClKN4n71FTX9peHDbtfUQ82gSO5rqYwA36V0PZdzWJhLvRyaomEkGBiIMuxsc"
   ++ "n3u0aSHWAeXTtvl2YfKr7BhzwF15qUQ4GIM8PbNJsRigdjZyOD6x9EmVcLpkCo"
   ++ "zra0yAvDm4jB2x3pNKqR1f8C6VEwSktgs5LluFdMoZbhPI7GUcHWnX9TYieJOQ"
   ++ "4uM6o2XkTwqFC5ZlYe8nzmivH9OdWLDxIRfJQar0NPpcSUy3gEAV7KthsjB1bG").

Definition char_table_size : Z := 5 * (26 * 2 + 10).

(** The offset [get_magic_number key] reads four bytes at. *)
Definition magic_offset (key : Z) : Z := key mod (char_table_size - 4).

Definition get_magic_number (key : Z) : Z :=
  le_val (map (fun i => Z.of_N (N_of_ascii (char_at char_table (Z.to_nat (magic_offset key) + i))))
            (seq 0 4)).

End Utilities.

Import Utilities.

(** ** Lemmas *)

Fixpoint map_string (f : ascii -> ascii) (s : string) : string :=
  match s with EmptyString => EmptyString | String a s' => String (f a) (map_string f s') end.

Definition alnum (a : ascii) : Prop := find_char a character_original_table <> None.

Fixpoint all_chars (P : ascii -> Prop) (s : string) : Prop :=
  match s with EmptyString => True | String a s' => P a /\ all_chars P s' end.

Lemma string_app_assoc (a b c : string) : ((a ++ b) ++ c = a ++ (b ++ c))%string.
Proof. induction a as [|x a IH]; [done|]. exact (f_equal (String x) IH). Qed.

Lemma string_app_nil_r (a : string) : (a ++ "" = a)%string.
Proof. induction a as [|x a IH]; [done|]. exact (f_equal (String x) IH). Qed.

Lemma crypt_loop_map get p out :
  all_chars (fun a => get a <> Ascii.zero) p ->
  crypt_loop get p out = (out ++ map_string get p)%string.
Proof.
  revert out. induction p as [|a p IH]; intros out Hp; simpl.
  - by rewrite string_app_nil_r.
  - destruct Hp as [Ha Hp]. destruct (Ascii.eqb_spec (get a) Ascii.zero); [done|].
    rewrite IH by done. apply string_app_assoc.
Qed.

(** The fifty tables are permutations of the original one. *)
Lemma tables_b :
  forallb (fun t => forallb (fun a =>
      let c := encrypt_get t a in
      negb (Ascii.eqb c Ascii.zero) && Ascii.eqb (decrypt_get t c) a)
    (list_ascii_of_string character_original_table)) tables = true.
Proof. vm_compute. reflexivity. Qed.

Lemma find_char_in a t : find_char a t <> None -> In a (list_ascii_of_string t).
Proof.
  induction t as [|c t IH]; simpl; [done|].
  destruct (Ascii.eqb_spec c a); [by left|]. intros H. right. apply IH.
  by destruct (find_char a t).
Qed.

Lemma table_char t a :
  In t tables -> alnum a ->
  encrypt_get t a <> Ascii.zero /\ decrypt_get t (encrypt_get t a) = a.
Proof.
  intros Ht Ha. pose proof tables_b as Hb. rewrite forallb_forall in Hb.
  specialize (Hb t Ht). rewrite forallb_forall in Hb.
  specialize (Hb a (find_char_in _ _ Ha)). cbv zeta in Hb.
  apply andb_true_iff in Hb as [H1 H2]. split.
  - intros He. by rewrite He in H1.
  - by apply Ascii.eqb_eq.
Qed.

Lemma alnum_not_nul a : alnum a -> a <> Ascii.zero.
Proof. intros Ha ->. by apply Ha. Qed.

Lemma crypt_inverse t p :
  In t tables -> all_chars alnum p ->
  all_chars (fun a => encrypt_get t a <> Ascii.zero) p /\
  all_chars (fun a => decrypt_get t a <> Ascii.zero) (map_string (encrypt_get t) p) /\
  map_string (decrypt_get t) (map_string (encrypt_get t) p) = p.
Proof.
  intros Ht. induction p as [|a p IH]; intros Hp; [done|].
  destruct Hp as [Ha Hp]. destruct (IH Hp) as (H1 & H2 & H3).
  destruct (table_char t a Ht Ha) as [He Hd]. simpl. rewrite Hd, H3.
  split_and!; try done. by apply alnum_not_nul.
Qed.

Lemma nth_tables table : 0 <= table < 50 -> In (nth (Z.to_nat table) tables EmptyString) tables.
Proof. intros Ht. apply nth_In. change (length tables) with 50%nat. lia. Qed.

(** *** [SplitStringA] on a one-character delimiter *)

(** The standard cut: the fields between delimiters, empty ones included. *)
Fixpoint cut (d : ascii) (s : string) : list string :=
  match s with
  | EmptyString => [EmptyString]
  | String a s' =>
      if Ascii.eqb a d then EmptyString :: cut d s'
      else match cut d s' with
           | [] => []
           | f :: fs => String a f :: fs
           end
  end.

Definition non_empty (s : string) : bool := (0 <? Z.of_nat (String.length s)).

(** The positions of the delimiter in a suffix that starts at [n]. *)
Fixpoint delims_from (d : ascii) (n : Z) (s : string) : list Z :=
  match s with
  | EmptyString => []
  | String a s' => if Ascii.eqb a d then n :: delims_from d (n + 1) s' else delims_from d (n + 1) s'
  end.

Definition delim (d : ascii) : string := String d EmptyString.

Lemma delims_shift d n k s : delims_from d (n + k) s = map (Z.add k) (delims_from d n s).
Proof.
  revert n. induction s as [|a s IH]; intros n; [done|]. cbn [delims_from].
  replace (n + k + 1) with (n + 1 + k) by lia. rewrite IH.
  destruct (Ascii.eqb a d); cbn [map]; [f_equal; lia|done].
Qed.

Lemma delims_ge d n s : Forall (fun p => n <= p < n + Z.of_nat (String.length s)) (delims_from d n s).
Proof.
  revert n. induction s as [|a s IH]; intros n; cbn [delims_from String.length]; [constructor|].
  assert (H : Forall (fun p => n <= p < n + Z.of_nat (S (String.length s))) (delims_from d (n + 1) s)).
  { eapply Forall_impl; [apply IH|]. simpl. lia. }
  destruct (Ascii.eqb a d); [constructor; [lia|done]|done].
Qed.

(** [find] from the start of the suffix [t] returns its first delimiter. *)
Definition first_or (l : list Z) : Z := match l with [] => -1 | p :: _ => p end.

Lemma index_delim d s :
  String.index 0 (delim d) s =
  match delims_from d 0 s with [] => None | p :: _ => Some (Z.to_nat p) end.
Proof.
  induction s as [|a s IH]; [done|]. cbn [String.index delim String.prefix delims_from].
  destruct (ascii_dec d a) as [->|Hne].
  - rewrite Ascii.eqb_refl. by destruct s.
  - destruct (Ascii.eqb_spec a d); [congruence|].
    fold (delim d). rewrite IH. replace (0 + 1) with (0 + 1) by done.
    rewrite (delims_shift d 0 1). pose proof (delims_ge d 0 s) as Hge.
    destruct (delims_from d 0 s) as [|p ps]; [done|]. cbn [map].
    apply Forall_cons in Hge as [Hp _]. f_equal. lia.
Qed.

Lemma find_suffix d s t :
  find (s ++ t) (delim d) (Z.of_nat (String.length s)) =
  first_or (delims_from d (Z.of_nat (String.length s)) t).
Proof.
  unfold find. rewrite Nat2Z.id.
  assert (Hi : String.index (String.length s) (delim d) (s ++ t) =
    (fun n => String.length s + n)%nat <$> String.index 0 (delim d) t).
  { induction s as [|a s IH].
    - change (EmptyString +:+ t) with t. cbn [String.length Nat.add].
      by destruct (String.index 0 (delim d) t).
    - change (String a s +:+ t) with (String a (s +:+ t)). cbn [String.index String.length]. rewrite IH. by destruct (String.index 0 (delim d) t). }
  rewrite Hi, index_delim. pose proof (delims_shift d 0 (Z.of_nat (String.length s)) t) as Hs.
  rewrite Z.add_0_l in Hs. rewrite Hs. pose proof (delims_ge d 0 t) as Hge.
  destruct (delims_from d 0 t) as [|p ps]; [done|]. apply Forall_cons in Hge as [Hp _].
  cbn. lia.
Qed.

Lemma length_string_app (a b : string) : String.length (a ++ b) = (String.length a + String.length b)%nat.
Proof. induction a as [|x a IH]; [done|]. exact (f_equal S IH). Qed.

Lemma string_app_cons a (s t : string) : (String a s ++ t)%string = String a (s ++ t)%string.
Proof. done. Qed.

Lemma substring_app (s t : string) n :
  String.substring (String.length s) n (s ++ t) = String.substring 0 n t.
Proof. induction s as [|a s IH]; [done|]. exact IH. Qed.

Lemma substring_all t n : (String.length t <= n)%nat -> String.substring 0 n t = t.
Proof.
  revert n. induction t as [|a t IH]; intros [|n] Hn; try done; simpl in Hn; [lia|].
  cbn [String.substring]. rewrite IH; [done|lia].
Qed.

Lemma substring_head (t u : string) : String.substring 0 (String.length t) (t ++ u) = t.
Proof.
  induction t as [|a t IH]; [by destruct u|]. rewrite string_app_cons.
  cbn [String.length String.substring]. by rewrite IH.
Qed.

(** The first delimiter splits the suffix. *)
Lemma delims_cons d n t p ps :
  delims_from d n t = p :: ps ->
  exists t1 t2, t = (t1 ++ String d t2)%string /\ p = n + Z.of_nat (String.length t1) /\
    ps = delims_from d (p + 1) t2 /\ cut d t = t1 :: cut d t2.
Proof.
  revert n. induction t as [|a t IH]; intros n Hd; [discriminate|]. cbn [delims_from cut] in *.
  destruct (Ascii.eqb_spec a d) as [->|Hne].
  - injection Hd as <- <-. exists EmptyString, t. split_and!; try done. simpl. lia.
  - apply IH in Hd as (t1 & t2 & -> & -> & -> & Hc). exists (String a t1), t2.
    rewrite Hc. split_and!; try done. cbn [String.length]. lia.
Qed.

Lemma delims_nil d n t : delims_from d n t = [] -> cut d t = [t].
Proof.
  revert n. induction t as [|a t IH]; intros n Hd; [done|]. cbn [delims_from cut] in *.
  destruct (Ascii.eqb a d); [discriminate|]. by rewrite (IH _ Hd).
Qed.

Lemma find_loop_delims fuel d s t iPos :
  let n := Z.of_nat (String.length s) in
  (String.length t < fuel)%nat -> 0 <= iPos <= n ->
  find_loop fuel (s ++ t) (delim d) iPos (first_or (delims_from d n t)) = delims_from d n t.
Proof.
  cbv zeta. revert s t iPos. induction fuel as [|fuel IH]; intros s t iPos Hf Hi; [lia|].
  cbn [find_loop]. destruct (delims_from d _ t) as [|p ps] eqn:Hd; cbn [first_or].
  - by destruct (Z.leb_spec iPos (-1)); [lia|].
  - apply delims_cons in Hd as (t1 & t2 & -> & -> & -> & _).
    destruct (Z.leb_spec iPos (Z.of_nat (String.length s) + Z.of_nat (String.length t1))); [|lia].
    f_equal. set (s' := (s ++ t1 ++ String d EmptyString)%string).
    assert (Hl : Z.of_nat (String.length s') =
      Z.of_nat (String.length s) + Z.of_nat (String.length t1) + 1)
      by (unfold s'; rewrite !length_string_app; simpl; lia).
    replace (s ++ t1 ++ String d t2)%string with (s' ++ t2)%string
      by (unfold s'; rewrite !string_app_assoc; done).
    change (Z.of_nat (String.length (delim d))) with 1. rewrite <- Hl, find_suffix.
    apply IH; [|lia]. rewrite length_string_app in Hf. simpl in Hf. lia.
Qed.

Lemma cut_loop_some d s t q :
  Z.of_nat (String.length s) = q + 1 ->
  cut_loop (s ++ t) 1 (Some q) (delims_from d (q + 1) t) = List.filter non_empty (cut d t).
Proof.
  revert s q. induction t as [t IH] using (induction_ltof1 _ String.length).
  intros s q Hq. destruct (delims_from d (q + 1) t) as [|p ps] eqn:Hd.
  - rewrite (delims_nil _ _ _ Hd). cbn [cut_loop List.filter].
    rewrite length_string_app. unfold substr. rewrite <- Hq, Nat2Z.id, substring_app.
    rewrite substring_all by lia. unfold non_empty.
    destruct (Z.ltb_spec (Z.of_nat (String.length s)) (Z.of_nat (String.length s + String.length t))).
    + by destruct (0 <? _).
    + destruct t; [done|simpl in *; lia].
  - apply delims_cons in Hd as (t1 & t2 & -> & -> & -> & Hc). rewrite Hc.
    cbn [cut_loop List.filter]. rewrite !length_string_app. unfold substr.
    destruct (Z.ltb_spec (q + 1) (Z.of_nat (String.length s + (String.length t1 + String.length (String d t2)))));
      [|simpl in *; lia].
    rewrite <- Hq, Nat2Z.id, substring_app.
    replace (Z.to_nat _) with (String.length t1) by lia. rewrite substring_head.
    replace (s ++ t1 ++ String d t2)%string with ((s ++ t1 ++ String d EmptyString) ++ t2)%string
      by (rewrite !string_app_assoc; done).
    rewrite Hq. fold (non_empty t1). rewrite IH; [done|unfold ltof; rewrite length_string_app; simpl; lia|].
    rewrite !length_string_app. simpl. lia.
Qed.

(** The result counts delimiters, or is 1 for a string without one. *)
Lemma split_spec d s :
  s <> EmptyString ->
  SplitStringA s (delim d) =
  (match delims_from d 0 s with [] => 1 | ps => Z.of_nat (length ps) end,
   List.filter non_empty (cut d s)).
Proof.
  intros Hs. unfold SplitStringA. destruct (Z.eqb_spec (Z.of_nat (String.length s)) 0) as [H0|H0];
    [destruct s; [done|simpl in H0; lia]|].
  change (Z.of_nat (String.length (delim d)) =? 0) with false. cbn [orb].
  pose proof (find_suffix d EmptyString s) as Hf. change (Z.of_nat (String.length EmptyString)) with 0 in Hf.
  change (EmptyString ++ s)%string with s in Hf. rewrite Hf.
  pose proof (delims_ge d 0 s) as Hge.
  destruct (delims_from d 0 s) as [|p ps] eqn:Hd; cbn [first_or].
  - rewrite (delims_nil _ _ _ Hd). cbn [Z.ltb List.filter]. change (-1 <? 0) with true. cbv iota.
    unfold non_empty. destruct (Z.ltb_spec 0 (Z.of_nat (String.length s))); [done|lia].
  - apply Forall_cons in Hge as [Hp _]. destruct (Z.ltb_spec p 0); [lia|].
    pose proof (find_loop_delims (S (String.length s)) d EmptyString s 0 ltac:(lia) ltac:(simpl; lia)) as Hl.
    change (Z.of_nat (String.length EmptyString)) with 0 in Hl. change (EmptyString ++ s)%string with s in Hl.
    rewrite Hd in Hl. cbn [first_or] in Hl. rewrite Hl. f_equal.
    apply delims_cons in Hd as (t1 & t2 & -> & -> & -> & Hc). rewrite Hc.
    change (Z.of_nat (String.length (delim d))) with 1. cbn [cut_loop List.filter].
    unfold substr. change (Z.to_nat 0) with 0%nat. rewrite Z.add_0_l, Nat2Z.id, substring_head.
    replace (t1 ++ String d t2)%string with ((t1 ++ String d EmptyString) ++ t2)%string
      by (rewrite string_app_assoc; done).
    rewrite cut_loop_some; [done|]. rewrite length_string_app. simpl. lia.
Qed.

(** Joining fields with the delimiter. *)
Fixpoint join_with (d : ascii) (fs : list string) : string :=
  match fs with
  | [] => EmptyString
  | [f] => f
  | f :: fs' => (f ++ String d (join_with d fs'))%string
  end.

Lemma cut_field d f t :
  all_chars (fun a => a <> d) f -> cut d (f ++ String d t) = f :: cut d t.
Proof.
  induction f as [|a f IH]; intros Hf; cbn [all_chars] in Hf.
  - change (EmptyString ++ String d t)%string with (String d t). cbn [cut]. by rewrite Ascii.eqb_refl.
  - rewrite string_app_cons. cbn [cut]. destruct (Ascii.eqb_spec a d); [naive_solver|].
    by rewrite IH by naive_solver.
Qed.

Lemma cut_whole d f : all_chars (fun a => a <> d) f -> cut d f = [f].
Proof.
  induction f as [|a f IH]; intros Hf; cbn [all_chars] in Hf; [done|]. cbn [cut].
  destruct (Ascii.eqb_spec a d); [naive_solver|]. by rewrite IH by naive_solver.
Qed.

Lemma cut_join d fs :
  fs <> [] -> Forall (all_chars (fun a => a <> d)) fs -> cut d (join_with d fs) = fs.
Proof.
  intros Hne Hfs. induction Hfs as [|f fs Hf Hfs IH]; [done|].
  destruct fs as [|g fs]; [by apply cut_whole|].
  change (join_with d (f :: g :: fs)) with (f ++ String d (join_with d (g :: fs)))%string.
  by rewrite cut_field, IH.
Qed.

(** *** Numbers *)

Definition digit (a : ascii) : Z := match find_char a num with Some i => Z.of_nat i | None => -1 end.

(** The number a list of digits denotes, most significant first. *)
Definition value_of (base : Z) (ds : list ascii) : Z :=
  fold_left (fun acc a => acc * base + digit a) ds 0.

Lemma value_of_snoc base ds a : value_of base (ds ++ [a]) = value_of base ds * base + digit a.
Proof. unfold value_of. by rewrite fold_left_app. Qed.

Lemma digits_b :
  forallb (fun i => Z.eqb (digit (char_at num i)) (Z.of_nat i)) (seq 0 36) = true.
Proof. vm_compute. reflexivity. Qed.

Lemma digit_num i : 0 <= i < 36 -> digit (char_at num (Z.to_nat i)) = i.
Proof.
  intros Hi. pose proof digits_b as Hb. rewrite forallb_forall in Hb.
  specialize (Hb (Z.to_nat i)). rewrite Z.eqb_eq in Hb. rewrite Hb; [lia|]. apply in_seq. lia.
Qed.

Lemma strreverse_rev fuel s : (length s <= fuel)%nat -> strreverse fuel s = rev s.
Proof.
  revert s. induction fuel as [|fuel IH]; intros s Hs; [by destruct s; [|simpl in Hs; lia]|].
  destruct s as [|b s]; [done|]. cbn [strreverse].
  destruct s as [|e' s' _] using rev_ind; [done|]. rewrite last_snoc, removelast_last.
  rewrite IH by (rewrite length_cons, length_app in Hs; simpl in Hs; lia).
  cbn [rev]. by rewrite rev_app_distr.
Qed.

Lemma itoa_loop_value fuel v base :
  0 <= v < 2 ^ Z.of_nat fuel -> 2 <= base <= 35 ->
  value_of base (rev (itoa_loop fuel v base)) = v /\
  Forall (fun a => 0 <= digit a < base) (itoa_loop fuel v base) /\
  (v <> 0 -> digit (default Ascii.zero (last (itoa_loop fuel v base))) <> 0).
Proof.
  intros Hv Hb. revert v Hv. induction fuel as [|fuel IH]; intros v Hv.
  - simpl in Hv. assert (v = 0) as -> by lia. done.
  - cbn [itoa_loop]. rewrite Z.rem_mod_nonneg, Z.quot_div_nonneg by lia.
    pose proof (Z.mod_pos_bound v base ltac:(lia)) as Hm.
    pose proof (Z.div_mod v base ltac:(lia)) as Hd.
    assert (Hdig : digit (char_at num (Z.to_nat (v mod base))) = v mod base) by (apply digit_num; lia).
    cbn [rev]. rewrite value_of_snoc, Hdig.
    destruct (Z.eqb_spec (v / base) 0) as [H0|H0].
    + rewrite H0 in Hd. cbn [rev last default]. split_and!.
      * unfold value_of. cbn [fold_left]. lia.
      * constructor; [lia|constructor].
      * intros Hv0. change (digit (char_at num (Z.to_nat (v mod base))) <> 0). lia.
    + rewrite Nat2Z.inj_succ, Z.pow_succ_r in Hv by lia.
      assert (Hq : 0 <= v / base < 2 ^ Z.of_nat fuel).
      { split; [apply Z.div_pos; lia|]. apply Z.div_lt_upper_bound; nia. }
      destruct (IH _ Hq) as (-> & Hall & Hlast). split_and!; [lia|constructor; [lia|done]|].
      intros _. specialize (Hlast H0). destruct (itoa_loop fuel (v / base) base) eqn:E; [|exact Hlast].
      exfalso. apply H0. destruct fuel; [simpl in Hq; lia|discriminate].
Qed.

Lemma filter_non_empty fs :
  Forall (fun f => f <> EmptyString) fs -> List.filter non_empty fs = fs.
Proof.
  induction 1 as [|[|a f] fs Hf _ IH]; [done|done|]. cbn [List.filter].
  unfold non_empty at 1. destruct (Z.ltb_spec 0 (Z.of_nat (String.length (String a f)))) as [_|H].
  - by rewrite IH.
  - cbn [String.length] in H. lia.
Qed.

(** ** Properties *)

(** For every one of the fifty tables, decrypting an encrypted
    alphanumeric string gives it back, whatever the output strings held. *)
Theorem decrypt_string_encrypt_string s out1 out2 table :
  all_chars alnum s -> 0 <= table < 50 ->
  decrypt_string (encrypt_string s out1 table) out2 table = s.
Proof.
  intros Hs Ht. unfold decrypt_string, encrypt_string, TABLE_COUNT.
  destruct (Z.leb_spec 50 table); [lia|].
  destruct (crypt_inverse _ s (nth_tables table Ht) Hs) as (H1 & H2 & H3).
  rewrite (crypt_loop_map _ s) by done.
  change (EmptyString ++ ?x)%string with x. rewrite (crypt_loop_map _ (map_string _ _)) by done.
  exact H3.
Qed.

Lemma decrypt_string_encrypt_string_witness :
  decrypt_string (encrypt_string "Hero7" "old" 49) "x" 49 = "Hero7"%string.
Proof.
  apply (decrypt_string_encrypt_string "Hero7" "old" "x" 49); [|lia].
  repeat split; vm_compute; discriminate.
Defined.

(** [SplitStringA] inverts joining with a one-character delimiter: fields
    that are not empty and do not contain the delimiter come back, in order.  The
    result it returns is the number of delimiters, or 1 when there is none. *)
Theorem SplitStringA_join d fs :
  fs <> [] -> Forall (fun f => f <> EmptyString /\ all_chars (fun a => a <> d) f) fs ->
  SplitStringA (join_with d fs) (delim d) =
  (Z.max 1 (Z.of_nat (length fs) - 1), fs).
Proof.
  intros Hne Hfs.
  assert (Hall : Forall (all_chars (fun a => a <> d)) fs) by (eapply Forall_impl; [exact Hfs|]; by intros f [_ Hf]).
  assert (Hjoin : join_with d fs <> EmptyString).
  { destruct Hfs as [|f [|g fs] [Hf _] _]; [done|done|]. cbn [join_with].
    destruct f; [done|]. rewrite string_app_cons. done. }
  assert (Hcount : forall n fs, fs <> [] -> Forall (all_chars (fun a => a <> d)) fs ->
    Z.of_nat (length (delims_from d n (join_with d fs))) = Z.of_nat (length fs) - 1).
  { clear. intros n fs Hne Hfs.
    assert (Hlen : forall n t, Z.of_nat (length (delims_from d n t)) = Z.of_nat (length (cut d t)) - 1
      /\ (0 < length (cut d t))%nat).
    { clear. intros n t. revert n. induction t as [|a t IH]; intros n; [simpl; lia|].
      cbn [delims_from cut]. destruct (IH (n + 1)) as [IH1 IH2].
      destruct (Ascii.eqb a d); cbn [length]; [lia|]. destruct (cut d t); simpl in *; lia. }
    by rewrite (proj1 (Hlen n _)), cut_join. }
  rewrite split_spec, cut_join by done. f_equal.
  - specialize (Hcount 0 fs Hne Hall). destruct (delims_from d 0 (join_with d fs)); [simpl in Hcount; lia|].
    rewrite Hcount. destruct fs as [|f [|g fs]]; simpl in *; lia.
  - apply filter_non_empty. eapply Forall_impl; [exact Hfs|]. by intros f [Hf _].
Qed.

Lemma SplitStringA_join_witness :
  SplitStringA (join_with ":"%char ["suit"; "12,13"; "x"]) (delim ":"%char) = (2, ["suit"; "12,13"; "x"]).
Proof.
  apply (SplitStringA_join ":"%char ["suit"; "12,13"; "x"]%string); [done|].
  repeat constructor; vm_compute; try discriminate; repeat split; discriminate.
Defined.

(** [itoa] prints every [int] but the least one, in every base from 2 to 35:
    an optional minus sign, then digits of that base, most significant first,
    without a leading zero, that denote the absolute value. *)
Theorem itoa_prints value base :
  - 2 ^ 31 < value < 2 ^ 31 -> 2 <= base <= 35 ->
  exists ds, itoa value base = Ret (if value <? 0 then "-"%char :: ds else ds) /\
    value_of base ds = Z.abs value /\ Forall (fun a => 0 <= digit a < base) ds /\
    (value <> 0 -> digit (default Ascii.zero (head ds)) <> 0).
Proof.
  intros Hv Hb. unfold itoa.
  destruct (Z.ltb_spec base 2), (Z.ltb_spec 35 base); try lia. cbn [orb].
  destruct (Z.eqb_spec value (- 2 ^ 31)); [lia|].
  destruct (itoa_loop_value 32 (Z.abs value) base ltac:(lia) Hb) as (Hval & Hall & Hlead).
  exists (rev (itoa_loop 32 (Z.abs value) base)). split_and!; try done.
  - rewrite strreverse_rev by done. destruct (value <? 0); [|done]. by rewrite rev_app_distr.
  - by apply Forall_rev.
  - intros Hne. specialize (Hlead ltac:(lia)).
    destruct (itoa_loop 32 (Z.abs value) base) as [|a l _] using rev_ind; [done|].
    rewrite last_snoc in Hlead. by rewrite rev_app_distr.
Qed.

Lemma itoa_prints_witness :
  exists ds, itoa (-255) 16 = Ret ("-"%char :: ds) /\ value_of 16 ds = 255 /\
    Forall (fun a => 0 <= digit a < 16) ds /\
    (-255 <> 0 -> digit (default Ascii.zero (head ds)) <> 0).
Proof. apply (itoa_prints (-255) 16); lia. Defined.

(** [get_time] prints the day after [t]: the same fields as
    [convert_unix_time], but for the day of the month. *)
Lemma get_time_prints_next_day localtime now t :
  t <> 0 ->
  get_time localtime now t =
  (let '(y, m, d, h, mi, s) := convert_unix_time localtime t in (y, m, d + 1, h, mi, s)).
Proof. intros Ht. unfold get_time, convert_unix_time. by rewrite (proj2 (Z.eqb_neq t 0) Ht). Qed.

(** Two days of one month, four weeks apart, taken for the same week because
    the second is before the first. *)
Lemma same_week_wrong :
  let localtime t := mk_tm 0 0 0 (if t =? 1 then 29 else 1) 0 115 4 0 in
  same_week localtime 1 2 = true.
Proof. reflexivity. Qed.

(** The four bytes [get_magic_number] reads are inside its table. *)
Lemma magic_offset_in_bounds key :
  0 <= key -> 0 <= magic_offset key /\ magic_offset key + 4 <= Z.of_nat (String.length char_table).
Proof.
  intros Hk. change (Z.of_nat (String.length char_table)) with 310.
  unfold magic_offset. change (char_table_size - 4) with 306.
  pose proof (Z.mod_pos_bound key 306). lia.
Qed.
