(* ===== verification/Logging.v ===== *)
(** The log ([common/my_log.h/.cpp], [common/MyLog.cpp]): every [Mylog] function
    formats its line into one static buffer and hands the buffer to the logger of a
    severity, all but one under a mutex.

    The threads of a process are interleaved: a call takes the mutex, formats, hands
    the line on and leaves, a step each.  What [vsprintf] makes of format and
    arguments is the [text] of the call; log4cplus is the list of lines it is
    given. *)

From Stdlib Require Import Ascii String.
From S2P Require Import Prelude.
From stdpp Require Import prelude gmap strings list relations.
#[local] Open Scope Z_scope.

Module Mylog.

(** The priorities of [my_log.h]. *)
Definition LOG_CRITICAL : Z := 0.
Definition LOG_ERROR : Z := 1.
Definition LOG_WARNING : Z := 2.
Definition LOG_INFO : Z := 3.
Definition LOG_DEBUG : Z := 4.

(** The kinds of [my_log.cpp]; [log_define], their file names, is used by nothing
    but commented-out code. *)
Definition _server_log_ : Z := 0.
Definition _exception_log_ : Z := 1.
Definition _memory_log_ : Z := 2.
Definition _database_log_ : Z := 3.
Definition _player_log_ : Z := 4.
Definition _gm_log_ : Z := 5.
Definition _bill_log_ : Z := 6.
Definition _mail_log_ : Z := 7.
Definition _chat_log_ : Z := 8.
Definition _monster_log_ : Z := 9.
Definition _robot_log_ : Z := 10.
Definition _room_log_ : Z := 11.
Definition _vp_log_ : Z := 12.
Definition _store_log_ : Z := 13.
Definition _max_log_ptr_ : Z := 14.

Definition log_buff_size : Z := 4096.

(** The loggers of [MyLog.cpp], by their names in [LogFileName]. *)
Inductive logger : Set := FATAL | ERROR | WARN | INFO | DEBUG.
#[export] Instance logger_eq_dec : EqDecision logger.
Proof. solve_decision. Defined.

(** A line given to a logger. *)
Definition line : Type := (logger * string)%type.

Definition Log_fatal (s : string) : line := (FATAL, s).
Definition Log_error (s : string) : line := (ERROR, s).
Definition Log_warning (s : string) : line := (WARN, s).
Definition Log_info (s : string) : line := (INFO, s).
Definition Log_debug (s : string) : line := (DEBUG, s).

Definition log_print (index priority : Z) (str : string) : list line :=
  if (_server_log_ <=? index) && (index <? _max_log_ptr_) then
    [ if priority =? LOG_CRITICAL then Log_fatal str
      else if priority =? LOG_ERROR then Log_error str
      else if priority =? LOG_WARNING then Log_warning str
      else if priority =? LOG_INFO then Log_info str
      else if priority =? LOG_DEBUG then Log_debug str
      else Log_info str ]
  else [].

(** A call of one of the functions: whether it takes [s_log_buff_mutex], and what
    it passes on. *)
Record logcall : Type := mk_call { locked : bool; index : Z; priority : Z; text : string }.

Definition log (priority index : Z) (text : string) : logcall := mk_call true index priority text.
Definition log_error (index : Z) (text : string) : logcall := mk_call true index LOG_ERROR text.
Definition log_debug (index : Z) (text : string) : logcall := mk_call true index LOG_DEBUG text.
Definition log_warning (index : Z) (text : string) : logcall := mk_call true index LOG_WARNING text.
Definition log_info (index : Z) (text : string) : logcall := mk_call true index LOG_INFO text.
Definition log_critical (index : Z) (text : string) : logcall := mk_call true index LOG_CRITICAL text.
Definition log_server (priority : Z) (text : string) : logcall := mk_call true _server_log_ priority text.
Definition log_exception (priority : Z) (text : string) : logcall := mk_call true _exception_log_ priority text.
Definition log_memory (priority : Z) (text : string) : logcall := mk_call true _memory_log_ priority text.
Definition log_database (priority : Z) (text : string) : logcall := mk_call true _database_log_ priority text.
Definition log_gm (priority : Z) (text : string) : logcall := mk_call true _gm_log_ priority text.
Definition log_bill (priority : Z) (text : string) : logcall := mk_call true _bill_log_ priority text.
Definition log_mail (priority : Z) (text : string) : logcall := mk_call true _mail_log_ priority text.
Definition log_chat (priority : Z) (text : string) : logcall := mk_call true _chat_log_ priority text.
Definition log_player (priority : Z) (text : string) : logcall := mk_call true _player_log_ priority text.
Definition log_monster (priority : Z) (text : string) : logcall := mk_call true _monster_log_ priority text.
Definition log_room (priority : Z) (text : string) : logcall := mk_call true _room_log_ priority text.
Definition log_store (priority : Z) (text : string) : logcall := mk_call true _store_log_ priority text.
Definition log_robot (priority : Z) (text : string) : logcall := mk_call true _robot_log_ priority text.
Definition log_vplayer (priority : Z) (text : string) : logcall := mk_call false _vp_log_ priority text.

(** [vsprintf( s_log_buff, .. )]: the text and its terminating NUL fit, or it is
    undefined. *)
Definition fits (text : string) : bool := Z.of_nat (String.length text) <? log_buff_size.

(** Where a thread is in its call: before the mutex, before [vsprintf], before
    [log_print], before the return. *)
Inductive stage : Set := Start | Entered | Written | Printed.
#[export] Instance stage_eq_dec : EqDecision stage.
Proof. solve_decision. Defined.

(** [s_log_buff], the holder of [s_log_buff_mutex], the calls under way by thread,
    the lines given to the loggers with the thread they came from. *)
Record state : Type := mk_state {
  s_log_buff : string;
  mutex : option Z;
  calls : gmap Z (logcall * stage);
  lines : list (Z * line)
}.

Definition at_stage (s : state) (t : Z) (c : logcall) (g : stage) : gmap Z (logcall * stage) := <[t := (c, g)]> (calls s).

(** The next step of thread [t]; [None]: it is not in a call, or waits.  [UB]: the
    buffer overflows. *)
Definition advance (t : Z) (s : state) : option (outcome state) :=
  match calls s !! t with
  | None => None
  | Some (c, Start) =>
      if locked c then
        match mutex s with
        | Some _ => None
        | None => Some (Ret (mk_state (s_log_buff s) (Some t) (at_stage s t c Entered) (lines s)))
        end
      else Some (Ret (mk_state (s_log_buff s) (mutex s) (at_stage s t c Entered) (lines s)))
  | Some (c, Entered) =>
      Some (if fits (text c) then Ret (mk_state (text c) (mutex s) (at_stage s t c Written) (lines s))
            else UB "vsprintf: s_log_buff overflows")
  | Some (c, Written) =>
      Some (Ret (mk_state (s_log_buff s) (mutex s) (at_stage s t c Printed)
        (lines s ++ ((t,.) <$> log_print (index c) (priority c) (s_log_buff s)))))
  | Some (c, Printed) =>
      Some (Ret (mk_state (s_log_buff s) (if locked c then None else mutex s) (delete t (calls s)) (lines s)))
  end.

(** A thread that is in no call makes one. *)
Definition enter (t : Z) (c : logcall) (s : state) : option state :=
  match calls s !! t with
  | Some _ => None
  | None => Some (mk_state (s_log_buff s) (mutex s) (at_stage s t c Start) (lines s))
  end.

Inductive action : Type := Call (t : Z) (c : logcall) | Go (t : Z).

Definition act (a : action) (s : state) : option (outcome state) :=
  match a with Call t c => Ret <$> enter t c s | Go t => advance t s end.

(** An interleaving: the actions that took place, in order. *)
Inductive runs (s : state) : list action -> state -> Prop :=
| runs_nil : runs s [] s
| runs_snoc l s1 a s2 : runs s l s1 -> act a s1 = Some (Ret s2) -> runs s (l ++ [a]) s2.

Fixpoint play (l : list action) (s : state) : option (outcome state) :=
  match l with
  | [] => Some (Ret s)
  | a :: l' => match act a s with Some (Ret s') => play l' s' | r => r end
  end.

Definition init : state := mk_state "" None ∅ [].

End Mylog.

Import Mylog.

(** [common/MyLog.h]: a line made of values. *)
Module LogString.

(** An argument of [makeLogString]: a [const char*], a [std::string], or anything else
    by what an [ostringstream] prints of it. *)
Inductive argument : Type :=
| CharPointer (t : option string)
| StdString (t : string)
| Streamed (text : string).

(** The overloads of [toString]; a string made of a null pointer is undefined. *)
Definition toString (a : argument) : outcome string :=
  match a with
  | CharPointer None => UB "std::string (NULL)"
  | CharPointer (Some t) | StdString t | Streamed t => Ret t
  end.

Fixpoint concat_all (l : list argument) : outcome string :=
  match l with
  | [] => Ret ""%string
  | a :: l' =>
      match toString a, concat_all l' with
      | UB why, _ | _, UB why => UB why
      | Ret t, Ret t' => Ret (t +:+ t')
      end
  end.

Definition max_arguments : nat := 30.

(** The overloads of [makeLogString], for one to thirty arguments; [None]: there is none. *)
Definition makeLogString (l : list argument) : option (outcome string) :=
  if (0 <? length l)%nat && (length l <=? max_arguments)%nat then Some (concat_all l) else None.

(** [LOGERROR] and its sisters: a line for one of the loggers. *)
Definition LOG (log : string -> line) (l : list argument) : option (outcome line) :=
  match makeLogString l with
  | None => None
  | Some (UB why) => Some (UB why)
  | Some (Ret str) => Some (Ret (log str))
  end.

(** [MYASSERT] with asserts compiled in: what is logged, and whether the process goes
    on.  The other definition of the macro has a brace open. *)
Definition MYASSERT (condition : bool) (function line_number : string) : list line * bool :=
  if condition then ([], true)
  else ([Log_error ("assert in function:" +:+ function +:+ " Line:" +:+ line_number)%string], false).

End LogString.

(** ** One thread's lines *)

(** The lines a call is for, those of thread [t] that were given to the loggers, and
    the calls [t] made. *)
Definition own (c : logcall) : list line := log_print (index c) (priority c) (text c).

Definition lines_of (t : Z) (ls : list (Z * line)) : list line := (filter (fun p => p.1 = t) ls).*2.

#[local] Arguments lines_of : simpl never.
#[local] Arguments log_print : simpl never.

Definition made (t : Z) (l : list action) : list logcall :=
  l ≫= fun a => match a with Call t' c => if decide (t' = t) then [c] else [] | Go _ => [] end.

(** What the call [t] is in has still to print. *)
Definition pending (t : Z) (s : state) : list line :=
  match calls s !! t with
  | Some (c, g) => if decide (g = Printed) then [] else own c
  | None => []
  end.

Definition takes_mutex (a : action) : Prop := match a with Call _ c => locked c = true | Go _ => True end.

(** The calls under way and the mutex. *)
Record log_inv (s : state) : Prop := {
  li_locked : forall t c g, calls s !! t = Some (c, g) -> locked c = true;
  li_holds : forall t c g, calls s !! t = Some (c, g) -> g <> Start -> mutex s = Some t;
  li_buff : forall t c, calls s !! t = Some (c, Written) -> s_log_buff s = text c;
  li_held : forall t, mutex s = Some t -> exists c g, calls s !! t = Some (c, g) /\ g <> Start
}.

Lemma log_inv_init : log_inv init.
Proof. by split. Qed.

(** Look a thread up in the calls after a step. *)
Ltac calls_tac :=
  repeat match goal with
  | H : <[_ := _]> _ !! _ = Some _ |- _ => apply lookup_insert_Some in H as [[<- [= <- <-]]|[? H]]
  | H : delete _ _ !! _ = Some _ |- _ => apply lookup_delete_Some in H as [? H]
  end.

Lemma enter_inv t c s s' : locked c = true -> enter t c s = Some s' -> log_inv s -> log_inv s'.
Proof.
  intros Hc He [Hl Hh Hb Hm]. unfold enter in He. destruct (calls s !! t) eqn:Ht; [done|]. injection He as <-.
  unfold at_stage. split; cbn.
  - intros t' c' g H. calls_tac; eauto.
  - intros t' c' g H. calls_tac; [done|eauto].
  - intros t' c' H. apply lookup_insert_Some in H as [[_ [=]]|[_ H]]. eauto.
  - intros t' H. destruct (Hm _ H) as (c' & g & Hg & Hs). exists c', g. split; [|done].
    rewrite lookup_insert_ne; [done|]. intros ->. congruence.
Qed.

(** A thread past the mutex is the one that holds it. *)
Lemma holder_unique s t t' c c' g g' :
  log_inv s -> calls s !! t = Some (c, g) -> calls s !! t' = Some (c', g') -> g <> Start -> g' <> Start -> t = t'.
Proof. intros Hi H H' Hg Hg'. pose proof (li_holds _ Hi _ _ _ H Hg). pose proof (li_holds _ Hi _ _ _ H' Hg'). congruence. Qed.

(** Moving thread [t], the holder of the mutex or the one that takes it now. *)
Lemma stage_inv s t c g buff ls :
  log_inv s -> locked c = true -> (mutex s = Some t \/ mutex s = None) ->
  (g = Written -> buff = text c) -> g <> Start ->
  log_inv (mk_state buff (Some t) (<[t := (c, g)]> (calls s)) ls).
Proof.
  intros Hi Hc Hm Hb Hg. assert (Hother : forall t' c' g', t' <> t -> calls s !! t' = Some (c', g') -> g' = Start).
  { intros t' c' g' Hne H. destruct (decide (g' = Start)) as [|Hs]; [done|]. pose proof (li_holds _ Hi _ _ _ H Hs).
    destruct Hm; congruence. }
  split; cbn.
  - intros t' c' g' H. calls_tac; [done|]. by eapply (li_locked _ Hi).
  - intros t' c' g' H Hs. apply lookup_insert_Some in H as [[<- _]|[Hne H]]; [done|].
    by specialize (Hother _ _ _ (not_eq_sym Hne) H).
  - intros t' c' H. apply lookup_insert_Some in H as [[<- [= <- ->]]|[Hne H]]; [by apply Hb|].
    by specialize (Hother _ _ _ (not_eq_sym Hne) H).
  - intros t' [= <-]. exists c, g. by rewrite lookup_insert_eq.
Qed.

Lemma advance_inv t s s' : advance t s = Some (Ret s') -> log_inv s -> log_inv s'.
Proof.
  intros Ha Hi. unfold advance in Ha. destruct (calls s !! t) as [[c g]|] eqn:Ht; [|done].
  pose proof (li_locked _ Hi _ _ _ Ht) as Hc. destruct g.
  - rewrite Hc in Ha. destruct (mutex s) as [h|] eqn:Hm; [done|]. injection Ha as <-. by apply stage_inv; auto.
  - pose proof (li_holds _ Hi _ _ _ Ht ltac:(done)) as Hm. destruct (fits (text c)); [|done]. injection Ha as <-.
    rewrite Hm. by apply stage_inv; auto.
  - pose proof (li_holds _ Hi _ _ _ Ht ltac:(done)) as Hm. injection Ha as <-. rewrite Hm. by apply stage_inv; auto.
  - pose proof (li_holds _ Hi _ _ _ Ht ltac:(done)) as Hm. rewrite Hc in Ha. injection Ha as <-.
    assert (Hother : forall t' c' g', t' <> t -> calls s !! t' = Some (c', g') -> g' = Start).
    { intros t' c' g' Hne H. destruct (decide (g' = Start)) as [|Hs]; [done|].
      by destruct Hne; apply (holder_unique s t' t c' c g' Printed). }
    split; cbn; [| | |done]; intros t' c'.
    + intros g' [_ H]%lookup_delete_Some. by eapply (li_locked _ Hi).
    + intros g' [Hne H]%lookup_delete_Some Hs. by specialize (Hother _ _ _ (not_eq_sym Hne) H).
    + intros [Hne H]%lookup_delete_Some. by specialize (Hother _ _ _ (not_eq_sym Hne) H).
Qed.

(** *** The lines and the calls *)

Lemma lines_of_app t l1 l2 : lines_of t (l1 ++ l2) = lines_of t l1 ++ lines_of t l2.
Proof. unfold lines_of. by rewrite filter_app, fmap_app. Qed.

Lemma lines_of_tagged t t' ls : lines_of t ((t',.) <$> ls) = if decide (t' = t) then ls else [].
Proof.
  unfold lines_of. induction ls as [|x ls IH]; [by case_decide|]. rewrite fmap_cons, filter_cons. cbn [fst].
  destruct (decide (t' = t)); [|done]. rewrite fmap_cons. cbn [snd]. by rewrite IH.
Qed.

Lemma made_snoc t l a : made t (l ++ [a]) = made t l ++ made t [a].
Proof. unfold made. apply bind_app. Qed.

(** What thread [t] has had printed, and has to print, is what it called for. *)
Definition lines_inv (l : list action) (s : state) : Prop :=
  forall t, lines_of t (lines s) ++ pending t s = made t l ≫= own.

Lemma enter_lines t c s s' l : enter t c s = Some s' -> lines_inv l s -> lines_inv (l ++ [Call t c]) s'.
Proof.
  intros He Hl t'. unfold enter in He. destruct (calls s !! t) eqn:Ht; [done|]. injection He as <-.
  rewrite made_snoc, bind_app, <- Hl. unfold pending, at_stage, made. cbn. destruct (decide (t = t')) as [<-|Hne].
  - rewrite Ht, lookup_insert_eq. cbn. by rewrite !app_nil_r.
  - rewrite lookup_insert_ne by done. cbn. by rewrite app_nil_r.
Qed.

Lemma advance_lines t s s' l : log_inv s -> advance t s = Some (Ret s') -> lines_inv l s -> lines_inv (l ++ [Go t]) s'.
Proof.
  intros Hi Ha Hl t'. rewrite made_snoc, bind_app. unfold made at 2. cbn. rewrite app_nil_r, <- Hl.
  unfold advance in Ha. destruct (calls s !! t) as [[c g]|] eqn:Ht; [|done].
  destruct g.
  - rewrite (li_locked _ Hi _ _ _ Ht) in Ha. destruct (mutex s); [done|]. injection Ha as <-. cbn. f_equal.
    unfold pending, at_stage. cbn. destruct (decide (t = t')) as [<-|Hne]; [by rewrite lookup_insert_eq, Ht|by rewrite lookup_insert_ne].
  - destruct (fits (text c)); [|done]. injection Ha as <-. cbn. f_equal.
    unfold pending, at_stage. cbn. destruct (decide (t = t')) as [<-|Hne]; [by rewrite lookup_insert_eq, Ht|by rewrite lookup_insert_ne].
  - injection Ha as <-. cbn. rewrite (li_buff _ Hi _ _ Ht), lines_of_app, lines_of_tagged.
    unfold pending, at_stage. cbn. destruct (decide (t = t')) as [<-|Hne].
    + rewrite lookup_insert_eq, Ht. cbn. by rewrite app_nil_r.
    + by rewrite lookup_insert_ne, app_nil_r.
  - injection Ha as <-. cbn. f_equal.
    unfold pending. cbn. destruct (decide (t = t')) as [<-|Hne]; [by rewrite lookup_delete_eq, Ht|by rewrite lookup_delete_ne].
Qed.

Lemma log_runs_inv l s : runs init l s -> Forall takes_mutex l -> log_inv s /\ lines_inv l s.
Proof.
  induction 1 as [|l s1 a s2 _ IH Ha]; intros Hf.
  - split; [exact log_inv_init|intros t]. unfold pending. cbn. rewrite lookup_empty. reflexivity.
  - apply Forall_app in Hf as [Hf [Hfa _]%Forall_cons]. destruct (IH Hf) as [Hi Hl]. destruct a as [t c|t]; cbn in Ha.
    + destruct (enter t c s1) as [s'|] eqn:He; [|done]. injection Ha as <-.
      split; [by apply (enter_inv t c s1)|by apply (enter_lines t c s1)].
    + split; [by apply (advance_inv t s1)|by apply (advance_lines t s1)].
Qed.

(** C24: However the threads of a process interleave, as long as they log through the
    functions that take the mutex no line is torn, mixed up or lost: what the loggers
    got from a thread are the lines of its calls, in the order it made them, each with
    the severity of its priority, and nothing of another thread's; and the log cannot
    get stuck: while a call is under way some thread can go on, unless its line does
    not fit the buffer. *)
Theorem log_lines_unmixed l s t :
  runs init l s -> Forall takes_mutex l ->
  lines_of t (lines s) ++ pending t s = made t l ≫= own /\
  (calls s !! t = None -> lines_of t (lines s) = made t l ≫= own) /\
  (calls s !! t <> None -> exists t', (exists s', advance t' s = Some (Ret s')) \/
     exists c, calls s !! t' = Some (c, Entered) /\ fits (text c) = false).
Proof.
  intros Hr Hf. destruct (log_runs_inv _ _ Hr Hf) as [Hi Hl]. split_and!; [apply Hl| |].
  - intros Ht. rewrite <- Hl. unfold pending. by rewrite Ht, app_nil_r.
  - intros Ht. assert (Hgo : forall t' c g, calls s !! t' = Some (c, g) -> g <> Start ->
      (exists s', advance t' s = Some (Ret s')) \/ exists c, calls s !! t' = Some (c, Entered) /\ fits (text c) = false).
    { intros t' c g H Hg. unfold advance. rewrite H. destruct g; [done| |left; eauto..].
      destruct (fits (text c)) eqn:Hfit; [left; eauto|right; eauto]. }
    destruct (mutex s) as [h|] eqn:Hm.
    + destruct (li_held _ Hi h Hm) as (c & g & H & Hg). exists h. by eapply Hgo.
    + destruct (calls s !! t) as [[c g]|] eqn:H; [|done]. exists t. destruct (decide (g = Start)) as [->|Hg]; [|by eapply Hgo].
      left. unfold advance. rewrite H, (li_locked _ Hi _ _ _ H), Hm. eauto.
Qed.

(** A run computed is a run. *)
Lemma log_play_runs l l0 s0 s1 s : runs s0 l0 s1 -> play l s1 = Some (Ret s) -> runs s0 (l0 ++ l) s.
Proof.
  revert l0 s1. induction l as [|a l IH]; intros l0 s1 Hr; cbn [play].
  - intros [= <-]. by rewrite app_nil_r.
  - destruct (act a s1) as [[s2|]|] eqn:Ha; [|done..]. intros Hp. change (a :: l) with ([a] ++ l). rewrite app_assoc.
    apply (IH _ s2); [|done]. by econstructor.
Qed.

(** Two threads log at the same time. *)
Definition two_threads : list action :=
  [ Call 1 (log_player LOG_INFO "player 7 enters"); Call 2 (log_database LOG_ERROR "query failed"); Go 2; Go 2; Go 2; Go 2;
    Go 1; Go 1; Call 2 (log_server 9 "up"); Go 1; Go 1; Go 2; Go 2; Go 2; Go 2 ].

Definition two_threads_end : state := match play two_threads init with Some (Ret s) => s | _ => init end.

Lemma two_threads_run : runs init two_threads two_threads_end.
Proof. apply (log_play_runs two_threads [] init init); [constructor|]. vm_compute. reflexivity. Qed.

Lemma log_lines_unmixed_witness :
  lines two_threads_end = [(2, (ERROR, "query failed")); (1, (INFO, "player 7 enters")); (2, (INFO, "up"))]%string /\
  lines_of 2 (lines two_threads_end) = [(ERROR, "query failed"); (INFO, "up")]%string.
Proof.
  split; [vm_compute; reflexivity|].
  refine (eq_trans (proj1 (proj2 (log_lines_unmixed two_threads two_threads_end 2 two_threads_run _)) _) _).
  - repeat constructor.
  - vm_compute. reflexivity.
  - vm_compute. reflexivity.
Defined.

(** [log_vplayer] does not take the mutex: the line of a thread that does is
    replaced by its text. *)
Lemma vplayer_mixes_lines :
  exists s, play [ Call 1 (log_player LOG_INFO "player 7 enters"); Go 1; Go 1; Call 2 (log_vplayer LOG_INFO "robot"); Go 2; Go 2;
                   Go 1 ] init = Some (Ret s) /\ lines s = [(1, (INFO, "robot"))]%string.
Proof. eexists. split; [vm_compute; reflexivity|reflexivity]. Qed.

(** A line of 4096 characters overruns the buffer. *)
Lemma long_line_overflows t c s :
  calls s !! t = Some (c, Entered) -> log_buff_size <= Z.of_nat (String.length (text c)) ->
  advance t s = Some (UB "vsprintf: s_log_buff overflows").
Proof. intros Ht Hlen. unfold advance. rewrite Ht. unfold fits. by rewrite (proj2 (Z.ltb_ge _ _) Hlen). Qed.

Example long_sql_overflows :
  play [ Call 1 (log_database LOG_ERROR (string_of_list_ascii (repeat "x"%char 4096))); Go 1; Go 1 ] init =
  Some (UB "vsprintf: s_log_buff overflows").
Proof. vm_compute. reflexivity. Qed.

(** ** Lines made of values *)

(** A line of values that are all there is their texts in order; a line of more than
    thirty does not compile. *)
Lemma makeLogString_text (l : list string) :
  LogString.makeLogString (LogString.StdString <$> l) =
    if (0 <? length l)%nat && (length l <=? 30)%nat then Some (Ret (foldr (fun t r => t +:+ r) "" l))%string else None.
Proof.
  unfold LogString.makeLogString. rewrite length_fmap. change LogString.max_arguments with 30%nat.
  destruct (_ && _); [|done]. f_equal. induction l as [|t l IH]; [done|]. cbn. by rewrite IH.
Qed.
