(* ===== verification/Callbacks.v ===== *)
(** The call-backs of timed events ([common/event_call_back.h]): an object, a method
    and the arguments stored for it, in one template per number of arguments, run by
    [execute].

    A method that takes [P1 .. Pn] on an object of [Class] is a function of the
    object and the arguments; [R] is what calling it comes to.  A null pointer is
    [None]. *)

From S2P Require Import Prelude.
From stdpp Require Import prelude list.

Module Callbacks.

(** What follows the object in the type of a method, and the stored arguments. *)
Fixpoint params (R : Type) (Ps : list Type) : Type :=
  match Ps with [] => R | P :: Ps' => P -> params R Ps' end.

Fixpoint args (Ps : list Type) : Type :=
  match Ps with [] => unit | P :: Ps' => (P * args Ps')%type end.

Fixpoint call {R Ps} : params R Ps -> args Ps -> R :=
  match Ps with
  | [] => fun f _ => f
  | _ :: _ => fun f xs => call (f xs.1) xs.2
  end.

(** The fields [self], [fun] and [a1 .. j10] of a [CallbackPn]. *)
Record Callback (Class R : Type) (Ps : list Type) : Type := mk_callback {
  self : option Class;
  fun_ : option (Class -> params R Ps);
  stored : args Ps
}.
Arguments mk_callback {Class R Ps}.
Arguments self {Class R Ps}.
Arguments fun_ {Class R Ps}.
Arguments stored {Class R Ps}.

(** [if (self && fun) (self->*fun)(a1, .., an)]: [None] when nothing is called. *)
Definition execute {Class R Ps} (cb : Callback Class R Ps) : option R :=
  match self cb, fun_ cb with
  | Some o, Some f => Some (call (f o) (stored cb))
  | _, _ => None
  end.

(** *** The templates and their constructors *)

Section templates.
Context {Class R P1 P2 P3 P4 P5 P6 P7 P8 P9 P10 : Type}.
Implicit Types obj : option Class.

Definition CallbackP0 obj (f : option (Class -> R)) : Callback Class R [] := mk_callback (Ps:=[]) obj f tt.

Definition CallbackP1 obj (f : option (Class -> P1 -> R)) (a : P1) : Callback Class R [P1] :=
  mk_callback (Ps:=[P1]) obj f (a, tt).

Definition CallbackP2 obj (f : option (Class -> P1 -> P2 -> R)) (a : P1) (b : P2) : Callback Class R [P1; P2] :=
  mk_callback (Ps:=[P1; P2]) obj f (a, (b, tt)).

Definition CallbackP3 obj (f : option (Class -> P1 -> P2 -> P3 -> R)) (a : P1) (b : P2) (c : P3) :
    Callback Class R [P1; P2; P3] :=
  mk_callback (Ps:=[P1; P2; P3]) obj f (a, (b, (c, tt))).

Definition CallbackP4 obj (me : option (Class -> P1 -> P2 -> P3 -> P4 -> R)) (a : P1) (b : P2) (c : P3) (d : P4) :
    Callback Class R [P1; P2; P3; P4] :=
  mk_callback (Ps:=[P1; P2; P3; P4]) obj me (a, (b, (c, (d, tt)))).

Definition CallbackP5 obj (me : option (Class -> P1 -> P2 -> P3 -> P4 -> P5 -> R))
    (a : P1) (b : P2) (c : P3) (d : P4) (e : P5) : Callback Class R [P1; P2; P3; P4; P5] :=
  mk_callback (Ps:=[P1; P2; P3; P4; P5]) obj me (a, (b, (c, (d, (e, tt))))).

Definition CallbackP6 obj (me : option (Class -> P1 -> P2 -> P3 -> P4 -> P5 -> P6 -> R))
    (a : P1) (b : P2) (c : P3) (d : P4) (e : P5) (f : P6) : Callback Class R [P1; P2; P3; P4; P5; P6] :=
  mk_callback (Ps:=[P1; P2; P3; P4; P5; P6]) obj me (a, (b, (c, (d, (e, (f, tt)))))).

Definition CallbackP7 obj (me : option (Class -> P1 -> P2 -> P3 -> P4 -> P5 -> P6 -> P7 -> R))
    (a : P1) (b : P2) (c : P3) (d : P4) (e : P5) (f : P6) (g : P7) : Callback Class R [P1; P2; P3; P4; P5; P6; P7] :=
  mk_callback (Ps:=[P1; P2; P3; P4; P5; P6; P7]) obj me (a, (b, (c, (d, (e, (f, (g, tt))))))).

Definition CallbackP8 obj (me : option (Class -> P1 -> P2 -> P3 -> P4 -> P5 -> P6 -> P7 -> P8 -> R))
    (a : P1) (b : P2) (c : P3) (d : P4) (e : P5) (f : P6) (g : P7) (h : P8) :
    Callback Class R [P1; P2; P3; P4; P5; P6; P7; P8] :=
  mk_callback (Ps:=[P1; P2; P3; P4; P5; P6; P7; P8]) obj me (a, (b, (c, (d, (e, (f, (g, (h, tt)))))))).

Definition CallbackP9 obj (me : option (Class -> P1 -> P2 -> P3 -> P4 -> P5 -> P6 -> P7 -> P8 -> P9 -> R))
    (a : P1) (b : P2) (c : P3) (d : P4) (e : P5) (f : P6) (g : P7) (h : P8) (i : P9) :
    Callback Class R [P1; P2; P3; P4; P5; P6; P7; P8; P9] :=
  mk_callback (Ps:=[P1; P2; P3; P4; P5; P6; P7; P8; P9]) obj me (a, (b, (c, (d, (e, (f, (g, (h, (i, tt))))))))).

(** [j10 = 10], not [j]; [of_int] is the conversion of an [int] to [P10]. *)
Definition CallbackP10 (of_int : Z -> P10) obj
    (me : option (Class -> P1 -> P2 -> P3 -> P4 -> P5 -> P6 -> P7 -> P8 -> P9 -> P10 -> R))
    (a : P1) (b : P2) (c : P3) (d : P4) (e : P5) (f : P6) (g : P7) (h : P8) (i : P9) (j : P10) :
    Callback Class R [P1; P2; P3; P4; P5; P6; P7; P8; P9; P10] :=
  mk_callback (Ps:=[P1; P2; P3; P4; P5; P6; P7; P8; P9; P10]) obj me (a, (b, (c, (d, (e, (f, (g, (h, (i, (of_int 10%Z, tt)))))))))).

End templates.

End Callbacks.

Import Callbacks.

(** Nothing is called without an object or without a method. *)
Lemma execute_null {Class R Ps} (cb : Callback Class R Ps) :
  self cb = None \/ fun_ cb = None -> execute cb = None.
Proof. unfold execute. intros [->| ->]; [done|]. by destruct (self cb). Qed.

(** A method's arguments in [args] are those it takes one by one. *)
Fixpoint collect {R} Ps : (args Ps -> R) -> params R Ps :=
  match Ps with
  | [] => fun k => k tt
  | _ :: Ps' => fun k x => collect Ps' (fun xs => k (x, xs))
  end.

Lemma call_collect {R} Ps (k : args Ps -> R) xs : call (collect Ps k) xs = k xs.
Proof.
  induction Ps as [|P Ps IH]; cbn in *; [by destruct xs|]. destruct xs as [x xs]. cbn. apply (IH (fun xs => k (x, xs))).
Qed.

(** Any call-back on an object calls its method once, with what it stores. *)
Lemma execute_calls {Class R Ps} (o : Class) (k : Class -> args Ps -> R) xs :
  execute (mk_callback (Some o) (Some (fun o => collect Ps (k o))) xs) = Some (k o xs).
Proof. cbn. by rewrite call_collect. Qed.

(** Nine arguments arrive in their places. *)
Lemma nine_arguments {Class R A} (o : Class) (me : Class -> A -> A -> A -> A -> A -> A -> A -> A -> A -> R)
    a b c d e f g h i :
  execute (CallbackP9 (Some o) (Some me) a b c d e f g h i) = Some (me o a b c d e f g h i).
Proof. reflexivity. Qed.

(** The tenth does not: whatever it was, the method gets 10. *)
Lemma tenth_argument_lost {Class R A} (of_int : Z -> A) (o : Class)
    (me : Class -> A -> A -> A -> A -> A -> A -> A -> A -> A -> A -> R) a b c d e f g h i j :
  execute (CallbackP10 of_int (Some o) (Some me) a b c d e f g h i j) = Some (me o a b c d e f g h i (of_int 10%Z)).
Proof. reflexivity. Qed.

Example tenth_argument_zero :
  execute (CallbackP10 (fun x => x) (Some tt) (Some (fun _ _ _ _ _ _ _ _ _ _ j => j)) 1 2 3 4 5 6 7 8 9 0)%Z = Some 10%Z.
Proof. reflexivity. Qed.
