(* ===== verification/EventManager.v ===== *)
(** [common/event_manager.h], [common/event_table_object.h/.cpp]: timed events.
    An [EventableObject] owns a multimap of its events, an
    [EventableObjectHolder] the list it ticks in [update]; both hold a reference
    ([ref]) on a heap-allocated [TimedEvent], which [decRef] frees.

    The heap maps pointers to events; reading a freed pointer is undefined
    behaviour.  What a call-back does to the event system is a list of actions on
    it, given by [script]: it may add and remove events, change their timers and
    destroy objects, its own included. *)

From S2P Require Import Prelude.
From stdpp Require Import prelude gmap list strings.
#[local] Open Scope Z_scope.

Module Events.

Definition EVENT_FLAG_DO_NOT_EXECUTE_IN_WORLD_CONTEXT : Z := 0x1.
Definition EVENT_FLAG_DELETES_OBJECT : Z := 0x2.
Definition EVENT_REMOVAL_FLAG_ALL : Z := 0xFFFFFFFF.
Definition WORLD_INSTANCE : Z := -1.

(** [TimedEvent]; [obj] is the object the call-back is bound to and [cb] names
    the call-back ([None] is null). *)
Record TimedEvent : Type := mk_event {
  obj : Z;
  cb : option Z;
  eventType : Z;
  eventFlag : Z;
  msTime : Z;
  currTime : Z;
  repeats : Z;
  deleted : bool;
  instanceId : Z;
  ref : Z
}.

(** [EventableObject]: [instance] is what the virtual [eventGetInstanceID]
    returns; [m_events] lists the multimap in key order, equal keys in insertion
    order; [m_holder] names the holder by its instance. *)
Record EventableObject : Type := mk_object {
  instance : Z;
  m_event_Instanceid : Z;
  m_events : list (Z * Z);
  m_holder : option Z
}.

(** [mHolders] of [EventMgr]: the event list of each holder, by instance. *)
Record world : Type := mk_world {
  heap : gmap Z TimedEvent;
  next : Z;
  objects : gmap Z EventableObject;
  holders : gmap Z (list Z)
}.

(** The only outside effect: call-back [cb] of object [obj] ran. *)
Inductive effect : Type := Fired (owner callback : Z).

Abbreviation E := (M world effect).

Definition set_heap (w : world) (h : gmap Z TimedEvent) : world :=
  mk_world h (next w) (objects w) (holders w).
Definition set_objects (w : world) (o : gmap Z EventableObject) : world :=
  mk_world (heap w) (next w) o (holders w).
Definition set_holders (w : world) (h : gmap Z (list Z)) : world :=
  mk_world (heap w) (next w) (objects w) h.

Definition set_events (o : EventableObject) (l : list (Z * Z)) : EventableObject :=
  mk_object (instance o) (m_event_Instanceid o) l (m_holder o).

(** [*ev] and a write through [ev]. *)
Definition load (p : Z) : E TimedEvent := fun w =>
  match heap w !! p with Some e => Ret (e, w, []) | None => UB "event: use after free" end.

Definition store (p : Z) (e : TimedEvent) : E unit :=
  mmodify (fun w => set_heap w (<[p := e]> (heap w))).

Definition with_ref (e : TimedEvent) (r : Z) : TimedEvent :=
  mk_event (obj e) (cb e) (eventType e) (eventFlag e) (msTime e) (currTime e) (repeats e)
    (deleted e) (instanceId e) r.

Definition with_timer (e : TimedEvent) (ms cur rep : Z) : TimedEvent :=
  mk_event (obj e) (cb e) (eventType e) (eventFlag e) ms cur rep
    (deleted e) (instanceId e) (ref e).

Definition with_instance (e : TimedEvent) (i : Z) : TimedEvent :=
  mk_event (obj e) (cb e) (eventType e) (eventFlag e) (msTime e) (currTime e) (repeats e)
    (deleted e) i (ref e).

(** [decRef] marks the event deleted before it counts down. *)
Definition kill (e : TimedEvent) : TimedEvent :=
  mk_event (obj e) (cb e) (eventType e) (eventFlag e) (msTime e) (currTime e) (repeats e)
    true (instanceId e) (ref e - 1).

Definition incRef (p : Z) : E unit :=
  e <- load p;; store p (with_ref e (ref e + 1)).

Definition decRef (p : Z) : E unit :=
  e <- load p;;
  let e := kill e in
  if ref e <=? 0 then mmodify (fun w => set_heap w (delete p (heap w)))
  else store p e.

(** [new TimedEvent(object, callback, type, time, repeat, flags)]. *)
Definition new_event (owner : Z) (callback : option Z) (type time repeat flags : Z) : E Z := fun w =>
  let p := next w in
  let e := mk_event owner callback type (u16 flags) time time repeat false 0 0 in
  Ret (p, mk_world (<[p := e]> (heap w)) (p + 1) (objects w) (holders w), []).

(** [multimap::insert]: after the elements with an equal key. *)
Fixpoint mm_insert (t p : Z) (l : list (Z * Z)) : list (Z * Z) :=
  match l with
  | [] => [(t, p)]
  | (t', p') :: l' => if t <? t' then (t, p) :: l else (t', p') :: mm_insert t p l'
  end.

(** The range [find(type) .. upper_bound(type)], and the rest. *)
Definition of_type (t : Z) (l : list (Z * Z)) : list (Z * Z) :=
  List.filter (fun x => x.1 =? t) l.
Definition not_of_type (t : Z) (l : list (Z * Z)) : list (Z * Z) :=
  List.filter (fun x => negb (x.1 =? t)) l.

(** [EventableObjectHolder::addEvent]. *)
Definition holder_addEvent (i p : Z) : E unit :=
  incRef p;;;
  mmodify (fun w => set_holders w (<[i := default [] (holders w !! i) ++ [p]]> (holders w))).

(** [EventMgr::getEventHolder]: null when the instance has no holder. *)
Definition getEventHolder (w : world) (i : Z) : option Z :=
  match holders w !! i with Some _ => Some i | None => None end.

Definition with_holder (o : EventableObject) (i : Z) (h : option Z) : EventableObject :=
  mk_object (instance o) i (m_events o) h.

(** [eventAddEvent] on object [k]: the first event picks the holder; a null
    holder after the retry with instance -1 fails the assertion. *)
Definition eventAddEvent (k p : Z) : E unit := fun w =>
  match objects w !! k with
  | None => UB "eventAddEvent: dead object"
  | Some o =>
      let o := match m_holder o with
               | Some _ => o
               | None => with_holder o (instance o) (getEventHolder w (instance o))
               end in
      (incRef p;;;
       e <- load p;;
       store p (with_instance e (m_event_Instanceid o));;;
       let o := set_events o (mm_insert (eventType e) p (m_events o)) in
       let o := match m_holder o with
                | Some _ => o
                | None => with_holder o WORLD_INSTANCE (getEventHolder w WORLD_INSTANCE)
                end in
       match m_holder o with
       | None => mub "eventAddEvent: assert(m_holder)"
       | Some i =>
           mmodify (fun w => set_objects w (<[k := o]> (objects w)));;;
           holder_addEvent i p
       end) w
  end.

(** [gEventMgr.addEvent(obj, method, ..., type, time, repeats, flags)]. *)
Definition addEvent (k : Z) (callback : option Z) (type time repeats flags : Z) : E unit :=
  p <- new_event k callback type time repeats flags;;
  eventAddEvent k p.

Definition object_at (k : Z) : E EventableObject := fun w =>
  match objects w !! k with Some o => Ret (o, w, []) | None => UB "event: dead object" end.

Definition put_object (k : Z) (o : EventableObject) : E unit :=
  mmodify (fun w => set_objects w (<[k := o]> (objects w))).

(** [eventRemoveEvents(EventType)]. *)
Definition eventRemoveEvents (k type : Z) : E unit :=
  o <- object_at k;;
  if type =? EVENT_REMOVAL_FLAG_ALL then
    mfor (map snd (m_events o)) decRef;;; put_object k (set_events o [])
  else
    mfor (map snd (of_type type (m_events o))) decRef;;;
    put_object k (set_events o (not_of_type type (m_events o))).

(** [~EventableObject]. *)
Definition destroy (k : Z) : E unit :=
  o <- object_at k;;
  mfor (map snd (m_events o)) decRef;;;
  mmodify (fun w => set_objects w (delete k (objects w))).

(** The three timer setters; [set] is applied to every event of the type. *)
Definition modify_events (k type : Z) (set : TimedEvent -> TimedEvent) : E unit :=
  o <- object_at k;;
  mfor (map snd (of_type type (m_events o))) (fun p => e <- load p;; store p (set e)).

(** [unconditioned ? TimeLeft : ((s32)TimeLeft > msTime ? msTime : (s32)TimeLeft)]:
    the comparison of an [s32] with a [u32] is made on [u32]s. *)
Definition eventModifyTimeLeft (k type TimeLeft : Z) (unconditioned : bool) : E unit :=
  modify_events k type (fun e =>
    let t := if unconditioned then TimeLeft
             else if msTime e <? u32 (s32 TimeLeft) then msTime e else u32 (s32 TimeLeft) in
    with_timer e (msTime e) t (repeats e)).

Definition eventModifyTime (k type Time : Z) : E unit :=
  modify_events k type (fun e => with_timer e Time (currTime e) (repeats e)).

Definition eventModifyTimeAndTimeLeft (k type Time : Z) : E unit :=
  modify_events k type (fun e => with_timer e Time Time (repeats e)).

(** The loop of [eventHasEvent] and [eventGetTimeLeft]: the first event of the
    range that is not deleted. *)
Fixpoint first_live (l : list Z) : E (option TimedEvent) :=
  match l with
  | [] => mret' None
  | p :: l' => e <- load p;; if deleted e then first_live l' else mret' (Some e)
  end.

Definition eventHasEvent (k type : Z) : E bool :=
  o <- object_at k;;
  r <- first_live (map snd (of_type type (m_events o)));;
  mret' (match r with Some _ => true | None => false end).

Definition eventGetTimeLeft (k type : Z) : E (option Z) :=
  o <- object_at k;;
  r <- first_live (map snd (of_type type (m_events o)));;
  mret' (match r with Some e => Some (currTime e) | None => None end).

Definition eventGetEventPeriod (k type : Z) : E Z :=
  o <- object_at k;;
  match of_type type (m_events o) with
  | [] => mret' 0
  | x :: _ => e <- load x.2;; mret' (msTime e)
  end.

(** [EventableObjectHolder::addObject]. *)
Definition holder_addObject (i k : Z) : E unit :=
  o <- object_at k;;
  mfor (map snd (m_events o)) (fun p =>
    e <- load p;;
    if deleted e then mret' tt
    else if (i =? WORLD_INSTANCE) &&
            negb (Z.land (eventFlag e) EVENT_FLAG_DO_NOT_EXECUTE_IN_WORLD_CONTEXT =? 0)
    then mret' tt
    else
      store p (with_instance (with_ref e (ref e + 1)) i);;;
      mmodify (fun w => set_holders w (<[i := default [] (holders w !! i) ++ [p]]> (holders w)))).

Definition eventRelocate (k : Z) : E unit := fun w =>
  match objects w !! k with
  | None => UB "eventRelocate: dead object"
  | Some o =>
      let nh := getEventHolder w (instance o) in
      if decide (nh = m_holder o) then Ret (tt, w, [])
      else
        match (match nh with Some _ => nh | None => getEventHolder w WORLD_INSTANCE end) with
        | None => UB "eventRelocate: assert(nh)"
        | Some i =>
            (holder_addObject i k;;; put_object k (with_holder o i (Some i))) w
        end
  end.

(** ** Call-backs *)

Inductive action : Type :=
| ActAdd (k : Z) (callback : option Z) (type time repeats flags : Z)
| ActRemove (k type : Z)
| ActDestroy (k : Z)
| ActModifyTimeLeft (k type t : Z) (unconditioned : bool)
| ActModifyTime (k type t : Z)
| ActModifyTimeAndTimeLeft (k type t : Z).

Definition target (a : action) : Z :=
  match a with
  | ActAdd k _ _ _ _ _ | ActRemove k _ | ActDestroy k | ActModifyTimeLeft k _ _ _
  | ActModifyTime k _ _ | ActModifyTimeAndTimeLeft k _ _ => k
  end.

(** Client code reaches objects through its own tables, so that it acts on
    live ones. *)
Definition run_action (a : action) : E unit := fun w =>
  match objects w !! target a with
  | None => Ret (tt, w, [])
  | Some _ =>
      match a with
      | ActAdd k c t ms r f => addEvent k c t ms r f w
      | ActRemove k t => eventRemoveEvents k t w
      | ActDestroy k => destroy k w
      | ActModifyTimeLeft k t x b => eventModifyTimeLeft k t x b w
      | ActModifyTime k t x => eventModifyTime k t x w
      | ActModifyTimeAndTimeLeft k t x => eventModifyTimeAndTimeLeft k t x w
      end
  end.

Section update.
Context (script : Z -> list action).

(** [cb->execute()]: calls the method on the bound object, which must be alive. *)
Definition execute (owner callback : Z) : E unit := fun w =>
  match objects w !! owner with
  | None => UB "execute: call-back on a destroyed object"
  | Some _ => (memit (Fired owner callback);;; mfor (script callback) run_action) w
  end.

(** [m_events.erase(it2)] on holder [i]. *)
Definition erase_at (i : Z) (n : nat) : E unit :=
  mmodify (fun w => set_holders w (<[i := delete n (default [] (holders w !! i))]> (holders w))).

(** What one iteration does to the element [p] at position [n]; true when it
    was erased. *)
Definition tick (i : Z) (n : nat) (p time_difference : Z) : E bool :=
  ev <- load p;;
  let drop := decRef p;;; erase_at i n;;; mret' true in
  if negb (instanceId ev =? i) || deleted ev ||
     ((i =? WORLD_INSTANCE) &&
      negb (Z.land (eventFlag ev) EVENT_FLAG_DO_NOT_EXECUTE_IN_WORLD_CONTEXT =? 0))
  then drop
  else if currTime ev <=? time_difference then
    match cb ev with
    | None => drop
    | Some c =>
        if negb (Z.land (eventFlag ev) EVENT_FLAG_DELETES_OBJECT =? 0) then
          execute (obj ev) c;;; drop
        else
          execute (obj ev) c;;;
          ev <- load p;;
          (* repeats && --repeats == 0 *)
          let r := if repeats ev =? 0 then 0 else repeats ev - 1 in
          store p (with_timer ev (msTime ev) (currTime ev) r);;;
          if (negb (repeats ev =? 0) && (r =? 0)) || deleted ev then drop
          else
            store p (with_timer ev (msTime ev) (msTime ev) r);;; mret' false
    end
  else
    store p (with_timer ev (msTime ev) (currTime ev - time_difference) (repeats ev));;;
    mret' false.

(** [while (itr != end()) { it2 = itr++; ... }]: [n] is the position of [itr].
    [itr] is advanced before the call-back runs, so that it is [end()] after the
    last element even when the call-back appends to the list. *)
Fixpoint update_loop (fuel : nat) (i : Z) (n : nat) (time_difference : Z) : E unit :=
  match fuel with
  | O => mub "update: fuel"
  | S fuel' =>
      w <- mget;;
      match default [] (holders w !! i) !! n with
      | None => mret' tt
      | Some p =>
          let at_end := (length (default [] (holders w !! i)) <=? S n)%nat in
          erased <- tick i n p time_difference;;
          if at_end then mret' tt
          else update_loop fuel' i (if (erased : bool) then n else S n) time_difference
      end
  end.

Definition update (fuel : nat) (i time_difference : Z) : E unit :=
  update_loop fuel i 0 time_difference.

End update.

End Events.

Import Events.

(** ** The reference-count invariant *)

(** All the references the containers of a map hold. *)
Definition flat {A} (f : A -> list Z) (m : gmap Z A) : list Z :=
  concat (map (fun x => f x.2) (map_to_list m)).

Definition object_refs (o : EventableObject) : list Z := map snd (m_events o).

Definition refs (w : world) : list Z := flat object_refs (objects w) ++ flat id (holders w).

(** Every reference points to a live event, whose count is the number of
    references to it, at least one. *)
Record counted (h : gmap Z TimedEvent) (R : list Z) : Prop := {
  c_live : forall p, p ∈ R -> is_Some (h !! p);
  c_ref : forall p e, h !! p = Some e ->
    ref e = Z.of_nat (count_occ Z.eq_dec R p) /\ 0 < ref e
}.

Record ok (w : world) : Prop := {
  ok_counted : counted (heap w) (refs w);
  ok_fresh : forall p e, heap w !! p = Some e -> p < next w;
  (* an event that is not deleted is in the multimap of its living object *)
  ok_owner : forall p e, heap w !! p = Some e -> deleted e = false ->
    exists o, objects w !! obj e = Some o /\ (eventType e, p) ∈ m_events o;
  ok_world : is_Some (holders w !! WORLD_INSTANCE);
  ok_holder : forall k o i, objects w !! k = Some o -> m_holder o = Some i -> is_Some (holders w !! i)
}.

(** *** Lemmas on [flat] *)

Section flat.
Context {A : Type} (f : A -> list Z).

Lemma flat_insert_fresh m k x : m !! k = None -> flat f (<[k := x]> m) ≡ₚ f x ++ flat f m.
Proof.
  intros Hk. unfold flat.
  pose proof (map_to_list_insert m k x Hk) as Hp.
  apply (Permutation_map (fun y => f y.2)) in Hp. by rewrite Hp.
Qed.

Lemma flat_lookup m k x : m !! k = Some x -> flat f m ≡ₚ f x ++ flat f (delete k m).
Proof.
  intros Hk. rewrite <- (insert_delete_id m k x Hk) at 1.
  apply flat_insert_fresh. apply lookup_delete_eq.
Qed.

Lemma flat_insert m k x : flat f (<[k := x]> m) ≡ₚ f x ++ flat f (delete k m).
Proof. rewrite <- insert_delete_eq. apply flat_insert_fresh. apply lookup_delete_eq. Qed.

End flat.

(** *** Lemmas on counted heaps *)

Lemma counted_perm h R R' : R ≡ₚ R' -> counted h R -> counted h R'.
Proof.
  intros Hp [Hl Hr]. split.
  - intros p. rewrite <- Hp. apply Hl.
  - intros p e He. rewrite <- (proj1 (Permutation_count_occ Z.eq_dec _ _) Hp). by apply Hr.
Qed.

#[global] Instance counted_proper h : Proper (Permutation ==> iff) (counted h).
Proof. intros R R' Hp. split; apply counted_perm; [done|by symmetry]. Qed.

Lemma counted_pos h R p e : counted h R -> h !! p = Some e -> p ∈ R.
Proof.
  intros [_ Hr] He. destruct (Hr p e He) as [-> Hpos].
  apply list_elem_of_In, (count_occ_In Z.eq_dec). lia.
Qed.

(** [h'] is [h] with some events freed or changed, those of [D] killed. *)
Definition tame (h h' : gmap Z TimedEvent) (D : list Z) : Prop :=
  forall q e', h' !! q = Some e' ->
  exists e, h !! q = Some e /\ obj e' = obj e /\ eventType e' = eventType e /\
    (deleted e' = false -> deleted e = false /\ q ∉ D).

Lemma tame_refl h : tame h h [].
Proof. intros q e' He. exists e'. split_and!; try done. intros. split; [done|set_solver]. Qed.

Lemma tame_trans h1 h2 h3 D1 D2 : tame h1 h2 D1 -> tame h2 h3 D2 -> tame h1 h3 (D1 ++ D2).
Proof.
  intros H12 H23 q e3 He3. destruct (H23 q e3 He3) as (e2 & He2 & Ho2 & Ht2 & Hd2).
  destruct (H12 q e2 He2) as (e1 & He1 & Ho1 & Ht1 & Hd1).
  exists e1. split_and!; try congruence. intros Hd. specialize (Hd2 Hd) as [Hd2 Hn2].
  specialize (Hd1 Hd2) as [Hd1 Hn1]. split; [done|set_solver].
Qed.

Lemma set_heap_set_heap w h1 h2 : set_heap (set_heap w h1) h2 = set_heap w h2.
Proof. done. Qed.

(** [decRef] gives back one reference. *)
Lemma decRef_counted w p R :
  counted (heap w) (p :: R) ->
  exists h', decRef p w = Ret (tt, set_heap w h', []) /\ counted h' R /\ tame (heap w) h' [p].
Proof.
  intros [Hl Hr]. destruct (Hl p ltac:(set_solver)) as [e He].
  destruct (Hr p e He) as [Href Hpos]. rewrite count_occ_cons_eq in Href by done.
  assert (Hrest : forall q e', q <> p -> heap w !! q = Some e' ->
    ref e' = Z.of_nat (count_occ Z.eq_dec R q) /\ 0 < ref e').
  { intros q e' Hne He'. destruct (Hr q e' He') as [Hq ?].
    rewrite count_occ_cons_neq in Hq by done. done. }
  unfold decRef. rewrite (mbind_run (load p) _ w e w []) by (unfold load; by rewrite He).
  cbn [ref kill]. destruct (Z.leb_spec (ref e - 1) 0).
  - eexists. split; [reflexivity|]. split.
    + assert (Hz : count_occ Z.eq_dec R p = 0%nat) by lia. split.
      * intros q Hq. destruct (decide (q = p)) as [->|Hne].
        -- apply list_elem_of_In, (count_occ_In Z.eq_dec) in Hq. lia.
        -- rewrite lookup_delete_ne by done. apply Hl. set_solver.
      * intros q e' He'. apply lookup_delete_Some in He' as [Hne He']. by apply Hrest.
    + intros q e' He'. apply lookup_delete_Some in He' as [Hne He']. exists e'.
      split_and!; try done. intros. split; [done|set_solver].
  - eexists. split; [reflexivity|]. split.
    + split.
      * intros q Hq. destruct (decide (q = p)) as [->|Hne].
        -- rewrite lookup_insert_eq. by eexists.
        -- rewrite lookup_insert_ne by done. apply Hl. set_solver.
      * intros q e' He'. destruct (decide (q = p)) as [->|Hne].
        -- rewrite lookup_insert_eq in He'. injection He' as <-. cbn [ref kill]. lia.
        -- rewrite lookup_insert_ne in He' by done. by apply Hrest.
    + intros q e' He'. destruct (decide (q = p)) as [->|Hne].
      * rewrite lookup_insert_eq in He'. injection He' as <-. exists e. by split_and!.
      * rewrite lookup_insert_ne in He' by done. exists e'. split_and!; try done.
        intros. split; [done|set_solver].
Qed.

Lemma decRefs_counted w l R :
  counted (heap w) (l ++ R) ->
  exists h', mfor l decRef w = Ret (tt, set_heap w h', []) /\ counted h' R /\ tame (heap w) h' l.
Proof.
  revert w. induction l as [|p l IH]; intros w Hc.
  - exists (heap w). split; [by destruct w|]. split; [done|apply tame_refl].
  - destruct (decRef_counted w p (l ++ R) Hc) as (h1 & Hrun & Hc1 & Ht1).
    destruct (IH (set_heap w h1) Hc1) as (h2 & Hrun2 & Hc2 & Ht2).
    exists h2. cbn [mfor]. rewrite (mbind_run _ _ _ _ _ _ Hrun), Hrun2.
    split; [done|]. split; [done|]. exact (tame_trans _ _ _ [p] l Ht1 Ht2).
Qed.

(** Changing timers keeps everything. *)
Lemma modify_counted w l R set :
  (forall e, ref (set e) = ref e /\ obj (set e) = obj e /\ eventType (set e) = eventType e /\
     deleted (set e) = deleted e) ->
  counted (heap w) R -> (forall p, p ∈ l -> p ∈ R) ->
  exists h', mfor l (fun p => e <- load p;; store p (set e)) w = Ret (tt, set_heap w h', []) /\
    counted h' R /\ tame (heap w) h' [].
Proof.
  intros Hset. revert w. induction l as [|p l IH]; intros w Hc Hl.
  - exists (heap w). split; [by destruct w|]. split; [done|apply tame_refl].
  - destruct (c_live _ _ Hc p (Hl p ltac:(set_solver))) as [e He].
    destruct (Hset e) as (Hs1 & Hs2 & Hs3 & Hs4).
    set (h1 := <[p := set e]> (heap w)).
    assert (Hrun : (e <- load p;; store p (set e)) w = Ret (tt, set_heap w h1, [])).
    { rewrite (mbind_run (load p) _ w e w []) by (unfold load; by rewrite He). done. }
    assert (Hc1 : counted h1 R).
    { split.
      - intros q Hq. unfold h1. destruct (decide (q = p)) as [->|Hne];
          [rewrite lookup_insert_eq; by eexists|rewrite lookup_insert_ne by done; by apply Hc].
      - intros q e' He'. unfold h1 in He'. destruct (decide (q = p)) as [->|Hne].
        + rewrite lookup_insert_eq in He'. injection He' as <-. rewrite Hs1. by apply Hc.
        + rewrite lookup_insert_ne in He' by done. by apply Hc. }
    assert (Ht1 : tame (heap w) h1 []).
    { intros q e' He'. unfold h1 in He'. destruct (decide (q = p)) as [->|Hne].
      - rewrite lookup_insert_eq in He'. injection He' as <-. exists e.
        split_and!; try done. rewrite Hs4. intros. split; [done|set_solver].
      - rewrite lookup_insert_ne in He' by done. exists e'. split_and!; try done.
        intros. split; [done|set_solver]. }
    destruct (IH (set_heap w h1) Hc1 ltac:(set_solver)) as (h2 & Hrun2 & Hc2 & Ht2).
    exists h2. cbn [mfor]. rewrite (mbind_run _ _ _ _ _ _ Hrun), Hrun2.
    split; [done|]. split; [done|]. exact (tame_trans _ _ _ [] [] Ht1 Ht2).
Qed.

(** ** The operations keep the invariant *)

(** Holder lists only grow at the end. *)
Definition grows (w w' : world) : Prop :=
  forall i l, holders w !! i = Some l -> exists l', holders w' !! i = Some (l ++ l').

Lemma grows_same w w' : holders w' = holders w -> grows w w'.
Proof. intros Hh i l Hl. exists []. by rewrite Hh, app_nil_r. Qed.

Lemma grows_trans w1 w2 w3 : grows w1 w2 -> grows w2 w3 -> grows w1 w3.
Proof.
  intros H12 H23 i l Hl. destruct (H12 i l Hl) as [l1 H1]. destruct (H23 _ _ H1) as [l2 H2].
  exists (l1 ++ l2). by rewrite app_assoc.
Qed.

(** [runs m w]: [m] runs without undefined behaviour and keeps the invariant. *)
Definition runs {A} (m : E A) (w : world) : Prop :=
  exists a w' o, m w = Ret (a, w', o) /\ ok w' /\ grows w w'.

Lemma runs_bind {A B} (m : E A) (k : A -> E B) w :
  (exists a w' o, m w = Ret (a, w', o) /\ ok w' /\ grows w w' /\ runs (k a) w') ->
  runs (mbind' m k) w.
Proof.
  intros (a & w1 & o1 & Hm & Hok & Hg & b & w2 & o2 & Hk & Hok2 & Hg2).
  exists b, w2, (o1 ++ o2). rewrite (mbind_run _ _ _ _ _ _ Hm), Hk.
  split_and!; [done|done|by eapply grows_trans].
Qed.

(** Killing the references [l] of object [k] and leaving [keep]. *)
Lemma drop_events_ok w k o l keep :
  ok w -> objects w !! k = Some o ->
  map snd (m_events o) ≡ₚ l ++ map snd keep ->
  (forall x, x ∈ m_events o -> x ∈ keep \/ x.2 ∈ l) ->
  exists h', mfor l decRef w = Ret (tt, set_heap w h', []) /\
    ok (set_objects (set_heap w h') (<[k := set_events o keep]> (objects w))) /\
    (keep = [] -> ok (set_objects (set_heap w h') (delete k (objects w)))).
Proof.
  intros [Hc Hf Ho Hw Hh] Hk Hperm Hin.
  assert (Hc' : counted (heap w) (l ++ map snd keep ++ flat object_refs (delete k (objects w))
                                    ++ flat id (holders w))).
  { unfold refs in Hc. rewrite (flat_lookup object_refs _ _ _ Hk) in Hc.
    unfold object_refs at 1 in Hc. rewrite Hperm in Hc. by rewrite <- !app_assoc in Hc. }
  destruct (decRefs_counted w l _ Hc') as (h' & Hrun & Hc1 & Ht).
  assert (Hfresh : forall p e, h' !! p = Some e -> p < next w).
  { intros p e He. destruct (Ht p e He) as (e0 & He0 & _). by eapply Hf. }
  exists h'. split; [exact Hrun|]. split.
  - constructor; cbn [heap next objects holders set_objects set_heap]; try done.
    + unfold refs. cbn [objects holders set_objects set_heap].
      rewrite (flat_insert object_refs). unfold object_refs at 1. cbn [m_events set_events].
      by rewrite <- app_assoc.
    + intros p e He Hd. destruct (Ht p e He) as (e0 & He0 & Hobj & Hty & Hdel).
      destruct (Hdel Hd) as [Hd0 Hn]. destruct (Ho p e0 He0 Hd0) as (o0 & Ho0 & Hx).
      rewrite Hobj, Hty. destruct (decide (obj e0 = k)) as [Heq|Hne].
      * rewrite Heq in *. assert (o0 = o) as -> by congruence.
        exists (set_events o keep). rewrite lookup_insert_eq. split; [done|].
        cbn [m_events set_events]. destruct (Hin _ Hx) as [|Hbad]; done.
      * exists o0. by rewrite lookup_insert_ne.
    + intros j o0 i Hj Hi. destruct (decide (j = k)) as [->|Hne].
      * rewrite lookup_insert_eq in Hj. injection Hj as <-. by eapply (Hh k o).
      * rewrite lookup_insert_ne in Hj by done. by eapply Hh.
  - intros ->. constructor; cbn [heap next objects holders set_objects set_heap]; try done.
    + intros p e He Hd. destruct (Ht p e He) as (e0 & He0 & Hobj & Hty & Hdel).
      destruct (Hdel Hd) as [Hd0 Hn]. destruct (Ho p e0 He0 Hd0) as (o0 & Ho0 & Hx).
      rewrite Hobj, Hty. destruct (decide (obj e0 = k)) as [Heq|Hne].
      * rewrite Heq in *. assert (o0 = o) as -> by congruence.
        destruct (Hin _ Hx) as [Hbad|Hbad]; [set_solver|done].
      * exists o0. by rewrite lookup_delete_ne.
    + intros j o0 i Hj Hi. apply lookup_delete_Some in Hj as [_ Hj]. by eapply Hh.
Qed.

Lemma type_partition t l :
  map snd l ≡ₚ map snd (of_type t l) ++ map snd (not_of_type t l).
Proof.
  rewrite <- map_app. apply Permutation_map. unfold of_type, not_of_type.
  induction l as [|x l IH]; [done|]. cbn [List.filter].
  destruct (x.1 =? t); cbn [negb]; [by rewrite IH at 1|].
  rewrite IH at 1. apply Permutation_middle.
Qed.

Lemma elem_filter {A} (f : A -> bool) l x : x ∈ List.filter f l <-> x ∈ l /\ f x = true.
Proof. rewrite !list_elem_of_In. apply filter_In. Qed.

Lemma run_object_at k w o : objects w !! k = Some o -> object_at k w = Ret (o, w, []).
Proof. intros Hk. unfold object_at. by rewrite Hk. Qed.

Lemma eventRemoveEvents_runs w k o t :
  ok w -> objects w !! k = Some o -> runs (eventRemoveEvents k t) w.
Proof.
  intros Hok Hk. unfold runs, eventRemoveEvents.
  rewrite (mbind_run _ _ _ _ _ _ (run_object_at k w o Hk)).
  destruct (Z.eqb_spec t EVENT_REMOVAL_FLAG_ALL).
  - destruct (drop_events_ok w k o (map snd (m_events o)) [] Hok Hk) as (h' & Hrun & Hok' & _).
    { by rewrite app_nil_r. }
    { intros x Hx. right. apply list_elem_of_fmap. by exists x. }
    rewrite (mbind_run _ _ _ _ _ _ Hrun). do 3 eexists. split; [reflexivity|].
    split; [exact Hok'|by apply grows_same].
  - destruct (drop_events_ok w k o (map snd (of_type t (m_events o))) (not_of_type t (m_events o)) Hok Hk)
      as (h' & Hrun & Hok' & _).
    { apply type_partition. }
    { intros x Hx. unfold of_type, not_of_type. destruct (Z.eqb_spec x.1 t) as [Ht|Ht].
      - right. apply list_elem_of_fmap. exists x. split; [done|]. apply elem_filter. by rewrite Z.eqb_eq.
      - left. apply elem_filter. by rewrite (proj2 (Z.eqb_neq _ _) Ht). }
    rewrite (mbind_run _ _ _ _ _ _ Hrun). do 3 eexists. split; [reflexivity|].
    split; [exact Hok'|by apply grows_same].
Qed.

Lemma destroy_runs w k o : ok w -> objects w !! k = Some o -> runs (destroy k) w.
Proof.
  intros Hok Hk. unfold runs, destroy. rewrite (mbind_run _ _ _ _ _ _ (run_object_at k w o Hk)).
  destruct (drop_events_ok w k o (map snd (m_events o)) [] Hok Hk) as (h' & Hrun & _ & Hok').
  { by rewrite app_nil_r. }
  { intros x Hx. right. apply list_elem_of_fmap. by exists x. }
  rewrite (mbind_run _ _ _ _ _ _ Hrun). do 3 eexists. split; [reflexivity|].
  split; [by apply Hok'|by apply grows_same].
Qed.

(** A change of the heap that neither frees nor kills. *)
Lemma tame_ok w h' :
  ok w -> counted h' (refs w) -> tame (heap w) h' [] -> ok (set_heap w h').
Proof.
  intros [Hc Hf Ho Hw Hh] Hc' Ht. constructor; cbn [heap next objects holders set_heap]; try done.
  - intros p e He. destruct (Ht p e He) as (e0 & He0 & _). by eapply Hf.
  - intros p e He Hd. destruct (Ht p e He) as (e0 & He0 & Hobj & Hty & Hdel).
    destruct (Hdel Hd) as [Hd0 _]. rewrite Hobj, Hty. by apply Ho.
Qed.

Lemma elem_of_refs_object w k o x : objects w !! k = Some o -> x ∈ m_events o -> x.2 ∈ refs w.
Proof.
  intros Hk Hx. unfold refs. rewrite (flat_lookup object_refs _ _ _ Hk).
  rewrite !elem_of_app. left; left. apply list_elem_of_fmap. by exists x.
Qed.

Lemma modify_events_runs w k o t set :
  (forall e, ref (set e) = ref e /\ obj (set e) = obj e /\ eventType (set e) = eventType e /\
     deleted (set e) = deleted e) ->
  ok w -> objects w !! k = Some o -> runs (modify_events k t set) w.
Proof.
  intros Hset Hok Hk. unfold runs, modify_events.
  rewrite (mbind_run _ _ _ _ _ _ (run_object_at k w o Hk)).
  destruct (modify_counted w (map snd (of_type t (m_events o))) (refs w) set Hset (ok_counted w Hok))
    as (h' & Hrun & Hc & Ht).
  { intros p Hp. apply list_elem_of_fmap in Hp as (x & -> & Hx). apply elem_filter in Hx as [Hx _].
    by eapply elem_of_refs_object. }
  rewrite Hrun. do 3 eexists. split; [reflexivity|]. split; [by apply tame_ok|by apply grows_same].
Qed.

Lemma mm_insert_perm t p l : mm_insert t p l ≡ₚ (t, p) :: l.
Proof.
  induction l as [|[t' p'] l IH]; [done|]. cbn [mm_insert]. destruct (t <? t'); [done|].
  rewrite IH. apply Permutation_swap.
Qed.

Lemma run_load p w e : heap w !! p = Some e -> load p w = Ret (e, w, []).
Proof. intros He. unfold load. by rewrite He. Qed.

Lemma run_incRef p w e :
  heap w !! p = Some e ->
  incRef p w = Ret (tt, set_heap w (<[p := with_ref e (ref e + 1)]> (heap w)), []).
Proof. intros He. unfold incRef. by rewrite (mbind_run _ _ _ _ _ _ (run_load p w e He)). Qed.

Lemma getEventHolder_some w i j : getEventHolder w i = Some j -> j = i /\ is_Some (holders w !! i).
Proof. unfold getEventHolder. destruct (holders w !! i) eqn:Hi; [|done]. intros [= <-]. by split. Qed.

Lemma run_new_event k c t ms r f w :
  new_event k c t ms r f w =
  Ret (next w, mk_world (<[next w := mk_event k c t (u16 f) ms ms r false 0 0]> (heap w))
                 (next w + 1) (objects w) (holders w), []).
Proof. done. Qed.

(** The holder [eventAddEvent] settles on. *)
Lemma run_eventAddEvent w k o p e0 :
  objects w !! k = Some o -> heap w !! p = Some e0 ->
  is_Some (holders w !! WORLD_INSTANCE) ->
  (forall i, m_holder o = Some i -> is_Some (holders w !! i)) ->
  exists i o' e, is_Some (holders w !! i) /\
    eventAddEvent k p w = Ret (tt, mk_world (<[p := e]> (heap w)) (next w)
      (<[k := o']> (objects w)) (<[i := default [] (holders w !! i) ++ [p]]> (holders w)), []) /\
    ref e = ref e0 + 2 /\ obj e = obj e0 /\ eventType e = eventType e0 /\ deleted e = deleted e0 /\
    m_events o' = mm_insert (eventType e0) p (m_events o) /\ m_holder o' = Some i.
Proof.
  intros Hk Hp [lw Hw] Hh. unfold eventAddEvent. rewrite Hk.
  set (o1 := match m_holder o with Some _ => o | None => _ end).
  rewrite (mbind_run _ _ _ _ _ _ (run_incRef p w e0 Hp)).
  set (e1 := with_ref e0 (ref e0 + 1)). set (w1 := set_heap w _).
  assert (Hp1 : heap w1 !! p = Some e1) by apply lookup_insert_eq.
  rewrite (mbind_run _ _ _ _ _ _ (run_load p w1 e1 Hp1)).
  set (e2 := with_instance e1 _).
  rewrite (mbind_run (store p e2) _ w1 tt (set_heap w1 (<[p := e2]> (heap w1))) []) by done.
  set (w2 := set_heap w1 _).
  assert (Hev : m_events o1 = m_events o) by (unfold o1; by destruct (m_holder o)).
  set (o2 := set_events o1 _).
  set (o3 := match m_holder o2 with Some _ => o2 | None => _ end).
  assert (Hi : exists i, m_holder o3 = Some i /\ is_Some (holders w !! i)).
  { unfold o3. destruct (m_holder o2) as [i|] eqn:Ho2.
    - exists i. split; [done|]. unfold o2, o1 in Ho2. destruct (m_holder o) eqn:Ho.
      + apply Hh. by rewrite <- Ho2, <- Ho.
      + cbn in Ho2. apply getEventHolder_some in Ho2. by destruct Ho2 as [-> ?].
    - exists WORLD_INSTANCE. unfold getEventHolder. cbn [m_holder with_holder].
      change (holders w2) with (holders w). rewrite Hw. by eexists. }
  destruct Hi as (i & Ho3 & Hi). rewrite Ho3.
  assert (Hev3 : m_events o3 = mm_insert (eventType e0) p (m_events o)).
  { unfold o3, o2. by destruct (m_holder (set_events _ _)); cbn [m_events set_events with_holder]; rewrite Hev. }
  rewrite (mbind_run (mmodify _) _ w2 tt (set_objects w2 (<[k := o3]> (objects w2))) []) by done.
  set (w3 := set_objects w2 _).
  assert (Hp3 : heap w3 !! p = Some e2) by apply lookup_insert_eq.
  unfold holder_addEvent. rewrite (mbind_run _ _ _ _ _ _ (run_incRef p w3 e2 Hp3)).
  exists i, o3, (with_ref e2 (ref e2 + 1)). split; [exact Hi|]. split; [|].
  - unfold mmodify. cbn [app]. do 4 f_equal. unfold w3, w2, w1. 
    cbn [heap set_heap set_objects set_holders objects holders next].
    by rewrite !insert_insert_eq.
  - cbn. split_and!; try done. lia.
Qed.

Lemma addEvent_runs w k o c t ms r f :
  ok w -> objects w !! k = Some o -> runs (addEvent k c t ms r f) w.
Proof.
  intros Hok Hk. unfold runs, addEvent.
  rewrite (mbind_run _ _ _ _ _ _ (run_new_event k c t ms r f w)).
  set (p := next w). set (e0 := mk_event k c t (u16 f) ms ms r false 0 0).
  set (w1 := mk_world _ _ _ _).
  destruct Hok as [Hc Hf Ho Hw Hh].
  assert (Hnone : heap w !! p = None).
  { destruct (heap w !! p) as [e|] eqn:He; [|done]. apply Hf in He. unfold p in He. lia. }
  destruct (run_eventAddEvent w1 k o p e0 Hk (lookup_insert_eq _ _ _) Hw)
    as (i & o' & e & [l Hl] & Hrun & Href & Hobj & Hty & Hdel & Hev & Hho); [intros; by eapply Hh|].
  rewrite Hrun. do 3 eexists. split; [reflexivity|].
  cbn [heap next objects holders w1] in *. unfold w1 in Hrun, Hl |- *.
  cbn [heap next objects holders] in *. rewrite insert_insert_eq, Hl. cbn [default from_option]. unfold id.
  assert (Hnotin : p ∉ refs w).
  { intros Hin. destruct (c_live _ _ Hc p Hin) as [e' He']. congruence. }
  assert (Hrefs : refs (mk_world (<[p := e]> (heap w)) (p + 1) (<[k := o']> (objects w))
                          (<[i := l ++ [p]]> (holders w))) ≡ₚ p :: p :: refs w).
  { unfold refs. cbn [objects holders]. rewrite (flat_insert object_refs), (flat_insert id).
    rewrite (flat_lookup object_refs _ _ _ Hk), (flat_lookup id _ _ _ Hl).
    unfold object_refs at 1 3, id. rewrite Hev, mm_insert_perm. cbn [map snd]. solve_Permutation. }
  split.
  - constructor; cbn [heap next objects holders].
    + rewrite Hrefs. split.
      * intros q Hq. destruct (decide (q = p)) as [->|Hne]; [rewrite lookup_insert_eq; by eexists|].
        rewrite lookup_insert_ne by done. apply Hc. set_solver.
      * intros q e' He'. destruct (decide (q = p)) as [->|Hne].
        -- rewrite lookup_insert_eq in He'. injection He' as <-.
           rewrite !count_occ_cons_eq by done.
           assert (count_occ Z.eq_dec (refs w) p = 0%nat) as ->.
           { apply count_occ_not_In. by rewrite <- list_elem_of_In. }
           rewrite Href. cbn [ref e0]. unfold e0. cbn [ref]. lia.
        -- rewrite lookup_insert_ne in He' by done. rewrite !count_occ_cons_neq by done. by apply Hc.
    + intros q e' He'. destruct (decide (q = p)) as [->|Hne]; [lia|].
      rewrite lookup_insert_ne in He' by done. apply Hf in He'. unfold p. lia.
    + intros q e' He' Hd. destruct (decide (q = p)) as [->|Hne].
      * rewrite lookup_insert_eq in He'. injection He' as <-. rewrite Hobj, Hty.
        exists o'. cbn [obj eventType e0]. unfold e0. cbn [obj eventType]. rewrite lookup_insert_eq.
        split; [done|]. rewrite Hev, mm_insert_perm. apply list_elem_of_here.
      * rewrite lookup_insert_ne in He' by done. destruct (Ho q e' He' Hd) as (o0 & Ho0 & Hx).
        destruct (decide (obj e' = k)) as [Heq|Hne'].
        -- exists o'. rewrite Heq, lookup_insert_eq. split; [done|].
           rewrite Heq in Ho0. assert (o0 = o) as -> by congruence.
           rewrite Hev, mm_insert_perm. by apply list_elem_of_further.
        -- exists o0. by rewrite lookup_insert_ne.
    + destruct (decide (i = WORLD_INSTANCE)) as [->|Hne];
        [rewrite lookup_insert_eq; by eexists|by rewrite lookup_insert_ne].
    + intros j o0 i0 Hj Hi0. destruct (decide (i0 = i)) as [->|Hne];
        [rewrite lookup_insert_eq; by eexists|rewrite lookup_insert_ne by done].
      destruct (decide (j = k)) as [->|Hne'].
      * rewrite lookup_insert_eq in Hj. injection Hj as <-. congruence.
      * rewrite lookup_insert_ne in Hj by done. by eapply Hh.
  - intros j lj Hj. cbn [holders] in *. destruct (decide (j = i)) as [->|Hne].
    + rewrite lookup_insert_eq. exists [p]. by assert (lj = l) as -> by congruence.
    + rewrite lookup_insert_ne by done. exists []. by rewrite app_nil_r.
Qed.

Lemma ok_runs_ret {A} (a : A) w : ok w -> runs (mret' a) w.
Proof. intros Hok. exists a, w, []. split_and!; [done|done|by apply grows_same]. Qed.

Lemma run_action_runs a w : ok w -> runs (run_action a) w.
Proof.
  intros Hok. unfold runs, run_action. destruct (objects w !! target a) as [o|] eqn:Hk.
  2: { exists tt, w, []. split_and!; [done|done|by apply grows_same]. }
  destruct a; cbn [target] in Hk.
  - by eapply addEvent_runs.
  - by eapply eventRemoveEvents_runs.
  - by eapply destroy_runs.
  - eapply modify_events_runs; [|done|exact Hk]. by intros e.
  - eapply modify_events_runs; [|done|exact Hk]. by intros e.
  - eapply modify_events_runs; [|done|exact Hk]. by intros e.
Qed.

Lemma script_runs l w : ok w -> runs (mfor l run_action) w.
Proof.
  revert w. induction l as [|a l IH]; intros w Hok; [by apply ok_runs_ret|].
  cbn [mfor]. apply runs_bind. destruct (run_action_runs a w Hok) as ([] & w1 & o1 & Ha & Hok1 & Hg).
  exists tt, w1, o1. split_and!; try done. by apply IH.
Qed.

(** Only [ActAdd] touches the holders. *)
Section keeps_holders.
Context (H : gmap Z (list Z)).

Let same (w : world) : Prop := holders w = H.

Lemma load_keeps p : preserves same (load p).
Proof. intros w Hw. unfold load. by destruct (heap w !! p). Qed.

Lemma object_at_keeps k : preserves same (object_at k).
Proof. intros w Hw. unfold object_at. by destruct (objects w !! k). Qed.

Lemma decRef_keeps p : preserves same (decRef p).
Proof.
  apply preserves_bind; [apply load_keeps|]. intros e. cbn zeta.
  by destruct (_ <=? 0); apply preserves_modify.
Qed.

Lemma modify_events_keeps k t set : preserves same (modify_events k t set).
Proof.
  apply preserves_bind; [apply object_at_keeps|]. intros o. apply preserves_for. intros x _.
  apply preserves_bind; [apply load_keeps|]. intros e. by apply preserves_modify.
Qed.

Lemma action_keeps a :
  match a with ActAdd _ _ _ _ _ _ => False | _ => True end -> preserves same (run_action a).
Proof.
  intros Ha w Hw. unfold run_action. destruct (objects w !! target a); [|done].
  destruct a as [|k t|k|k t x b|k t x|k t x]; [done|..].
  - revert w Hw. apply preserves_bind; [apply object_at_keeps|]. intros o.
    destruct (t =? EVENT_REMOVAL_FLAG_ALL); (apply preserves_bind;
      [apply preserves_for; intros; apply decRef_keeps|intros _; by apply preserves_modify]).
  - revert w Hw. apply preserves_bind; [apply object_at_keeps|]. intros o.
    apply preserves_bind; [apply preserves_for; intros; apply decRef_keeps|].
    intros _. by apply preserves_modify.
  - by apply modify_events_keeps.
  - by apply modify_events_keeps.
  - by apply modify_events_keeps.
Qed.

End keeps_holders.

Lemma script_keeps_holders l H :
  (forall a, a ∈ l -> match a with ActAdd _ _ _ _ _ _ => False | _ => True end) ->
  preserves (fun w => holders w = H) (mfor l run_action).
Proof. intros Hl. apply preserves_for. intros a Ha. by apply action_keeps, Hl. Qed.

Section update.
Context (script : Z -> list action).

(** No call-back adds events. *)
Definition no_add : Prop :=
  forall c a, a ∈ script c -> match a with ActAdd _ _ _ _ _ _ => False | _ => True end.

Lemma execute_runs w p e c :
  ok w -> heap w !! p = Some e -> deleted e = false ->
  exists w' o, execute script (obj e) c w = Ret (tt, w', o) /\ ok w' /\ grows w w' /\
    (no_add -> holders w' = holders w).
Proof.
  intros Hok Hp Hd. destruct (ok_owner w Hok p e Hp Hd) as (o & Ho & _).
  unfold execute. rewrite Ho.
  rewrite (mbind_run (memit _) _ w tt w [Fired (obj e) c]) by done.
  destruct (script_runs (script c) w Hok) as ([] & w1 & o1 & Hs & Hok1 & Hg). rewrite Hs.
  eexists _, _. split; [reflexivity|]. split_and!; try done. intros Hna.
  pose proof (script_keeps_holders (script c) (holders w) (Hna c) w eq_refl) as Hk.
  by rewrite Hs in Hk.
Qed.

Lemma delete_middle_perm {A} (l : list A) n x : l !! n = Some x -> l ≡ₚ x :: delete n l.
Proof.
  intros Hn. rewrite <- (take_drop_middle l n x Hn) at 1. rewrite delete_take_drop.
  symmetry. apply Permutation_middle.
Qed.

(** Dropping the element at position [n] of holder [i]. *)
Lemma drop_runs w i l n p :
  ok w -> holders w !! i = Some l -> l !! n = Some p ->
  exists w', (decRef p;;; erase_at i n;;; mret' true) w = Ret (true, w', []) /\
    ok w' /\ holders w' !! i = Some (delete n l).
Proof.
  intros [Hc Hf Ho Hw Hh] Hl Hn.
  assert (Hc' : counted (heap w) (p :: flat object_refs (objects w) ++ delete n l ++
                                    flat id (delete i (holders w)))).
  { unfold refs in Hc. rewrite (flat_lookup id _ _ _ Hl) in Hc. unfold id at 1 in Hc.
    rewrite (delete_middle_perm l n p Hn) in Hc. eapply counted_perm; [|exact Hc]. solve_Permutation. }
  destruct (decRef_counted w p _ Hc') as (h' & Hrun & Hc1 & Ht).
  rewrite (mbind_run _ _ _ _ _ _ Hrun). eexists. split; [reflexivity|].
  cbn [holders set_heap set_holders]. rewrite Hl. cbn [default from_option]. unfold id at 1.
  split; [|apply lookup_insert_eq].
  constructor; cbn [heap next objects holders set_heap set_holders].
  - unfold refs. cbn [objects holders set_heap set_holders].
    rewrite (flat_insert id). exact Hc1.
  - intros q e He. destruct (Ht q e He) as (e0 & He0 & _). by eapply Hf.
  - intros q e He Hd. destruct (Ht q e He) as (e0 & He0 & Hobj & Hty & Hdel).
    destruct (Hdel Hd) as [Hd0 _]. rewrite Hobj, Hty. by apply Ho.
  - destruct (decide (i = WORLD_INSTANCE)) as [->|Hne];
      [rewrite lookup_insert_eq; by eexists|by rewrite lookup_insert_ne].
  - intros k o j Hk Hj. destruct (decide (j = i)) as [->|Hne];
      [rewrite lookup_insert_eq; by eexists|rewrite lookup_insert_ne by done]. by eapply Hh.
Qed.

Lemma elem_of_refs_holder w i l p : holders w !! i = Some l -> p ∈ l -> p ∈ refs w.
Proof.
  intros Hl Hp. unfold refs. rewrite (flat_lookup id _ _ _ Hl). unfold id. set_solver.
Qed.

(** Writing an event's timers back. *)
Lemma store_ok w p e e' :
  ok w -> heap w !! p = Some e ->
  ref e' = ref e -> obj e' = obj e -> eventType e' = eventType e -> deleted e' = deleted e ->
  ok (set_heap w (<[p := e']> (heap w))).
Proof.
  intros Hok Hp Hr Ho Ht Hd. apply tame_ok; [done| |].
  - pose proof (ok_counted w Hok) as Hc. split.
    + intros q Hq. destruct (decide (q = p)) as [->|Hne];
        [rewrite lookup_insert_eq; by eexists|rewrite lookup_insert_ne by done; by apply Hc].
    + intros q e0 He0. destruct (decide (q = p)) as [->|Hne].
      * rewrite lookup_insert_eq in He0. injection He0 as <-. rewrite Hr. by apply Hc.
      * rewrite lookup_insert_ne in He0 by done. by apply Hc.
  - intros q e0 He0. destruct (decide (q = p)) as [->|Hne].
    + rewrite lookup_insert_eq in He0. injection He0 as <-. exists e.
      split_and!; try done. intros. split; [congruence|set_solver].
    + rewrite lookup_insert_ne in He0 by done. exists e0. split_and!; try done.
      intros. split; [done|set_solver].
Qed.

(** One iteration: no undefined behaviour, the invariant is kept, and the list
    lost at most the visited element and grew at the end. *)
Lemma tick_runs w i l n p d :
  ok w -> holders w !! i = Some l -> l !! n = Some p ->
  exists b w' o l', tick script i n p d w = Ret (b, w', o) /\ ok w' /\
    holders w' !! i = Some ((if b then delete n l else l) ++ l') /\ (no_add -> l' = []).
Proof.
  intros Hok Hl Hn.
  assert (Hpin : p ∈ l) by (by eapply list_elem_of_lookup_2).
  destruct (c_live _ _ (ok_counted w Hok) p (elem_of_refs_holder w i l p Hl Hpin)) as [ev Hev].
  assert (Hdrop : exists b w' o l', (decRef p;;; erase_at i n;;; mret' true) w = Ret (b, w', o) /\ ok w' /\
    holders w' !! i = Some ((if b then delete n l else l) ++ l') /\ (no_add -> l' = [])).
  { destruct (drop_runs w i l n p Hok Hl Hn) as (w' & Hrun & Hok' & Hl').
    exists true, w', [], []. by rewrite app_nil_r. }
  (* after a call-back that appended [l1] *)
  assert (Hdrop' : forall w1 l1, ok w1 -> holders w1 !! i = Some (l ++ l1) ->
    exists w' , (decRef p;;; erase_at i n;;; mret' true) w1 = Ret (true, w', []) /\ ok w' /\
      holders w' !! i = Some (delete n l ++ l1)).
  { intros w1 l1 Hok1 Hl1.
    destruct (drop_runs w1 i (l ++ l1) n p Hok1 Hl1) as (w' & Hrun & Hok' & Hl').
    - by apply lookup_app_l_Some.
    - exists w'. split_and!; try done. rewrite Hl'. f_equal.
      rewrite !delete_take_drop. apply lookup_lt_Some in Hn.
      rewrite take_app_le, drop_app_le by lia. by rewrite app_assoc. }
  unfold tick. rewrite (mbind_run _ _ _ _ _ _ (run_load p w ev Hev)).
  destruct (_ || _) eqn:Hcond.
  { destruct Hdrop as (b & w' & o & l' & -> & ?). by exists b, w', o, l'. }
  apply orb_false_iff in Hcond as [Hcond _]. apply orb_false_iff in Hcond as [_ Hd].
  destruct (currTime ev <=? d).
  2: { rewrite (mbind_run (store p _) _ w tt _ []) by reflexivity.
       exists false; eexists; exists [], []. split; [reflexivity|]. rewrite app_nil_r.
       split; [by eapply store_ok|]. done. }
  destruct (cb ev) as [c|].
  2: { destruct Hdrop as (b & w' & o & l' & -> & ?). by exists b, w', o, l'. }
  destruct (execute_runs w p ev c Hok Hev Hd) as (w1 & o1 & Hex & Hok1 & Hg & Hna).
  destruct (Hg i l Hl) as [l1 Hl1].
  assert (Hl1' : no_add -> l1 = []).
  { intros Hno. rewrite (Hna Hno), Hl in Hl1. apply (inj Some) in Hl1.
    apply (app_inv_head l). by rewrite app_nil_r. } destruct (Hdrop' w1 l1 Hok1 Hl1) as (w2 & Hd2 & Hok2 & Hl2).
  destruct (negb (Z.land (eventFlag ev) EVENT_FLAG_DELETES_OBJECT =? 0)).
  { rewrite (mbind_run _ _ _ _ _ _ Hex), Hd2. by exists true, w2, (o1 ++ []), l1. }
  rewrite (mbind_run _ _ _ _ _ _ Hex).
  destruct (c_live _ _ (ok_counted w1 Hok1) p) as [ev1 Hev1].
  { eapply elem_of_refs_holder; [exact Hl1|]. set_solver. }
  rewrite (mbind_run _ _ _ _ _ _ (run_load p w1 ev1 Hev1)).
  set (r := if repeats ev1 =? 0 then 0 else repeats ev1 - 1).
  rewrite (mbind_run (store p _) _ w1 tt _ []) by reflexivity. set (w3 := set_heap w1 _).
  assert (Hok3 : ok w3) by (by eapply store_ok).
  destruct (_ || _).
  - destruct (Hdrop' w3 l1 Hok3 Hl1) as (w4 & -> & Hok4 & Hl4).
    exists true, w4, (o1 ++ []), l1. split_and!; done.
  - rewrite (mbind_run (store p _) _ w3 tt _ []) by reflexivity.
    exists false; eexists; exists (o1 ++ []), l1. split; [reflexivity|].
    split; [|done]. by eapply store_ok; [done|apply lookup_insert_eq|..].
Qed.

Lemma update_loop_runs fuel w i n d :
  ok w ->
  match update_loop script fuel i n d w with
  | Ret (_, w', _) => ok w'
  | UB why => why = "update: fuel"%string
  end.
Proof.
  revert w n. induction fuel as [|fuel IH]; intros w n Hok; [done|].
  cbn [update_loop]. rewrite (mbind_run mget _ w w w []) by done.
  destruct (default [] (holders w !! i) !! n) as [p|] eqn:Hn; [|done].
  destruct (holders w !! i) as [l|] eqn:Hl; [|done]. cbn [default from_option] in Hn. unfold id in Hn.
  destruct (tick_runs w i l n p d Hok Hl Hn) as (b & w1 & o1 & l' & Ht & Hok1 & _).
  rewrite (mbind_run _ _ _ _ _ _ Ht). destruct (Nat.leb _ _); [done|].
  specialize (IH w1 (if b then n else S n) Hok1).
  by destruct (update_loop script fuel i _ d w1) as [[[? ?] ?]|].
Qed.

(** Without added events the elements left are the fuel needed. *)
Lemma update_loop_total fuel w i l n d :
  ok w -> no_add -> holders w !! i = Some l -> (length l - n < fuel)%nat ->
  exists w' o, update_loop script fuel i n d w = Ret (tt, w', o) /\ ok w'.
Proof.
  intros Hok Hna. revert w n l Hok. induction fuel as [|fuel IH]; intros w n l Hok Hl Hf; [lia|].
  cbn [update_loop]. rewrite (mbind_run mget _ w w w []) by done.
  rewrite Hl. cbn [default from_option]. unfold id.
  destruct (l !! n) as [p|] eqn:Hn; [|by exists w, []].
  destruct (tick_runs w i l n p d Hok Hl Hn) as (b & w1 & o1 & l' & Ht & Hok1 & Hl1 & Hnil).
  rewrite (Hnil Hna), app_nil_r in Hl1. rewrite (mbind_run _ _ _ _ _ _ Ht).
  destruct (Nat.leb _ _); [by eexists _, _|].
  pose proof (lookup_lt_Some _ _ _ Hn) as Hlt.
  destruct (IH w1 (if b then n else S n) _ Hok1 Hl1) as (w2 & o2 & -> & Hok2).
  { destruct b; [rewrite length_delete by (by eexists); lia|lia]. }
  by exists w2, ([] ++ o1 ++ o2).
Qed.

End update.

(** ** Client programs *)

(** The servers start with the holder of instance -1 and no object. *)
Definition init : world := mk_world ∅ 0 ∅ {[ WORLD_INSTANCE := [] ]}.

(** What server code does: make objects, act on them, tick a holder. *)
Inductive client_op : Type :=
| NewObject (k inst : Z)
| Act (a : action)
| Update (fuel : nat) (i time_difference : Z).

Definition run_op (script : Z -> list action) (op : client_op) : E unit :=
  match op with
  | NewObject k inst => fun w =>
      match objects w !! k with
      | Some _ => Ret (tt, w, [])
      | None => Ret (tt, set_objects w (<[k := mk_object inst (-1) [] None]> (objects w)), [])
      end
  | Act a => run_action a
  | Update fuel i d => update script fuel i d
  end.

Lemma init_ok : ok init.
Proof.
  constructor; try done.
  - split; [|done]. intros p Hp. exfalso. revert Hp. unfold refs, flat. cbn [objects holders init].
    rewrite map_to_list_empty, map_to_list_singleton. cbn. set_solver.
Qed.

Lemma new_object_ok w k inst :
  ok w -> objects w !! k = None ->
  ok (set_objects w (<[k := mk_object inst (-1) [] None]> (objects w))).
Proof.
  intros [Hc Hf Ho Hw Hh] Hk. constructor; cbn [heap next objects holders set_objects]; try done.
  - unfold refs in *. cbn [objects holders set_objects].
    by rewrite (flat_insert_fresh object_refs) by done.
  - intros p e He Hd. destruct (Ho p e He Hd) as (o & Hobj & Hx). exists o.
    rewrite lookup_insert_ne by congruence. done.
  - intros j o i Hj Hi. destruct (decide (j = k)) as [->|Hne].
    + rewrite lookup_insert_eq in Hj. by injection Hj as <-.
    + rewrite lookup_insert_ne in Hj by done. by eapply Hh.
Qed.

Lemma ops_ok script ops w :
  ok w ->
  match mfor ops (run_op script) w with
  | Ret (_, w', _) => ok w'
  | UB why => why = "update: fuel"%string
  end.
Proof.
  revert w. induction ops as [|op ops IH]; intros w Hok; [done|]. cbn [mfor].
  assert (Hop : match run_op script op w with
                | Ret (_, w', _) => ok w' | UB why => why = "update: fuel"%string end).
  { destruct op as [k inst|a|fuel i d]; cbn [run_op].
    - destruct (objects w !! k) eqn:Hk; [done|]. by apply new_object_ok.
    - destruct (run_action_runs a w Hok) as (? & w1 & o1 & -> & Hok1 & _). done.
    - by apply update_loop_runs. }
  unfold mbind'. destruct (run_op script op w) as [[[[] w1] o1]|]; [|done].
  specialize (IH w1 Hop). by destruct (mfor ops (run_op script) w1) as [[[? ?] ?]|].
Qed.

(** ** Properties *)

(** C20: the event system is memory safe under every client program and every
    call-back behaviour: call-backs may add and remove events, change timers and
    destroy objects, the one they run on included.  No operation reads a freed
    event or runs a call-back of a destroyed object, no assertion fails (the only
    abnormal end is the fuel of [update] when call-backs keep appending events),
    and at the end the event heap is exact: every reference points to an event,
    and each event's [ref] is the positive number of references to it, so that
    none is leaked. *)
Theorem event_system_memory_safe script ops :
  match mfor ops (run_op script) init with
  | UB why => why = "update: fuel"%string
  | Ret (_, w, _) =>
      (forall p, p ∈ refs w -> is_Some (heap w !! p)) /\
      (forall p e, heap w !! p = Some e ->
         ref e = Z.of_nat (count_occ Z.eq_dec (refs w) p) /\ 0 < ref e)
  end.
Proof.
  pose proof (ops_ok script ops init init_ok) as H.
  destruct (mfor ops (run_op script) init) as [[[u w] o]|]; [|done].
  split; apply (ok_counted w H).
Qed.

(** C37: [update] terminates when call-backs add no events: after any client
    program, one pass over a holder of [n] events ends within [n] iterations,
    without undefined behaviour. *)
Theorem update_terminates script ops w o i l d :
  mfor ops (run_op script) init = Ret (tt, w, o) ->
  no_add script -> holders w !! i = Some l ->
  exists w' o', update script (S (length l)) i d w = Ret (tt, w', o').
Proof.
  intros Hrun Hna Hl. pose proof (ops_ok script ops init init_ok) as H. rewrite Hrun in H.
  destruct (update_loop_total script (S (length l)) w i l 0 d H Hna Hl ltac:(lia)) as (w' & o' & Hu & _).
  by exists w', o'.
Qed.

Definition ring_script (c : Z) : list action := [ActRemove 7 1; ActDestroy 7].

Definition ring_ops : list client_op :=
  [NewObject 7 (-1); Act (ActAdd 7 (Some 5) 1 100 0 0); Act (ActAdd 7 (Some 6) 2 30 1 0)].

Definition ring_world : world :=
  match mfor ring_ops (run_op ring_script) init with Ret (_, w, _) => w | UB _ => init end.

Lemma ring_run : mfor ring_ops (run_op ring_script) init = Ret (tt, ring_world, []).
Proof. vm_compute. reflexivity. Qed.

Lemma ring_holder : holders ring_world !! WORLD_INSTANCE = Some [0; 1].
Proof. vm_compute. reflexivity. Qed.

Lemma ring_no_add : no_add ring_script.
Proof. intros c a Ha. apply list_elem_of_In in Ha. by destruct Ha as [<-|[<-|[]]]. Qed.

(** A call-back that destroys the object it runs on. *)
Lemma update_terminates_witness :
  exists w' o', update ring_script 3 WORLD_INSTANCE 100 ring_world = Ret (tt, w', o').
Proof.
  exact (update_terminates ring_script ring_ops ring_world [] WORLD_INSTANCE [0; 1] 100
    ring_run ring_no_add ring_holder).
Defined.

(** ** One timer

    The countdown an event is meant to be: [cur] ms to the next shot, period
    [ms], [rep] shots left (0 for no limit); the number of shots over the
    successive tick lengths [ds]. *)
Fixpoint shots (ms cur rep : Z) (ds : list Z) : nat :=
  match ds with
  | [] => 0
  | d :: ds' =>
      if cur <=? d then
        if rep =? 1 then 1
        else S (shots ms ms (if rep =? 0 then 0 else rep - 1) ds')
      else shots ms (cur - d) rep ds'
  end.

(** Event [p] alone in holder [i], alive, with a call-back that only does
    outside work. *)
Record alone (script : Z -> list action) (i p c : Z) (w : world) (e : TimedEvent) : Prop := {
  al_holder : holders w !! i = Some [p];
  al_heap : heap w !! p = Some e;
  al_owner : is_Some (objects w !! obj e);
  al_cb : cb e = Some c;
  al_script : script c = [];
  al_instance : instanceId e = i;
  al_live : deleted e = false;
  al_flags : eventFlag e = 0
}.

Definition with_timers (e : TimedEvent) (w : world) (p cur rep : Z) : world :=
  set_heap w (<[p := with_timer e (msTime e) cur rep]> (heap w)).

Lemma alone_tick script i p c w e d :
  alone script i p c w e -> ok w ->
  exists w',
    update script 2 i d w =
      Ret (tt, w', if currTime e <=? d then [Fired (obj e) c] else []) /\
    (if (currTime e <=? d) && (repeats e =? 1) then holders w' !! i = Some []
     else let e' := with_timer e (msTime e)
                     (if currTime e <=? d then msTime e else currTime e - d)
                     (if currTime e <=? d then (if repeats e =? 0 then 0 else repeats e - 1) else repeats e) in
          alone script i p c w' e' /\ ok w').
Proof.
  intros [Hh He [ob Hob] Hc Hs Hi Hl Hf] Hok.
  assert (Htick : exists b w', tick script i 0 p d w = Ret (b, w', if currTime e <=? d then [Fired (obj e) c] else []) /\
    (if (currTime e <=? d) && (repeats e =? 1) then holders w' !! i = Some []
     else w' = with_timers e w p (if currTime e <=? d then msTime e else currTime e - d)
            (if currTime e <=? d then (if repeats e =? 0 then 0 else repeats e - 1) else repeats e))).
  { unfold tick. rewrite (mbind_run _ _ _ _ _ _ (run_load p w e He)).
    rewrite Hi, Z.eqb_refl, Hl, Hf. rewrite Z.land_0_l. change (0 =? 0) with true.
    cbn [negb orb]. rewrite andb_false_r.
    destruct (currTime e <=? d) eqn:Ht; cbn [andb].
    2: { rewrite (mbind_run (store p _) _ w tt _ []) by reflexivity. by eexists _, _. }
    rewrite Hc. cbv beta iota zeta. assert (Hex : execute script (obj e) c w = Ret (tt, w, [Fired (obj e) c])).
    { unfold execute. by rewrite Hob, Hs. }
    change (negb (Z.land 0 EVENT_FLAG_DELETES_OBJECT =? 0)) with false. cbv iota.
    rewrite (mbind_run _ _ _ _ _ _ Hex), (mbind_run _ _ _ _ _ _ (run_load p w e He)), Hl, orb_false_r.
    set (r := if repeats e =? 0 then 0 else repeats e - 1).
    set (e' := with_timer e _ _ r).
    rewrite (mbind_run (store p e') _ w tt (set_heap w (<[p := e']> (heap w))) []) by reflexivity.
    assert (Hlast : negb (repeats e =? 0) && (r =? 0) = (repeats e =? 1)).
    { unfold r. destruct (Z.eqb_spec (repeats e) 0) as [->|]; [done|]. cbn [negb andb].
      destruct (Z.eqb_spec (repeats e - 1) 0), (Z.eqb_spec (repeats e) 1); lia || done. }
    rewrite Hlast. destruct (repeats e =? 1).
    - assert (Hok' : ok (set_heap w (<[p := e']> (heap w)))) by (by eapply store_ok).
      destruct (drop_runs _ i [p] 0 p Hok' Hh eq_refl) as (w1 & -> & _ & Hw1).
      exists true, w1. split; [done|exact Hw1].
    - rewrite (mbind_run (store p _) _ _ tt _ []) by reflexivity.
      eexists false, _. split; [reflexivity|]. unfold with_timers, set_heap. cbn [heap next objects holders].
      rewrite insert_insert_eq. done. }
  destruct Htick as (b & w' & Htick & Hw'). exists w'. split.
  - unfold update. cbn [update_loop]. rewrite (mbind_run mget _ w w w []) by done.
    rewrite Hh. cbn [default from_option id list_lookup lookup length Nat.leb].
    rewrite (mbind_run _ _ _ _ _ _ Htick). cbn. by rewrite app_nil_r.
  - destruct (andb _ _); [exact Hw'|]. subst w'. cbv zeta. split.
    + constructor; try done. apply lookup_insert_eq.
    + by eapply store_ok.
Qed.


Definition timer_event : TimedEvent := mk_event 7 (Some 5) 1 0 100 100 2 false (-1) 2.

Definition timer_world : world :=
  match mfor [NewObject 7 (-1); Act (ActAdd 7 (Some 5) 1 100 2 0)] (run_op (fun _ => [])) init with
  | Ret (_, w, _) => w
  | UB _ => init
  end.

Lemma timer_world_ok : ok timer_world.
Proof.
  unfold timer_world.
  pose proof (ops_ok (fun _ => []) [NewObject 7 (-1); Act (ActAdd 7 (Some 5) 1 100 2 0)] init init_ok) as Hok.
  destruct (mfor _ _ init) as [[[u w] o]|]; [exact Hok|exact init_ok].
Qed.

Lemma timer_alone : alone (fun _ => []) (-1) 0 5 timer_world timer_event.
Proof. constructor; try (vm_compute; reflexivity). vm_compute. by eexists. Qed.


(** [eventRelocate] moves no event: the new holder takes a reference and
    rewrites [instanceId], the old holder's next [update] sees the foreign
    [instanceId] and calls [decRef], which marks the event deleted, and the new
    holder then drops it.  After both updates the timer never fires. *)
Lemma relocate_kills_events :
  let w := mk_world {[ 0 := mk_event 7 (Some 5) 1 0 100 100 0 false (-1) 2 ]} 1
             {[ 7 := mk_object 3 (-1) [(1, 0)] (Some (-1)) ]} {[ -1 := [0]; 3 := [] ]} in
  exists w',
    (eventRelocate 7;;; update (fun _ => []) 9 (-1) 50;;; update (fun _ => []) 9 3 500) w = Ret (tt, w', []) /\
    holders w' !! 3 = Some [].
Proof. eexists. split; vm_compute; reflexivity. Qed.

(** A one-shot event that fired stays in its object's multimap, marked
    deleted: it is freed only when the object is. *)
Lemma finished_event_stays :
  exists w,
    mfor [NewObject 7 (-1); Act (ActAdd 7 (Some 5) 1 100 1 0); Update 9 (-1) 100] (run_op (fun _ => [])) init
    = Ret (tt, w, [Fired 7 5]) /\
    holders w !! (-1) = Some [] /\ size (heap w) = 1%nat /\
    eventHasEvent 7 1 w = Ret (false, w, []).
Proof. eexists. split; [vm_compute; reflexivity|]. split_and!; vm_compute; reflexivity. Qed.
