(* ===== verification/EventHolders.v ===== *)
(** The table of event holders: [EventMgr::addEventHolder], [removeEventHolder] and
    [getEventHolder] ([common/event_manager.h]) with the constructor and destructor of
    [EventableObjectHolder] ([common/event_table_object.cpp]).

    [EventManager] models the holders of a process that lives on; here they come and
    go, named by their addresses. *)

From S2P Require Import Prelude.
From stdpp Require Import prelude gmap strings list.
#[local] Open Scope Z_scope.

Module EventHolders.

(** [mInstanceId] and [m_events], the events by address. *)
Record EventableObjectHolder : Type := mk_holder { mInstanceId : Z; m_events : list Z }.

(** [mHolders] of the [EventMgr], and the holders that exist. *)
Record world : Type := mk_world { mHolders : gmap Z Z; live : gmap Z EventableObjectHolder }.

Inductive effect : Type := DecRef (event : Z).

Abbreviation H := (M world effect).

Definition start : world := mk_world ∅ ∅.

Definition getEventHolder (w : world) (InstanceId : Z) : option Z := mHolders w !! InstanceId.

(** [std::map::insert] leaves an entry that is there. *)
Definition addEventHolder (holder InstanceId : Z) : H unit :=
  mmodify (fun w => match mHolders w !! InstanceId with
                    | Some _ => w
                    | None => mk_world (<[InstanceId := holder]> (mHolders w)) (live w)
                    end).

Definition removeEventHolder_instance (InstanceId : Z) : H unit :=
  mmodify (fun w => mk_world (delete InstanceId (mHolders w)) (live w)).

(** The loop over [mHolders], in the order of its keys. *)
Fixpoint find_holder (l : list (Z * Z)) (holder : Z) : option Z :=
  match l with
  | [] => None
  | (k, h) :: l' => if h =? holder then Some k else find_holder l' holder
  end.

Definition removeEventHolder (holder : Z) : H unit :=
  w <- mget ;;
  match find_holder (map_walk (mHolders w)) holder with
  | Some k => mput (mk_world (delete k (mHolders w)) (live w))
  | None => mret' tt
  end.

(** [EventableObjectHolder::EventableObjectHolder] at a fresh address. *)
Definition construct (holder instance_id : Z) : H unit :=
  mmodify (fun w => mk_world (mHolders w) (<[holder := mk_holder instance_id []]> (live w))) ;;;
  addEventHolder holder instance_id.

(** [EventableObjectHolder::addEvent]; the reference is [EventManager]'s. *)
Definition addEvent (holder ev : Z) : H unit :=
  w <- mget ;;
  match live w !! holder with
  | None => mub "holder"
  | Some x => mput (mk_world (mHolders w) (<[holder := mk_holder (mInstanceId x) (m_events x ++ [ev])]> (live w)))
  end.

(** [~EventableObjectHolder]. *)
Definition destroy (holder : Z) : H unit :=
  removeEventHolder holder ;;;
  w <- mget ;;
  match live w !! holder with
  | None => mub "holder"
  | Some x =>
      mfor (m_events x) (fun ev => memit (DecRef ev)) ;;;
      mmodify (fun w => mk_world (mHolders w) (delete holder (live w)))
  end.

Inductive op : Type :=
| Construct (holder instance_id : Z)
| AddEvent (holder ev : Z)
| Destroy (holder : Z).

Definition handle (o : op) : H unit :=
  match o with
  | Construct h i => construct h i
  | AddEvent h ev => addEvent h ev
  | Destroy h => destroy h
  end.

(** A fresh address is no living holder's; only living holders are used. *)
Definition sensible (o : op) (w : world) : bool :=
  match o with
  | Construct h _ => match live w !! h with None => true | Some _ => false end
  | AddEvent h _ | Destroy h => match live w !! h with None => false | Some _ => true end
  end.

Definition run (l : list op) : H unit :=
  mfor l (fun o => w <- mget ;; if sensible o w then handle o else mret' tt).

End EventHolders.
Import EventHolders.

(** ** Lemmas *)

(** Every entry is a living holder of that instance. *)
Definition table_sound (w : world) : Prop :=
  forall i h, mHolders w !! i = Some h -> exists x, live w !! h = Some x /\ mInstanceId x = i.

Lemma find_holder_Some l holder k : find_holder l holder = Some k -> (k, holder) ∈ l.
Proof.
  induction l as [|[k' h] l IH]; cbn; [done|]. destruct (Z.eqb_spec h holder) as [->|].
  - intros [= ->]. by left.
  - intros Hk. right. by apply IH.
Qed.

Lemma find_holder_None l holder : find_holder l holder = None -> forall k, (k, holder) ∉ l.
Proof.
  induction l as [|[k' h] l IH]; cbn; intros Hn k Hk; [by apply elem_of_nil in Hk|].
  destruct (Z.eqb_spec h holder) as [->|Hne]; [done|].
  apply elem_of_cons in Hk as [[= -> ->]|Hk]; [done|]. by apply (IH Hn k).
Qed.

(** The entries of a living holder are its instance's only. *)
Lemma entry_instance w i h x : table_sound w -> mHolders w !! i = Some h -> live w !! h = Some x -> mInstanceId x = i.
Proof. intros Hw Hi Hx. destruct (Hw i h Hi) as (y & Hy & Hyi). congruence. Qed.

Lemma removeEventHolder_wp h w x :
  table_sound w -> live w !! h = Some x ->
  wp (removeEventHolder h) (fun _ w' o => live w' = live w /\ o = [] /\
    (forall i, mHolders w' !! i = if decide (mHolders w !! i = Some h) then None else mHolders w !! i)) w.
Proof.
  intros Hw Hx. unfold removeEventHolder. wp_steps. destruct (find_holder (map_walk (mHolders w)) h) as [k|] eqn:Hf.
  - apply find_holder_Some, elem_of_map_walk in Hf. wp_steps. split_and!; [done|done|]. intros i. cbn.
    destruct (decide (i = k)) as [->|Hne].
    + by rewrite lookup_delete_eq, decide_True.
    + rewrite lookup_delete_ne by done. rewrite decide_False; [done|]. intros Hi. apply Hne.
      rewrite <- (entry_instance w i h x Hw Hi Hx). apply (entry_instance w k h x Hw Hf Hx).
  - wp_steps. split_and!; [done|done|]. intros i. rewrite decide_False; [done|]. intros Hi.
    apply (find_holder_None _ _ Hf i). by apply elem_of_map_walk.
Qed.

Lemma mfor_decref l (w : world) : mfor l (fun ev => memit (DecRef ev)) w = Ret (tt, w, DecRef <$> l).
Proof. induction l as [|e l IH]; [done|]. cbn [mfor fmap list_fmap]. unfold mbind'. cbn. by rewrite IH. Qed.

(** A holder destroyed: nobody finds it, and each of its events is released once. *)
Lemma destroy_wp h w x :
  table_sound w -> live w !! h = Some x ->
  wp (destroy h) (fun _ w' o => table_sound w' /\ live w' = delete h (live w) /\ o = DecRef <$> m_events x /\
    forall i, getEventHolder w' i = if decide (getEventHolder w i = Some h) then None else getEventHolder w i) w.
Proof.
  intros Hw Hx. unfold destroy. wp_steps. eapply wp_mono; [by eapply removeEventHolder_wp|].
  intros [] w1 o1 (Hl & -> & Hm). wp_steps. rewrite Hl, Hx. wp_steps. unfold run_post at 1. rewrite mfor_decref. wp_steps.
  cbn [app mHolders live]. rewrite app_nil_r. split_and!; [|by rewrite Hl|done|exact Hm].
  intros i g Hi. cbn in *. rewrite Hm in Hi. destruct (decide _) as [|Hne]; [done|].
  destruct (Hw i g Hi) as (y & Hy & Hyi). exists y. split; [|done]. rewrite Hl, lookup_delete_ne; congruence.
Qed.

Lemma construct_wp h i w :
  table_sound w -> live w !! h = None ->
  wp (construct h i) (fun _ w' o => table_sound w' /\ o = [] /\
    getEventHolder w' i = Some (default h (getEventHolder w i))) w.
Proof.
  intros Hw Hh. unfold construct, addEventHolder, getEventHolder. wp_steps. cbn [mHolders live].
  assert (Hne : forall j g, mHolders w !! j = Some g -> g <> h).
  { intros j g Hj ->. destruct (Hw j h Hj) as (y & Hy & _). congruence. }
  destruct (mHolders w !! i) as [g|] eqn:Hi; cbn; (split_and!; [|done|]).
  - intros j k Hj. cbn in *. destruct (Hw j k Hj) as (y & Hy & Hyj). exists y. split; [|done].
    rewrite lookup_insert_ne; [done|]. by apply not_eq_sym, (Hne j).
  - done.
  - intros j k Hj. cbn in *. destruct (decide (j = i)) as [->|Hji].
    + rewrite lookup_insert_eq in Hj. injection Hj as <-. exists (mk_holder i []). by rewrite lookup_insert_eq.
    + rewrite lookup_insert_ne in Hj by done. destruct (Hw j k Hj) as (y & Hy & Hyj). exists y. split; [|done].
      rewrite lookup_insert_ne; [done|]. by apply not_eq_sym, (Hne j).
  - apply lookup_insert_eq.
Qed.

Lemma addEvent_wp h ev w x :
  table_sound w -> live w !! h = Some x -> wp (addEvent h ev) (fun _ w' o => table_sound w' /\ o = []) w.
Proof.
  intros Hw Hx. unfold addEvent. wp_steps. rewrite Hx. wp_steps. split; [|done]. intros i g Hi. cbn in *.
  destruct (Hw i g Hi) as (y & Hy & Hyi). destruct (decide (g = h)) as [->|Hne].
  - rewrite Hx in Hy. injection Hy as ->. eexists. rewrite lookup_insert_eq. by split.
  - exists y. by rewrite lookup_insert_ne.
Qed.

(** ** Properties *)

(** The table never gives a holder that is gone: over any history of holders made, used
    and destroyed, what [getEventHolder] finds is a living holder of that instance, and
    nothing is undefined. *)
Theorem holders_never_dangle l :
  exists w o, EventHolders.run l start = Ret (tt, w, o) /\
    forall i h, getEventHolder w i = Some h -> exists x, live w !! h = Some x /\ mInstanceId x = i.
Proof.
  assert (H0 : table_sound start) by (intros i h Hi; cbn in Hi; by rewrite lookup_empty in Hi).
  pose proof (wp_for False (fun w _ => table_sound w) l
    (fun o => w <- mget ;; if sensible o w then EventHolders.handle o else mret' tt) start [] H0) as Hw.
  destruct (wp_run (EventHolders.run l) (fun _ w _ => table_sound w) start) as ([] & w & o & Hr & Ho).
  - apply Hw. intros o w tr _ Hs. wp_steps. destruct (sensible o w) eqn:Hok; [|by wp_steps].
    destruct o as [h i|h ev|h]; cbn [sensible EventHolders.handle] in *; destruct (live w !! h) as [x|] eqn:Hx; try done.
    + eapply wp_mono; [by apply construct_wp|]. by intros ? ? ? [? _].
    + eapply wp_mono; [by eapply addEvent_wp|]. by intros ? ? ? [? _].
    + eapply wp_mono; [by eapply destroy_wp|]. by intros ? ? ? [? _].
  - exists w, o. split; [done|]. exact Ho.
Qed.

(** A second holder of an instance is never found, not even when it is the only one
    left: the objects of the instance have no holder. *)
Lemma second_holder_unknown :
  match EventHolders.run [Construct 10 1; Construct 20 1; Destroy 10] start with
  | Ret (_, w, _) => getEventHolder w 1 = None /\ live w !! 20 = Some (mk_holder 1 [])
  | UB _ => False
  end.
Proof. vm_compute. by split. Qed.
