(* ===== verification/Database.v ===== *)
(** [common/database.h/.cpp], [common/run_object.h]: the asynchronous SQL layer.
    Tasks are queued per thread type, worker threads ([db_thread]) take them one
    at a time, run them against MySQL and queue the finished task; the main
    thread's [run] executes the call-backs.

    MySQL++ is not modelled: what running a task's query did is an argument,
    [query_outcome], one constructor per way [work]'s [try] block can end.  The
    threads interleave in any order ([step]). *)

From S2P Require Import Prelude.
From stdpp Require Import prelude gmap list strings relations.
#[local] Open Scope Z_scope.

Module Database.

Inductive store_type : Set := _STORE_QUERY_ | _USE_QUERY_ | _TRANCE_QUERY | _BATCH_QUERY_.
Inductive task_state : Set := _doing_ | _done_ | _error_.
Inductive obj_state : Set := _init_obj_ | _run_obj_ | _wait_stop_ | _stop_obj_.

#[global] Instance obj_state_eq_dec : EqDecision obj_state.
Proof. solve_decision. Defined.

Definition _NORMAL_THREAD : Z := 0.

(** [DBTask]: [id] stands for the object's identity (its call-back, query and
    parameters). *)
Record DBTask : Type := mk_task { id : Z; store : store_type; state : task_state }.

Definition with_state (t : DBTask) (s : task_state) : DBTask := mk_task (id t) (store t) s.

(** [db_thread]: [ntype] names its [db_thread_task_manager]. *)
Record db_thread : Type := mk_thread {
  ntype : Z;
  _task : option DBTask;
  _connect : bool;
  _stop : bool
}.

Record database : Type := mk_db {
  _obj_state : obj_state;
  _tasks : gmap Z (list DBTask);        (* the _works of each task manager *)
  _dbthread_list : list db_thread;
  _results : list DBTask
}.

(** [db_thread_task_manager]. *)
Definition getTask (works : list DBTask) : option DBTask * list DBTask :=
  match works with [] => (None, []) | t :: rest => (Some t, rest) end.

Definition addTask (works : list DBTask) (t : DBTask) : list DBTask := works ++ [t].

Definition getTaskCount (works : list DBTask) : nat := length works.

(** [addThread ntype count]. *)
Definition addThread (db : database) (ty : Z) (count : nat) : database :=
  let n := if ty =? _NORMAL_THREAD then count else 1%nat in
  mk_db (_obj_state db) (<[ty := []]> (_tasks db))
    (_dbthread_list db ++ replicate n (mk_thread ty None false false)) (_results db).

Definition set_works (db : database) (ty : Z) (works : list DBTask) : database :=
  mk_db (_obj_state db) (<[ty := works]> (_tasks db)) (_dbthread_list db) (_results db).

(** [addRealTask]; the recursion ends because [addThread] makes the manager. *)
Definition addRealTask (db : database) (ty : Z) (t : DBTask) : database :=
  match _tasks db !! ty with
  | Some works => set_works db ty (addTask works t)
  | None => set_works (addThread db ty 1) ty (addTask [] t)
  end.

Definition initDatabase (db : database) (thread_count : nat) : database :=
  let db := addThread db _NORMAL_THREAD thread_count in
  mk_db _run_obj_ (_tasks db) (_dbthread_list db) (_results db).

(** [addSQueryTask], [addUQueryTask] and [addBatchTask]: refused unless the
    database runs. *)
Definition add_task (db : database) (ty : Z) (t : DBTask) : database :=
  if decide (_obj_state db = _run_obj_) then addRealTask db ty t else db.

Definition addDone (db : database) (t : DBTask) : database :=
  mk_db (_obj_state db) (_tasks db) (_dbthread_list db) (_results db ++ [t]).

(** How the [try] block of [work] ends for the current task. *)
Inductive query_outcome : Type :=
| Completed
| BadQuery (errnum : Z)
| BadConversion
| MysqlException
| StdException
| UnknownException.

(** One iteration of the loop of [work] on a connected thread holding [t]: the
    thread afterwards ([next] is what [getTask] would return) and the task handed
    to [addDone], if any. *)
Definition work_iteration (th : db_thread) (t : DBTask) (r : query_outcome) (next : option DBTask)
  : db_thread * option DBTask :=
  match r with
  | Completed => (mk_thread (ntype th) next (_connect th) (_stop th), Some (with_state t _done_))
  | BadQuery errnum =>
      if negb (errnum =? 2013) && negb (errnum =? 2006)
      then (mk_thread (ntype th) None false (_stop th), Some (with_state t _error_))
      else (mk_thread (ntype th) (Some t) false (_stop th), None)
  | BadConversion | MysqlException =>
      (mk_thread (ntype th) None (_connect th) (_stop th), Some (with_state t _error_))
  | StdException | UnknownException => (th, None)
  end.

Definition isDone (th : db_thread) : bool := match _task th with None => true | Some _ => false end.

(** [realConnect] with the result [ok] of [connect] (false on an exception). *)
Definition realConnect (th : db_thread) (ok : bool) : db_thread :=
  if _connect th then th else mk_thread (ntype th) (_task th) ok (_stop th).

(** [checkStop]: the threads are idle and told to stop one after the other, up
    to the first busy one; [join] then returns, the thread having nothing to
    do. *)
Fixpoint stop_threads (l : list db_thread) : list db_thread * bool :=
  match l with
  | [] => ([], true)
  | th :: l' =>
      if isDone th then
        let '(l'', b) := stop_threads l' in
        (mk_thread (ntype th) (_task th) (_connect th) true :: l'', b)
      else (th :: l', false)
  end.

Definition checkStop (db : database) : database :=
  if decide (_obj_state db = _wait_stop_) then
    if forallb (fun x => (getTaskCount x.2 =? 0)%nat) (map_to_list (_tasks db)) then
      let '(l, all) := stop_threads (_dbthread_list db) in
      mk_db (if all then _stop_obj_ else _wait_stop_) (_tasks db) l (_results db)
    else db
  else db.

(** The call-back of a task: its success argument. *)
Inductive effect : Type := Callback (id : Z) (success : bool).

Definition deliver (t : DBTask) : effect :=
  Callback (id t) (match state t with _done_ => true | _ => false end).

Definition run (db : database) : database * list effect :=
  let db := checkStop db in
  if (bool_decide (_obj_state db = _wait_stop_) || bool_decide (_obj_state db = _run_obj_))
     && negb (length (_results db) =? 0)%nat
  then (mk_db (_obj_state db) (_tasks db) (_dbthread_list db) [], map deliver (_results db))
  else (db, []).

(** ** The threads together

    [log] is the call-backs executed so far and [added] the tasks accepted. *)
Record sys : Type := mk_sys { db : database; log : list effect; added : list Z }.

Definition set_thread (d : database) (n : nat) (th : db_thread) : database :=
  mk_db (_obj_state d) (_tasks d) (<[n := th]> (_dbthread_list d)) (_results d).

Inductive step : sys -> sys -> Prop :=
| step_add s ty i st :
    _obj_state (db s) = _run_obj_ ->
    step s (mk_sys (add_task (db s) ty (mk_task i st _doing_)) (log s) (added s ++ [i]))
| step_wait_stop s :
    step s (mk_sys (mk_db _wait_stop_ (_tasks (db s)) (_dbthread_list (db s)) (_results (db s)))
              (log s) (added s))
| step_get s n th works t rest :
    (* work: _task = _data->getTask() *)
    _dbthread_list (db s) !! n = Some th -> _task th = None -> _stop th = false ->
    _tasks (db s) !! ntype th = Some works -> getTask works = (Some t, rest) ->
    step s (mk_sys (set_thread (set_works (db s) (ntype th) rest) n
                      (mk_thread (ntype th) (Some t) (_connect th) (_stop th)))
              (log s) (added s))
| step_connect s n th ok :
    _dbthread_list (db s) !! n = Some th -> _stop th = false ->
    step s (mk_sys (set_thread (db s) n (realConnect th ok)) (log s) (added s))
| step_finish s n th t th' d :
    (* the iteration hands the task over; getTask is step_get *)
    _dbthread_list (db s) !! n = Some th -> _task th = Some t ->
    (exists r, work_iteration th t r None = (th', Some d)) ->
    step s (mk_sys (addDone (set_thread (db s) n th') d) (log s) (added s))
| step_retry s n th t th' r :
    _dbthread_list (db s) !! n = Some th -> _task th = Some t ->
    work_iteration th t r None = (th', None) ->
    step s (mk_sys (set_thread (db s) n th') (log s) (added s))
| step_run s :
    step s (mk_sys (fst (run (db s))) (log s ++ snd (run (db s))) (added s)).

Definition start (thread_count : nat) : sys :=
  mk_sys (initDatabase (mk_db _init_obj_ ∅ [] []) thread_count) [] [].

Definition reachable (n : nat) (s : sys) : Prop := rtc step (start n) s.

End Database.

Import Database.

(** ** Every task is somewhere, once *)

Definition queued (d : database) : list Z := concat (map (fun x => map id x.2) (map_to_list (_tasks d))).

Definition held (d : database) : list Z := omap (fun th => id <$> _task th) (_dbthread_list d).

Definition finished (d : database) : list Z := map id (_results d).

Definition called (l : list effect) : list Z := map (fun e => match e with Callback i _ => i end) l.

(** The tasks accepted are those queued, those a thread holds, those finished and
    those whose call-back ran. *)
Definition conserved (s : sys) : Prop :=
  added s ≡ₚ queued (db s) ++ held (db s) ++ finished (db s) ++ called (log s).

Lemma queued_insert d ty works :
  queued (set_works d ty works) ≡ₚ map id works ++
    concat (map (fun x => map id x.2) (map_to_list (delete ty (_tasks d)))).
Proof.
  unfold queued. cbn [_tasks set_works].
  rewrite <- insert_delete_eq.
  pose proof (map_to_list_insert (delete ty (_tasks d)) ty works (lookup_delete_eq _ _)) as Hp.
  apply (Permutation_map (fun x => map id x.2)) in Hp. by rewrite Hp.
Qed.

Lemma queued_lookup d ty works :
  _tasks d !! ty = Some works ->
  queued d ≡ₚ map id works ++ concat (map (fun x => map id x.2) (map_to_list (delete ty (_tasks d)))).
Proof.
  intros Hty. rewrite <- queued_insert. unfold queued. cbn [_tasks set_works].
  by rewrite insert_id.
Qed.

Lemma queued_fresh d ty works :
  _tasks d !! ty = None -> queued (set_works d ty works) ≡ₚ map id works ++ queued d.
Proof. intros Hty. rewrite queued_insert. unfold queued. by rewrite delete_id. Qed.

Lemma omap_insert {A B} (f : A -> option B) l n x y :
  l !! n = Some x ->
  exists l1 l2, omap f l = l1 ++ from_option (fun b => [b]) [] (f x) ++ l2 /\
    omap f (<[n := y]> l) = l1 ++ from_option (fun b => [b]) [] (f y) ++ l2.
Proof.
  intros Hn. exists (omap f (take n l)), (omap f (drop (S n) l)). split.
  - rewrite <- (take_drop_middle l n x Hn) at 1. rewrite omap_app. f_equal. cbn.
    by destruct (f x).
  - rewrite insert_take_drop by (by eapply lookup_lt_Some). rewrite omap_app. f_equal. cbn.
    by destruct (f y).
Qed.

Lemma held_set d n th th' :
  _dbthread_list d !! n = Some th ->
  exists l1 l2, held d = l1 ++ from_option (fun b => [b]) [] (id <$> _task th) ++ l2 /\
    held (set_thread d n th') = l1 ++ from_option (fun b => [b]) [] (id <$> _task th') ++ l2.
Proof. intros Hn. exact (omap_insert (fun th => id <$> _task th) _ n th th' Hn). Qed.

Lemma omap_replicate_none {A B} (f : A -> option B) n x : f x = None -> omap f (replicate n x) = [].
Proof. intros Hf. induction n as [|n IH]; [done|]. cbn. by rewrite Hf. Qed.

Lemma held_stop l : omap (fun th => id <$> _task th) (stop_threads l).1 = omap (fun th => id <$> _task th) l.
Proof.
  induction l as [|th l IH]; [done|]. cbn [stop_threads]. destruct (isDone th) eqn:Hd; [|done].
  destruct (stop_threads l) as [l' b]. cbn [fst] in *. cbn. rewrite IH. by destruct (_task th).
Qed.

Lemma checkStop_same d :
  _tasks (checkStop d) = _tasks d /\ _results (checkStop d) = _results d /\ held (checkStop d) = held d.
Proof.
  unfold checkStop. case_decide; [|done]. destruct (forallb _ _); [|done].
  pose proof (held_stop (_dbthread_list d)) as Hh.
  destruct (stop_threads (_dbthread_list d)) as [l b]. by split_and!.
Qed.

Lemma called_deliver l : called (map deliver l) = map id l.
Proof. unfold called. rewrite map_map. done. Qed.

Lemma step_conserved s s' : conserved s -> step s s' -> conserved s'.
Proof.
  unfold conserved. intros Hc Hstep.
  destruct Hstep as [s ty i st Hrun|s|s n th works t rest Hn Ht Hs Hw Hg|s n th ok Hn Hs|
    s n th t th' d Hn Ht [r Hr]|s n th t th' r Hn Ht Hr|s]; cbn [db log added].
  - rewrite Hc. unfold add_task. rewrite decide_True by done. unfold addRealTask, addTask.
    destruct (_tasks (db s) !! ty) as [works|] eqn:Hty.
    + rewrite queued_insert, (queued_lookup _ _ _ Hty), map_app. cbn [map id].
      change (held (set_works (db s) ty (works ++ [mk_task i st _doing_]))) with (held (db s)).
      change (finished (set_works (db s) ty (works ++ [mk_task i st _doing_]))) with (finished (db s)).
      solve_Permutation.
    + set (d1 := addThread (db s) ty 1).
      assert (Hq : queued (set_works d1 ty ([] ++ [mk_task i st _doing_])) ≡ₚ i :: queued (db s)).
      { rewrite queued_insert. unfold d1. cbn [_tasks addThread]. rewrite delete_insert_id by done. done. }
      assert (Hh : held d1 = held (db s)).
      { unfold held, d1. cbn [_dbthread_list addThread]. rewrite omap_app, omap_replicate_none by done.
        apply app_nil_r. }
      rewrite Hq. change (held (set_works d1 ty _)) with (held d1). rewrite Hh.
      change (finished (set_works d1 ty _)) with (finished (db s)). solve_Permutation.
  - exact Hc.
  - assert (works = t :: rest) as -> by (destruct works; cbn in Hg; congruence).
    set (d1 := set_works (db s) (ntype th) rest).
    assert (Hn1 : _dbthread_list d1 !! n = Some th) by done.
    destruct (held_set d1 n th (mk_thread (ntype th) (Some t) (_connect th) (_stop th)) Hn1)
      as (l1 & l2 & Hh1 & Hh2).
    rewrite Hh2. change (held d1) with (held (db s)) in Hh1. rewrite Hc, Hh1, Ht.
    change (queued (set_thread d1 n _)) with (queued d1). unfold d1.
    rewrite queued_insert, (queued_lookup _ _ _ Hw). cbn [map fmap option_fmap option_map from_option _task].
    change (finished (set_thread _ _ _)) with (finished (db s)). solve_Permutation.
  - destruct (held_set (db s) n th (realConnect th ok) Hn) as (l1 & l2 & Hh1 & Hh2).
    rewrite Hh2. change (queued (set_thread _ _ _)) with (queued (db s)).
    change (finished (set_thread _ _ _)) with (finished (db s)). rewrite Hc, Hh1.
    assert (_task (realConnect th ok) = _task th) as -> by (unfold realConnect; by destruct (_connect th)).
    done.
  - destruct (held_set (db s) n th th' Hn) as (l1 & l2 & Hh1 & Hh2).
    change (held (addDone (set_thread (db s) n th') d)) with (held (set_thread (db s) n th')).
    rewrite Hh2. change (queued (addDone _ _)) with (queued (db s)).
    assert (Htask : _task th' = None /\ id d = id t).
    { destruct r; cbn in Hr; repeat case_match; try discriminate; injection Hr as <- <-; done. }
    destruct Htask as [-> Hid]. rewrite Hc, Hh1, Ht.
    unfold finished. cbn [_results addDone set_thread]. rewrite map_app. cbn [map fmap option_fmap option_map from_option].
    rewrite Hid. solve_Permutation.
  - destruct (held_set (db s) n th th' Hn) as (l1 & l2 & Hh1 & Hh2). rewrite Hh2.
    change (queued (set_thread _ _ _)) with (queued (db s)).
    change (finished (set_thread _ _ _)) with (finished (db s)). rewrite Hc, Hh1.
    assert (_task th' = Some t) as ->.
    { destruct r; cbn in Hr; repeat case_match; try discriminate; injection Hr as <-; done. }
    by rewrite Ht.
  - destruct (checkStop_same (db s)) as (Hq & Hr & Hh). unfold run.
    assert (Hc' : queued (checkStop (db s)) = queued (db s)) by (unfold queued; by rewrite Hq).
    assert (Hf' : finished (checkStop (db s)) = finished (db s)) by (unfold finished; by rewrite Hr).
    destruct (_ && _); cbn [fst snd].
    + change (queued (mk_db _ _ _ _)) with (queued (checkStop (db s))).
      change (held (mk_db _ _ _ _)) with (held (checkStop (db s))).
      unfold called. rewrite map_app. fold (called (log s)). fold (called (map deliver (_results (checkStop (db s))))).
      rewrite called_deliver, Hc', Hh, Hr, Hc. unfold finished. cbn [_results map]. solve_Permutation.
    + rewrite app_nil_r, Hc', Hf', Hh. exact Hc.
Qed.

Lemma start_conserved n : conserved (start n).
Proof.
  unfold conserved, start, initDatabase, addThread, held, queued, finished. cbn.
  rewrite omap_replicate_none by done.
  rewrite map_to_list_insert, map_to_list_empty by done. done.
Qed.

Lemma reachable_conserved n s : reachable n s -> conserved s.
Proof.
  unfold reachable. generalize (start_conserved n). generalize (start n).
  intros s0 H0 Hr. revert H0. induction Hr; eauto using step_conserved.
Qed.

(** ** Stopping *)

Lemma stop_threads_all l : (stop_threads l).2 = true -> Forall (fun th => _task th = None) l.
Proof.
  induction l as [|th l IH]; [constructor|]. cbn [stop_threads]. unfold isDone.
  destruct (_task th) eqn:Ht; [done|]. destruct (stop_threads l) as [l' b] eqn:Hl. cbn [snd] in *.
  intros ->. constructor; [done|by apply IH].
Qed.

Lemma queued_empty d :
  forallb (fun x => (getTaskCount x.2 =? 0)%nat) (map_to_list (_tasks d)) = true -> queued d = [].
Proof.
  unfold queued. induction (map_to_list (_tasks d)) as [|[ty works] l IH]; [done|]. cbn.
  intros [Hw Hl]%andb_true_iff. rewrite IH by done. by destruct works.
Qed.

Lemma checkStop_stops d :
  _obj_state d <> _stop_obj_ -> _obj_state (checkStop d) = _stop_obj_ -> queued d = [] /\ held d = [].
Proof.
  intros Hne. unfold checkStop. case_decide; [|done].
  destruct (forallb _ _) eqn:Hq; [|done].
  destruct (stop_threads (_dbthread_list d)) as [l b] eqn:Hs. cbn [_obj_state].
  destruct b; [|done]. intros _. split; [by apply queued_empty|].
  pose proof (stop_threads_all (_dbthread_list d)) as Hall. rewrite Hs in Hall. specialize (Hall eq_refl).
  clear Hs. unfold held. induction Hall as [|th l' Ht _ IH]; [done|]. cbn. by rewrite Ht, IH.
Qed.

(** ** Properties *)

(** C8: no task is lost, run twice or invented.  In every interleaving of the
    clients, the worker threads with any outcome of every query, reconnections and
    the main thread, the tasks accepted are, each once, those still queued, held
    by a thread, finished and waiting for the main thread, or called back; so
    when the accepted tasks are distinct no call-back runs twice. *)
Theorem database_tasks_conserved n s :
  reachable n s ->
  added s ≡ₚ queued (db s) ++ held (db s) ++ finished (db s) ++ called (log s) /\
  (NoDup (added s) -> NoDup (called (log s))).
Proof.
  intros Hr. pose proof (reachable_conserved n s Hr) as Hc. unfold conserved in Hc. split; [exact Hc|].
  intros Hnd. rewrite Hc in Hnd. by repeat apply NoDup_app in Hnd as (_ & _ & Hnd).
Qed.

(** One query through one worker. *)
Definition served : sys :=
  mk_sys (mk_db _run_obj_ {[ 0 := [] ]} [mk_thread 0 None true false] []) [Callback 5 true] [5].

Lemma served_reachable : reachable 1 served.
Proof.
  unfold reachable.
  eapply rtc_l; [exact (step_add (start 1) 0 5 _STORE_QUERY_ eq_refl)|].
  eapply rtc_l; [eapply (step_connect _ 0 (mk_thread 0 None false false) true); reflexivity|].
  eapply rtc_l; [eapply (step_get _ 0 (mk_thread 0 None true false) [mk_task 5 _STORE_QUERY_ _doing_]
    (mk_task 5 _STORE_QUERY_ _doing_) []); reflexivity|].
  eapply rtc_l; [eapply (step_finish _ 0 (mk_thread 0 (Some (mk_task 5 _STORE_QUERY_ _doing_)) true false)
    (mk_task 5 _STORE_QUERY_ _doing_)); [reflexivity|reflexivity|exists Completed; reflexivity]|].
  eapply rtc_l; [apply step_run|]. exact (rtc_refl _ served).
Qed.

Lemma database_tasks_conserved_witness :
  added served ≡ₚ [] ++ [] ++ [] ++ [5] /\ (NoDup [5] -> NoDup [5]).
Proof. exact (database_tasks_conserved 1 served served_reachable). Defined.


Definition stopping : sys :=
  mk_sys (mk_db _wait_stop_ {[ 0 := [] ]} [mk_thread 0 None true false] []) [Callback 5 true] [5].

Lemma stopping_reachable : reachable 1 stopping.
Proof. eapply rtc_r; [exact served_reachable|]. exact (step_wait_stop served). Qed.


(** The same [run] that stops the database skips the finished tasks: their
    call-backs never run, in any later [run]. *)
Lemma stop_drops_results d :
  _obj_state d = _stop_obj_ -> run d = (d, []).
Proof.
  intros Hs. unfold run, checkStop. rewrite decide_False by (by rewrite Hs).
  rewrite !bool_decide_eq_false_2 by (by rewrite Hs). done.
Qed.

Lemma stop_drops_results_example :
  run (mk_db _wait_stop_ ∅ [mk_thread 0 None true false] [mk_task 5 _STORE_QUERY_ _done_])
  = (mk_db _stop_obj_ ∅ [mk_thread 0 None true true] [mk_task 5 _STORE_QUERY_ _done_], []).
Proof. vm_compute. reflexivity. Qed.

(** A query that throws a plain [std::exception] is retried for ever: the
    thread keeps the task and the connection, and [addDone] is not called. *)
Lemma std_exception_keeps_task th t : work_iteration th t StdException None = (th, None).
Proof. reflexivity. Qed.
