(* ===== verification/DbTask.v ===== *)
(** The life of a database task: [common/database.h] ([DBTask], [DBCallback] and its
    four classes, [Database::addSQueryTask], [addUQueryTask], [addBatchTask],
    [getString]) and what [db_thread::work] and [Database::run]
    ([common/database.cpp]) do with one.

    [Database] models the queues and threads with a task as a number; here is what is
    behind the number: the call-back object and its class, the result set the task
    owns, and the order in which they are made, used and deleted.  MySQL++ is an
    argument: how an attempt to run the task ends, and whether it had stored the
    result by then. *)

From S2P Require Import Prelude Database.
From stdpp Require Import prelude gmap strings list.
#[local] Open Scope Z_scope.

Module DbTask.

Abbreviation task_state := Database.task_state.

(** *** Call-backs *)

(** The classes derived from [DBCallback]. *)
Inductive callback_class : Set := DBCallbackS | DBCallbackU | DBTransCall | DBBatchCall.

(** [self], [fun] and [tfun]: whether they are not null. *)
Record DBCallback : Type := mk_cb { class : callback_class; self : bool; fun_ : bool; tfun : bool }.

(** [union DBResult] by the member that is read. *)
Inductive result_arg : Type :=
| Stored (r : option Z)
| Used (r : option Z)
| NoResult.

(** A method of the owner is called with a result, the parameters and the success;
    a batch or a transaction is carried out. *)
Inductive effect : Type :=
| Method (c : Z) (r : result_arg) (parms : Z) (sucess : bool)
| Translate (c : Z) (parms : Z).

(** What is allocated: the call-back objects and the result sets. *)
Record heap : Type := mk_heap { callbacks : gmap Z DBCallback; results : gset Z; fresh : Z }.

Abbreviation Db := (M heap effect).

Definition new_callback (x : DBCallback) : Db Z :=
  h <- mget ;; mput (mk_heap (<[fresh h := x]> (callbacks h)) (results h) (fresh h + 1)) ;;; mret' (fresh h).

Definition new_result : Db Z :=
  h <- mget ;; mput (mk_heap (callbacks h) ({[fresh h]} ∪ results h) (fresh h + 1)) ;;; mret' (fresh h).

Definition delete_callback (c : Z) : Db unit :=
  h <- mget ;;
  match callbacks h !! c with
  | Some _ => mput (mk_heap (delete c (callbacks h)) (results h) (fresh h))
  | None => mub "delete cb: twice"
  end.

Definition delete_result (r : Z) : Db unit :=
  h <- mget ;;
  if decide (r ∈ results h) then mput (mk_heap (callbacks h) (results h ∖ {[r]}) (fresh h))
  else mub "delete result: twice".

Definition get_callback (c : option Z) : Db (Z * DBCallback) :=
  h <- mget ;;
  match c with
  | None => mub "null call-back"
  | Some p => match callbacks h !! p with Some x => mret' (p, x) | None => mub "deleted call-back" end
  end.

(** The three overloads of [execute]: the one its class overrides calls the method,
    the others are the base class's and do nothing. *)
Definition execute (c : option Z) (r : result_arg) (parms : Z) (sucess : bool) : Db unit :=
  px <- get_callback c ;;
  let '(p, x) := px in
  let overridden :=
    match class x, r with
    | DBCallbackS, Stored _ | DBCallbackU, Used _ | DBTransCall, NoResult | DBBatchCall, NoResult => true
    | _, _ => false
    end in
  mwhen (overridden && self x && fun_ x) (memit (Method p r parms sucess)).

Definition doTranslation (c : option Z) (parms : Z) : Db unit :=
  px <- get_callback c ;;
  let '(p, x) := px in
  let overridden := match class x with DBTransCall | DBBatchCall => true | _ => false end in
  mwhen (overridden && self x && tfun x) (memit (Translate p parms)).

(** *** Tasks *)

Definition _STORE_QUERY_ : Z := 0.
Definition _USE_QUERY_ : Z := 1.
Definition _TRANCE_QUERY : Z := 2.
Definition _BATCH_QUERY_ : Z := 3.

(** [result] is the pointer of the union; it is not set for a transaction and by the
    four-argument constructor it is null. *)
Record DBTask : Type := mk_task { cb : option Z; store : Z; result : option Z; parms : Z; state : task_state }.

Definition with_result (t : DBTask) (r : Z) : DBTask := mk_task (cb t) (store t) (Some r) (parms t) (state t).
Definition with_state (t : DBTask) (s : task_state) : DBTask := mk_task (cb t) (store t) (result t) (parms t) s.

(** [addSQueryTask] and [addUQueryTask] up to [addRealTask]: without parameters of
    its own the task copies a local object that is gone. *)
Definition addQueryTask (running : bool) (x : DBCallback) (f : Z) (parms_given : bool) (data : Z) : Db (option DBTask) :=
  if negb running then mret' None
  else
    c <- new_callback x ;;
    if parms_given then mret' (Some (mk_task (Some c) f None data Database._doing_))
    else mub "arg (*q): the local DBQParms is destroyed".

Definition addSQueryTask (running self fun_ parms_given : bool) (data : Z) : Db (option DBTask) :=
  addQueryTask running (mk_cb DBCallbackS self fun_ false) _STORE_QUERY_ parms_given data.

Definition addUQueryTask (running self fun_ parms_given : bool) (data : Z) : Db (option DBTask) :=
  addQueryTask running (mk_cb DBCallbackU self fun_ false) _USE_QUERY_ parms_given data.

Definition addBatchTask (running self fun_ tfun : bool) (data : Z) : Db (option DBTask) :=
  if negb running then mret' None
  else
    c <- new_callback (mk_cb DBBatchCall self fun_ tfun) ;;
    mret' (Some (mk_task (Some c) _BATCH_QUERY_ None data Database._doing_)).

(** *** [db_thread::work] on one task *)

Inductive exception_t : Type :=
| BadQuery (errnum : Z)
| BadConversion
| MysqlException
| StdException
| UnknownException.

(** How the [try] block ends: [Throws true] after the result is stored or the batch
    has begun, [Throws false] before. *)
Inductive attempt : Type :=
| Completes
| Throws (late : bool) (e : exception_t).

(** The switch of [work]. *)
Definition perform (t : DBTask) (a : attempt) : Db (DBTask * option exception_t) :=
  let finish (t : DBTask) :=
    match a with
    | Completes => mret' (with_state t Database._done_, None)
    | Throws _ e => mret' (t, Some e)
    end in
  if (store t =? _STORE_QUERY_) || (store t =? _USE_QUERY_) then
    match a with
    | Throws false e => mret' (t, Some e)
    | _ => r <- new_result ;; finish (with_result t r)
    end
  else if (store t =? _TRANCE_QUERY) || (store t =? _BATCH_QUERY_) then
    match a with
    | Throws false e => mret' (t, Some e)
    | _ => doTranslation (cb t) (parms t) ;;; finish t
    end
  else mret' (with_state t Database._error_, None).

(** The handlers: the task and whether it goes to [addDone]. *)
Definition handle_exception (t : DBTask) (e : exception_t) : DBTask * bool :=
  match e with
  | BadQuery errnum =>
      if negb (errnum =? 2013) && negb (errnum =? 2006) then (with_state t Database._error_, true) else (t, false)
  | BadConversion | MysqlException => (with_state t Database._error_, true)
  | StdException | UnknownException => (t, false)
  end.

Definition work_once (t : DBTask) (a : attempt) : Db (DBTask * bool) :=
  r <- perform t a ;;
  mret' (match r.2 with None => (r.1, true) | Some e => handle_exception r.1 e end).

(** The turns of a worker with the task it holds, up to the one that ends it. *)
Fixpoint work (t : DBTask) (l : list attempt) : Db (DBTask * bool) :=
  match l with
  | [] => mret' (t, false)
  | a :: l' =>
      r <- work_once t a ;;
      if r.2 : bool then mret' r else work r.1 l'
  end.

(** *** [Database::run] on one finished task *)

Definition done (t : DBTask) : bool := match state t with Database._done_ => true | _ => false end.

Definition call_back (t : DBTask) : Db unit :=
  if store t =? _STORE_QUERY_ then execute (cb t) (Stored (result t)) (parms t) (done t)
  else if store t =? _USE_QUERY_ then execute (cb t) (Used (result t)) (parms t) (done t)
  else if (store t =? _TRANCE_QUERY) || (store t =? _BATCH_QUERY_) then execute (cb t) NoResult (parms t) (done t)
  else mret' tt.

(** [releaseTask]: [~DBTask]. *)
Definition releaseTask (t : DBTask) : Db unit :=
  mwhen ((store t =? _STORE_QUERY_) || (store t =? _USE_QUERY_))
    (match result t with Some r => delete_result r | None => mret' tt end) ;;;
  match cb t with Some c => delete_callback c | None => mret' tt end.

(** A task from its creation to its end; [false] if it is never finished. *)
Definition life (add : Db (option DBTask)) (l : list attempt) : Db bool :=
  ot <- add ;;
  match ot with
  | None => mret' false
  | Some t =>
      r <- work t l ;;
      if r.2 : bool then call_back r.1 ;;; releaseTask r.1 ;;; mret' true else mret' false
  end.

(** *** [Database::getString] *)

(** A value copied to a buffer; the terminator goes to the place of the value's
    length. *)
Definition getString (buf str : list Z) (len : Z) : outcome (list Z) :=
  let l := Z.of_nat (length str) in
  let n := if l <? len then l else len in
  let size := Z.of_nat (length buf) in
  if (size <? n) || (size <=? l) then UB "getString: past the buffer"
  else Ret (<[length str := 0]> (blit buf 0 (take (Z.to_nat n) str))).

End DbTask.
Import DbTask.

(** ** Lemmas *)

(** The exceptions that end a task. *)
Definition ends_task (e : exception_t) : bool := (handle_exception (mk_task None 0 None 0 Database._doing_) e).2.

Definition ends (a : attempt) : bool := match a with Completes => true | Throws _ e => ends_task e end.

(** The attempts that store a result or begin the batch. *)
Definition reaches (a : attempt) : bool := match a with Completes => true | Throws late _ => late end.
Definition reached (l : list attempt) : nat := foldr (fun a n => if reaches a then S n else n) O l.

Lemma reached_cons a l : reached (a :: l) = ((if reaches a then 1 else 0) + reached l)%nat.
Proof. unfold reached. cbn. by destruct (reaches a). Qed.

Definition completes (a : attempt) : bool := match a with Completes => true | Throws _ _ => false end.

Definition final_state (a : attempt) : task_state := if completes a then Database._done_ else Database._error_.

Lemma handle_exception_ends t e :
  handle_exception t e = (if ends_task e then with_state t Database._error_ else t, ends_task e).
Proof. destruct e as [n| | | |]; try done. unfold ends_task, handle_exception. by destruct (_ && _). Qed.

Section attempts.
Context (P : nat -> DBTask -> heap -> list effect -> Prop).
Hypothesis P_state : forall n t h tr s, P n t h tr -> P n (with_state t s) h tr.
Hypothesis P_perform : forall n t h tr a, P n t h tr ->
  wp (perform t a) (fun r h' o => P (if reaches a then S n else n) r.1 h' (tr ++ o) /\
    match a with
    | Completes => state r.1 = Database._done_ /\ r.2 = None
    | Throws _ e => r.2 = Some e
    end) h.

Lemma task_work_once_wp n t h tr a :
  P n t h tr ->
  wp (work_once t a) (fun r h' o => P (if reaches a then S n else n) r.1 h' (tr ++ o) /\ r.2 = ends a /\
    (ends a = true -> state r.1 = final_state a)) h.
Proof.
  intros HP. unfold work_once. wp_steps. eapply wp_mono; [by apply P_perform|].
  intros [t' x] h' o [HP' Ha]. cbn in *. wp_steps. rewrite app_nil_r.
  destruct a as [|late e]; [destruct Ha as [Hs ->]; by split_and!|]. subst x. rewrite handle_exception_ends. cbn.
  split_and!; [by destruct (ends_task e); [apply P_state|]|done|]. by intros ->.
Qed.

(** A task is held until the first attempt that ends it. *)
Lemma task_work_wp n t h tr pre a post :
  P n t h tr -> forallb (fun x => negb (ends x)) pre = true -> ends a = true ->
  wp (work t (pre ++ a :: post)) (fun r h' o => P (n + reached (pre ++ [a]))%nat r.1 h' (tr ++ o) /\ r.2 = true /\
    state r.1 = final_state a) h.
Proof.
  revert n t h tr. induction pre as [|x pre IH]; intros n t h tr HP Hpre Ha; cbn [app work]; wp_steps.
  - eapply wp_mono; [by apply task_work_once_wp|]. intros [t' b] h' o (HP' & Hb & Hs). cbn [fst snd] in *. subst b. rewrite Ha.
    wp_steps. rewrite app_nil_r. cbn [fst snd]. split_and!; [|done|by apply Hs].
    replace (n + reached [a])%nat with (if reaches a then S n else n); [done|].
    rewrite reached_cons. cbn. destruct (reaches a); lia.
  - cbn in Hpre. apply andb_true_iff in Hpre as [Hx Hpre]. apply negb_true_iff in Hx.
    eapply wp_mono; [by apply task_work_once_wp|]. intros [t' b] h' o (HP' & Hb & _). cbn [fst snd] in *. subst b. rewrite Hx.
    eapply wp_mono; [by apply (IH _ _ _ _ HP')|]. intros r h2 o2 (HP2 & Hr). rewrite app_assoc. split; [|done].
    replace (n + reached (x :: pre ++ [a]))%nat with ((if reaches x then S n else n) + reached (pre ++ [a]))%nat; [done|].
    rewrite reached_cons. destruct (reaches x); lia.
Qed.

Lemma task_work_unfinished n t h tr l :
  P n t h tr -> forallb (fun x => negb (ends x)) l = true ->
  wp (work t l) (fun r h' o => P (n + reached l)%nat r.1 h' (tr ++ o) /\ r.2 = false) h.
Proof.
  revert n t h tr. induction l as [|x l IH]; intros n t h tr HP Hl; cbn [work]; wp_steps.
  - rewrite app_nil_r. cbn. by rewrite Nat.add_0_r.
  - cbn in Hl. apply andb_true_iff in Hl as [Hx Hl]. apply negb_true_iff in Hx.
    eapply wp_mono; [by apply task_work_once_wp|]. intros [t' b] h' o (HP' & Hb & _). cbn [fst snd] in *. subst b. rewrite Hx.
    eapply wp_mono; [by apply (IH _ _ _ _ HP')|]. intros r h2 o2 (HP2 & Hr). rewrite app_assoc. split; [|done].
    replace (n + reached (x :: l))%nat with ((if reaches x then S n else n) + reached l)%nat; [done|].
    rewrite reached_cons. destruct (reaches x); lia.
Qed.

End attempts.

(** *** What a worker holds *)

Section held.
Context (h0 : heap) (c : Z) (x : DBCallback) (data : Z).

Definition sound (h : heap) : Prop :=
  (forall r, r ∈ results h -> r < fresh h) /\ (forall p y, callbacks h !! p = Some y -> p < fresh h).

(** A query after [n] results have been stored: the last is the task's, the others
    nobody's. *)
Record query_held (f : Z) (n : nat) (t : DBTask) (h : heap) (tr : list effect) : Prop := {
  q_task : cb t = Some c /\ store t = f /\ parms t = data;
  q_trace : tr = [];
  q_callbacks : callbacks h = <[c := x]> (callbacks h0);
  q_base : results h0 ⊆ results h;
  q_fresh : forall r, r ∈ results h -> r < fresh h;
  q_size : (size (results h) = size (results h0) + n)%nat;
  q_result : match result t with Some r => r ∈ results h ∖ results h0 /\ n <> O | None => n = O end
}.

Lemma query_state f n t h tr s : query_held f n t h tr -> query_held f n (with_state t s) h tr.
Proof. intros []. by constructor. Qed.

Lemma query_perform f n t h tr a :
  f = _STORE_QUERY_ \/ f = _USE_QUERY_ -> query_held f n t h tr ->
  wp (perform t a) (fun r h' o => query_held f (if reaches a then S n else n) r.1 h' (tr ++ o) /\
    match a with
    | Completes => state r.1 = Database._done_ /\ r.2 = None
    | Throws _ e => r.2 = Some e
    end) h.
Proof.
  intros Hf Hq. pose proof Hq as [(Hc & Hs & Hd) -> Hcb Hb Hfr Hsz Hr]. unfold perform.
  rewrite Hs. replace ((f =? _STORE_QUERY_) || (f =? _USE_QUERY_)) with true by (by destruct Hf as [-> | ->]).
  assert (Hnew : forall s, query_held f (S n) (with_state (with_result t (fresh h)) s)
                   (mk_heap (callbacks h) ({[fresh h]} ∪ results h) (fresh h + 1)) []).
  { intros s. assert (fresh h ∉ results h) by (intros Hi%Hfr; lia). constructor; cbn; try done; [set_solver| | |].
    - intros r Hi. apply elem_of_union in Hi as [->%elem_of_singleton|Hi%Hfr]; lia.
    - rewrite size_union, size_singleton by set_solver. lia.
    - split; [set_solver|done]. }
  destruct a as [|[|] e]; unfold new_result; wp_steps; cbn; split_and!; try done; try apply Hnew.
Qed.

(** The call-back and the release of a query that has ended. *)
Lemma query_end f n t h tr :
  f = _STORE_QUERY_ /\ class x = DBCallbackS \/ f = _USE_QUERY_ /\ class x = DBCallbackU ->
  self x = true -> fun_ x = true -> callbacks h0 !! c = None -> query_held f n t h tr ->
  wp (call_back t ;;; releaseTask t ;;; mret' true) (fun b h' o => b = true /\ callbacks h' = callbacks h0 /\ results h0 ⊆ results h' /\
    (size (results h') = size (results h0) + pred n)%nat /\ (result t = None <-> n = O) /\
    o = [Method c (if f =? _USE_QUERY_ then Used (result t) else Stored (result t)) data (done t)]) h.
Proof.
  intros Hf Hx Hy Hc0 [(Hc & Hs & Hd) -> Hcb Hb Hfr Hsz Hr].
  unfold call_back, releaseTask, execute, get_callback. rewrite Hs, Hc, Hd.
  assert (Hl : callbacks h !! c = Some x) by (rewrite Hcb; apply lookup_insert_eq).
  destruct Hf as [[-> Hcl]|[-> Hcl]]; cbn; wp_steps; rewrite Hl; wp_steps; rewrite Hcl, Hx, Hy; cbn; wp_steps;
    (destruct (result t) as [r|]; [destruct Hr as [Hr Hn]|]);
    unfold delete_result, delete_callback; wp_steps;
    try (rewrite decide_True by set_solver; wp_steps); cbn; rewrite Hl; wp_steps; cbn;
    rewrite Hcb, delete_insert_id by done; split_and!; try done; try set_solver; try lia.
  all: rewrite size_difference, size_singleton by set_solver; lia.
Qed.

End held.

Definition add_query (use : bool) (data : Z) : Db (option DBTask) :=
  if use then addUQueryTask true true true true data else addSQueryTask true true true true data.

Definition query_class (use : bool) : callback_class := if use then DBCallbackU else DBCallbackS.
Definition query_store (use : bool) : Z := if use then _USE_QUERY_ else _STORE_QUERY_.

(** The task of a query, begun. *)
Lemma add_query_run use data h :
  sound h ->
  exists t h1, add_query use data h = Ret (Some t, h1, []) /\ callbacks h !! fresh h = None /\
    query_held h (fresh h) (mk_cb (query_class use) true true false) data (query_store use) 0 t h1 [].
Proof.
  intros [Hfr Hfc].
  assert (Hc0 : callbacks h !! fresh h = None).
  { destruct (callbacks h !! fresh h) as [y|] eqn:Hy; [|done]. apply Hfc in Hy. lia. }
  exists (mk_task (Some (fresh h)) (query_store use) None data Database._doing_),
    (mk_heap (<[fresh h := mk_cb (query_class use) true true false]> (callbacks h)) (results h) (fresh h + 1)).
  split; [by destruct use|]. split; [done|]. constructor; cbn; try done; intros r Hr%Hfr; lia.
Qed.

Lemma query_life_wp use data h pre a post :
  sound h -> forallb (fun x => negb (ends x)) pre = true -> ends a = true ->
  wp (life (add_query use data) (pre ++ a :: post)) (fun b h' o => b = true /\ exists r,
    o = [Method (fresh h) (if use then Used r else Stored r) data (completes a)] /\ callbacks h' = callbacks h /\
    results h ⊆ results h' /\ (size (results h') = size (results h) + pred (reached (pre ++ [a])))%nat /\
    (r = None <-> reached (pre ++ [a]) = O)) h.
Proof.
  intros Hh Hpre Ha. destruct (add_query_run use data h Hh) as (t & h1 & Hadd & Hc0 & Hq).
  unfold life. wp_steps. unfold run_post at 1. rewrite Hadd. wp_steps.
  pose proof (task_work_wp (query_held h (fresh h) (mk_cb (query_class use) true true false) data (query_store use))
    ltac:(intros; by apply query_state) ltac:(intros; apply query_perform; [destruct use; auto|done])
    0 t h1 [] pre a post Hq Hpre Ha) as Hw.
  eapply wp_mono; [exact Hw|]. intros [t' b] h2 o2 (Hq2 & Hb & Hs). cbn [fst snd] in *. subst b.
  pose proof (q_trace _ _ _ _ _ _ _ _ _ Hq2) as Ho. cbn in Ho. subst o2. 
  eapply wp_mono; [apply (query_end _ _ _ _ _ _ _ _ _) with (2 := eq_refl) (3 := eq_refl) (4 := Hc0) (5 := Hq2)|].
  - destruct use; auto.
  - intros b h3 o3 (-> & Hcb & Hb & Hsz & Hr & ->). split; [done|]. exists (result t'). split_and!; try done.
    unfold done. rewrite Hs. unfold final_state. by destruct use, (completes a).
Qed.

(** ** Properties *)


Definition empty_heap : heap := mk_heap ∅ ∅ 0.


(** *** Batches *)

Section batches.
Context (h0 : heap) (data : Z).

Let c := fresh h0.
Let x := mk_cb DBBatchCall true true true.

Record batch_held (n : nat) (t : DBTask) (h : heap) (tr : list effect) : Prop := {
  b_task : cb t = Some c /\ store t = _BATCH_QUERY_ /\ parms t = data;
  b_trace : tr = replicate n (Translate c data);
  b_heap : h = mk_heap (<[c := x]> (callbacks h0)) (results h0) (c + 1)
}.

Lemma batch_perform n t h tr a :
  batch_held n t h tr ->
  wp (perform t a) (fun r h' o => batch_held (if reaches a then S n else n) r.1 h' (tr ++ o) /\
    match a with
    | Completes => state r.1 = Database._done_ /\ r.2 = None
    | Throws _ e => r.2 = Some e
    end) h.
Proof.
  intros Hb. pose proof Hb as [(Hc & Hs & Hd) -> ->]. unfold perform. rewrite Hs. cbn.
  unfold doTranslation, get_callback. rewrite Hc, Hd.
  destruct a as [|[|] e]; wp_steps; cbn; rewrite ?lookup_insert_eq; wp_steps; cbn; wp_steps; cbn; rewrite ?app_nil_r;
    split_and!; try done; constructor; cbn; try done; by rewrite <- replicate_S_end.
Qed.

(** A batch runs its statements once for every attempt that gets so far, outside any
    transaction, and then tells its owner once. *)
Lemma batch_called_back_once pre a post :
  callbacks h0 !! c = None -> forallb (fun y => negb (ends y)) pre = true -> ends a = true ->
  life (addBatchTask true true true true data) (pre ++ a :: post) h0 =
    Ret (true, mk_heap (callbacks h0) (results h0) (c + 1),
         replicate (reached (pre ++ [a])) (Translate c data) ++ [Method c NoResult data (completes a)]).
Proof.
  intros Hc Hpre Ha.
  destruct (wp_run (life (addBatchTask true true true true data) (pre ++ a :: post)) (fun b h o => b = true /\
    h = mk_heap (callbacks h0) (results h0) (c + 1) /\
    o = replicate (reached (pre ++ [a])) (Translate c data) ++ [Method c NoResult data (completes a)]) h0)
    as (b & h & o & Hr & -> & -> & ->); [|done].
  unfold life, addBatchTask, new_callback. cbn. wp_steps. cbn [app].
  eapply wp_mono.
  { apply (task_work_wp batch_held) with (n := O) (tr := []); [|intros; by apply batch_perform| |done|done].
    - intros n t h tr s []. by constructor.
    - by constructor. }
  intros [t' b] h2 o2 ([(Hcb & Hs & Hd) Ho ->] & Hb & Hst). cbn [fst snd app] in *. subst b o2. wp_steps.
  unfold call_back, releaseTask, execute, get_callback, delete_callback. rewrite Hs, Hcb, Hd. cbn. wp_steps. cbn.
  rewrite lookup_insert_eq. wp_steps. cbn. wp_steps. cbn. rewrite lookup_insert_eq. wp_steps. cbn.
  rewrite delete_insert_id by done. unfold done. rewrite Hst. unfold final_state. by destruct (completes a).
Qed.

End batches.

(** A batch interrupted by a lost connection carries out its statements again. *)
Example batch_runs_twice :
  life (addBatchTask true true true true 7) [Throws true (BadQuery 2006); Completes] empty_heap =
    Ret (true, mk_heap ∅ ∅ 1, [Translate 0 7; Translate 0 7; Method 0 NoResult 7 true]).
Proof. reflexivity. Qed.

(** *** What is not answered *)

(** A foreign exception at every attempt keeps the worker on the task for ever. *)
Lemma query_never_ends use data h l :
  sound h -> forallb (fun x => negb (ends x)) l = true ->
  exists h', life (add_query use data) l h = Ret (false, h', []) /\ callbacks h' !! fresh h <> None.
Proof.
  intros Hh Hl. destruct (add_query_run use data h Hh) as (t & h1 & Hadd & Hc0 & Hq).
  pose proof (task_work_unfinished (query_held h (fresh h) (mk_cb (query_class use) true true false) data (query_store use))
    ltac:(intros; by apply query_state) ltac:(intros; apply query_perform; [destruct use; auto|done])
    0 t h1 [] l Hq Hl) as Hw.
  destruct (wp_run _ _ _ Hw) as ([t' b] & h2 & o & Hr & Hq2 & Hb). cbn [fst snd app] in *. subst b.
  exists h2. unfold life, mbind'. rewrite Hadd, Hr. cbn. rewrite (q_trace _ _ _ _ _ _ _ _ _ Hq2).
  rewrite (q_callbacks _ _ _ _ _ _ _ _ _ Hq2), lookup_insert_eq. by split.
Qed.

(** Without parameters of its own, as every query of the servers is made, the task
    copies an object that is gone. *)
Lemma default_parameters_dangle (use : bool) data h :
  exists why, (if use then addUQueryTask true true true false data else addSQueryTask true true true false data) h = UB why.
Proof. by destruct use; exists "arg (*q): the local DBQParms is destroyed"%string. Qed.

(** A task with a type of neither kind is deleted without a word to its owner. *)
Lemma unknown_type_silent t h :
  4 <= store t -> wp (call_back t) (fun _ h' o => o = ([] : list effect) /\ h' = h) h.
Proof.
  intros Ht. unfold call_back, _STORE_QUERY_, _USE_QUERY_, _TRANCE_QUERY, _BATCH_QUERY_.
  repeat match goal with |- context [store t =? ?k] => destruct (Z.eqb_spec (store t) k); [lia|] end. cbn. by wp_steps.
Qed.

(** *** [getString] *)

(** A value shorter than the limit is copied with its terminator. *)
Lemma getString_short buf str len :
  Z.of_nat (length str) < len -> (length str < length buf)%nat ->
  getString buf str len = Ret (str ++ [0] ++ drop (S (length str)) buf).
Proof.
  intros Hl Hb. unfold getString. rewrite (proj2 (Z.ltb_lt _ len)) by lia.
  rewrite (proj2 (Z.ltb_ge (Z.of_nat (length buf)) _)) by lia. rewrite (proj2 (Z.leb_gt _ _)) by lia. cbn [orb].
  f_equal. rewrite Nat2Z.id, take_ge by done. unfold blit. cbn. rewrite take_0, app_nil_l.
  rewrite insert_app_r_alt by lia. rewrite Nat.sub_diag. f_equal.
  destruct (drop (length str) buf) as [|b rest] eqn:Hd.
  - apply (f_equal length) in Hd. rewrite length_drop in Hd. cbn in Hd. lia.
  - cbn. f_equal. by rewrite <- Nat.add_1_r, <- drop_drop, Hd.
Qed.

(** A longer one is cut and its terminator is written past the limit: outside the
    buffer, where the buffer has that size. *)
Lemma getString_overflows buf str :
  (length buf <= length str)%nat ->
  getString buf str (Z.of_nat (length buf)) = UB "getString: past the buffer".
Proof.
  intros Hl. unfold getString. rewrite (proj2 (Z.leb_le (Z.of_nat (length buf)) (Z.of_nat (length str)))) by lia.
  by rewrite orb_true_r.
Qed.
