(* ===== verification/DoubleQueue.v ===== *)
(** The double queue shared by [common/call_back.cpp] ([call_back_mgr]),
    [common/task_thread_pool.cpp] ([task_thread]) and the receive queues of
    [common/tcpserver.cpp] and [common/tcpclient.cpp]: producers push on the
    current queue under a mutex, the consumer swaps the queues under the mutex and
    then empties the other one without it.

    [entries] is the type of what is queued; running an entry may push others
    ([script]), as call-backs do. *)

From S2P Require Import Prelude.
From stdpp Require Import prelude list strings relations.
#[local] Open Scope Z_scope.

Module DoubleQueue.
Section double_queue.
Context {entry : Type}.

(** [m_listcb[2]] and [m_current_queue]. *)
Record queue2 : Type := mk_queue2 {
  q0 : list entry;
  q1 : list entry;
  m_current_queue : bool
}.

Definition construct : queue2 := mk_queue2 [] [] false.

Definition get (q : queue2) (i : bool) : list entry := if i then q1 q else q0 q.

Definition set (q : queue2) (i : bool) (l : list entry) : queue2 :=
  if i then mk_queue2 (q0 q) l (m_current_queue q) else mk_queue2 l (q1 q) (m_current_queue q).

(** [add_cb], [task_thread::push], [push_message]. *)
Definition push (q : queue2) (e : entry) : queue2 :=
  set q (m_current_queue q) (get q (m_current_queue q) ++ [e]).

(** The locked part of [poll]: [None] when the current queue is empty, the index
    to process otherwise. *)
Definition swap (q : queue2) : option (bool * queue2) :=
  match get q (m_current_queue q) with
  | [] => None
  | _ => Some (m_current_queue q, mk_queue2 (q0 q) (q1 q) (negb (m_current_queue q)))
  end.

(** [p->call(); pop()]: the entry runs while it is still at the front. *)
Definition process_front (script : entry -> list entry) (q : queue2) (i : bool)
  : option (entry * queue2) :=
  match get q i with
  | [] => None
  | e :: _ =>
      let q := fold_left push (script e) q in
      Some (e, set q i (tl (get q i)))
  end.

(** The unlocked loop of [poll]. *)
Fixpoint drain (fuel : nat) (script : entry -> list entry) (q : queue2) (i : bool)
  : option (queue2 * list entry) :=
  match fuel with
  | O => None
  | S fuel' =>
      match process_front script q i with
      | None => Some (q, [])
      | Some (e, q') =>
          match drain fuel' script q' i with
          | Some (q'', ran) => Some (q'', e :: ran)
          | None => None
          end
      end
  end.

(** [call_back_mgr::poll] on one thread: the entries run, in order. *)
Definition poll (script : entry -> list entry) (q : queue2) : option (queue2 * list entry) :=
  match swap q with
  | None => Some (q, [])
  | Some (i, q') => drain (S (length (get q' i))) script q' i
  end.

(** [call_back_mgr::clear]: [while (m_listcb[i].empty()) { ... front(); pop(); }]. *)
Definition clear (q : queue2) : outcome queue2 :=
  match q0 q with
  | [] => UB "clear: front of an empty queue"
  | _ => match q1 q with [] => UB "clear: front of an empty queue" | _ => Ret q end
  end.

(** [tcp_client::_clear_recv_msg]: empties both. *)
Definition clear_recv (q : queue2) : queue2 := mk_queue2 [] [] (m_current_queue q).

(** *** With concurrent producers

    [proc] is the index the consumer is emptying, if it is; [ran] and [pushed]
    are the entries run and pushed so far. *)
Record sys : Type := mk_sys {
  qs : queue2;
  proc : option bool;
  ran : list entry;
  pushed : list entry
}.

Inductive step (script : entry -> list entry) : sys -> sys -> Prop :=
| step_push s e :
    step script s (mk_sys (push (qs s) e) (proc s) (ran s) (pushed s ++ [e]))
| step_swap s i q :
    proc s = None -> swap (qs s) = Some (i, q) ->
    step script s (mk_sys q (Some i) (ran s) (pushed s))
| step_process s i e q :
    proc s = Some i -> process_front script (qs s) i = Some (e, q) ->
    step script s (mk_sys q (Some i) (ran s ++ [e]) (pushed s ++ script e))
| step_end s i :
    proc s = Some i -> get (qs s) i = [] ->
    step script s (mk_sys (qs s) None (ran s) (pushed s)).

Definition start : sys := mk_sys construct None [] [].

(** The queue seen from outside: what is being emptied, then what waits. *)
Definition contents (s : sys) : list entry :=
  match proc s with
  | Some i => get (qs s) i ++ get (qs s) (negb i)
  | None => get (qs s) (m_current_queue (qs s))
  end.

Record ok (s : sys) : Prop := {
  ok_fifo : pushed s = ran s ++ contents s;
  (* producers never touch the queue being emptied *)
  ok_proc : match proc s with
            | Some i => m_current_queue (qs s) = negb i
            | None => get (qs s) (negb (m_current_queue (qs s))) = []
            end
}.

(** ** Lemmas *)

Lemma get_set_eq q i l : get (set q i l) i = l.
Proof. by destruct i. Qed.

Lemma get_set_ne q i l : get (set q i l) (negb i) = get q (negb i).
Proof. by destruct i. Qed.

Lemma get_set_ne' q i l : get (set q (negb i) l) i = get q i.
Proof. by destruct i. Qed.

Lemma current_set q i l : m_current_queue (set q i l) = m_current_queue q.
Proof. by destruct i. Qed.

Lemma push_current q e : m_current_queue (push q e) = m_current_queue q.
Proof. apply current_set. Qed.

Lemma pushes l q i :
  m_current_queue q = negb i ->
  let q' := fold_left push l q in
  m_current_queue q' = negb i /\ get q' i = get q i /\ get q' (negb i) = get q (negb i) ++ l.
Proof.
  cbv zeta. revert q. induction l as [|e l IH]; intros q Hc; cbn [fold_left].
  - by rewrite app_nil_r.
  - destruct (IH (push q e)) as (H1 & H2 & H3); [by rewrite push_current|].
    split_and!; [done| |].
    + rewrite H2. unfold push. rewrite Hc. apply get_set_ne'.
    + rewrite H3. unfold push. rewrite Hc, get_set_eq, <- app_assoc. done.
Qed.

Lemma process_front_spec script q i e q' :
  m_current_queue q = negb i -> process_front script q i = Some (e, q') ->
  exists rest, get q i = e :: rest /\ get q' i = rest /\
    get q' (negb i) = get q (negb i) ++ script e /\ m_current_queue q' = negb i.
Proof.
  intros Hc. unfold process_front. destruct (get q i) as [|e0 rest] eqn:Hg; [done|].
  intros [= <- <-]. destruct (pushes (script e0) q i Hc) as (H1 & H2 & H3).
  exists rest. rewrite H2, Hg. cbn [tl]. rewrite get_set_eq, get_set_ne, current_set.
  by split_and!.
Qed.

Lemma queue_step_ok script s s' : ok s -> step script s s' -> ok s'.
Proof.
  intros [Hf Hp] Hstep. destruct Hstep as [s e|s i q Hn Hs|s i e q Hi Hpf|s i Hi He];
    constructor; unfold contents in *; cbn [qs proc ran pushed] in *.
  - rewrite Hf, <- app_assoc. f_equal. destruct (proc s) as [i|].
    + unfold push. rewrite Hp, get_set_eq, get_set_ne', app_assoc. done.
    + unfold push. by rewrite current_set, get_set_eq.
  - destruct (proc s) as [i|]; [by rewrite push_current|].
    unfold push. by rewrite current_set, get_set_ne.
  - rewrite Hn in *. rewrite Hf. f_equal. unfold swap in Hs.
    destruct (get (qs s) (m_current_queue (qs s))) eqn:Hg; [done|]. injection Hs as <- <-.
    assert (Hsame : forall j, get (mk_queue2 (q0 (qs s)) (q1 (qs s)) (negb (m_current_queue (qs s)))) j
      = get (qs s) j) by (by intros []).
    by rewrite !Hsame, Hg, Hp, app_nil_r.
  - unfold swap in Hs. destruct (get (qs s) (m_current_queue (qs s))) eqn:Hg; [done|]. by injection Hs as <- <-.
  - rewrite Hi in *. destruct (process_front_spec script _ _ _ _ Hp Hpf) as (rest & H1 & H2 & H3 & H4).
    rewrite Hf, H1, H2, H3, <- !app_assoc. done.
  - rewrite Hi in *. by destruct (process_front_spec script _ _ _ _ Hp Hpf) as (rest & _ & _ & _ & ?).
  - rewrite Hi, He in Hf. rewrite Hi in Hp. by rewrite Hf, Hp.
  - rewrite Hi in Hp. by rewrite Hp, negb_involutive.
Qed.

Lemma queue_start_ok : ok start.
Proof. by constructor. Qed.

Lemma queue_reachable_ok script s : rtc (step script) start s -> ok s.
Proof.
  generalize queue_start_ok. generalize start. intros s0 H0 Hr. revert H0.
  induction Hr; eauto using queue_step_ok.
Qed.

End double_queue.
Arguments queue2 : clear implicits.
Arguments sys : clear implicits.

End DoubleQueue.

Import DoubleQueue.

Section properties.
Context {entry : Type} (script : entry -> list entry).

(** C32: the double queue is one FIFO.  Whatever producers push while the
    consumer swaps, runs entries without the lock and lets them push others, the
    entries run so far followed by those queued are exactly the entries pushed, in
    order; and no producer touches the queue being emptied, so that running
    without the mutex is safe. *)
Theorem double_queue_fifo (s : sys entry) :
  rtc (step script) start s ->
  pushed s = ran s ++ contents s /\
  (forall i, proc s = Some i -> m_current_queue (qs s) = negb i).
Proof.
  intros Hr. destruct (queue_reachable_ok script s Hr) as [Hf Hp]. split; [done|].
  intros i Hi. by rewrite Hi in Hp.
Qed.

Lemma drain_total fuel q i :
  m_current_queue q = negb i -> (length (get q i) < fuel)%nat ->
  exists q', drain fuel script q i = Some (q', get q i) /\ get q' i = [] /\
    get q' (negb i) = get q (negb i) ++ concat (map script (get q i)) /\ m_current_queue q' = negb i.
Proof.
  revert q. induction fuel as [|fuel IH]; intros q Hc Hf; [lia|]. cbn [drain].
  destruct (process_front script q i) as [[e q1]|] eqn:Hpf.
  - destruct (process_front_spec script q i e q1 Hc Hpf) as (rest & H1 & H2 & H3 & H4).
    rewrite H1 in Hf. cbn [length] in Hf.
    destruct (IH q1 H4 ltac:(rewrite H2; lia)) as (q2 & Hd & He & Hw & Hc2).
    exists q2. rewrite Hd, H1. cbn [map concat]. rewrite H2, H3 in *.
    split_and!; try done. by rewrite Hw, <- app_assoc.
  - unfold process_front in Hpf. destruct (get q i) eqn:Hg; [|done].
    exists q. cbn [map concat]. by rewrite app_nil_r.
Qed.

(** [poll] terminates and is a batch: it runs exactly the entries queued
    when it starts, in order; what they push waits for the next [poll], however
    often call-backs re-queue themselves. *)
Theorem poll_runs_batch (q : queue2 entry) :
  get q (negb (m_current_queue q)) = [] ->
  exists q', poll script q = Some (q', get q (m_current_queue q)) /\
    get q' (m_current_queue q') = concat (map script (get q (m_current_queue q))) /\
    get q' (negb (m_current_queue q')) = [].
Proof.
  intros He. unfold poll, swap. destruct (get q (m_current_queue q)) as [|e rest] eqn:Hg.
  - exists q. by rewrite Hg.
  - set (q1 := mk_queue2 (q0 q) (q1 q) (negb (m_current_queue q))).
    assert (Hsame : forall j, get q1 j = get q j) by (by intros []).
    destruct (drain_total (S (length (get q1 (m_current_queue q)))) q1 (m_current_queue q) eq_refl ltac:(lia))
      as (q' & Hd & Hq & Hw & Hc).
    rewrite !Hsame, Hg in Hd. rewrite !Hsame, Hg, He in Hw. exists q'. rewrite Hsame, Hg, Hd, Hc.
    split_and!; [done|by rewrite Hw|by rewrite negb_involutive].
Qed.

(** [clear] never clears: on any queue reached between polls one of the two is
    empty, and its loop condition, inverted, pops from the empty one. *)
Lemma clear_is_undefined (s : sys entry) :
  rtc (step script) start s -> proc s = None ->
  clear (qs s) = UB "clear: front of an empty queue".
Proof.
  intros Hr Hn. destruct (queue_reachable_ok script s Hr) as [_ Hp]. rewrite Hn in Hp.
  unfold clear. destruct (qs s) as [a b []]; cbn in Hp; subst; [done|]. by destruct a.
Qed.

End properties.

Lemma double_queue_fifo_witness :
  pushed (mk_sys (push (push construct 7) 8) None [] [7; 8]) = [] ++ [7; 8] /\
  (forall i, @None bool = Some i -> false = negb i).
Proof.
  apply (double_queue_fifo (fun _ : Z => []) (mk_sys (push (push construct 7) 8) None [] [7; 8])).
  eapply rtc_l; [apply (step_push _ start 7)|].
  eapply rtc_l; [eapply step_push|]. exact (rtc_refl _ _).
Defined.

(** A call-back that queues itself again. *)
Lemma poll_runs_batch_witness :
  exists q', poll (fun e : Z => [e]) (mk_queue2 [7; 8] [] false) = Some (q', [7; 8]) /\
    get q' (m_current_queue q') = [7; 8] /\ get q' (negb (m_current_queue q')) = [].
Proof. exact (poll_runs_batch (fun e => [e]) (mk_queue2 [7; 8] [] false) eq_refl). Defined.
