(* ===== verification/Receive.v ===== *)
(** The way of a received message from a session to its handler:
    [common/tcpserver.cpp] ([push_message], [_real_run]),
    [common/tcpsession.cpp] ([push_message]), [common/call_back.cpp] ([poll]) and
    [common/tcpclient.cpp] ([run], [run_no_wait], [push_message]).

    Network threads queue messages and call-backs while the main thread takes its
    turn: it offers the pooled sessions to the acceptor, runs the call-backs
    queued before it, swaps the message queues and hands out one of them.  A turn
    is cut into the steps between which a network thread can act ([event]); the
    uncut turn is [_real_run].  Session objects are used again for later
    connections ([TcpServer]), so a message is queued with the number of the
    connection its session was serving ([conns]), which the code does not have. *)

From S2P Require Import Prelude MessageInterface TcpSession TcpServer DoubleQueue TcpClient.
From stdpp Require Import prelude gmap strings list relations.
#[local] Open Scope Z_scope.

Module Receive.
Import Message TcpSession TcpServer.

(** [message_t] with [from], and the connection it came on. *)
Record recv : Type := mk_recv { from : Z; conn : Z; body : message_t }.

(** What [add_cb] queues for a session: [&tcp_session::on_accept] and
    [&tcp_session::on_close]. *)
Inductive call_back : Type :=
| OnAccept (p : Z)
| OnClose (p : Z).

Definition target (c : call_back) : Z := match c with OnAccept p | OnClose p => p end.

(** Where the main thread is: between turns, past the accept loop, in
    [m_cb_mgr.poll ()] with these call-backs left to run, or emptying
    [m_queue_recv_msg[i]]. *)
Inductive phase_t : Type :=
| Between
| Offered
| Polling (batch : list call_back)
| Draining (i : bool).

Record server : Type := mk_receiver {
  srv : tcp_server;
  m_cb_mgr : list call_back;
  m_queue_recv_msg : DoubleQueue.queue2 recv;
  phase : phase_t;
  conns : gmap Z Z
}.

Inductive effect : Type :=
| OfServer (e : TcpServer.effect)
| RunOnAccept (p : Z)
| RunOnClose (p : Z)
| Queued (m : recv)
| ProcMessage (m : recv) (c : Z)
| FreeMessage (m : recv)
| CpuWait.

Abbreviation Rcv := (M server effect).

Definition set_srv (r : server) s : server := mk_receiver s (m_cb_mgr r) (m_queue_recv_msg r) (phase r) (conns r).
Definition set_cbs (r : server) l : server := mk_receiver (srv r) l (m_queue_recv_msg r) (phase r) (conns r).
Definition set_queue (r : server) q : server := mk_receiver (srv r) (m_cb_mgr r) q (phase r) (conns r).
Definition set_phase (r : server) ph : server := mk_receiver (srv r) (m_cb_mgr r) (m_queue_recv_msg r) ph (conns r).
Definition set_conns (r : server) c : server := mk_receiver (srv r) (m_cb_mgr r) (m_queue_recv_msg r) (phase r) c.

(** The connection session [p] serves, or served last. *)
Definition current (r : server) (p : Z) : Z := default 0 (conns r !! p).

(** Run a function of [TcpServer]. *)
Definition on_server {A} (m : Srv A) : Rcv A := fun r =>
  match m (srv r) with
  | UB why => UB why
  | Ret (a, s, o) => Ret (a, set_srv r s, map OfServer o)
  end.

(** The server after [create]. *)
Definition construct (now poolcount thread_count : Z) : server :=
  match create poolcount thread_count (TcpServer.construct now) with
  | Ret (_, s, _) => mk_receiver s [] DoubleQueue.construct Between ∅
  | UB _ => mk_receiver (TcpServer.construct now) [] DoubleQueue.construct Between ∅
  end.

(** *** Network threads *)

Definition serves (s : tcp_server) (p : Z) : bool :=
  match objs s !! p with
  | Some x => match m_father x with Some _ => true | None => false end
  | None => false
  end.

Definition add_cb (c : call_back) : Rcv unit := mmodify (fun r => set_cbs r (m_cb_mgr r ++ [c])).

(** [tcp_session::push_message], which drops (and leaks) the message of a session
    without a server, and [tcp_server::push_message]. *)
Definition push_message (p : Z) (body : message_t) : Rcv unit :=
  r <- mget ;;
  if serves (srv r) p then
    let m := mk_recv p (current r p) body in
    mput (set_queue r (DoubleQueue.push (m_queue_recv_msg r) m)) ;;; memit (Queued m)
  else mret' tt.

(** The posted [tcp_session::handle_accept] queues [on_accept]. *)
Definition session_accepted (p : Z) : Rcv unit :=
  mmodify (fun r => set_conns r (<[p := current r p + 1]> (conns r))) ;;;
  on_server (TcpServer.handle (PostedAccept p)) ;;;
  add_cb (OnAccept p).

(** [_on_close] queues [on_close], where there is a server. *)
Definition connection_lost (p : Z) (error : bool) : Rcv unit :=
  r <- mget ;;
  on_server (TcpServer.handle (ConnectionLost p error)) ;;;
  mwhen (serves (srv r) p) (add_cb (OnClose p)).

(** [close] has posted [handle_close]. *)
Definition close_now (p : Z) : Rcv unit := on_server (call_session p handle_close).

(** *** The main thread *)

(** The clock and the accept loop of [_real_run]. *)
Definition begin_turn (now limit : Z) : Rcv unit :=
  on_server (TcpServer._real_run now limit) ;;;
  mmodify (fun r => set_phase r Offered).

(** [poll] takes the queued call-backs. *)
Definition swap_call_backs : Rcv unit :=
  mmodify (fun r => set_cbs (set_phase r (Polling (m_cb_mgr r))) []).

(** [p->call ()]; the subclasses' [on_close] end in [tcp_session::on_close]. *)
Definition call (c : call_back) : Rcv unit :=
  match c with
  | OnAccept p => memit (RunOnAccept p)
  | OnClose p => memit (RunOnClose p) ;;; on_server (TcpServer.handle (PolledClose p))
  end.

Definition poll_one (c : call_back) (rest : list call_back) : Rcv unit :=
  call c ;;; mmodify (fun r => set_phase r (Polling rest)).

(** The part under [m_msg_mutex]. *)
Definition swap_queues : Rcv unit :=
  mmodify (fun r =>
    match DoubleQueue.swap (m_queue_recv_msg r) with
    | None => set_phase r Between
    | Some (i, q) => set_phase (set_queue r q) (Draining i)
    end).

(** One turn of the loop over [m_queue_recv_msg[proc_index]]; [m] is at the front. *)
Definition dispatch (i : bool) (m : recv) : Rcv unit :=
  r <- mget ;;
  match objs (srv r) !! from m with
  | None => mub "msg->from"
  | Some x =>
      mwhen (is_valid x && m_isconnected x) (memit (ProcMessage m (current r (from m)))) ;;;
      memit (FreeMessage m) ;;;
      mmodify (fun r =>
        let q := m_queue_recv_msg r in set_queue r (DoubleQueue.set q i (tl (DoubleQueue.get q i))))
  end.

(** *** Everything that happens, in any order *)

Inductive event : Type :=
| Network (e : TcpServer.event)
| PostedClose (p : Z)
| Received (p : Z) (body : message_t)
| BeginTurn (now limit : Z)
| Step.

(** The network threads' part of [TcpServer.event]. *)
Definition by_network (e : TcpServer.event) : bool :=
  match e with Accepted _ _ _ | PostedAccept _ | ConnectionLost _ _ | Ban _ _ _ | Unban _ => true | _ => false end.

(** [handle_read_some] looks at [is_valid] before it takes messages. *)
Definition enabled (e : event) (r : server) : bool :=
  match e with
  | Network e => by_network e && TcpServer.enabled e (srv r)
  | PostedClose p => match objs (srv r) !! p with Some _ => true | None => false end
  | Received p _ => match objs (srv r) !! p with Some x => is_valid x | None => false end
  | BeginTurn _ _ => match phase r with Between => true | _ => false end
  | Step => match phase r with Between => false | _ => true end
  end.

(** The next step of the main thread's turn. *)
Definition step : Rcv unit :=
  r <- mget ;;
  match phase r with
  | Between => mret' tt
  | Offered => swap_call_backs
  | Polling (c :: rest) => poll_one c rest
  | Polling [] => swap_queues
  | Draining i =>
      match DoubleQueue.get (m_queue_recv_msg r) i with
      | [] => mmodify (fun r => set_phase r Between)
      | m :: _ => dispatch i m
      end
  end.

Definition handle (e : event) : Rcv unit :=
  match e with
  | Network (PostedAccept p) => session_accepted p
  | Network (ConnectionLost p error) => connection_lost p error
  | Network e => on_server (TcpServer.handle e)
  | PostedClose p => close_now p
  | Received p body => push_message p body
  | BeginTurn now limit => begin_turn now limit
  | Step => step
  end.

Definition run (l : list event) : Rcv unit :=
  mfor l (fun e => r <- mget ;; if enabled e r then handle e else mret' tt).

(** *** A turn by itself: [_real_run] while no network thread acts *)

Fixpoint dispatch_loop (fuel : nat) (i : bool) : Rcv unit :=
  match fuel with
  | O => mub "fuel"
  | S fuel' =>
      r <- mget ;;
      match DoubleQueue.get (m_queue_recv_msg r) i with
      | [] => mmodify (fun r => set_phase r Between)
      | m :: _ => dispatch i m ;;; dispatch_loop fuel' i
      end
  end.

(** The call-backs of the batch; then the messages queued by then. *)
Fixpoint poll_loop (batch : list call_back) : Rcv unit :=
  match batch with
  | [] => mret' tt
  | c :: rest => poll_one c rest ;;; poll_loop rest
  end.

(** At time [now], with [s_io_once_listen_session_count = limit]. *)
Definition _real_run (is_wait : bool) (now limit : Z) : Rcv unit :=
  begin_turn now limit ;;;
  r <- mget ;;
  swap_call_backs ;;;
  poll_loop (m_cb_mgr r) ;;;
  swap_queues ;;;
  r <- mget ;;
  match phase r with
  | Draining i => dispatch_loop (S (length (DoubleQueue.get (m_queue_recv_msg r) i))) i
  | _ => mwhen is_wait (memit CpuWait)
  end.

Definition run_and_wait : Z -> Z -> Rcv unit := _real_run true.
Definition run_no_wait : Z -> Z -> Rcv unit := _real_run false.

(** *** What the effects tell *)

Definition received (o : list effect) : list recv := omap (fun e => match e with Queued m => Some m | _ => None end) o.
Definition released (o : list effect) : list recv := omap (fun e => match e with FreeMessage m => Some m | _ => None end) o.
Definition handled (o : list effect) : list recv := omap (fun e => match e with ProcMessage m _ => Some m | _ => None end) o.

(** The messages of connection [c] of session [p]. *)
Definition of_conn (p c : Z) (l : list recv) : list recv := filter (fun m => from m = p /\ conn m = c) l.

(** The double queue with its history. *)
Definition queue_of (r : server) (o : list effect) : DoubleQueue.sys recv :=
  DoubleQueue.mk_sys (m_queue_recv_msg r) (match phase r with Draining i => Some i | _ => None end) (released o) (received o).

(** Queued and not handed out yet. *)
Definition contents (r : server) : list recv := DoubleQueue.contents (queue_of r []).

(** What only a later turn will hand out. *)
Definition later (r : server) : list recv :=
  match phase r with
  | Between | Offered => contents r
  | Polling _ => []
  | Draining i => DoubleQueue.get (m_queue_recv_msg r) (negb i)
  end.

(** All call-backs not run yet. *)
Definition call_backs (r : server) : list call_back :=
  match phase r with Polling batch => batch | _ => [] end ++ m_cb_mgr r.

End Receive.
Import Message TcpSession TcpServer Receive.

(** ** What the server's operations do to its objects *)

Definition connected (s : tcp_server) (p : Z) : bool :=
  match objs s !! p with Some x => m_isconnected x | None => false end.

(** A session is only connected while it is valid and has a server. *)
Definition live (x : tcp_session) : Prop := m_isconnected x = true -> m_isvalid x = true /\ m_father x <> None.

Definition all_live (s : tcp_server) : Prop := forall p x, objs s !! p = Some x -> live x.

Lemma serves_spec s p : serves s p = true <-> exists x, objs s !! p = Some x /\ m_father x <> None.
Proof. unfold serves. destruct (objs s !! p) as [x|]; [destruct (m_father x) eqn:Hf|]; naive_solver. Qed.

(** From [s] to [s'] no object is lost, none becomes connected; a session loses
    its server only when [may_free] and goes to the pool then; with [keep] none
    leaves the pool. *)
Record moves (may_free keep : Prop) (s s' : tcp_server) : Prop := {
  mv_live : all_live s -> all_live s';
  mv_some : forall p, is_Some (objs s !! p) -> is_Some (objs s' !! p);
  mv_connected : forall p, connected s' p = true -> connected s p = true;
  mv_serves : forall p, serves s p = true -> serves s' p = true \/ (may_free /\ p ∈ m_sessions s');
  mv_pool : keep -> forall p, p ∈ m_sessions s -> p ∈ m_sessions s'
}.

(** Replacing one object. *)
Lemma moves_one (free keep : Prop) s s' p x x' :
  objs s !! p = Some x -> objs s' = <[p := x']> (objs s) ->
  (live x -> live x') -> (m_isconnected x' = true -> m_isconnected x = true) ->
  (m_father x <> None -> m_father x' <> None \/ (free /\ p ∈ m_sessions s')) ->
  (keep -> forall q, q ∈ m_sessions s -> q ∈ m_sessions s') ->
  moves free keep s s'.
Proof.
  intros Hx Ho Hl Hc Hf Hp.
  assert (Hq : forall q, q <> p -> objs s' !! q = objs s !! q) by (intros q ?; by rewrite Ho, lookup_insert_ne).
  assert (Hx' : objs s' !! p = Some x') by (by rewrite Ho, lookup_insert_eq).
  constructor; [| | | |done].
  - intros Ha q y Hy. destruct (decide (q = p)) as [->|Hne]; [|rewrite Hq in Hy by done; eauto].
    rewrite Hx' in Hy. injection Hy as <-. eauto.
  - intros q Hs. destruct (decide (q = p)) as [->|Hne]; [by rewrite Hx'|by rewrite Hq].
  - intros q. unfold connected. destruct (decide (q = p)) as [->|Hne]; [by rewrite Hx', Hx|by rewrite Hq].
  - intros q Hs. destruct (decide (q = p)) as [->|Hne].
    + apply serves_spec in Hs as (y & Hy & Hfy). rewrite Hx in Hy. injection Hy as <-.
      destruct (Hf Hfy) as [?|?]; [left; apply serves_spec; eauto|by right].
    + left. unfold serves in *. by rewrite Hq.
Qed.

Lemma moves_trans free keep s1 s2 s3 :
  (free -> keep) -> moves free keep s1 s2 -> moves free keep s2 s3 -> moves free keep s1 s3.
Proof.
  intros Hk [a1 a2 a3 a4 a5] [b1 b2 b3 b4 b5]. constructor; auto.
  intros p Hp. destruct (a4 p Hp) as [H|[H H']]; [by apply b4|auto].
Qed.

Lemma moves_same free keep s s' : objs s' = objs s -> (keep -> m_sessions s' = m_sessions s) -> moves free keep s s'.
Proof. intros Ho Hm. constructor; unfold all_live, connected, serves; rewrite ?Ho; auto. intros H p. by rewrite Hm. Qed.

Lemma freed_moves (free : Prop) s p x :
  objs s !! p = Some x -> (m_father x <> None -> free) -> moves free True s (freed s p x).
Proof.
  intros Hx Hf. eapply moves_one; [done|reflexivity|done|done| |].
  - intros Hn. right. split; [auto|]. cbn. apply elem_of_app. right. by apply list_elem_of_singleton.
  - intros _ q Hq. cbn. apply elem_of_app. by left.
Qed.

Lemma free_session_moves (free : Prop) s p x :
  objs s !! p = Some x -> (m_father x <> None -> free) ->
  wp (free_session p) (fun _ s' _ => moves free True s s') s.
Proof. intros Hx Hf. unfold run_post. rewrite (free_session_run s p x Hx). by apply freed_moves. Qed.

(** [handle_close] on a session that has just been accepted, or later. *)
Lemma close_moves free s p x :
  objs s !! p = Some x ->
  wp (call_session p handle_close)
     (fun _ s' _ => moves free True s s' /\ exists x', objs s' !! p = Some x' /\ m_father x' = m_father x) s.
Proof.
  intros Hx. unfold call_session. wp_steps. unfold run_post at 1, run_session, mbind', mget.
  rewrite Hx, handle_close_run. cbn. split.
  - eapply moves_one; [exact Hx|reflexivity|done|done|by left|done].
  - eexists. by rewrite lookup_insert_eq.
Qed.

Lemma close_and_free_moves s p x :
  objs s !! p = Some x -> m_father x = None ->
  wp (call_session p handle_close ;;; free_session p) (fun _ s' _ => moves False True s s') s.
Proof.
  intros Hx Hf. wp_steps. eapply wp_mono; [by eapply close_moves|].
  intros _ s1 o1 (H1 & x1 & Hx1 & Hf1).
  eapply wp_mono; [apply (free_session_moves False s1 p x1 Hx1); congruence|].
  intros ? s2 o2 H2. by apply (moves_trans _ _ _ s1).
Qed.

Lemma accepted_moves s p addr error x :
  objs s !! p = Some x -> m_father x = None ->
  wp (TcpServer.handle (Accepted p addr error)) (fun _ s' _ => moves False True s s') s.
Proof.
  intros Hx Hf. cbn [TcpServer.handle]. unfold TcpServer.handle_accept. wp_steps.
  set (s0 := set_owed (set_pool _ _ _) _ _ _).
  assert (H0 : moves False True s s0) by (by apply moves_same).
  assert (Hb : wp (is_ban_ip addr) (fun _ s1 _ => moves False True s s1 /\ objs s1 = objs s) s0).
  { unfold is_ban_ip. wp_steps.
    destruct (m_banip s0 !! addr) as [[until br]|]; [case_match|]; wp_steps; split; done || by apply moves_same. }
  eapply wp_mono; [exact Hb|]. intros banned s1 o1 (H1 & Ho).
  assert (Hend : wp (call_session p handle_close ;;; free_session p) (fun _ s' _ => moves False True s s') s1).
  { eapply wp_mono; [apply (close_and_free_moves s1 p x); congruence|]. intros ? s2 o2. by apply (moves_trans _ _ _ s1). }
  destruct banned; [done|]. destruct error; cbn [negb]; [done|]. wp_steps.
  apply (moves_trans _ _ _ s1); [done|exact H1|by apply moves_same].
Qed.

(** The session gets the server and is connected. *)
Lemma posted_accept_objs s p x :
  objs s !! p = Some x ->
  wp (TcpServer.handle (PostedAccept p))
     (fun _ s' _ => m_sessions s' = m_sessions s /\ exists x',
        objs s' = <[p := x']> (objs s) /\ m_father x' <> None /\ m_isvalid x' = true) s.
Proof.
  intros Hx. cbn [TcpServer.handle]. wp_steps. unfold TcpServer.session_accepted, generate_thread_index. wp_steps.
  unfold call_session. wp_steps. unfold run_post at 1, run_session, mbind', mget. cbn [set_threads set_owed objs].
  rewrite Hx. cbn. split; [done|]. by eexists.
Qed.

Lemma lost_moves s p error x :
  objs s !! p = Some x ->
  wp (TcpServer.handle (ConnectionLost p error)) (fun _ s' _ => moves False True s s') s.
Proof.
  intros Hx. cbn [TcpServer.handle]. unfold call_session. wp_steps. unfold run_post at 1, run_session, mbind', mget.
  rewrite Hx. destruct x as [cn [f|] snd rb rp ic iv il ti sd isd ns]; cbn; (eapply moves_one; [exact Hx|reflexivity|done|done|by left|done]).
Qed.

Lemma polled_close_moves s p x :
  objs s !! p = Some x -> wp (TcpServer.handle (PolledClose p)) (fun _ s' _ => moves True True s s') s.
Proof.
  intros Hx. cbn [TcpServer.handle]. wp_steps. unfold call_session. wp_steps.
  unfold run_post at 1, run_session, mbind', mget. cbn [set_owed objs]. rewrite Hx, on_close_run. cbn.
  set (s2 := set_objs _ _ _). assert (Hx2 : objs s2 !! p = Some x) by (cbn; by rewrite lookup_insert_eq).
  assert (H2 : moves True True s s2) by (eapply moves_one; [exact Hx|reflexivity|done|done|by left|done]).
  destruct (m_father x) eqn:Hf; cbn [mfor deliver]; wp_steps; [|done].
  eapply wp_mono; [by apply (free_session_moves True s2 p x)|]. intros ? s3 o3 H3. wp_steps. by apply (moves_trans _ _ _ s2).
Qed.

(** The accept loop makes sessions of the pool valid. *)
Lemma accept_one_moves s p rest x :
  objs s !! p = Some x -> wp (accept_one p rest) (fun _ s' _ => moves False False s s') s.
Proof.
  intros Hx. unfold accept_one. wp_steps. unfold run_post at 1, run_session, mbind', mget. rewrite Hx. cbn.
  eapply moves_one; [exact Hx|reflexivity|..]; [|done|by left|done].
  intros Hl Hc. by destruct (Hl Hc).
Qed.

Lemma accept_loop_moves limit l s :
  m_sessions s = l -> pool_ok [] s ->
  wp (accept_loop (u32 limit) l) (fun _ s' _ => moves False False s s') s.
Proof.
  revert s. induction l as [|p l IH]; intros s Hs Hok; cbn [accept_loop]; wp_steps; [by apply moves_same|].
  destruct (m_accepting_count s <? u32 limit) eqn:Hlt; wp_steps; [|by apply moves_same].
  apply Z.ltb_lt in Hlt.
  destruct (proj1 (ok_idle _ _ Hok p)) as (x & Hx & _); [rewrite Hs; set_solver|].
  eapply wp_mono; [apply wp_and; [by eapply accept_one_wp|by eapply accept_one_moves]|].
  intros ? s1 o1 ((H1 & H2 & _) & H3). eapply wp_mono; [by apply IH|].
  intros ? s2 o2 H4. by apply (moves_trans _ _ _ s1).
Qed.

Lemma real_run_moves now limit s :
  pool_ok [] s -> wp (TcpServer._real_run now limit) (fun _ s' _ => moves False False s s') s.
Proof.
  intros Hok. unfold TcpServer._real_run. wp_steps.
  eapply wp_mono; [apply accept_loop_moves; [done|]|].
  - eapply pool_ok_same; [..|exact Hok]; done.
  - intros ? s1 o H. apply (moves_trans _ _ _ (set_time s (u32 now))); [done|by apply moves_same|exact H].
Qed.

(** The sessions of a server just created are live: none is connected. *)
Lemma create_live now n t : wp (create n t) (fun _ s _ => pool_ok [] s /\ all_live s) (TcpServer.construct now).
Proof.
  apply wp_and; [apply create_wp, construct_ok|]. unfold create. wp_steps.
  apply (wp_for False (fun s _ => all_live s) _ _ _ []).
  { intros p x Hx. cbn in Hx. by rewrite lookup_empty in Hx. }
  intros _ s1 _ _ H1. unfold create_session. wp_steps. unfold run_post.
  rewrite (free_session_run _ _ TcpSession.construct) by apply lookup_insert_eq.
  intros p x. cbn. destruct (decide (p = next_obj s1)) as [->|Hne].
  - rewrite lookup_insert_eq. by intros [= <-] [=].
  - rewrite !lookup_insert_ne by done. apply H1.
Qed.

(** ** The invariant *)

(** Connection [c] of session [p] carries no more messages. *)
Definition ended (r : server) (p c : Z) : Prop :=
  c < current r p \/ (c = current r p /\ connected (srv r) p = false).

Definition polling (r : server) : Prop := match phase r with Polling _ => True | _ => False end.

(** A queued message came on the connection its session serves, or served until
    the turn that will drop the message. *)
Definition message_ok (r : server) (m : recv) : Prop :=
  conn m = current r (from m) /\ (serves (srv r) (from m) = true \/ from m ∈ m_sessions (srv r)).

Record inv (r : server) (tr : list Receive.effect) : Prop := {
  i_pool : pool_ok [] (srv r);
  i_live : all_live (srv r);
  i_cbs : forall c, c ∈ call_backs r -> is_Some (objs (srv r) !! target c);
  i_queue : DoubleQueue.ok (queue_of r tr);
  i_msgs : forall m, m ∈ contents r -> message_ok r m;
  i_later : forall m, m ∈ later r -> serves (srv r) (from m) = true;
  i_own : forall m c, ProcMessage m c ∈ tr -> c = conn m;
  i_order : forall p c,
    of_conn p c (handled tr) = of_conn p c (released tr) \/
    (ended r p c /\ of_conn p c (handled tr) `prefix_of` of_conn p c (released tr))
}.

Lemma received_app o1 o2 : received (o1 ++ o2) = received o1 ++ received o2.
Proof. apply omap_app. Qed.
Lemma released_app o1 o2 : released (o1 ++ o2) = released o1 ++ released o2.
Proof. apply omap_app. Qed.
Lemma handled_app o1 o2 : handled (o1 ++ o2) = handled o1 ++ handled o2.
Proof. apply omap_app. Qed.
Lemma of_conn_app p c l1 l2 : of_conn p c (l1 ++ l2) = of_conn p c l1 ++ of_conn p c l2.
Proof. apply filter_app. Qed.

(** Effects that are not about messages. *)
Definition quiet (o : list Receive.effect) : Prop :=
  Forall (fun e => match e with Queued _ | ProcMessage _ _ | FreeMessage _ => False | _ => True end) o.

Lemma quiet_logs o : quiet o -> received o = [] /\ released o = [] /\ handled o = [].
Proof. induction 1 as [|e o He _ (H1 & H2 & H3)]; [done|]. by destruct e. Qed.

Lemma quiet_server o : quiet (map OfServer o).
Proof. by apply Forall_map, Forall_true. Qed.

Lemma inv_quiet r tr o : quiet o -> inv r tr -> inv r (tr ++ o).
Proof.
  intros Hq []. destruct (quiet_logs o Hq) as (H1 & H2 & H3). constructor; auto.
  - unfold queue_of. by rewrite released_app, received_app, H1, H2, !app_nil_r.
  - intros m c [Hin|Hin]%elem_of_app; [eauto|]. unfold quiet in Hq. rewrite Forall_forall in Hq. by apply Hq in Hin.
  - intros p c. rewrite handled_app, released_app, H2, H3, !app_nil_r. auto.
Qed.

(** The server's objects move; the queues stay. *)
Lemma inv_moves r tr s' (free keep : Prop) :
  moves free keep (srv r) s' -> (free -> polling r) -> (keep \/ later r = contents r) ->
  pool_ok [] s' -> inv r tr -> inv (set_srv r s') tr.
Proof.
  intros [H1 H2 H3 H4 H5] Hfree Hkeep Hp []. constructor; auto.
  - intros m Hm. destruct (i_msgs0 m Hm) as [Hc Hs]. split; [done|].
    assert (Hsv : serves (srv r) (from m) = true -> serves s' (from m) = true \/ from m ∈ m_sessions s')
      by (intros Hv; destruct (H4 _ Hv) as [?|[_ ?]]; auto).
    destruct Hs as [Hs|Hs]; [by apply Hsv|].
    destruct Hkeep as [Hk|Hk]; [right; by apply H5|]. apply Hsv, i_later0. by rewrite Hk.
  - intros m Hm. destruct (H4 _ (i_later0 m Hm)) as [?|[Hf _]]; [done|].
    apply Hfree in Hf. unfold polling in Hf. revert Hm. unfold later. cbn. destruct (phase r); try done.
    intros Hm. by apply elem_of_nil in Hm.
  - intros p c. destruct (i_order0 p c) as [?|[He ?]]; [by left|right; split; [|done]].
    destruct He as [He|[He Hd]]; [by left|right; split; [done|]].
    apply not_true_iff_false. intros Hc%H3. congruence.
Qed.

Lemma on_server_wp {A} (m : Srv A) (Q : A -> server -> list Receive.effect -> Prop) r :
  wp m (fun a s o => Q a (set_srv r s) (map OfServer o)) (srv r) -> wp (on_server m) Q r.
Proof. unfold run_post, on_server. by destruct (m (srv r)) as [[[a s] o]|]. Qed.

(** An operation of the server that only moves objects keeps the invariant. *)
Lemma on_server_inv {A} (m : Srv A) (free keep : Prop) r tr :
  inv r tr -> (free -> polling r) -> (keep \/ later r = contents r) ->
  wp m (fun _ s' _ => pool_ok [] s' /\ moves free keep (srv r) s') (srv r) ->
  wp (on_server m) (fun _ r' o => exists s', r' = set_srv r s' /\ quiet o /\
    inv r' (tr ++ o) /\ moves free keep (srv r) s') r.
Proof.
  intros Hi Hf Hk Hm. apply on_server_wp. eapply wp_mono; [exact Hm|].
  intros a s' o (H1 & H2). exists s'. split_and!; [done|apply quiet_server| |done].
  apply inv_quiet; [apply quiet_server|]. by apply (inv_moves r tr s' free keep).
Qed.

Lemma inv_fifo r tr : inv r tr -> received tr = released tr ++ contents r.
Proof. intros []. apply (DoubleQueue.ok_fifo _ i_queue0). Qed.

Lemma later_contents r m : m ∈ later r -> m ∈ contents r.
Proof.
  unfold later. destruct (phase r) as [| | |i] eqn:Hph; try done; [by intros ?%elem_of_nil|].
  unfold contents, DoubleQueue.contents. cbn. rewrite Hph. intros ?. apply elem_of_app. by right.
Qed.

(** The main thread moves on; objects and queues stay. *)
Lemma inv_phase r r' tr :
  srv r' = srv r -> conns r' = conns r -> queue_of r' tr = queue_of r tr ->
  (forall m, m ∈ contents r -> m ∈ later r' -> m ∈ later r) ->
  (forall c, c ∈ call_backs r' -> c ∈ call_backs r) ->
  inv r tr -> inv r' tr.
Proof.
  intros Hs Hn Hq Hp Hc []. assert (Hco : contents r' = contents r).
  { change (DoubleQueue.contents (queue_of r' tr) = DoubleQueue.contents (queue_of r tr)). by rewrite Hq. }
  constructor; unfold message_ok, ended, current in *; rewrite ?Hs, ?Hn, ?Hq, ?Hco; auto.
  intros m Hm. apply i_later0, Hp; [|done]. rewrite <- Hco. revert Hm. apply later_contents.
Qed.

(** A step of the double queue; what it leaves queued was queued or is good. *)
Lemma inv_step r r' tr o :
  srv r' = srv r -> conns r' = conns r -> call_backs r' = call_backs r ->
  DoubleQueue.step (fun _ => []) (queue_of r tr) (queue_of r' (tr ++ o)) ->
  (forall m, m ∈ contents r' -> message_ok r m) ->
  (forall m, m ∈ later r' -> serves (srv r) (from m) = true) ->
  (forall m c, ProcMessage m c ∈ o -> c = conn m) ->
  (forall p c, of_conn p c (handled (tr ++ o)) = of_conn p c (released (tr ++ o)) \/
     (ended r p c /\ of_conn p c (handled (tr ++ o)) `prefix_of` of_conn p c (released (tr ++ o)))) ->
  inv r tr -> inv r' (tr ++ o).
Proof.
  intros Hs Hn Hc Hst Hm Hl Ho Hord []. constructor; unfold message_ok, ended, current in *; rewrite ?Hs, ?Hn, ?Hc; auto.
  - by eapply DoubleQueue.queue_step_ok.
  - intros m c [?|?]%elem_of_app; auto.
Qed.

Lemma received_inv r tr p body :
  inv r tr -> wp (push_message p body) (fun _ r' o => inv r' (tr ++ o)) r.
Proof.
  intros Hi. unfold push_message. wp_steps. destruct (serves (srv r) p) eqn:Hs; wp_steps; [|by rewrite app_nil_r].
  set (m := mk_recv p (current r p) body). set (r' := set_queue r _).
  assert (Hst : DoubleQueue.step (fun _ => []) (queue_of r tr) (queue_of r' (tr ++ [Queued m]))).
  { unfold queue_of. rewrite released_app, received_app, app_nil_r. apply (DoubleQueue.step_push _ (queue_of r tr) m). }
  assert (Hco : contents r' = contents r ++ [m]).
  { pose proof (inv_fifo r tr Hi) as Hf.
    pose proof (DoubleQueue.queue_step_ok _ _ _ (i_queue _ _ Hi) Hst) as [Hf' _]. cbn in Hf'.
    rewrite received_app, released_app, app_nil_r, Hf, <- app_assoc in Hf'. by apply app_inv_head in Hf'. }
  apply (inv_step r); try done.
  - rewrite Hco. intros m' [Hin|Hin]%elem_of_app; [|apply list_elem_of_singleton in Hin as ->; by split; [|left]].
    by apply (i_msgs _ _ Hi).
  - intros m' Hin. assert (Hm : m' ∈ later r \/ m' = m); [|destruct Hm as [Hm| ->]; [by apply (i_later _ _ Hi)|done]].
    pose proof (DoubleQueue.ok_proc _ (i_queue _ _ Hi)) as Hp. revert Hp Hin.
    unfold later. rewrite Hco. unfold queue_of. cbn. destruct (phase r) as [| | |i]; try set_solver.
    intros Hp. unfold DoubleQueue.push. rewrite Hp, DoubleQueue.get_set_eq. set_solver.
  - intros m' c Hin. set_solver.
  - intros q c. rewrite handled_app, released_app, !app_nil_r. apply (i_order _ _ Hi).
Qed.

Lemma swap_lists (q : DoubleQueue.queue2 recv) i q' :
  DoubleQueue.swap q = Some (i, q') ->
  i = DoubleQueue.m_current_queue q /\ forall j, DoubleQueue.get q' j = DoubleQueue.get q j.
Proof.
  unfold DoubleQueue.swap. destruct (DoubleQueue.get q _); [done|]. intros [= <- <-]. split; [done|]. by intros [].
Qed.

Lemma swap_queues_inv r tr :
  phase r = Polling [] -> inv r tr -> wp swap_queues (fun _ r' o => inv r' (tr ++ o)) r.
Proof.
  intros Hph Hi. unfold swap_queues. wp_steps.
  pose proof (i_queue _ _ Hi) as Hq. destruct Hq as [_ Hproc]. cbn in Hproc. rewrite Hph in Hproc.
  assert (Hc : contents r = DoubleQueue.get (m_queue_recv_msg r) (DoubleQueue.m_current_queue (m_queue_recv_msg r)))
    by (unfold contents, queue_of, DoubleQueue.contents; by rewrite Hph).
  destruct (DoubleQueue.swap (m_queue_recv_msg r)) as [[i q]|] eqn:Hsw.
  - apply (inv_step r); try done.
    + unfold call_backs. cbn. by rewrite Hph.
    + unfold queue_of. cbn. rewrite app_nil_r, Hph.
      by apply (DoubleQueue.step_swap _ (DoubleQueue.mk_sys (m_queue_recv_msg r) None (released tr) (received tr))).
    + intros m Hm. apply (i_msgs _ _ Hi). rewrite Hc.
      destruct (swap_lists _ _ _ Hsw) as [-> Hl]. apply elem_of_app in Hm as [Hm|Hm]; cbn in Hm; rewrite Hl in Hm; [done|].
      rewrite Hproc in Hm. by apply elem_of_nil in Hm.
    + intros m Hm. destruct (swap_lists _ _ _ Hsw) as [-> Hl]. unfold later in Hm. cbn in Hm. rewrite Hl, Hproc in Hm.
      by apply elem_of_nil in Hm.
    + intros m c Hin. by apply elem_of_nil in Hin.
    + intros p c. rewrite app_nil_r. apply (i_order _ _ Hi).
  - rewrite app_nil_r. apply (inv_phase r); try done.
    + unfold queue_of. cbn. by rewrite Hph.
    + intros m Hm _. unfold DoubleQueue.swap in Hsw. rewrite Hc in Hm.
      destruct (DoubleQueue.get _ _) in Hsw, Hm; [by apply elem_of_nil in Hm|done].
    + unfold call_backs. cbn. by rewrite Hph.
Qed.

(** The message at the front of the queue being emptied. *)
Lemma draining_head r i m rest :
  phase r = Draining i -> DoubleQueue.get (m_queue_recv_msg r) i = m :: rest ->
  contents r = m :: rest ++ DoubleQueue.get (m_queue_recv_msg r) (negb i).
Proof. intros Hph Hg. unfold contents, queue_of, DoubleQueue.contents. cbn. by rewrite Hph, Hg. Qed.

(** A message handed out to a connected session is of its connection; one that
    is dropped is of a connection that has ended. *)
Lemma dispatch_order r tr i m rest x :
  inv r tr -> phase r = Draining i -> DoubleQueue.get (m_queue_recv_msg r) i = m :: rest ->
  objs (srv r) !! from m = Some x ->
  let o := if is_valid x && m_isconnected x then [ProcMessage m (current r (from m)); FreeMessage m] else [FreeMessage m] in
  forall p c, of_conn p c (handled (tr ++ o)) = of_conn p c (released (tr ++ o)) \/
    (ended r p c /\ of_conn p c (handled (tr ++ o)) `prefix_of` of_conn p c (released (tr ++ o))).
Proof.
  intros Hi Hph Hg Hx o p c. pose proof (draining_head r i m rest Hph Hg) as Hc.
  destruct (i_msgs _ _ Hi m) as [Hm _]; [rewrite Hc; set_solver|].
  assert (Hcon : connected (srv r) (from m) = m_isconnected x) by (unfold connected; by rewrite Hx).
  rewrite handled_app, released_app, !of_conn_app.
  destruct (decide (from m = p /\ conn m = c)) as [[<- <-]|Hne].
  - unfold o. destruct (is_valid x && m_isconnected x) eqn:Hw; cbn [handled released omap list_omap].
    + left. apply andb_true_iff in Hw as [_ Hw].
      destruct (i_order _ _ Hi (from m) (conn m)) as [->|[[He|[_ He]] _]]; [done|lia|congruence].
    + right. split.
      * right. split; [done|]. rewrite Hcon. apply not_true_iff_false. intros Ht.
        destruct (i_live _ _ Hi _ _ Hx Ht) as [Hv _]. unfold is_valid in Hw. by rewrite Hv, Ht in Hw.
      * rewrite app_nil_r. apply prefix_app_r.
        destruct (i_order _ _ Hi (from m) (conn m)) as [->|[_ ?]]; done.
  - assert (Hn : of_conn p c (handled o) = [] /\ of_conn p c (released o) = []).
    { unfold o, of_conn. destruct (is_valid x && m_isconnected x); cbn; by rewrite ?decide_False. }
    destruct Hn as [-> ->]. rewrite !app_nil_r. apply (i_order _ _ Hi).
Qed.

Lemma dispatch_step r tr i m rest o :
  phase r = Draining i -> DoubleQueue.get (m_queue_recv_msg r) i = m :: rest ->
  released o = [m] -> received o = [] ->
  DoubleQueue.step (fun _ => []) (queue_of r tr)
    (queue_of (set_queue r (DoubleQueue.set (m_queue_recv_msg r) i rest)) (tr ++ o)).
Proof.
  intros Hph Hg H1 H2. unfold queue_of. cbn [m_queue_recv_msg set_queue phase]. rewrite released_app, received_app, Hph, H1, H2.
  apply (DoubleQueue.step_process (fun _ => []) (DoubleQueue.mk_sys _ (Some i) _ _)); [done|].
  unfold DoubleQueue.process_front. cbn [DoubleQueue.qs]. rewrite Hg. cbn. by rewrite Hg.
Qed.

(** The effects of handing out [m]. *)
Definition dispatched (r : server) (m : recv) (x : tcp_session) : list Receive.effect :=
  if is_valid x && m_isconnected x then [ProcMessage m (current r (from m)); FreeMessage m] else [FreeMessage m].

Lemma dispatch_run r i m rest x :
  DoubleQueue.get (m_queue_recv_msg r) i = m :: rest -> objs (srv r) !! from m = Some x ->
  dispatch i m r = Ret (tt, set_queue r (DoubleQueue.set (m_queue_recv_msg r) i rest), dispatched r m x).
Proof.
  intros Hg Hx. unfold dispatch, mbind', mget. rewrite Hx. unfold dispatched.
  destruct (is_valid x && m_isconnected x); cbn; by rewrite Hg.
Qed.

Lemma dispatched_logs r m x :
  released (dispatched r m x) = [m] /\ received (dispatched r m x) = [] /\
  (forall m' c, ProcMessage m' c ∈ dispatched r m x -> m' = m /\ c = current r (from m)).
Proof.
  unfold dispatched. destruct (is_valid x && m_isconnected x); split_and!; try done; intros m' c Hin; set_solver.
Qed.

Lemma dispatch_inv r tr i m rest :
  phase r = Draining i -> DoubleQueue.get (m_queue_recv_msg r) i = m :: rest -> inv r tr ->
  let r' := set_queue r (DoubleQueue.set (m_queue_recv_msg r) i rest) in
  wp (dispatch i m) (fun _ r1 o => r1 = r' /\ inv r1 (tr ++ o) /\ released o = [m]) r.
Proof.
  intros Hph Hg Hi r'. pose proof (draining_head r i m rest Hph Hg) as Hc.
  pose proof (i_msgs _ _ Hi m ltac:(rewrite Hc; set_solver)) as [Hcm Hs].
  assert (Hx : exists x, objs (srv r) !! from m = Some x).
  { destruct Hs as [(x & ? & _)%serves_spec|Hp]; [eauto|].
    destruct (proj1 (ok_idle _ _ (i_pool _ _ Hi) (from m))) as (x & ? & _); [set_solver|eauto]. }
  destruct Hx as [x Hx]. unfold run_post. rewrite (dispatch_run r i m rest x Hg Hx).
  destruct (dispatched_logs r m x) as (H1 & H2 & H3). split_and!; [done| |done].
  apply (inv_step r); try done.
  - by apply (dispatch_step r tr i m rest).
  - intros m' Hm'. apply (i_msgs _ _ Hi). rewrite Hc. revert Hm'. unfold contents, DoubleQueue.contents. cbn. rewrite Hph. cbn.
      rewrite DoubleQueue.get_set_eq, DoubleQueue.get_set_ne. set_solver.
  - intros m' Hm'. apply (i_later _ _ Hi). revert Hm'. unfold later. cbn. by rewrite Hph, DoubleQueue.get_set_ne.
  - intros m' c Hin. by destruct (H3 m' c Hin) as [-> ->].
  - exact (dispatch_order r tr i m rest x Hi Hph Hg Hx).
Qed.

(** Running one call-back; [on_close] of a session that has lost its server does
    nothing. *)
Lemma poll_one_inv r tr c rest :
  phase r = Polling (c :: rest) -> inv r tr ->
  wp (poll_one c rest) (fun _ r' o => inv r' (tr ++ o) /\ phase r' = Polling rest /\ m_cb_mgr r' = m_cb_mgr r /\
    m_queue_recv_msg r' = m_queue_recv_msg r /\ quiet o) r.
Proof.
  intros Hph Hi.
  assert (Hrest : forall r1 tr1, phase r1 = Polling (c :: rest) -> inv r1 tr1 -> inv (set_phase r1 (Polling rest)) tr1).
  { intros r1 tr1 H1. apply inv_phase; try done.
    - unfold queue_of. cbn. by rewrite H1.
    - unfold later. cbn. intros m _ Hm. by apply elem_of_nil in Hm.
    - unfold call_backs. cbn. rewrite H1. set_solver. }
  unfold poll_one, call. destruct c as [p|p]; wp_steps.
  - split_and!; try done; [|by repeat constructor]. apply Hrest; [done|]. apply inv_quiet; [by repeat constructor|done].
  - destruct (i_cbs _ _ Hi (OnClose p)) as [x Hx]; [unfold call_backs; rewrite Hph; set_solver|]. cbn in Hx.
    assert (Hi' : inv r (tr ++ [RunOnClose p])) by (apply inv_quiet; [by repeat constructor|done]).
    eapply wp_mono; [apply (on_server_inv _ True True _ _ Hi')|].
    + intros _. unfold polling. by rewrite Hph.
    + by left.
    + apply wp_and; [apply polled_close_wp; [by eexists|apply (i_pool _ _ Hi)]|by eapply polled_close_moves].
    + intros ? r1 o1 (s1 & -> & Hq & H1 & _). wp_steps. split_and!; try done.
      * apply Hrest; [done|]. rewrite app_nil_r. by rewrite <- app_assoc in H1.
      * rewrite app_nil_r. apply Forall_app. split; [by repeat constructor|done].
Qed.

Lemma begin_turn_inv r tr now limit :
  phase r = Between -> inv r tr ->
  wp (begin_turn now limit) (fun _ r' o => inv r' (tr ++ o) /\ phase r' = Offered /\ m_cb_mgr r' = m_cb_mgr r /\
    m_queue_recv_msg r' = m_queue_recv_msg r /\ quiet o) r.
Proof.
  intros Hph Hi. unfold begin_turn. wp_steps.
  eapply wp_mono; [apply (on_server_inv _ False False r tr Hi)|].
  - done.
  - right. unfold later. by rewrite Hph.
  - apply wp_and.
    + eapply wp_mono; [apply real_run_wp, (i_pool _ _ Hi)|]. by intros ? s1 o1 [? _].
    + apply real_run_moves, (i_pool _ _ Hi).
  - intros ? r1 o1 (s1 & -> & Hq & H1 & _). wp_steps. rewrite app_nil_r. split_and!; try done.
    apply (inv_phase (set_srv r s1)); try done.
    + unfold queue_of. cbn. by rewrite Hph.
    + intros m Hm _. unfold later. cbn. by rewrite Hph.
    + unfold call_backs. cbn. by rewrite Hph.
Qed.

Lemma swap_call_backs_inv r tr :
  phase r = Offered -> inv r tr ->
  wp swap_call_backs (fun _ r' o => inv r' (tr ++ o) /\ phase r' = Polling (m_cb_mgr r) /\ m_cb_mgr r' = [] /\
    m_queue_recv_msg r' = m_queue_recv_msg r /\ o = []) r.
Proof.
  intros Hph Hi. unfold swap_call_backs. wp_steps. rewrite app_nil_r. split_and!; try done.
  apply (inv_phase r); try done.
  - unfold queue_of. cbn. by rewrite Hph.
  - unfold later. cbn. intros m _ Hm. by apply elem_of_nil in Hm.
  - unfold call_backs. cbn. rewrite Hph. set_solver.
Qed.

(** The queue is empty: the turn is over. *)
Lemma end_turn_inv r tr i :
  phase r = Draining i -> DoubleQueue.get (m_queue_recv_msg r) i = [] -> inv r tr -> inv (set_phase r Between) tr.
Proof.
  intros Hph Hg Hi. rewrite <- (app_nil_r tr).
  assert (Hst : DoubleQueue.step (fun _ => []) (queue_of r tr) (queue_of (set_phase r Between) (tr ++ []))).
  { rewrite app_nil_r. unfold queue_of. cbn. rewrite Hph.
    by apply (DoubleQueue.step_end _ (DoubleQueue.mk_sys _ (Some i) _ _) i). }
  assert (Hco : contents (set_phase r Between) = contents r).
  { pose proof (DoubleQueue.queue_step_ok _ _ _ (i_queue _ _ Hi) Hst) as [Hf _].
    pose proof (DoubleQueue.ok_fifo _ (i_queue _ _ Hi)) as Hf'.
    cbn in Hf, Hf'. rewrite app_nil_r, Hf' in Hf. symmetry. by apply app_inv_head in Hf. }
  apply (inv_step r); try done.
  - unfold call_backs. cbn. by rewrite Hph.
  - intros m. rewrite Hco. apply (i_msgs _ _ Hi).
  - intros m Hm%later_contents. apply (i_later _ _ Hi). rewrite Hco in Hm.
    revert Hm. unfold later, contents, DoubleQueue.contents. cbn. by rewrite Hph, Hg.
  - intros m c Hin. by apply elem_of_nil in Hin.
  - intros p c. rewrite app_nil_r. apply (i_order _ _ Hi).
Qed.

Lemma turn_step_inv r tr : inv r tr -> wp Receive.step (fun _ r' o => inv r' (tr ++ o)) r.
Proof.
  intros Hi. unfold Receive.step. wp_steps. destruct (phase r) as [| |[|c rest]|i] eqn:Hph.
  - wp_steps. by rewrite app_nil_r.
  - eapply wp_mono; [by apply swap_call_backs_inv|]. by intros ? r' o [? _].
  - by apply swap_queues_inv.
  - eapply wp_mono; [by apply poll_one_inv|]. by intros ? r' o [? _].
  - destruct (DoubleQueue.get _ i) as [|m rest] eqn:Hg.
    + wp_steps. rewrite app_nil_r. by eapply end_turn_inv.
    + eapply wp_mono; [by eapply dispatch_inv|]. by intros ? r' o (_ & ? & _).
Qed.

(** A session that takes up a connection has no message queued. *)
Lemma posted_accept_inv r tr p :
  p ∈ posted (srv r) -> inv r tr -> wp (session_accepted p) (fun _ r' o => inv r' (tr ++ o)) r.
Proof.
  intros Hp Hi. destruct (proj1 (ok_idle _ _ (i_pool _ _ Hi) p)) as (x & Hx & Hf); [set_solver|].
  unfold session_accepted. wp_steps. apply on_server_wp. cbn [srv set_conns].
  eapply wp_mono; [apply wp_and; [apply handle_wp; [by apply bool_decide_eq_true|apply (i_pool _ _ Hi)]|by apply (posted_accept_objs _ p x)]|].
  intros ? s1 o (Hpool & Hses & x' & Ho & Hf' & Hv). unfold add_cb. wp_steps. rewrite app_nil_r.
  apply inv_quiet; [apply quiet_server|].
  assert (Hno : forall m, m ∈ contents r -> from m <> p).
  { intros m Hm <-. destruct (i_msgs _ _ Hi m Hm) as [_ [(y & Hy & ?)%serves_spec|Hs]]; [congruence|].
    pose proof (ok_nodup _ _ (i_pool _ _ Hi)) as Hnd. rewrite !NoDup_app in Hnd. set_solver. }
  set (r' := set_cbs _ _).
  assert (Hcur : forall q, q <> p -> current r' q = current r q)
    by (intros q Hq; unfold current, r'; cbn; by rewrite lookup_insert_ne).
  assert (Hserv : forall q, q <> p -> serves s1 q = serves (srv r) q)
    by (intros q Hq; unfold serves; by rewrite Ho, lookup_insert_ne).
  destruct Hi as [? Hlive Hcbs Hqu Hmsg Hlater Hown Hord]. constructor; auto.
  - intros q y. cbn. rewrite Ho. destruct (decide (q = p)) as [->|]; [|rewrite lookup_insert_ne by done; eauto].
    rewrite lookup_insert_eq. intros [= <-] _. done.
  - intros c Hc. cbn. rewrite Ho. destruct (decide (target c = p)) as [->|Hne]; [rewrite lookup_insert_eq; eauto|].
    rewrite lookup_insert_ne by done. apply Hcbs. unfold call_backs in *. cbn in Hc.
    rewrite app_assoc, elem_of_app, list_elem_of_singleton in Hc. destruct Hc as [?| ->]; done.
  - intros m Hm. destruct (Hmsg m Hm) as [H1 H2]. split; [rewrite Hcur by auto; done|].
    cbn. rewrite Hserv by auto. by rewrite Hses.
  - intros m Hm. cbn. rewrite Hserv; [by apply Hlater|]. apply Hno. by apply later_contents.
  - intros q c. destruct (Hord q c) as [?|[He ?]]; [by left|right; split; [|done]].
    unfold ended in *. destruct (decide (q = p)) as [->|Hq].
    + left. assert (current r' p = current r p + 1) as -> by (unfold current, r'; cbn; by rewrite lookup_insert_eq). lia.
    + rewrite Hcur by done. destruct He as [He|[He Hd]]; [by left|right; split; [done|]].
      revert Hd. unfold connected. cbn. by rewrite Ho, lookup_insert_ne.
Qed.

(** The other operations of the network threads. *)
Lemma network_inv r tr {A} (m : Srv A) :
  inv r tr -> wp m (fun _ s' _ => pool_ok [] s') (srv r) -> wp m (fun _ s' _ => moves False True (srv r) s') (srv r) ->
  wp (on_server m) (fun _ r' o => inv r' (tr ++ o) /\ exists s', r' = set_srv r s' /\ moves False True (srv r) s') r.
Proof.
  intros Hi H1 H2. eapply wp_mono; [apply (on_server_inv m False True r tr Hi); [done|by left|by apply wp_and]|].
  intros ? r' o (s' & -> & _ & ? & ?). eauto.
Qed.

Lemma accepted_inv r tr p addr error :
  p ∈ accepting (srv r) -> inv r tr ->
  wp (on_server (TcpServer.handle (Accepted p addr error))) (fun _ r' o => inv r' (tr ++ o)) r.
Proof.
  intros Hp Hi. destruct (proj1 (ok_idle _ _ (i_pool _ _ Hi) p)) as (x & Hx & Hf); [set_solver|].
  eapply wp_mono; [apply (network_inv r tr _ Hi)|by intros ? ? ? [? _]].
  - apply accepted_wp; [done|apply (i_pool _ _ Hi)].
  - by eapply accepted_moves.
Qed.

Lemma connection_lost_inv r tr p error x :
  objs (srv r) !! p = Some x -> inv r tr -> wp (connection_lost p error) (fun _ r' o => inv r' (tr ++ o)) r.
Proof.
  intros Hx Hi. unfold connection_lost. wp_steps.
  eapply wp_mono; [apply (network_inv r tr _ Hi); [eapply lost_wp; [done|apply (i_pool _ _ Hi)]|by eapply lost_moves]|].
  intros ? r1 o (H1 & s1 & -> & Hmv). unfold mwhen. destruct (serves _ p); cbn; unfold add_cb; wp_steps; rewrite app_nil_r; [|done].
  destruct H1. constructor; auto.
  intros c Hc. unfold call_backs in *. cbn in *. rewrite app_assoc, elem_of_app, list_elem_of_singleton in Hc.
  destruct Hc as [?| ->]; [by apply i_cbs0|]. cbn. apply (mv_some _ _ _ _ Hmv). by eexists.
Qed.

Lemma close_now_inv r tr p x :
  objs (srv r) !! p = Some x -> inv r tr -> wp (close_now p) (fun _ r' o => inv r' (tr ++ o)) r.
Proof.
  intros Hx Hi. eapply wp_mono; [apply (network_inv r tr _ Hi)|by intros ? ? ? [? _]].
  - unfold call_session. wp_steps. unfold run_post at 1, run_session, mbind', mget. rewrite Hx, handle_close_run. cbn.
    eapply pool_ok_object; [done|done|apply (i_pool _ _ Hi)].
  - eapply wp_mono; [by eapply (close_moves False)|by intros ? ? ? [? _]].
Qed.

Lemma ban_inv r tr e :
  by_network e = true -> (forall p, e <> PostedAccept p) -> TcpServer.enabled e (srv r) = true ->
  (forall p addr error, e <> Accepted p addr error) -> (forall p error, e <> ConnectionLost p error) -> inv r tr ->
  wp (on_server (TcpServer.handle e)) (fun _ r' o => inv r' (tr ++ o)) r.
Proof.
  intros Hn H1 He H2 H3 Hi. eapply wp_mono; [apply (network_inv r tr _ Hi)|by intros ? ? ? [? _]].
  - by apply handle_wp, (i_pool _ _ Hi).
  - destruct e; try done; try naive_solver.
    + cbn [TcpServer.handle]. unfold add_ban_ip. wp_steps.
      destruct (m_banip (srv r) !! addr) as [[until ?]|]; [case_match|]; wp_steps; by apply moves_same.
    + cbn [TcpServer.handle]. unfold remove_ban_ip. wp_steps. by apply moves_same.
Qed.

Lemma receive_handle_inv r tr e : enabled e r = true -> inv r tr -> wp (handle e) (fun _ r' o => inv r' (tr ++ o)) r.
Proof.
  intros He Hi. destruct e as [e|p|p body|now limit|]; cbn [enabled] in He.
  - apply andb_true_iff in He as [Hn He].
    destruct e; try done; cbn [TcpServer.enabled] in He; rewrite ?bool_decide_eq_true in He.
    + by apply accepted_inv.
    + by apply posted_accept_inv.
    + destruct (objs (srv r) !! p) eqn:Hx; [|done]. by eapply connection_lost_inv.
    + by apply ban_inv.
    + by apply ban_inv.
  - destruct (objs (srv r) !! p) eqn:Hx; [|done]. by eapply close_now_inv.
  - by apply received_inv.
  - destruct (phase r) eqn:Hph; try done. eapply wp_mono; [by apply begin_turn_inv|]. by intros ? r' o [? _].
  - by apply turn_step_inv.
Qed.

Lemma construct_inv now n t : inv (Receive.construct now n t) [].
Proof.
  unfold Receive.construct. destruct (wp_run _ _ _ (create_live now n t)) as (? & s & o & -> & Hp & Hl).
  constructor; try done.
  - intros c Hc. by apply elem_of_nil in Hc.
  - intros m Hm. by apply elem_of_nil in Hm.
  - intros m Hm. by apply elem_of_nil in Hm.
  - intros m c Hm. by apply elem_of_nil in Hm.
  - by left.
Qed.

Lemma receive_run_inv now n t l :
  wp (Receive.run l) (fun _ r o => inv r o) (Receive.construct now n t).
Proof.
  apply (wp_for False (fun r tr => inv r tr) l _ _ []); [apply construct_inv|].
  intros e r tr _ Hi. wp_steps. destruct (enabled e r) eqn:He; [by apply receive_handle_inv|]. wp_steps. by rewrite app_nil_r.
Qed.

(** C16: A message never reaches another connection than the one it came on,
    although session objects are used again.  However the network threads'
    accepts, messages, losses and closes fall between the steps of the main
    thread's turns, no step is undefined (every [msg->from] is an object), a
    handled message is of the connection its session then serves, the messages
    received are those released once each in their order, with the rest still
    queued, and those handled of a connection are a prefix of those received on
    it: what is dropped is dropped at its end. *)
Theorem messages_keep_to_their_connection now poolcount thread_count l :
  exists r o,
    Receive.run l (Receive.construct now poolcount thread_count) = Ret (tt, r, o) /\
    (forall m c, ProcMessage m c ∈ o -> c = conn m) /\
    received o = released o ++ contents r /\
    (forall p c, of_conn p c (handled o) `prefix_of` of_conn p c (received o)).
Proof.
  destruct (wp_run _ _ _ (receive_run_inv now poolcount thread_count l)) as ([] & r & o & Hr & Hi).
  exists r, o. split_and!; [done|apply (i_own _ _ Hi)|by apply inv_fifo|].
  intros p c. rewrite (inv_fifo _ _ Hi), of_conn_app. apply prefix_app_r.
  by destruct (i_order _ _ Hi p c) as [->|[_ ?]].
Qed.

(** ** A turn by itself *)

Lemma poll_loop_inv batch r tr :
  phase r = Polling batch -> inv r tr ->
  wp (poll_loop batch) (fun _ r' o => inv r' (tr ++ o) /\ phase r' = Polling [] /\ m_cb_mgr r' = m_cb_mgr r /\
    m_queue_recv_msg r' = m_queue_recv_msg r /\ quiet o) r.
Proof.
  revert r tr. induction batch as [|c rest IH]; intros r tr Hph Hi; cbn [poll_loop].
  - wp_steps. rewrite app_nil_r. split_and!; try done. by apply Forall_nil.
  - wp_steps. eapply wp_mono; [by apply poll_one_inv|]. intros ? r1 o1 (H1 & Hph1 & Hc1 & Hq1 & Ho1).
    eapply wp_mono; [by apply IH|]. intros ? r2 o2 (H2 & ? & Hc2 & Hq2 & Ho2).
    rewrite app_assoc. split_and!; try done; [by rewrite Hc2|by rewrite Hq2|by apply Forall_app].
Qed.

Lemma dispatch_loop_inv fuel i r tr :
  phase r = Draining i -> inv r tr -> (length (DoubleQueue.get (m_queue_recv_msg r) i) < fuel)%nat ->
  wp (dispatch_loop fuel i) (fun _ r' o => inv r' (tr ++ o) /\ phase r' = Between /\ m_cb_mgr r' = m_cb_mgr r /\
    released o = DoubleQueue.get (m_queue_recv_msg r) i /\
    contents r' = DoubleQueue.get (m_queue_recv_msg r) (negb i)) r.
Proof.
  revert r tr. induction fuel as [|fuel IH]; intros r tr Hph Hi Hl; [lia|]. cbn [dispatch_loop]. wp_steps.
  destruct (DoubleQueue.get _ i) as [|m rest] eqn:Hg.
  - wp_steps. rewrite app_nil_r. split_and!; try done; [by eapply end_turn_inv|].
    pose proof (DoubleQueue.ok_proc _ (i_queue _ _ Hi)) as Hp. cbn in Hp. rewrite Hph in Hp.
    unfold contents, DoubleQueue.contents. cbn. by rewrite Hp.
  - wp_steps. eapply wp_mono; [by eapply dispatch_inv|]. intros ? r1 o1 (-> & H1 & Ho1).
    eapply wp_mono; [eapply IH; [exact Hph|exact H1|]|].
    + cbn. rewrite DoubleQueue.get_set_eq. cbn in Hl. lia.
    + cbn. rewrite DoubleQueue.get_set_eq, DoubleQueue.get_set_ne. intros ? r2 o2 (H2 & ? & ? & Ho2 & ?).
      rewrite app_assoc. split_and!; try done. by rewrite released_app, Ho1, Ho2.
Qed.

(** The swap and the loop over the messages. *)
Lemma hand_out_wp is_wait r tr :
  phase r = Polling [] -> inv r tr ->
  wp (swap_queues ;;;
      r1 <- mget ;;
      match phase r1 with
      | Draining i => dispatch_loop (S (length (DoubleQueue.get (m_queue_recv_msg r1) i))) i
      | _ => mwhen is_wait (memit CpuWait)
      end)
     (fun _ r' o => released o = contents r /\ contents r' = [] /\ m_cb_mgr r' = m_cb_mgr r /\ phase r' = Between) r.
Proof.
  intros Hph Hi. wp_steps.
  pose proof (DoubleQueue.ok_proc _ (i_queue _ _ Hi)) as Hq0. cbn in Hq0. rewrite Hph in Hq0.
  pose proof (swap_queues_inv r tr Hph Hi) as Hs. revert Hs. unfold swap_queues, mmodify, run_post at 1 2.
  assert (Hc : contents r = DoubleQueue.get (m_queue_recv_msg r) (DoubleQueue.m_current_queue (m_queue_recv_msg r)))
    by (unfold contents, DoubleQueue.contents; cbn; by rewrite Hph).
  destruct (DoubleQueue.swap (m_queue_recv_msg r)) as [[i q]|] eqn:Hs; intros H1; wp_steps; cbn [phase set_phase].
  - destruct (swap_lists _ _ _ Hs) as [-> Hl].
    eapply wp_mono; [apply dispatch_loop_inv; [done|exact H1|cbn; lia]|].
    cbn. rewrite !Hl, Hq0, Hc. by intros ? r2 o2 (_ & ? & ? & ? & ?).
  - unfold DoubleQueue.swap in Hs. destruct (DoubleQueue.get _ _) eqn:Hg in Hs; [|done].
    destruct is_wait; wp_steps; (split_and!; [by rewrite Hc|exact Hg|done|done]).
Qed.

Lemma turn_wp is_wait r o now limit :
  phase r = Between -> inv r o ->
  wp (Receive._real_run is_wait now limit) (fun _ r' o' => released o' = contents r /\ contents r' = [] /\
    m_cb_mgr r' = [] /\ phase r' = Between) r.
Proof.
  intros Hph Hi. unfold Receive._real_run. wp_steps.
  eapply wp_mono; [by apply begin_turn_inv|]. intros ? r1 o1 (H1 & Hph1 & Hc1 & Hq1 & Ho1). wp_steps.
  eapply wp_mono; [by apply swap_call_backs_inv|]. intros ? r2 o2 (H2 & Hph2 & Hc2 & Hq2 & ->). wp_steps.
  eapply wp_mono; [by apply poll_loop_inv|]. intros ? r3 o3 (H3 & Hph3 & Hc3 & Hq3 & Ho3).
  eapply wp_mono; [by eapply hand_out_wp|]. intros ? r4 o4 (H4 & ? & Hc4 & ?).
  destruct (quiet_logs o1 Ho1) as (_ & Hr1 & _). destruct (quiet_logs o3 Ho3) as (_ & Hr3 & _).
  rewrite !released_app, Hr1, Hr3, H4. split_and!; try done; [|by rewrite Hc4, Hc3, Hc2].
  cbn. unfold contents, DoubleQueue.contents. cbn. by rewrite Hph3, Hph, Hq3, Hq2, Hq1.
Qed.


(** *** Examples *)

(** The state and the effects after a list of events, one session in the pool. *)
Definition after (l : list event) : server :=
  match Receive.run l (Receive.construct 0 1 1) with Ret (_, r, _) => r | UB _ => Receive.construct 0 1 1 end.

Definition seen (l : list event) : list Receive.effect :=
  match Receive.run l (Receive.construct 0 1 1) with
  | Ret (_, _, o) => omap (fun e => match e with OfServer _ => None | _ => Some e end) o
  | UB _ => []
  end.

(** Session 0 takes up a connection. *)
Definition connects (now addr : Z) : list event :=
  [BeginTurn now 40; Step; Step; Network (Accepted 0 addr false); Network (PostedAccept 0)].


(** A message queued between the two swaps of a turn is handled before
    [on_accept] of its session has run. *)
Lemma message_before_on_accept :
  let l := [BeginTurn 0 40; Step; Network (Accepted 0 7 false); Network (PostedAccept 0);
            Received 0 (mk_message [1]); Step; Step] in
  seen l = [Queued (mk_recv 0 1 (mk_message [1])); ProcMessage (mk_recv 0 1 (mk_message [1])) 1;
            FreeMessage (mk_recv 0 1 (mk_message [1]))] /\
  m_cb_mgr (after l) = [OnAccept 0].
Proof. vm_compute. by split. Qed.

(** A read and a write that both fail queue [on_close] twice.  When the second is
    queued while the first is about to run, it runs a turn later and takes its
    session from the connection accepted in between. *)
Lemma second_close_takes_next_connection :
  let l := connects 0 7 ++ [Network (ConnectionLost 0 true); BeginTurn 1 40; Step; Network (ConnectionLost 0 true);
            Step; Step; Step; BeginTurn 2 40; Network (Accepted 0 9 false); Network (PostedAccept 0); Step] in
  connected (srv (after l)) 0 = true /\ current (after l) 0 = 2 /\ phase (after l) = Polling [OnClose 0; OnAccept 0] /\
  connected (srv (after (l ++ [Step]))) 0 = false /\ m_sessions (srv (after (l ++ [Step]))) = [0].
Proof. vm_compute. by split_and!. Qed.

(** ** The client's turn *)

Module ClientTurn.

(** What [add_cb] queues: [on_connect], [on_connect_failed], [on_close]. *)
Inductive client_call : Set := OnConnect | OnConnectFailed | OnClose.

(** [tcp_client] with its [m_cb_mgr] and [m_queue_recv_msg]. *)
Record client : Type := mk_client {
  tcp : TcpClient.TcpClient.tcp_client;
  calls : list client_call;
  queue : DoubleQueue.queue2 message_t
}.

Inductive effect : Type :=
| OfClient (e : TcpClient.TcpClient.effect)
| Ran (c : client_call)
| ProcMessage (m : message_t)
| FreeMessage (m : message_t)
| CpuWait.

Definition construct : client := mk_client TcpClient.TcpClient.construct [] DoubleQueue.construct.

Definition queued_by (e : TcpClient.TcpClient.effect) : option client_call :=
  match e with
  | TcpClient.TcpClient.CbOnConnect => Some OnConnect
  | TcpClient.TcpClient.CbOnConnectFailed => Some OnConnectFailed
  | TcpClient.TcpClient.CbClose _ => Some OnClose
  | _ => None
  end.

(** A function of [TcpClient]; the call-backs it adds are queued. *)
Definition on_client {A} (m : M TcpClient.TcpClient.tcp_client TcpClient.TcpClient.effect A) : M client effect A := fun r =>
  match m (tcp r) with
  | UB why => UB why
  | Ret (a, c, o) => Ret (a, mk_client c (calls r ++ omap queued_by o) (queue r), map OfClient o)
  end.

Definition push_message (m : message_t) : M client effect unit :=
  mmodify (fun r => mk_client (tcp r) (calls r) (DoubleQueue.push (queue r) m)).

(** [on_connect] starts reading; [tcp_session::on_close] does nothing without a
    server. *)
Definition call (c : client_call) : M client effect unit :=
  memit (Ran c) ;;;
  match c with OnConnect => on_client TcpClient.TcpClient.on_connect | _ => mret' tt end.

(** [m_cb_mgr.poll ()]. *)
Definition poll : M client effect unit :=
  r <- mget ;;
  mput (mk_client (tcp r) [] (queue r)) ;;;
  mfor (calls r) call.

(** The two queues of messages; unlike the server's, the loop does not look at
    the connection. *)
Definition hand_out (is_wait : bool) : M client effect unit :=
  r <- mget ;;
  match DoubleQueue.poll (fun _ => []) (queue r) with
  | None => mub "fuel"
  | Some (q, []) => mwhen is_wait (memit CpuWait)
  | Some (q, ms) =>
      mput (mk_client (tcp r) (calls r) q) ;;;
      mfor ms (fun m => memit (ProcMessage m) ;;; memit (FreeMessage m))
  end.

Definition turn (is_wait : bool) (now : Z) : M client effect unit :=
  on_client (TcpClient.TcpClient.run_no_wait now) ;;; poll ;;; hand_out is_wait.

(** [tcp_client::run] and [run_no_wait] at time [now]. *)
Definition run : Z -> M client effect unit := turn true.
Definition run_no_wait : Z -> M client effect unit := turn false.

(** The destructor. *)
Definition _clear_recv_msg : M client effect unit :=
  mmodify (fun r => mk_client (tcp r) (calls r) (DoubleQueue.clear_recv (queue r))).

Definition processed (o : list effect) : list message_t :=
  omap (fun e => match e with ProcMessage m => Some m | _ => None end) o.

End ClientTurn.
Import ClientTurn.

Definition no_messages (o : list ClientTurn.effect) : Prop := processed o = [].

Lemma processed_app o1 o2 : processed (o1 ++ o2) = processed o1 ++ processed o2.
Proof. apply omap_app. Qed.

Lemma on_client_wp {A} (m : M TcpClient.TcpClient.tcp_client TcpClient.TcpClient.effect A) r :
  wp m (fun _ _ _ => True) (tcp r) ->
  wp (on_client m) (fun _ r' o => queue r' = queue r /\ processed o = []) r.
Proof.
  unfold run_post, on_client. destruct (m (tcp r)) as [[[a c] o]|]; [|done]. intros _. split; [done|].
  induction o; [done|]. by cbn.
Qed.

Lemma hand_out_all (ms : list message_t) (r : ClientTurn.client) :
  wp (mfor ms (fun m => memit (ClientTurn.ProcMessage m) ;;; memit (ClientTurn.FreeMessage m)))
     (fun _ r' o => r' = r /\ processed o = ms) r.
Proof.
  induction ms as [|m ms IH]; cbn [mfor]; wp_steps; [done|].
  eapply wp_mono; [exact IH|]. intros ? r' o (-> & Ho). split; [done|]. cbn. by f_equal.
Qed.

(** A client's turn ends, and hands out in order all messages received before it,
    whether or not their connection still stands. *)
Theorem client_turn_in_order (r : ClientTurn.client) is_wait now :
  DoubleQueue.get (queue r) (negb (DoubleQueue.m_current_queue (queue r))) = [] ->
  exists r' o, ClientTurn.turn is_wait now r = Ret (tt, r', o) /\
    processed o = DoubleQueue.get (queue r) (DoubleQueue.m_current_queue (queue r)) /\
    forall i, DoubleQueue.get (queue r') i = [].
Proof.
  intros Hq. enough (Hw : wp (ClientTurn.turn is_wait now) (fun _ r' o =>
    processed o = DoubleQueue.get (queue r) (DoubleQueue.m_current_queue (queue r)) /\
    forall i, DoubleQueue.get (queue r') i = []) r).
  { destruct (wp_run _ _ _ Hw) as ([] & r' & o & ? & ?). eauto. }
  unfold ClientTurn.turn. wp_steps. eapply wp_mono; [apply on_client_wp|].
  { unfold TcpClient.TcpClient.run_no_wait, TcpClient.TcpClient.reconnect. wp_steps. by repeat (case_match; wp_steps). }
  intros ? r1 o1 (H1 & Ho1). wp_steps. unfold ClientTurn.poll. wp_steps.
  eapply wp_mono; [apply (wp_for False (fun r' o => queue r' = queue r1 /\ processed o = []) _ _ _ []); [done|]|].
  { intros c r2 tr _ (H2 & Ho2). unfold call. wp_steps. destruct c; wp_steps;
      try (by rewrite processed_app, Ho2). eapply wp_mono; [by apply on_client_wp|].
    intros ? r3 o3 (H3 & Ho3). split; [by rewrite H3|]. by rewrite !processed_app, Ho2, Ho3. }
  intros ? r2 o2 (H2 & Ho2). change (processed o2 = []) in Ho2. wp_steps. unfold hand_out. wp_steps.
  destruct (poll_runs_batch (fun _ => []) (queue r2)) as (q & Hp & Hcur & Hoth); [by rewrite H2, H1|].
  assert (Hn : forall l : list message_t, concat (map (fun _ => @nil message_t) l) = []) by (by induction l).
  rewrite Hn in Hcur.
  assert (Hemp : forall i, DoubleQueue.get q i = []) by (by intros i; destruct i, (DoubleQueue.m_current_queue q)).
  rewrite Hp. destruct (DoubleQueue.get (queue r2) _) as [|m ms] eqn:Hg.
  - assert (Hr2 : forall i, DoubleQueue.get (queue r2) i = []).
    { intros i. rewrite <- H1, <- H2 in Hq. by destruct i, (DoubleQueue.m_current_queue (queue r2)). }
    rewrite H2, H1 in Hg. destruct is_wait; cbn [mwhen]; wp_steps; by rewrite !processed_app, Ho1, Ho2, Hg.
  - wp_steps. eapply wp_mono; [apply hand_out_all|]. intros ? r3 o3 (-> & Ho3). cbn [queue].
    rewrite H2, H1 in Hg. by rewrite !processed_app, Ho1, Ho2, Ho3, Hg.
Qed.
