(* ===== verification/TaskPool.v ===== *)
(** The worker threads of a listener: [common/task_thread_pool.h/.cpp]
    ([task_thread], [task_thread_pool]), the task they run
    ([compress_send_task] of [common/tcpsession.cpp]) and the scratch buffers they
    use ([tcp_server::get_thread_buffer], [static_compress_buffer]).

    A worker empties one queue of a [DoubleQueue] while producers fill the other.
    Its loop is cut where the main thread and the network threads can act: between
    the test of [m_exit] and the swap, before [execute], between choosing the buffer
    and filling it, and before [end] ([work]).  The sessions are those of
    [TcpSession]; the network threads may change them at any time ([Network]). *)

From S2P Require Import Prelude MessageInterface TcpSession DoubleQueue.
From stdpp Require Import prelude gmap strings list relations.
#[local] Open Scope Z_scope.

Module TaskPool.
Import Message TcpSession.

(** [compress_send_task]; [result] is in [stage], as only the task at the front of
    a queue has one. *)
Record compress_send_task : Type := mk_task { data : list Z; session : Z; thread_index : Z }.

Inductive buffer : Set :=
| ThreadBuffer (i : Z)
| StaticBuffer.

(** The task at the front: not begun, in [_compress_message] with a buffer, or
    executed, with [result] or without. *)
Inductive stage_t : Type :=
| Waiting
| Compressing (b : buffer)
| Executed (result : option message_t).

(** [tasks] is the double queue with what was pushed and run so far. *)
Record task_thread : Type := mk_thread {
  tasks : DoubleQueue.sys compress_send_task;
  stage : stage_t;
  m_exit : bool;
  exited : bool
}.

(** [joining]: the threads [delete[]] has still to destroy, while [shutdown] is
    under way; they are destroyed from the last to the first. *)
Record pool : Type := mk_pool {
  m_threads : option (gmap Z task_thread);
  m_thread_count : Z;
  joining : option (list Z);
  sessions : gmap Z tcp_session
}.

Inductive effect : Type :=
| OfSession (p : Z) (e : TcpSession.effect)
| Leaked (t : compress_send_task)
| Ended (t : compress_send_task).

Abbreviation Pool := (M pool effect).

Definition set_threads (s : pool) th : pool := mk_pool th (m_thread_count s) (joining s) (sessions s).
Definition set_joining (s : pool) j : pool := mk_pool (m_threads s) (m_thread_count s) j (sessions s).
Definition set_sessions (s : pool) x : pool := mk_pool (m_threads s) (m_thread_count s) (joining s) x.
Definition set_tasks (t : task_thread) q : task_thread := mk_thread q (stage t) (m_exit t) (exited t).
Definition set_stage (t : task_thread) st : task_thread := mk_thread (tasks t) st (m_exit t) (exited t).

(** *** The pool *)

(** [m_thread_count] is not initialised. *)
Definition construct (uninitialised : Z) (sessions : gmap Z tcp_session) : pool :=
  mk_pool None uninitialised None sessions.

Definition new_thread : task_thread := mk_thread DoubleQueue.start Waiting false false.

Definition indices (n : Z) : list Z := map Z.of_nat (seq 0 (Z.to_nat n)).

(** [startup] with no threads; [tcp_server::create] is called once. *)
Definition startup (thread_count : Z) : Pool unit :=
  mmodify (fun s =>
    mk_pool (Some (list_to_map (map (fun i => (i, new_thread)) (indices thread_count)))) thread_count
      (joining s) (sessions s)).

(** [push_task]: a task whose index is no thread's is neither run nor deleted. *)
Definition push_task (t : compress_send_task) : Pool unit :=
  s <- mget ;;
  if (thread_index t <? m_thread_count s) && (0 <=? thread_index t) then
    match m_threads s with
    | None => mub "push_task: null m_threads"
    | Some th =>
        match th !! thread_index t with
        | None => mub "push_task: index"
        | Some w =>
            let q := tasks w in
            let q' := DoubleQueue.mk_sys (DoubleQueue.push (DoubleQueue.qs q) t) (DoubleQueue.proc q)
                        (DoubleQueue.ran q) (DoubleQueue.pushed q ++ [t]) in
            mput (set_threads s (Some (<[thread_index t := set_tasks w q']> th)))
        end
    end
  else memit (Leaked t).

(** [shutdown] begins: the destructor of the last thread sets its [m_exit]. *)
Definition shutdown : Pool unit :=
  s <- mget ;;
  match m_threads s with
  | None => mret' tt
  | Some _ => mput (set_joining s (Some (reverse (indices (m_thread_count s)))))
  end.

(** The destructor of the next thread: sets [m_exit], and once its [run] has
    returned goes on; after the first one the array is freed. *)
Definition join_step : Pool unit :=
  s <- mget ;;
  match joining s, m_threads s with
  | Some [], _ => mput (mk_pool None (m_thread_count s) None (sessions s))
  | Some (i :: rest), Some th =>
      match th !! i with
      | None => mub "~task_thread"
      | Some w =>
          if exited w then mput (set_joining s (Some rest))
          else mput (set_threads s (Some (<[i := mk_thread (tasks w) (stage w) true (exited w)]> th)))
      end
  | _, _ => mret' tt
  end.

Section codec.
Context (cs : option compress_strategy) (junk : nat -> Z).

(** *** [compress_send_task] *)

Definition get_session (p : Z) : Pool tcp_session :=
  s <- mget ;;
  match sessions s !! p with Some x => mret' x | None => mub "task: session" end.

(** [_compress_message]'s choice: the buffer of thread [t_idx], or the one all
    threads share. *)
Definition buffer_of (x : tcp_session) (t_idx : Z) : buffer :=
  match m_father x with
  | Some _ => if 0 <=? t_idx then ThreadBuffer t_idx else StaticBuffer
  | None => StaticBuffer
  end.

(** [execute] up to the compression. *)
Definition execute (t : compress_send_task) : Pool stage_t :=
  x <- get_session (session t) ;;
  mret' (if is_valid x then Compressing (buffer_of x (thread_index t)) else Executed None).

(** [session->_send_message (result)] on the worker's thread. *)
Definition _send_message (p : Z) (m : message_t) : Pool unit :=
  x <- get_session p ;;
  match TcpSession._send_message m x with
  | UB why => mub why
  | Ret (_, x', o) =>
      mmodify (fun s => set_sessions s (<[p := x']> (sessions s))) ;;;
      mfor o (fun e => memit (OfSession p e))
  end.

(** [end]: [result] is not initialised when the session was not valid before. *)
Definition end_task (t : compress_send_task) (result : option message_t) : Pool unit :=
  x <- get_session (session t) ;;
  if is_valid x && m_isconnected x then
    match result with
    | None => mub "compress_send_task: uninitialised result"
    | Some m => _send_message (session t) m
    end
  else mret' tt.

(** *** [task_thread::run] *)

Definition put_thread (i : Z) (w : task_thread) : Pool unit :=
  mmodify (fun s => set_threads s (match m_threads s with Some th => Some (<[i := w]> th) | None => None end)).

(** The next step of thread [i], in state [w]. *)
Definition work (i : Z) (w : task_thread) : Pool unit :=
  let q := tasks w in
  match DoubleQueue.proc q with
  | None =>
      if m_exit w then put_thread i (mk_thread q (stage w) (m_exit w) true)
      else
        match DoubleQueue.swap (DoubleQueue.qs q) with
        | None => mret' tt
        | Some (j, q') =>
            put_thread i (set_tasks w (DoubleQueue.mk_sys q' (Some j) (DoubleQueue.ran q) (DoubleQueue.pushed q)))
        end
  | Some j =>
      match DoubleQueue.get (DoubleQueue.qs q) j with
      | [] => put_thread i (set_tasks w (DoubleQueue.mk_sys (DoubleQueue.qs q) None (DoubleQueue.ran q) (DoubleQueue.pushed q)))
      | t :: rest =>
          match stage w with
          | Waiting => st <- execute t ;; put_thread i (set_stage w st)
          | Compressing _ =>
              put_thread i (set_stage w (Executed (Some (_compress_message cs junk (data t)))))
          | Executed result =>
              end_task t result ;;;
              memit (Ended t) ;;;
              put_thread i (mk_thread
                (DoubleQueue.mk_sys (DoubleQueue.set (DoubleQueue.qs q) j rest) (Some j) (DoubleQueue.ran q ++ [t])
                   (DoubleQueue.pushed q)) Waiting (m_exit w) (exited w))
          end
      end
  end.

(** *** [tcp_session::send_message] with its task pushed *)

Definition deliver (p : Z) (e : TcpSession.effect) : Pool unit :=
  match e with
  | PushTask payload ti => push_task (mk_task payload p ti)
  | _ => memit (OfSession p e)
  end.

Definition send_message (p : Z) (payload : option (list Z)) : Pool unit :=
  x <- get_session p ;;
  match TcpSession.send_message cs junk payload x with
  | UB why => mub why
  | Ret (_, x', o) =>
      mmodify (fun s => set_sessions s (<[p := x']> (sessions s))) ;;;
      mfor o (deliver p)
  end.

(** *** Everything that happens *)

Inductive event : Type :=
| Startup (thread_count : Z)
| Shutdown
| Join
| Send (p : Z) (payload : option (list Z))
| Work (i : Z)
| Network (p : Z) (x : tcp_session).

Definition the_thread (s : pool) (i : Z) : option task_thread :=
  match m_threads s with Some th => th !! i | None => None end.

Definition running (s : pool) : bool := match m_threads s, joining s with Some _, None => true | _, _ => false end.

(** The main thread starts the pool, sends and shuts it down, and does nothing
    else while it joins; the other events are other threads'. *)
Definition enabled (e : event) (s : pool) : bool :=
  match e with
  | Startup _ => match m_threads s, joining s with None, None => true | _, _ => false end
  | Shutdown => match joining s with None => true | Some _ => false end
  | Join => match joining s with None => false | Some _ => true end
  | Send p _ => match joining s, sessions s !! p with None, Some _ => true | _, _ => false end
  | Work i => match the_thread s i with Some w => negb (exited w) | None => false end
  | Network p _ => match sessions s !! p with Some _ => true | None => false end
  end.

Definition handle (e : event) : Pool unit :=
  match e with
  | Startup n => startup n
  | Shutdown => shutdown
  | Join => join_step
  | Send p payload => send_message p payload
  | Work i =>
      s <- mget ;;
      match the_thread s i with Some w => work i w | None => mret' tt end
  | Network p x => mmodify (fun s => set_sessions s (<[p := x]> (sessions s)))
  end.

Definition run (allowed : event -> pool -> bool) (l : list event) : Pool unit :=
  mfor l (fun e => s <- mget ;; if allowed e s then handle e else mret' tt).

End codec.

(** The task at the front of the queue thread [w] empties. *)
Definition at_work (w : task_thread) : option compress_send_task :=
  match DoubleQueue.proc (tasks w) with
  | Some j => head (DoubleQueue.get (DoubleQueue.qs (tasks w)) j)
  | None => None
  end.

(** Thread [w] has found session [p] not valid and has not ended the task. *)
Definition skipped (p : Z) (w : task_thread) : bool :=
  match at_work w, stage w with
  | Some t, Executed None => session t =? p
  | _, _ => false
  end.

(** The server of session [x] has threads to choose from by number. *)
Definition can_choose (x : tcp_session) : bool :=
  match m_father x with
  | Some f => negb (is_thread_task_transfer_id_mode f && (get_task_thread_count f =? 0))
  | None => true
  end.

(** No session becomes valid between the two looks a worker takes at it, and none
    sends without threads. *)
Definition in_time (e : event) (s : pool) : bool :=
  enabled e s &&
  match e with
  | Network p x =>
      negb (is_valid x) ||
      match m_threads s with
      | Some th => forallb (fun kv => negb (skipped p kv.2)) (map_to_list th)
      | None => true
      end
  | Send p _ =>
      match m_threads s, sessions s !! p with Some _, Some x => can_choose x | _, _ => false end
  | _ => true
  end.

End TaskPool.
Import Message TcpSession TaskPool.

(** ** What sending does to the sessions *)

Lemma session_send_run m x :
  exists x' o, TcpSession._send_message m x = Ret (tt, x', o) /\ is_valid x' = is_valid x.
Proof.
  unfold TcpSession._send_message, mbind', mget. destruct (m_isconnected x); cbn; [|by eauto].
  match goal with |- context [if ?b then _ else _] => destruct b end; cbn; eauto.
Qed.

Lemma session_send_message_run cs junk payload x :
  can_choose x = true ->
  exists x' o, TcpSession.send_message cs junk payload x = Ret (tt, x', o) /\ is_valid x' = is_valid x.
Proof.
  unfold can_choose. intros Hc. unfold TcpSession.send_message. destruct payload as [d|].
  - unfold mbind', mget. cbn beta iota zeta.
    match goal with |- context [if ?b then mret' tt else _] => destruct b end; [by do 2 eexists|].
    destruct (m_father x) as [f|]; [destruct (m_iscompress x);
      [destruct (is_thread_task_transfer_id_mode f), (get_task_thread_count f =? 0); try done; by do 2 eexists|]|];
      match goal with |- context [TcpSession._send_message ?m x] =>
        destruct (session_send_run m x) as (x' & o & -> & Hv) end; eauto.
  - by do 2 eexists.
Qed.

(** ** The invariant *)

(** Thread [i]: its queue is in order, all its tasks are its own, a task is at the
    front while one is being run, and one that was skipped belongs to a session
    that is still not valid. *)
Record thread_ok (ss : gmap Z tcp_session) (i : Z) (w : task_thread) : Prop := {
  t_queue : DoubleQueue.ok (tasks w);
  t_mine : forall t, t ∈ DoubleQueue.pushed (tasks w) -> thread_index t = i /\ is_Some (ss !! session t);
  t_stage : stage w <> Waiting -> is_Some (at_work w);
  t_buffer : forall b, stage w = Compressing b -> b = ThreadBuffer i \/ b = StaticBuffer;
  t_skipped : forall p x, skipped p w = true -> ss !! p = Some x -> is_valid x = false
}.

Record pool_ok (s : pool) : Prop := {
  p_threads : forall th i, m_threads s = Some th -> is_Some (th !! i) <-> 0 <= i < m_thread_count s;
  p_each : forall th i w, m_threads s = Some th -> th !! i = Some w -> thread_ok (sessions s) i w;
  p_joining : forall l i, joining s = Some l -> i ∈ l -> 0 <= i < m_thread_count s
}.

Lemma elem_of_indices n i : i ∈ indices n <-> 0 <= i < n.
Proof.
  unfold indices. rewrite list_elem_of_fmap. split.
  - intros (k & -> & Hk%elem_of_seq). lia.
  - intros Hi. exists (Z.to_nat i). rewrite elem_of_seq. lia.
Qed.

(** The sessions change; none that a worker has skipped becomes valid. *)
Lemma thread_ok_sessions ss ss' i w :
  (forall p, is_Some (ss !! p) -> is_Some (ss' !! p)) ->
  (forall p x', ss' !! p = Some x' -> is_valid x' = true ->
     skipped p w = false \/ exists x, ss !! p = Some x /\ is_valid x = true) ->
  thread_ok ss i w -> thread_ok ss' i w.
Proof.
  intros Hd Hv []. constructor; auto.
  - intros t Ht. destruct (t_mine0 t Ht). auto.
  - intros p x Hs Hx. destruct (is_valid x) eqn:Hvx; [|done].
    destruct (Hv p x Hx Hvx) as [Hf|(y & Hy & Hvy)]; [congruence|].
    specialize (t_skipped0 p y Hs Hy). congruence.
Qed.

(** Replacing one session by one as valid as it. *)
Lemma pool_ok_session s p x x' :
  sessions s !! p = Some x -> is_valid x' = is_valid x -> pool_ok s -> pool_ok (set_sessions s (<[p := x']> (sessions s))).
Proof.
  intros Hx Hv []. constructor; cbn; [done| |done].
  intros th i w Hth Hw. eapply thread_ok_sessions; [..|by eapply p_each0].
  - intros q [y Hy]. destruct (decide (q = p)) as [->|]; [rewrite lookup_insert_eq|rewrite lookup_insert_ne by done]; eauto.
  - intros q y. destruct (decide (q = p)) as [->|].
    + rewrite lookup_insert_eq. intros [= <-] Hvy. right. exists x. by rewrite <- Hv.
    + rewrite lookup_insert_ne by done. eauto.
Qed.

(** Replacing one thread. *)
Lemma pool_ok_thread s th i w w' :
  m_threads s = Some th -> th !! i = Some w -> thread_ok (sessions s) i w' -> pool_ok s ->
  pool_ok (set_threads s (Some (<[i := w']> th))).
Proof.
  intros Hth Hw Hok []. constructor; cbn; [| |done].
  - intros th' j [= <-]. rewrite <- (p_threads0 th j Hth).
    destruct (decide (j = i)) as [->|]; [rewrite lookup_insert_eq, Hw|rewrite lookup_insert_ne by done]; naive_solver.
  - intros th' j v [= <-]. destruct (decide (j = i)) as [->|].
    + rewrite lookup_insert_eq. by intros [= <-].
    + rewrite lookup_insert_ne by done. eauto.
Qed.

Lemma get_session_wp s p x (Q : tcp_session -> pool -> list TaskPool.effect -> Prop) :
  sessions s !! p = Some x -> Q x s [] -> wp (get_session p) Q s.
Proof. intros Hx HQ. unfold get_session. wp_steps. by rewrite Hx. Qed.

(** A task whose queue has just received it. *)
Lemma thread_ok_push ss i w t :
  thread_index t = i -> is_Some (ss !! session t) -> thread_ok ss i w ->
  thread_ok ss i (set_tasks w (DoubleQueue.mk_sys (DoubleQueue.push (DoubleQueue.qs (tasks w)) t) (DoubleQueue.proc (tasks w))
                    (DoubleQueue.ran (tasks w)) (DoubleQueue.pushed (tasks w) ++ [t]))).
Proof.
  intros Hi Hs Hok.
  assert (Hat : at_work (set_tasks w (DoubleQueue.mk_sys (DoubleQueue.push (DoubleQueue.qs (tasks w)) t)
     (DoubleQueue.proc (tasks w)) (DoubleQueue.ran (tasks w)) (DoubleQueue.pushed (tasks w) ++ [t]))) = at_work w).
  { unfold at_work. cbn. pose proof (DoubleQueue.ok_proc _ (t_queue _ _ _ Hok)) as Hp.
    destruct (DoubleQueue.proc (tasks w)) as [j|]; [|done].
    unfold DoubleQueue.push. by rewrite Hp, DoubleQueue.get_set_ne'. }
  destruct Hok. constructor.
  - eapply (DoubleQueue.queue_step_ok (fun _ => [])); [done|]. apply DoubleQueue.step_push.
  - cbn. intros t' [Ht|Ht]%elem_of_app; [auto|]. apply list_elem_of_singleton in Ht as ->. done.
  - rewrite Hat. done.
  - done.
  - intros p x. unfold skipped. rewrite Hat. apply t_skipped0.
Qed.

Lemma push_task_wp s t :
  pool_ok s -> is_Some (m_threads s) -> is_Some (sessions s !! session t) ->
  wp (push_task t) (fun _ s' _ => pool_ok s' /\ is_Some (m_threads s') /\ sessions s' = sessions s) s.
Proof.
  intros Hok [th Hth] Hs. unfold push_task. wp_steps.
  destruct ((thread_index t <? m_thread_count s) && (0 <=? thread_index t)) eqn:Hr; wp_steps; [|by rewrite Hth].
  apply andb_true_iff in Hr as [H1%Z.ltb_lt H2%Z.leb_le]. rewrite Hth.
  destruct (proj2 (p_threads _ Hok th (thread_index t) Hth) ltac:(lia)) as [w Hw]. rewrite Hw. wp_steps.
  split_and!; [|by eexists|done]. eapply pool_ok_thread; [done|done| |done].
  apply thread_ok_push; [done|done|by eapply p_each].
Qed.

Lemma pool_send_message_wp cs junk s p payload x :
  pool_ok s -> is_Some (m_threads s) -> sessions s !! p = Some x -> can_choose x = true ->
  wp (send_message cs junk p payload) (fun _ s' _ => pool_ok s') s.
Proof.
  intros Hok Hth Hx Hch. unfold send_message. wp_steps. eapply get_session_wp; [done|].
  destruct (session_send_message_run cs junk payload x Hch) as (x' & o & -> & Hv). wp_steps.
  set (s1 := set_sessions s _).
  assert (H1 : pool_ok s1 /\ is_Some (m_threads s1) /\ is_Some (sessions s1 !! p)).
  { split_and!; [by eapply pool_ok_session|done|]. cbn. rewrite lookup_insert_eq. eauto. }
  eapply wp_mono; [apply (wp_for False (fun s' _ => pool_ok s' /\ is_Some (m_threads s') /\ is_Some (sessions s' !! p)) o _ s1 []); [done|]|].
  - intros e s2 tr _ (H2 & H3 & H4). destruct e; cbn [deliver]; try (wp_steps; done).
    eapply wp_mono; [by apply push_task_wp|]. intros ? s3 o3 (H5 & H6 & H7). by rewrite H7.
  - by intros ? s' o' (? & _).
Qed.

(** ** A worker's step *)

Section worker.
Context (cs : option compress_strategy) (junk : nat -> Z).

(** With no task at the front, none is half done. *)
Lemma idle_stage ss i w : thread_ok ss i w -> at_work w = None -> stage w = Waiting.
Proof.
  intros [] Ha. destruct (stage w) eqn:Hs; [done| |]; destruct (t_stage0 ltac:(done)); congruence.
Qed.

Lemma waiting_skipped w p : stage w = Waiting -> skipped p w = false.
Proof. intros Hs. unfold skipped. rewrite Hs. by destruct (at_work w). Qed.

(** The double queue moves on between two tasks. *)
Lemma thread_ok_queue ss i w q :
  stage w = Waiting -> DoubleQueue.pushed q = DoubleQueue.pushed (tasks w) ->
  DoubleQueue.step (fun _ => []) (tasks w) q -> thread_ok ss i w -> thread_ok ss i (set_tasks w q).
Proof.
  intros Hs Hp Hst []. constructor; cbn; try rewrite Hs; try done.
  - by eapply DoubleQueue.queue_step_ok.
  - by rewrite Hp.
  - intros p x. by rewrite waiting_skipped.
Qed.

Lemma at_work_pushed ss i w t : thread_ok ss i w -> at_work w = Some t -> t ∈ DoubleQueue.pushed (tasks w).
Proof.
  intros [Hq _ _ _ _] Ha. rewrite (DoubleQueue.ok_fifo _ Hq). apply elem_of_app. right.
  unfold at_work in Ha. unfold DoubleQueue.contents. destruct (DoubleQueue.proc (tasks w)) as [j|]; [|done].
  destruct (DoubleQueue.get (DoubleQueue.qs (tasks w)) j) as [|t' l]; [done|]. injection Ha as ->. set_solver.
Qed.

(** The front task goes to its next stage. *)
Lemma thread_ok_stage ss i w st :
  is_Some (at_work w) -> (forall b, st = Compressing b -> b = ThreadBuffer i \/ b = StaticBuffer) ->
  (forall t x, st = Executed None -> at_work w = Some t -> ss !! session t = Some x -> is_valid x = false) ->
  thread_ok ss i w -> thread_ok ss i (set_stage w st).
Proof.
  intros Ha Hb Hsk []. constructor; cbn; auto.
  intros p x. unfold skipped. change (at_work (set_stage w st)) with (at_work w). cbn.
  destruct (at_work w) as [t|] eqn:Hat; [|done]. destruct st as [| |[|]]; try done.
  intros <-%Z.eqb_eq. eauto.
Qed.

Lemma put_thread_wp s th i w w' :
  m_threads s = Some th -> th !! i = Some w -> thread_ok (sessions s) i w' -> pool_ok s ->
  wp (put_thread i w') (fun _ s' o => s' = set_threads s (Some (<[i := w']> th)) /\ pool_ok s' /\ o = []) s.
Proof.
  intros Hth Hw Hok Hp. unfold put_thread. wp_steps. rewrite Hth. split_and!; [done| |done]. by eapply pool_ok_thread.
Qed.

(** [end] finds a result when the session is valid. *)
Lemma end_task_wp s th i w t r :
  m_threads s = Some th -> th !! i = Some w -> at_work w = Some t -> stage w = Executed r -> pool_ok s ->
  wp (end_task t r) (fun _ s' _ => pool_ok s' /\ m_threads s' = Some th /\ m_thread_count s' = m_thread_count s /\
    joining s' = joining s) s.
Proof.
  intros Hth Hw Ha Hs Hok. pose proof (p_each _ Hok th i w Hth Hw) as Hwk.
  destruct (proj2 (t_mine _ _ _ Hwk t (at_work_pushed _ _ _ _ Hwk Ha))) as [x Hx].
  unfold end_task. wp_steps. eapply get_session_wp; [done|].
  destruct (is_valid x && m_isconnected x) eqn:Hv; [|by wp_steps].
  apply andb_true_iff in Hv as [Hv _]. destruct r as [m|].
  - unfold _send_message. wp_steps. eapply get_session_wp; [done|].
    destruct (session_send_run m x) as (x' & o & -> & Hv'). wp_steps.
    eapply wp_mono; [apply (wp_for False (fun s' _ => s' = set_sessions s (<[session t := x']> (sessions s))) o _ _ []); [done|]|].
    + intros e s2 tr _ ->. by wp_steps.
    + intros ? s2 o2 ->. split_and!; [by eapply pool_ok_session|done|done|done].
  - assert (Hsk : skipped (session t) w = true) by (unfold skipped; rewrite Ha, Hs; apply Z.eqb_refl).
    pose proof (t_skipped _ _ _ Hwk _ _ Hsk Hx). congruence.
Qed.

(** How far thread [w] is from the top of its loop. *)
Definition rounds (w : task_thread) : nat :=
  match DoubleQueue.proc (tasks w) with
  | None => O
  | Some j =>
      match DoubleQueue.get (DoubleQueue.qs (tasks w)) j with
      | [] => 1
      | _ :: rest =>
          (match stage w with Waiting => 3 | Compressing _ => 2 | Executed _ => 1 end) + 3 * length rest + 1
      end%nat
  end.

(** What a step of thread [i], in state [w], makes of pool [s]: once [m_exit] is
    set it brings the thread nearer to its end. *)
Definition nearer (w w' : task_thread) : Prop :=
  m_exit w' = m_exit w /\
  (m_exit w = true -> exited w' = true \/ (exited w' = false /\ (rounds w' < rounds w)%nat)).

Definition stepped (s : pool) (th : gmap Z task_thread) (i : Z) (w : task_thread) (s' : pool) : Prop :=
  pool_ok s' /\ m_thread_count s' = m_thread_count s /\ joining s' = joining s /\
  exists w', m_threads s' = Some (<[i := w']> th) /\ nearer w w'.

Lemma put_stepped s s1 th i w w' :
  m_threads s1 = Some th -> m_thread_count s1 = m_thread_count s -> joining s1 = joining s -> th !! i = Some w ->
  pool_ok s1 -> thread_ok (sessions s1) i w' -> nearer w w' -> wp (put_thread i w') (fun _ s' _ => stepped s th i w s') s1.
Proof.
  intros H1 H2 H3 Hw Hok Hwk Hn. eapply wp_mono; [by eapply put_thread_wp|]. intros ? s' o (-> & H4 & _).
  split_and!; [done|done|done|]. by exists w'.
Qed.

(** Between two tasks. *)
Lemma work_idle_wp s th i w :
  m_threads s = Some th -> th !! i = Some w -> exited w = false -> pool_ok s -> at_work w = None ->
  wp (work cs junk i w) (fun _ s' _ => stepped s th i w s') s.
Proof.
  intros Hth Hw Hex Hok Ha. pose proof (p_each _ Hok th i w Hth Hw) as Hwk.
  pose proof (idle_stage _ _ _ Hwk Ha) as Hs. unfold at_work in Ha. unfold work.
  destruct (DoubleQueue.proc (tasks w)) as [j|] eqn:Hpr.
  - destruct (DoubleQueue.get (DoubleQueue.qs (tasks w)) j) eqn:Hg; [|done].
    apply put_stepped; try done.
    + apply thread_ok_queue; [done|done| |done]. by eapply DoubleQueue.step_end.
    + split; [done|]. intros _. right. split; [done|]. unfold rounds. cbn. rewrite Hpr, Hg. lia.
  - destruct (m_exit w) eqn:Hm.
    + apply put_stepped; try done; [destruct Hwk; by constructor|]. split; [by rewrite Hm|by left].
    + destruct (DoubleQueue.swap (DoubleQueue.qs (tasks w))) as [[j q]|] eqn:Hsw.
      * apply put_stepped; try done; [|by split; [|congruence]].
        apply thread_ok_queue; [done|done| |done]. by eapply DoubleQueue.step_swap.
      * wp_steps. split_and!; try done. exists w. rewrite insert_id by done. by split; [|split; [|congruence]].
Qed.

(** The front task is done: it leaves the queue. *)
Lemma thread_ok_done ss i w j t rest :
  DoubleQueue.proc (tasks w) = Some j -> DoubleQueue.get (DoubleQueue.qs (tasks w)) j = t :: rest -> thread_ok ss i w ->
  thread_ok ss i (mk_thread
    (DoubleQueue.mk_sys (DoubleQueue.set (DoubleQueue.qs (tasks w)) j rest) (Some j) (DoubleQueue.ran (tasks w) ++ [t])
       (DoubleQueue.pushed (tasks w))) Waiting (m_exit w) (exited w)).
Proof.
  intros Hpr Hg []. constructor; cbn; try done.
  - eapply DoubleQueue.queue_step_ok; [exact t_queue0|].
    assert (Hst := DoubleQueue.step_process (fun _ => []) (tasks w) j t (DoubleQueue.set (DoubleQueue.qs (tasks w)) j rest) Hpr).
    rewrite app_nil_r in Hst. apply Hst. unfold DoubleQueue.process_front. rewrite Hg. cbn. by rewrite Hg.
  - intros p x. by rewrite waiting_skipped.
Qed.

(** A stage of the task at the front. *)
Lemma work_task_wp s th i w t :
  m_threads s = Some th -> th !! i = Some w -> exited w = false -> pool_ok s -> at_work w = Some t ->
  wp (work cs junk i w) (fun _ s' _ => stepped s th i w s') s.
Proof.
  intros Hth Hw Hex Hok Ha. pose proof (p_each _ Hok th i w Hth Hw) as Hwk.
  destruct (t_mine _ _ _ Hwk t (at_work_pushed _ _ _ _ Hwk Ha)) as [Hi [x Hx]].
  pose proof Ha as Hat. unfold at_work in Hat. unfold work.
  destruct (DoubleQueue.proc (tasks w)) as [j|] eqn:Hpr; [|done].
  destruct (DoubleQueue.get (DoubleQueue.qs (tasks w)) j) as [|t' rest] eqn:Hg; [done|]. injection Hat as ->.
  destruct (stage w) as [|b|r] eqn:Hs.
  - wp_steps. unfold execute. wp_steps. eapply get_session_wp; [done|]. wp_steps. apply put_stepped; try done.
    + apply thread_ok_stage; [by eexists| | |done].
      * intros b. unfold buffer_of. destruct (is_valid x); [|done]. intros [= <-].
        destruct (m_father x); [case_match; [left; by rewrite Hi|by right]|by right].
      * intros t' y. destruct (is_valid x) eqn:Hv; [done|]. intros _ Ht' Hy. congruence.
    + split; [done|]. intros _. right. split; [done|]. unfold rounds. cbn. rewrite Hpr, Hg, Hs. destruct (is_valid x); lia.
  - apply put_stepped; try done; [by apply thread_ok_stage; [eexists| | |]|].
    split; [done|]. intros _. right. split; [done|]. unfold rounds. cbn. rewrite Hpr, Hg, Hs. lia.
  - wp_steps. eapply wp_mono; [by eapply end_task_wp|]. intros ? s1 o1 (H1 & H2 & H3 & H4). wp_steps.
    apply put_stepped; try done; [by apply thread_ok_done; [| |eapply (p_each _ H1)]|].
    split; [done|]. intros _. right. split; [done|]. unfold rounds. cbn. rewrite Hpr, Hg, Hs, DoubleQueue.get_set_eq.
    destruct rest; cbn; lia.
Qed.

Lemma work_wp s th i w :
  m_threads s = Some th -> th !! i = Some w -> exited w = false -> pool_ok s ->
  wp (work cs junk i w) (fun _ s' _ => stepped s th i w s') s.
Proof. intros Hth Hw Hex Hok. destruct (at_work w) eqn:Ha; [by eapply work_task_wp|by apply work_idle_wp]. Qed.

End worker.

(** ** Every history *)

Lemma constructed_pool_ok u ss : pool_ok (construct u ss).
Proof. by constructor. Qed.

Lemma new_thread_ok ss i : thread_ok ss i new_thread.
Proof. constructor; cbn; try done. intros t Ht. by apply elem_of_nil in Ht. Qed.

Lemma lookup_new_threads l i w :
  (list_to_map (map (fun i => (i, new_thread)) l) : gmap Z task_thread) !! i = Some w <-> i ∈ l /\ w = new_thread.
Proof.
  induction l as [|j l IH]; cbn; [rewrite lookup_empty; set_solver|].
  destruct (decide (i = j)) as [->|Hne].
  - rewrite lookup_insert_eq. set_solver.
  - rewrite lookup_insert_ne, IH by done. set_solver.
Qed.

Lemma startup_wp s n : pool_ok s -> joining s = None -> wp (startup n) (fun _ s' _ => pool_ok s') s.
Proof.
  intros Hok Hj. unfold startup. wp_steps. constructor; cbn; [| |by rewrite Hj].
  - intros th i [= <-]. rewrite <- elem_of_indices. split.
    + intros [w Hw]. by apply lookup_new_threads in Hw as [? _].
    + intros Hi. exists new_thread. by apply lookup_new_threads.
  - intros th i w [= <-] Hw. apply lookup_new_threads in Hw as [_ ->]. apply new_thread_ok.
Qed.

Lemma join_step_wp s : pool_ok s -> wp join_step (fun _ s' _ => pool_ok s') s.
Proof.
  intros Hok. unfold join_step. wp_steps. destruct (joining s) as [[|i rest]|] eqn:Hj; wp_steps; [by constructor| |done].
  destruct (m_threads s) as [th|] eqn:Hth; wp_steps; [|done].
  destruct (proj2 (p_threads _ Hok th i Hth) (p_joining _ Hok _ i Hj ltac:(set_solver))) as [w Hw]. rewrite Hw.
  destruct (exited w); wp_steps.
  - destruct Hok. constructor; cbn; [done|done|]. intros l k [= <-] Hk. eapply p_joining0; [done|]. set_solver.
  - eapply pool_ok_thread; [done|done| |done]. destruct (p_each _ Hok th i w Hth Hw). by constructor.
Qed.

Lemma network_wp s p x :
  in_time (Network p x) s = true -> pool_ok s -> pool_ok (set_sessions s (<[p := x]> (sessions s))).
Proof.
  intros He [H1 H2 H3]. constructor; cbn; [done| |done]. intros th i w Hth Hw.
  eapply thread_ok_sessions; [..|by eapply H2].
  - intros q [y Hy]. destruct (decide (q = p)) as [->|]; [rewrite lookup_insert_eq|rewrite lookup_insert_ne by done]; eauto.
  - intros q y. destruct (decide (q = p)) as [->|]; [|rewrite lookup_insert_ne by done; eauto].
    rewrite lookup_insert_eq. intros [= <-] Hv. left. unfold in_time in He. rewrite Hth, Hv in He. cbn in He.
    apply andb_true_iff in He as [_ He]. rewrite forallb_forall in He.
    apply negb_true_iff, (He (i, w)), list_elem_of_In, elem_of_map_to_list, Hw.
Qed.

Lemma pool_handle_wp cs junk s e : in_time e s = true -> pool_ok s -> wp (handle cs junk e) (fun _ s' _ => pool_ok s') s.
Proof.
  intros He Hok. pose proof He as Hen. unfold in_time in Hen. apply andb_true_iff in Hen as [Hen Hti].
  destruct e as [n| | |p payload|i|p x]; cbn [handle enabled] in *.
  - apply startup_wp; [done|]. destruct (m_threads s); [done|]. by destruct (joining s).
  - unfold shutdown. wp_steps. destruct (m_threads s) as [th|] eqn:Hth; wp_steps; [|done].
    destruct Hok. constructor; cbn; [done|done|]. intros l i [= <-] Hi. apply elem_of_indices. by rewrite elem_of_reverse in Hi.
  - by apply join_step_wp.
  - destruct (joining s); [done|]. destruct (sessions s !! p) eqn:Hp; [|done]. destruct (m_threads s) eqn:Hth; [|done].
    eapply pool_send_message_wp; [done|by eexists|done|done].
  - wp_steps. destruct (the_thread s i) as [w|] eqn:Hw; [|done]. unfold the_thread in Hw.
    destruct (m_threads s) as [th|] eqn:Hth; [|done]. apply negb_true_iff in Hen.
    eapply wp_mono; [by eapply work_wp|]. by intros ? s' o (? & _).
  - wp_steps. by apply network_wp.
Qed.

Lemma pool_run_wp cs junk l s : pool_ok s -> wp (run cs junk in_time l) (fun _ s' _ => pool_ok s') s.
Proof.
  intros Hok. apply (wp_for False (fun s' _ => pool_ok s') l _ s [] Hok).
  intros e s1 tr _ H1. wp_steps. destruct (in_time e s1) eqn:He; [by apply pool_handle_wp|done].
Qed.


(** ** Stopping *)

(** Thread [i] by itself reaches its end once it has been told to. *)
Definition ended (s : pool) (th : gmap Z task_thread) (i : Z) (s' : pool) : Prop :=
  pool_ok s' /\ m_thread_count s' = m_thread_count s /\ joining s' = joining s /\
  exists w', m_threads s' = Some (<[i := w']> th) /\ exited w' = true.

Lemma worker_ends cs junk n s th i w :
  m_threads s = Some th -> th !! i = Some w -> pool_ok s -> m_exit w = true ->
  exited w = true \/ (exited w = false /\ (rounds w < n)%nat) ->
  wp (run cs junk in_time (replicate n (Work i))) (fun _ s' _ => ended s th i s') s.
Proof.
  unfold run. revert s th w. induction n as [|n IH]; intros s th w Hth Hw Hok Hm Hn; cbn [replicate mfor].
  - wp_steps. destruct Hn as [Hn|[_ ?]]; [|lia]. split_and!; try done. exists w. by rewrite insert_id.
  - wp_steps. assert (Hin : in_time (Work i) s = negb (exited w)).
    { unfold in_time. cbn. unfold the_thread. rewrite Hth, Hw. apply andb_true_r. }
    destruct Hn as [Hex|[Hex Hn]]; rewrite Hin, Hex; cbn [negb].
    + wp_steps. apply (IH s th w); auto.
    + cbn [handle]. wp_steps. unfold the_thread. rewrite Hth, Hw.
      eapply wp_mono; [by eapply work_wp|]. intros ? s1 o1 (H1 & H2 & H3 & w1 & H4 & H5 & H6).
      eapply wp_mono; [apply (IH s1 (<[i := w1]> th) w1); try done|].
      * apply lookup_insert_eq.
      * by rewrite H5.
      * destruct (H6 Hm) as [?|[? ?]]; [by left|right; split; [done|lia]].
      * intros ? s2 o2 (H7 & H8 & H9 & w2 & H10 & H11).
        split_and!; [done|congruence|congruence|]. exists w2. by rewrite insert_insert_eq in H10.
Qed.

Lemma pool_run_app cs junk l1 l2 s s1 o1 s2 o2 :
  run cs junk in_time l1 s = Ret (tt, s1, o1) -> run cs junk in_time l2 s1 = Ret (tt, s2, o2) ->
  run cs junk in_time (l1 ++ l2) s = Ret (tt, s2, o1 ++ o2).
Proof. unfold run. intros H1 H2. rewrite mfor_app. by rewrite (mbind_run _ _ _ _ _ _ H1), H2. Qed.

(** Events of [shutdown] and of the workers. *)
Definition stopping (e : event) : Prop := match e with Join | Work _ => True | _ => False end.

Lemma join_run cs junk s s' o :
  joining s <> None -> join_step s = Ret (tt, s', o) -> run cs junk in_time [Join] s = Ret (tt, s', o).
Proof.
  intros Hj Hr. unfold run. cbn [mfor]. unfold mbind', mget, mret'.
  assert (in_time Join s = true) as -> by (unfold in_time; cbn; by destruct (joining s)).
  cbn [handle]. rewrite Hr. by rewrite app_nil_l, !app_nil_r.
Qed.

(** The destructor of one thread: told to stop, it ends. *)
Lemma join_one cs junk s th i rest :
  joining s = Some (i :: rest) -> m_threads s = Some th -> pool_ok s ->
  exists l s' o, run cs junk in_time l s = Ret (tt, s', o) /\ Forall stopping l /\ pool_ok s' /\
    joining s' = Some rest /\ is_Some (m_threads s').
Proof.
  intros Hj Hth Hok. destruct (proj2 (p_threads _ Hok th i Hth) (p_joining _ Hok _ i Hj ltac:(set_solver))) as [w Hw].
  (* the last look at the thread *)
  assert (Hlast : forall s1 th1 w1, joining s1 = Some (i :: rest) -> m_threads s1 = Some th1 -> th1 !! i = Some w1 ->
    exited w1 = true -> pool_ok s1 ->
    exists s' o, run cs junk in_time [Join] s1 = Ret (tt, s', o) /\ pool_ok s' /\ joining s' = Some rest /\ is_Some (m_threads s')).
  { intros s1 th1 w1 H1 H2 H3 H4 H5. destruct (wp_run _ _ _ (join_step_wp s1 H5)) as ([] & s' & o & Hr & Hok').
    exists s', o. split; [apply join_run; [by rewrite H1|done]|]. split; [done|].
    revert Hr. unfold join_step, mbind', mget. rewrite H1, H2, H3, H4. cbn. intros [= <- _]. cbn. by split; [|eexists]. }
  destruct (exited w) eqn:Hex.
  { destruct (Hlast s th w Hj Hth Hw Hex Hok) as (s' & o & H1 & H2 & H3 & H4).
    exists [Join], s', o. split_and!; try done. by repeat constructor. }
  set (w1 := mk_thread (tasks w) (stage w) true false). set (s1 := set_threads s (Some (<[i := w1]> th))).
  assert (Hr1 : run cs junk in_time [Join] s = Ret (tt, s1, [])).
  { apply join_run; [by rewrite Hj|]. unfold join_step, mbind', mget. rewrite Hj, Hth, Hw, Hex. reflexivity. }
  assert (Hok1 : pool_ok s1).
  { eapply pool_ok_thread; [done|done| |done]. destruct (p_each _ Hok th i w Hth Hw). by constructor. }
  destruct (wp_run _ _ _ (worker_ends cs junk (S (rounds w1)) s1 (<[i := w1]> th) i w1 eq_refl (lookup_insert_eq _ _ _)
    Hok1 eq_refl ltac:(right; split; [done|lia]))) as ([] & s2 & o2 & Hr2 & H1 & _ & H3 & w2 & H4 & H5).
  destruct (Hlast s2 _ w2 ltac:(by rewrite H3) H4 (lookup_insert_eq _ _ _) H5 H1) as (s3 & o3 & Hr3 & H6 & H7 & H8).
  exists ([Join] ++ replicate (S (rounds w1)) (Work i) ++ [Join]), s3, ([] ++ o2 ++ o3).
  split_and!; try done; [by eapply pool_run_app, pool_run_app|].
  apply Forall_app. split; [by repeat constructor|]. apply Forall_app. split; [|by repeat constructor].
  by apply Forall_replicate.
Qed.

Lemma join_all cs junk js s :
  joining s = Some js -> is_Some (m_threads s) -> pool_ok s ->
  exists l s' o, run cs junk in_time l s = Ret (tt, s', o) /\ Forall stopping l /\ m_threads s' = None /\ joining s' = None.
Proof.
  revert s. induction js as [|i rest IH]; intros s Hj [th Hth] Hok.
  - exists [Join]. do 2 eexists. split_and!; [apply join_run; [by rewrite Hj|]|by repeat constructor|..].
    + unfold join_step, mbind', mget. rewrite Hj. reflexivity.
    + done.
    + done.
  - destruct (join_one cs junk s th i rest Hj Hth Hok) as (l1 & s1 & o1 & Hr1 & Hl1 & H1 & H2 & H3).
    destruct (IH s1 H2 H3 H1) as (l2 & s2 & o2 & Hr2 & Hl2 & H4 & H5).
    exists (l1 ++ l2), s2, (o1 ++ o2). split_and!; [by eapply pool_run_app|by apply Forall_app|done|done].
Qed.


(** *** Examples *)

(** A session of a server with two workers. *)
Definition a_session (by_id valid : bool) (father : bool) (index : Z) : tcp_session :=
  mk_session true (if father then Some (Build_father false by_id 2) else None) [] [] 0 true valid false index [] false 0.

Definition two_sessions (by_id : bool) : gmap Z tcp_session :=
  <[0 := a_session by_id true true 0]> (<[1 := a_session by_id true true 1]> ∅).

Definition after (allowed : event -> pool -> bool) (by_id : bool) (l : list event) : outcome pool :=
  match run None (fun _ => 0) allowed l (construct 0 (two_sessions by_id)) with
  | Ret (_, s, _) => Ret s
  | UB why => UB why
  end.


(** A session that is not valid when its task is executed and valid again (serving
    the next connection) when it ends: [result] is read uninitialised. *)
Lemma uninitialised_result :
  after enabled false [Startup 2; Send 0 (Some [1]); Work 0; Network 0 (a_session false false true 0); Work 0;
    Network 0 (a_session false true true 0); Work 0] = UB "compress_send_task: uninitialised result".
Proof. vm_compute. reflexivity. Qed.

(** [m_thread_count] keeps its value after [shutdown]. *)
Lemma send_after_shutdown :
  after enabled false [Startup 1; Shutdown; Join; Work 0; Join; Join; Send 0 (Some [1])] = UB "push_task: null m_threads".
Proof. vm_compute. reflexivity. Qed.

(** What a thread has not begun when it is told to stop is never run or deleted. *)
Lemma shutdown_drops_tasks :
  match after in_time false [Startup 1; Send 0 (Some [1]); Shutdown; Join; Work 0] with
  | Ret s => match the_thread s 0 with
             | Some w => exited w = true /\ DoubleQueue.pushed (tasks w) = [mk_task [1] 0 0] /\ DoubleQueue.ran (tasks w) = []
             | None => False
             end
  | UB _ => False
  end.
Proof. vm_compute. by split_and!. Qed.

(** Two sessions whose servers are gone when their tasks are executed: both
    threads write to the common buffer. *)
Lemma static_buffer_race :
  match after in_time false [Startup 2; Send 0 (Some [1]); Send 1 (Some [2]); Work 0; Work 1;
          Network 0 (a_session false true false 0); Network 1 (a_session false true false 1); Work 0; Work 1] with
  | Ret s => stage <$> the_thread s 0 = Some (Compressing StaticBuffer) /\ stage <$> the_thread s 1 = Some (Compressing StaticBuffer)
  | UB _ => False
  end.
Proof. vm_compute. by split. Qed.

(** With a thread chosen by the number at offset 4 of the data, frames of one
    session are queued in the order in which the threads finish. *)
Lemma transfer_id_mode_reorders :
  let first := [0; 0; 0; 0; 0; 0; 0; 0] in
  let second := [0; 0; 0; 0; 1; 0; 0; 0] in
  match after in_time true [Startup 2; Send 0 (Some first); Send 0 (Some second);
          Work 1; Work 1; Work 1; Work 1; Work 0; Work 0; Work 0; Work 0] with
  | Ret s => match sessions s !! 0 with
             | Some x => m_queue_send_msg x = [_compress_message None (fun _ => 0) second; _compress_message None (fun _ => 0) first]
             | None => False
             end
  | UB _ => False
  end.
Proof. vm_compute. reflexivity. Qed.
