(* ===== verification/ProtocCommon.v ===== *)
(** [common/thread_buffer.h] and [common/protoc_common.h]: the scratch buffers
    the servers serialise into, the packet put around a protobuf message
    (4-byte flag, 4-byte name length, type name, body) and the dispatch of a
    received message to the handler registered for its type.

    The protobuf library is a parameter: a message is its type name and the
    bytes [SerializeToArray] writes, and [parse_as name] is the parser of a type
    known to the descriptor pool. *)

From S2P Require Import Prelude.
From stdpp Require Import prelude gmap strings list.
#[local] Open Scope Z_scope.

Module ThreadBuffer.

(** Result of code that can throw a [BuffException]. *)
Inductive result (A : Type) : Type :=
| Val (a : A)
| Throw (what : string)
| Undef (why : string).
Arguments Val {A} a.
Arguments Throw {A} what.
Arguments Undef {A} why.

Definition _packet_send_buffer_ : nat := 0.
Definition _packet_recv_buffer_ : nat := 1.
Definition _packet_compress_buffer_ : nat := 2.
Definition _packet_buffer_max_ : nat := 3.
Definition _buffer_default_length : Z := 65000.

(** A slot of [_buffer_array] with its [_buffer_length]; a null pointer is
    [None]. *)
Record slot : Type := mk_slot { _buffer : option (list Z); _buffer_length : Z }.

Record thread_packet_buffer : Type := mk_tpb { _thread_id : Z; _buffer_array : list slot }.

Definition new_thread_packet_buffer (id : Z) : thread_packet_buffer :=
  mk_tpb id (repeat (mk_slot None 0) _packet_buffer_max_).

(** [maxlen * 150 / 100] on [unsigned int]. *)
Definition grown (maxlen : Z) : Z := u32 (maxlen * 150) / 100.

Definition grow (sl : slot) (maxlen : Z) : slot :=
  if _buffer_length sl <? maxlen then
    let n := if maxlen <? _buffer_default_length then _buffer_default_length else grown maxlen in
    mk_slot (Some (repeat 0 (Z.to_nat n))) n
  else sl.

(** [getThreadBuffer ntype maxlen]: the object afterwards and the new [maxlen]. *)
Definition getThreadBuffer (p : thread_packet_buffer) (ntype : nat) (maxlen : Z)
  : result (thread_packet_buffer * Z) :=
  match _buffer_array p !! ntype with
  | Some sl =>
      let sl' := grow sl maxlen in
      Val (mk_tpb (_thread_id p) (<[ntype := sl']> (_buffer_array p)), _buffer_length sl')
  | None => Throw "buffer ntupe is error"
  end.

(** [thread_buffer_manager]: the static [thread_buffer_vector]. *)
Abbreviation store := (list thread_packet_buffer).

(** The search loop.  [if (thread_id = pit->_thread_id)] assigns: it stops at
    the first object with a non-zero id, whatever the thread, and [thread_id]
    takes the id of each object passed. *)
Fixpoint find_buffer (thread_id : Z) (v : store) (i : nat) : option nat * Z :=
  match v with
  | [] => (None, thread_id)
  | pit :: v' =>
      if _thread_id pit =? 0 then find_buffer (_thread_id pit) v' (S i)
      else (Some i, _thread_id pit)
  end.

(** The static [getThreadBuffer]: the index of the object used and [maxlen]. *)
Definition managerGetThreadBuffer (v : store) (current_thread : Z) (ntype : nat) (maxlen : Z)
  : result (store * nat * Z) :=
  let '(found, thread_id) := find_buffer current_thread v 0 in
  let '(v1, i) :=
    match found with
    | Some i => (v, i)
    | None => (v ++ [new_thread_packet_buffer thread_id], length v)
    end in
  match v1 !! i with
  | Some p =>
      match getThreadBuffer p ntype maxlen with
      | Val (p', n) => Val (<[i := p']> v1, i, n)
      | Throw w => Throw w
      | Undef w => Undef w
      end
  | None => Undef "no buffer object"
  end.

(** [releaseThreadBuffer]: deletes the first object found by the same loop. *)
Definition releaseThreadBuffer (v : store) (current_thread : Z) : store :=
  match (find_buffer current_thread v 0).1 with
  | Some i => take i v ++ drop (S i) v
  | None => v
  end.

(** The memory a buffer pointer leads to. *)
Definition memory (v : store) (i ntype : nat) : option (list Z) :=
  p ← v !! i; sl ← _buffer_array p !! ntype; _buffer sl.

Definition set_memory (v : store) (i ntype : nat) (m : list Z) : store :=
  alter (fun p => mk_tpb (_thread_id p)
    (alter (fun sl => mk_slot (Some m) (_buffer_length sl)) ntype (_buffer_array p))) i v.

(** [memcpy] into the memory of a buffer. *)
Definition copy_in (v : store) (i ntype : nat) (pos : Z) (d : list Z) : result store :=
  match memory v i ntype with
  | Some m =>
      if pos + Z.of_nat (length d) <=? Z.of_nat (length m)
      then Val (set_memory v i ntype (blit m (Z.to_nat pos) d))
      else Undef "memcpy past the end of the buffer"
  | None => Undef "memcpy to null"
  end.

(** The bytes at [_buff + pos]. *)
Definition copy_out (v : store) (i ntype : nat) (pos len : Z) : result (list Z) :=
  match memory v i ntype with
  | Some m =>
      if pos + len <=? Z.of_nat (length m) then Val (peek m (Z.to_nat pos) (Z.to_nat len))
      else Undef "read past the end of the buffer"
  | None => Undef "read from null"
  end.

(** [thread_send_buffer] and [thread_recv_buffer]: [owner] is the index of the
    object [_buff] points into. *)
Record send_buffer : Type := mk_send { s_owner : nat; s_buff_pos : Z; s_max_length : Z }.
Record recv_buffer : Type := mk_recv {
  r_owner : nat; r_buff_pos : Z; r_max_length : Z; r_buff_len : Z
}.

Definition new_send_buffer (v : store) (current_thread maxlen : Z) : result (store * send_buffer) :=
  match managerGetThreadBuffer v current_thread _packet_send_buffer_ maxlen with
  | Val (v', i, n) => Val (v', mk_send i 0 n)
  | Throw w => Throw w
  | Undef w => Undef w
  end.

Definition write (v : store) (b : send_buffer) (d : list Z) : result (store * send_buffer) :=
  let len := Z.of_nat (length d) in
  if s_max_length b <=? u32 (s_buff_pos b + len) then Throw "send_buff out of rang"
  else
    match copy_in v (s_owner b) _packet_send_buffer_ (s_buff_pos b) d with
    | Val v' => Val (v', mk_send (s_owner b) (u32 (s_buff_pos b + len)) (s_max_length b))
    | Throw w => Throw w
    | Undef w => Undef w
    end.

Definition addWriteLen (b : send_buffer) (add : Z) : result send_buffer :=
  let pos := u32 (s_buff_pos b + add) in
  if pos <? s_max_length b then Val (mk_send (s_owner b) pos (s_max_length b))
  else Undef "assert(_buff_pos < _max_length)".

Definition s_getLastLen (b : send_buffer) : Z := u32 (s_max_length b - s_buff_pos b).

Definition new_recv_buffer (v : store) (current_thread : Z) (data : list Z)
  : result (store * recv_buffer) :=
  let len := Z.of_nat (length data) in
  match managerGetThreadBuffer v current_thread _packet_recv_buffer_ (u32 (len + 1)) with
  | Val (v', i, n) =>
      match copy_in v' i _packet_recv_buffer_ 0 data with
      | Val v'' => Val (v'', mk_recv i 0 n len)
      | Throw w => Throw w
      | Undef w => Undef w
      end
  | Throw w => Throw w
  | Undef w => Undef w
  end.

(** [read nItem len]: the read position goes back to 0 once the end is reached. *)
Definition read (v : store) (b : recv_buffer) (len : Z) : result (list Z * recv_buffer) :=
  if r_buff_len b <? u32 (r_buff_pos b + len) then Throw "recv_buff out of rang"
  else
    match copy_out v (r_owner b) _packet_recv_buffer_ (r_buff_pos b) len with
    | Val d =>
        let pos := u32 (r_buff_pos b + len) in
        Val (d, mk_recv (r_owner b) (if pos =? r_buff_len b then 0 else pos)
                  (r_max_length b) (r_buff_len b))
    | Throw w => Throw w
    | Undef w => Undef w
    end.

Definition addReadLen (b : recv_buffer) (add : Z) : result recv_buffer :=
  let pos := u32 (r_buff_pos b + add) in
  if pos <=? r_buff_len b then Val (mk_recv (r_owner b) pos (r_max_length b) (r_buff_len b))
  else Undef "assert(_buff_pos <= _buff_len)".

Definition r_getLastLen (b : recv_buffer) : Z := u32 (r_buff_len b - r_buff_pos b).

End ThreadBuffer.

Import ThreadBuffer.

Notation "'let!' p ':=' m 'in' k" :=
  (match m with Val p => k | Throw w => Throw w | Undef w => Undef w end)
  (at level 200, p pattern, right associativity) : srv_scope.

Module ProtocCommon.

(** A [google::protobuf::Message]: [GetTypeName()] and its serialisation, whose
    length is [ByteSize()]. *)
Record Message : Type := mk_msg { GetTypeName : list Z; serialized : list Z }.

Definition ByteSize (m : Message) : Z := Z.of_nat (length (serialized m)).

(** [pushProtocMessage msg flag]: [Some packet] is the buffer handed to the send
    method, [None] the result [false]. *)
Definition pushProtocMessage (v : store) (current_thread : Z) (msg : Message) (flag : Z)
  : result (store * option (list Z)) :=
  let name := GetTypeName msg in
  let name_len := u32 (Z.of_nat (length name)) in
  let max_len := u32 (4 + name_len + ByteSize msg) in
  let! (v, packet) := new_send_buffer v current_thread max_len in
  let! (v, packet) := write v packet (le_bytes 4 flag) in
  let! (v, packet) := write v packet (le_bytes 4 name_len) in
  let! (v, packet) := write v packet name in
  if s_getLastLen packet <? ByteSize msg then Val (v, None)
  else
    let! v := copy_in v (s_owner packet) _packet_send_buffer_ (s_buff_pos packet) (serialized msg) in
    let! packet := addWriteLen packet (ByteSize msg) in
    let! out := copy_out v (s_owner packet) _packet_send_buffer_ 0 (s_buff_pos packet) in
    Val (v, Some out).

Section receive.
(** The generated types: their names and parsers. *)
Context (parse_as : list Z -> option (list Z -> option Message)).

(** [parseProtocmessage buff len]: [Some (msg, flag)] is the call of the
    dispatch method, [None] the result [false]. *)
Definition parseProtocmessage (v : store) (current_thread : Z) (buff : list Z)
  : result (store * option (Message * Z)) :=
  if Z.of_nat (length buff) =? 0 then Val (v, None)
  else
    let! (v, packet) := new_recv_buffer v current_thread buff in
    let! (d, packet) := read v packet 4 in
    let flag := le_val d in
    let! (d, packet) := read v packet 4 in
    let name_len := le_val d in
    if (r_buff_len packet <? name_len) || (name_len =? 0) then Val (v, None)
    else
      let! name := copy_out v (r_owner packet) _packet_recv_buffer_ (r_buff_pos packet) name_len in
      let! packet := addReadLen packet name_len in
      match parse_as name with
      | None => Val (v, None)
      | Some parse =>
          let! body := copy_out v (r_owner packet) _packet_recv_buffer_ (r_buff_pos packet)
                         (r_getLastLen packet) in
          match parse body with
          | None => Val (v, None)
          | Some message => Val (v, Some (message, flag))
          end
      end.

End receive.

(** [ProtocMsgBase<T>]: the static registrations of a class, its handlers of
    type [H]. *)
Section dispatch.
Context {H : Type}.

Record registry : Type := mk_registry {
  static_default_pb_function : option H;
  static_call_back_funs : gmap (list Z) H
}.

Definition registerSDFun (r : registry) (defFun : H) : registry :=
  mk_registry (Some defFun) (static_call_back_funs r).

(** [std::map::insert]: an existing entry stays. *)
Definition registerCBFun (r : registry) (str : list Z) (fun_ : H) : registry :=
  mk_registry (static_default_pb_function r)
    (match static_call_back_funs r !! str with
     | Some _ => static_call_back_funs r
     | None => <[str := fun_]> (static_call_back_funs r)
     end).

(** [callPBCBFun]: the handler called, if any. *)
Definition callPBCBFun (r : registry) (msg : Message) : option H :=
  match static_call_back_funs r !! GetTypeName msg with
  | Some fun_ => Some fun_
  | None => static_default_pb_function r
  end.

End dispatch.
Arguments registry : clear implicits.

End ProtocCommon.

Import ProtocCommon.

(** ** Well-formed stores *)

Definition slot_ok (sl : slot) : Prop :=
  match _buffer sl with
  | None => _buffer_length sl = 0
  | Some m => Z.of_nat (length m) = _buffer_length sl /\
      _buffer_default_length <= _buffer_length sl < 2 ^ 32
  end.

Definition tpb_ok (p : thread_packet_buffer) : Prop :=
  length (_buffer_array p) = _packet_buffer_max_ /\ Forall slot_ok (_buffer_array p).

Definition store_ok (v : store) : Prop := Forall tpb_ok v.

Lemma grow_ok sl maxlen :
  slot_ok sl -> 0 < maxlen -> maxlen * 150 < 2 ^ 32 ->
  slot_ok (grow sl maxlen) /\
  exists m, _buffer (grow sl maxlen) = Some m /\ Z.of_nat (length m) = _buffer_length (grow sl maxlen) /\
    _buffer_default_length <= _buffer_length (grow sl maxlen) /\ maxlen <= _buffer_length (grow sl maxlen).
Proof.
  intros Hsl H0 Hm. unfold grow.
  assert (Hg : grown maxlen = maxlen * 150 / 100) by (unfold grown; rewrite u32_id; [done|mach]).
  destruct (Z.ltb_spec (_buffer_length sl) maxlen) as [Hlt|Hge].
  - unfold slot_ok. cbn [_buffer _buffer_length]. rewrite repeat_length.
    unfold _buffer_default_length in *. rewrite Hg. split.
    + split; [|destruct (Z.ltb_spec maxlen 65000); dlia].
      rewrite Z2Nat.id; [done|]. destruct (Z.ltb_spec maxlen 65000); dlia.
    + eexists. split; [done|]. rewrite repeat_length.
      destruct (Z.ltb_spec maxlen 65000); split_and!; dlia.
  - split; [done|]. unfold slot_ok in Hsl. destruct (_buffer sl) as [m|]; [|lia].
    exists m. split_and!; (done || lia).
Qed.

Lemma find_buffer_lt v t k i : (find_buffer t v k).1 = Some i -> (k <= i < k + length v)%nat.
Proof.
  revert t k. induction v as [|p v IH]; intros t k; [done|]. cbn [find_buffer length].
  destruct (_thread_id p =? 0).
  - intros Hf. apply IH in Hf. lia.
  - intros [= ->]. lia.
Qed.

(** Whatever the thread, the manager hands out a buffer of at least [maxlen]
    bytes and keeps the store well-formed. *)
Lemma manager_get_ok v t ntype maxlen :
  store_ok v -> (ntype < _packet_buffer_max_)%nat -> 0 < maxlen -> maxlen * 150 < 2 ^ 32 ->
  exists v' i n m, managerGetThreadBuffer v t ntype maxlen = Val (v', i, n) /\ store_ok v' /\
    memory v' i ntype = Some m /\ Z.of_nat (length m) = n /\
    _buffer_default_length <= n < 2 ^ 32 /\ maxlen <= n.
Proof.
  intros Hv Hn H0 Hm. unfold managerGetThreadBuffer.
  destruct (find_buffer t v 0) as [found thread_id] eqn:Hf.
  assert (exists v1 i p, (match found with
    | Some i => (v, i) | None => (v ++ [new_thread_packet_buffer thread_id], length v) end) = (v1, i)
    /\ v1 !! i = Some p /\ store_ok v1) as (v1 & i & p & -> & Hp & Hv1).
  { destruct found as [i|].
    - assert (Hi : (find_buffer t v 0).1 = Some i) by (by rewrite Hf).
      apply find_buffer_lt in Hi. destruct (lookup_lt_is_Some_2 v i ltac:(lia)) as [p Hp]. eauto 8.
    - exists (v ++ [new_thread_packet_buffer thread_id]), (length v), (new_thread_packet_buffer thread_id).
      split_and!; [done| |].
      + by apply list_lookup_middle.
      + apply Forall_app_2; [done|]. repeat constructor. }
  rewrite Hp. unfold getThreadBuffer.
  destruct (Forall_lookup_1 _ _ _ _ Hv1 Hp) as [Hlen Hslots].
  destruct (lookup_lt_is_Some_2 (_buffer_array p) ntype ltac:(lia)) as [sl Hsl]. rewrite Hsl.
  destruct (grow_ok sl maxlen (Forall_lookup_1 _ _ _ _ Hslots Hsl) H0 Hm) as [Hok (m & Hb & Hl & Hd & Hle)].
  eexists _, i, _, m. split; [done|]. split_and!; try done.
  - apply Forall_insert; [done|]. split; cbn [_buffer_array]; [by rewrite length_insert|]. by apply Forall_insert.
  - unfold memory. rewrite list_lookup_insert_eq by (by eapply lookup_lt_Some).
    cbn. by rewrite list_lookup_insert_eq by (by eapply lookup_lt_Some).
  - unfold slot_ok in Hok. rewrite Hb in Hok. lia.
Qed.

Lemma memory_set v i t m m0 :
  memory v i t = Some m0 -> memory (set_memory v i t m) i t = Some m.
Proof.
  unfold memory, set_memory. intros Hm. rewrite list_lookup_alter_eq.
  destruct (v !! i) as [p|]; [|done]. cbn in *. rewrite list_lookup_alter_eq.
  by destruct (_buffer_array p !! t).
Qed.

Lemma set_memory_ok v i t m m0 :
  store_ok v -> memory v i t = Some m0 -> length m = length m0 -> store_ok (set_memory v i t m).
Proof.
  unfold memory, set_memory. intros Hv Hm Hl. apply Forall_alter; [done|].
  intros p Hp [Hlen Hsl]. rewrite Hp in Hm. cbn in Hm.
  split; cbn [_buffer_array]; [by rewrite length_alter|]. apply Forall_alter; [done|].
  intros sl Hs Hok. rewrite Hs in Hm. cbn in Hm. unfold slot_ok in *. rewrite Hm in Hok.
  cbn [_buffer _buffer_length]. by rewrite Hl.
Qed.

Lemma copy_in_ok v i t m pos d :
  store_ok v -> memory v i t = Some m -> 0 <= pos -> pos + Z.of_nat (length d) <= Z.of_nat (length m) ->
  exists v', copy_in v i t pos d = Val v' /\ store_ok v' /\
    memory v' i t = Some (blit m (Z.to_nat pos) d).
Proof.
  intros Hv Hm H0 Hle. unfold copy_in. rewrite Hm.
  destruct (Z.leb_spec (pos + Z.of_nat (length d)) (Z.of_nat (length m))); [|lia].
  eexists. split; [done|]. split; [|by eapply memory_set].
  eapply set_memory_ok; [done|done|]. apply length_blit. lia.
Qed.

(** A [write] that fits extends the written prefix [w] by [d]. *)
Lemma write_ok v b m w d :
  store_ok v -> memory v (s_owner b) _packet_send_buffer_ = Some m ->
  Z.of_nat (length m) = s_max_length b -> s_max_length b < 2 ^ 32 ->
  s_buff_pos b = Z.of_nat (length w) -> take (length w) m = w ->
  Z.of_nat (length w + length d) < s_max_length b ->
  exists v' m', write v b d =
    Val (v', mk_send (s_owner b) (Z.of_nat (length (w ++ d))) (s_max_length b)) /\ store_ok v' /\
    memory v' (s_owner b) _packet_send_buffer_ = Some m' /\ length m' = length m /\
    take (length (w ++ d)) m' = w ++ d.
Proof.
  intros Hv Hm Hl H32 Hpos Hw Hfit. unfold write. rewrite Hpos.
  rewrite u32_id by (unfold is_u32; lia).
  destruct (Z.leb_spec (s_max_length b) (Z.of_nat (length w) + Z.of_nat (length d))); [lia|].
  destruct (copy_in_ok v (s_owner b) _packet_send_buffer_ m (Z.of_nat (length w)) d)
    as (v' & Hc & Hv' & Hm'); [done|done|lia|lia|].
  rewrite Hc. eexists v', _. rewrite length_app, Nat2Z.inj_add. split_and!; try done.
  - rewrite length_blit by lia. done.
  - rewrite Nat2Z.id. rewrite take_blit by lia. by rewrite Hw.
Qed.

Lemma copy_out_ok v i t m w pos len :
  memory v i t = Some m -> take (length w) m = w -> 0 <= pos -> 0 <= len ->
  pos + len <= Z.of_nat (length w) ->
  copy_out v i t pos len = Val (peek w (Z.to_nat pos) (Z.to_nat len)).
Proof.
  intros Hm Hw H0 H1 Hle. unfold copy_out. rewrite Hm.
  assert (length w <= length m)%nat by (rewrite <- Hw, length_take; lia).
  destruct (Z.leb_spec (pos + len) (Z.of_nat (length m))); [|lia].
  f_equal. rewrite <- Hw at 1. unfold peek. rewrite skipn_firstn_comm, take_take.
  f_equal. lia.
Qed.

(** The packet around a message. *)
Definition packet (msg : Message) (flag : Z) : list Z :=
  le_bytes 4 flag ++ le_bytes 4 (Z.of_nat (length (GetTypeName msg))) ++ GetTypeName msg ++ serialized msg.

Lemma length_packet msg flag :
  length (packet msg flag) = (8 + length (GetTypeName msg) + length (serialized msg))%nat.
Proof. unfold packet. rewrite !length_app, !length_le_bytes. lia. Qed.

Definition fits (msg : Message) : Prop :=
  Z.of_nat (8 + length (GetTypeName msg) + length (serialized msg)) < _buffer_default_length.

(** A message that fits is pushed as its packet, whatever was left in the
    buffers. *)
Lemma push_ok v t msg flag :
  store_ok v -> fits msg ->
  exists v', pushProtocMessage v t msg flag = Val (v', Some (packet msg flag)) /\ store_ok v'.
Proof.
  intros Hv Hfit. unfold fits, _buffer_default_length in Hfit. unfold pushProtocMessage, ByteSize.
  rewrite (u32_id (Z.of_nat (length (GetTypeName msg)))) by (unfold is_u32; lia).
  rewrite u32_id by (unfold is_u32; lia). unfold new_send_buffer.
  set (ml := 4 + Z.of_nat (length (GetTypeName msg)) + Z.of_nat (length (serialized msg))).
  destruct (manager_get_ok v t _packet_send_buffer_ ml) as (v1 & i & n & m & -> & Hv1 & Hm & Hl & Hn & _);
    [done|unfold _packet_send_buffer_, _packet_buffer_max_; lia|unfold ml; lia|unfold ml; lia|].
  unfold _buffer_default_length in Hn.
  destruct (write_ok v1 (mk_send i 0 n) m [] (le_bytes 4 flag)) as (v2 & m2 & -> & Hv2 & Hm2 & Hl2 & Hw2);
    cbn [s_owner s_buff_pos s_max_length length app] in *;
    rewrite ?length_le_bytes in *; try (done || lia).
  destruct (write_ok v2 (mk_send i 4 n) m2 (le_bytes 4 flag)
    (le_bytes 4 (Z.of_nat (length (GetTypeName msg))))) as (v3 & m3 & Hr3 & Hv3 & Hm3 & Hl3 & Hw3);
    cbn [s_owner s_buff_pos s_max_length] in *;
    rewrite ?length_le_bytes in *; try (done || lia).
  change (Z.of_nat 4) with 4. rewrite Hr3.
  destruct (write_ok v3 (mk_send i (Z.of_nat (length (le_bytes 4 flag ++ le_bytes 4 (Z.of_nat (length (GetTypeName msg)))))) n)
    m3 (le_bytes 4 flag ++ le_bytes 4 (Z.of_nat (length (GetTypeName msg)))) (GetTypeName msg))
    as (v4 & m4 & Hr4 & Hv4 & Hm4 & Hl4 & Hw4);
    cbn [s_owner s_buff_pos s_max_length] in *; try (done || lia);
    try (rewrite length_app, !length_le_bytes; lia).
  rewrite Hr4. unfold s_getLastLen. cbn [s_owner s_buff_pos s_max_length].
  set (w := (le_bytes 4 flag ++ le_bytes 4 (Z.of_nat (length (GetTypeName msg)))) ++ GetTypeName msg) in *.
  assert (Hlw : length w = (8 + length (GetTypeName msg))%nat)
    by (unfold w; rewrite !length_app, !length_le_bytes; lia).
  rewrite u32_id by (unfold is_u32; lia).
  destruct (Z.ltb_spec (n - Z.of_nat (length w)) (Z.of_nat (length (serialized msg)))); [lia|].
  destruct (copy_in_ok v4 i _packet_send_buffer_ m4 (Z.of_nat (length w)) (serialized msg))
    as (v5 & -> & Hv5 & Hm5); [done|done|lia|lia|].
  unfold addWriteLen. cbn [s_owner s_buff_pos s_max_length].
  rewrite u32_id by (unfold is_u32; lia).
  destruct (Z.ltb_spec (Z.of_nat (length w) + Z.of_nat (length (serialized msg))) n); [|lia].
  cbn [s_owner s_buff_pos s_max_length].
  assert (Hp : packet msg flag = w ++ serialized msg) by (unfold packet, w; by rewrite <- !app_assoc).
  assert (Hlp : length (packet msg flag) = (length w + length (serialized msg))%nat) by (rewrite Hp, length_app; lia).
  rewrite (copy_out_ok _ _ _ _ (packet msg flag) _ _ Hm5); [|..].
  - eexists. split; [|exact Hv5]. unfold peek. change (Z.to_nat 0) with 0%nat.
    rewrite drop_0, take_ge; [done|]. rewrite Hlp. lia.
  - rewrite Hlp, Nat2Z.id, take_blit by lia. by rewrite Hw4, Hp.
  - lia.
  - lia.
  - rewrite Hlp. lia.
Qed.

(** A [read] inside the received data, not reaching its end. *)
Lemma read_ok v b m w len :
  memory v (r_owner b) _packet_recv_buffer_ = Some m -> take (length w) m = w ->
  r_buff_len b = Z.of_nat (length w) -> is_u32 (r_buff_len b) -> 0 <= r_buff_pos b -> 0 <= len ->
  r_buff_pos b + len < Z.of_nat (length w) ->
  read v b len = Val (peek w (Z.to_nat (r_buff_pos b)) (Z.to_nat len),
    mk_recv (r_owner b) (r_buff_pos b + len) (r_max_length b) (r_buff_len b)).
Proof.
  intros Hm Hw Hl H32 H0 H1 Hlt. unfold read. unfold is_u32 in H32.
  rewrite u32_id by (unfold is_u32; lia).
  destruct (Z.ltb_spec (r_buff_len b) (r_buff_pos b + len)); [lia|].
  rewrite (copy_out_ok _ _ _ _ w _ _ Hm) by (done || lia).
  destruct (Z.eqb_spec (r_buff_pos b + len) (r_buff_len b)); [lia|]. done.
Qed.

Lemma peek_packet msg flag :
  peek (packet msg flag) 0 4 = le_bytes 4 flag /\
  peek (packet msg flag) 4 4 = le_bytes 4 (Z.of_nat (length (GetTypeName msg))) /\
  peek (packet msg flag) 8 (length (GetTypeName msg)) = GetTypeName msg /\
  peek (packet msg flag) (8 + length (GetTypeName msg)) (length (serialized msg)) = serialized msg.
Proof.
  unfold peek, packet. split_and!.
  - reflexivity.
  - reflexivity.
  - change (drop 8 ?x) with (GetTypeName msg ++ serialized msg). by rewrite take_app_length.
  - rewrite <- drop_drop. change (drop 8 ?x) with (GetTypeName msg ++ serialized msg).
    by rewrite drop_app_length, take_ge.
Qed.

(** The packet of a message of a known type, received, is that message. *)
Lemma parse_ok parse_as v t msg flag parse m' :
  store_ok v -> fits msg -> is_u32 flag -> GetTypeName msg <> [] ->
  parse_as (GetTypeName msg) = Some parse -> parse (serialized msg) = Some m' ->
  exists v', parseProtocmessage parse_as v t (packet msg flag) = Val (v', Some (m', flag)) /\ store_ok v'.
Proof.
  intros Hv Hfit Hflag Hname Hknown Hparse. unfold fits, _buffer_default_length in Hfit.
  assert (Hne : (0 < length (GetTypeName msg))%nat) by (destruct (GetTypeName msg); [done|simpl; lia]).
  pose proof (length_packet msg flag) as Hlen. unfold parseProtocmessage, new_recv_buffer.
  destruct (Z.eqb_spec (Z.of_nat (length (packet msg flag))) 0) as [?|_]; [lia|].
  rewrite u32_id by (unfold is_u32; lia).
  destruct (manager_get_ok v t _packet_recv_buffer_ (Z.of_nat (length (packet msg flag)) + 1))
    as (v1 & i & n & m & -> & Hv1 & Hm & Hl & Hn & _);
    [done|unfold _packet_recv_buffer_, _packet_buffer_max_; lia|lia|lia|].
  unfold _buffer_default_length in Hn.
  destruct (copy_in_ok v1 i _packet_recv_buffer_ m 0 (packet msg flag)) as (v2 & -> & Hv2 & Hm2);
    [done|done|lia|lia|].
  assert (Hw : take (length (packet msg flag)) (blit m 0 (packet msg flag)) = packet msg flag)
    by (rewrite take_blit by lia; by rewrite take_0).
  destruct (peek_packet msg flag) as (H1 & H2 & H3 & H4).
  rewrite (read_ok v2 (mk_recv i 0 n (Z.of_nat (length (packet msg flag)))) _ (packet msg flag) 4 Hm2 Hw)
    by (cbn [r_buff_pos r_buff_len]; unfold is_u32; lia).
  cbn [r_buff_pos r_owner r_max_length r_buff_len].
  rewrite (read_ok v2 (mk_recv i (0 + 4) n (Z.of_nat (length (packet msg flag)))) _ (packet msg flag) 4 Hm2 Hw)
    by (cbn [r_buff_pos r_buff_len]; unfold is_u32; lia).
  cbn [r_buff_pos r_owner r_max_length r_buff_len].
  change (Z.to_nat (0 + 4)) with 4%nat. change (Z.to_nat 4) with 4%nat. change (Z.to_nat 0) with 0%nat.
  rewrite H1, H2, le_val_u32 by (unfold is_u32; lia). rewrite le_val_u32 by done.
  destruct (Z.ltb_spec (Z.of_nat (length (packet msg flag))) (Z.of_nat (length (GetTypeName msg)))); [lia|].
  destruct (Z.eqb_spec (Z.of_nat (length (GetTypeName msg))) 0); [lia|]. cbn [orb].
  rewrite (copy_out_ok _ _ _ _ (packet msg flag) _ _ Hm2 Hw) by lia.
  change (Z.to_nat (0 + 4 + 4)) with 8%nat. rewrite Nat2Z.id, H3, Hknown.
  unfold addReadLen, r_getLastLen. cbn [r_buff_pos r_owner r_max_length r_buff_len].
  rewrite u32_id by (unfold is_u32; lia).
  destruct (Z.leb_spec (0 + 4 + 4 + Z.of_nat (length (GetTypeName msg))) (Z.of_nat (length (packet msg flag)))); [|lia].
  cbn [r_buff_pos r_owner r_max_length r_buff_len]. rewrite u32_id by (unfold is_u32; lia).
  rewrite (copy_out_ok _ _ _ _ (packet msg flag) _ _ Hm2 Hw) by lia.
  replace (Z.to_nat (0 + 4 + 4 + Z.of_nat (length (GetTypeName msg)))) with (8 + length (GetTypeName msg))%nat by lia.
  replace (Z.to_nat (Z.of_nat (length (packet msg flag)) - (0 + 4 + 4 + Z.of_nat (length (GetTypeName msg)))))
    with (length (serialized msg)) by lia.
  rewrite H4, Hparse. eauto.
Qed.

(** C10: between servers a protobuf message arrives as it was sent.  From any
    well-formed scratch buffers on both sides, whichever threads run and
    whatever earlier messages left there, pushing a message whose packet is
    below 65000 bytes hands one packet to the connection, and parsing that
    packet calls the dispatcher once with the flag and the message the library
    parses from the body; both stores stay well-formed. *)
Theorem protoc_message_roundtrip parse_as parse m' v1 t1 v2 t2 msg flag :
  store_ok v1 -> store_ok v2 -> fits msg -> is_u32 flag -> GetTypeName msg <> [] ->
  parse_as (GetTypeName msg) = Some parse -> parse (serialized msg) = Some m' ->
  exists v1' pkt v2',
    pushProtocMessage v1 t1 msg flag = Val (v1', Some pkt) /\ store_ok v1' /\
    parseProtocmessage parse_as v2 t2 pkt = Val (v2', Some (m', flag)) /\ store_ok v2'.
Proof.
  intros Hv1 Hv2 Hfit Hflag Hname Hknown Hparse.
  destruct (push_ok v1 t1 msg flag Hv1 Hfit) as (v1' & Hp & Hv1').
  destruct (parse_ok parse_as v2 t2 msg flag parse m' Hv2 Hfit Hflag Hname Hknown Hparse) as (v2' & Hr & Hv2').
  eauto 10.
Qed.

(** One known type, [[77]], whose parser keeps the bytes. *)
Definition example_types (name : list Z) : option (list Z -> option Message) :=
  if decide (name = [77]) then Some (fun b => Some (mk_msg [77] b)) else None.

Lemma protoc_message_roundtrip_witness :
  exists v1' pkt v2',
    pushProtocMessage [] 7 (mk_msg [77] [1; 2; 3]) 5 = Val (v1', Some pkt) /\ store_ok v1' /\
    parseProtocmessage example_types [] 8 pkt = Val (v2', Some (mk_msg [77] [1; 2; 3], 5)) /\ store_ok v2'.
Proof.
  apply (protoc_message_roundtrip example_types (fun b => Some (mk_msg [77] b)) (mk_msg [77] [1; 2; 3])
    [] 7 [] 8 (mk_msg [77] [1; 2; 3]) 5);
    [constructor|constructor|reflexivity|split; [discriminate|reflexivity]|discriminate|reflexivity|reflexivity].
Defined.

(** ** What the code does not guarantee *)

(** Two threads get the same memory: with an object of a non-zero id in the
    vector, every thread is given that object. *)
Lemma threads_share_buffer p v t1 t2 ntype maxlen :
  _thread_id p <> 0 ->
  managerGetThreadBuffer (p :: v) t1 ntype maxlen = managerGetThreadBuffer (p :: v) t2 ntype maxlen.
Proof. intros Hp. unfold managerGetThreadBuffer. cbn [find_buffer]. by destruct (Z.eqb_spec (_thread_id p) 0). Qed.

(** A request above 28633115 bytes overflows [maxlen * 150] and gets a smaller
    buffer than it asked for. *)
Lemma grown_overflows : grown 28633116 < 28633116.
Proof. reflexivity. Qed.

(** The name length is checked against the whole packet, not against what is
    left of it: a 10-byte packet that announces a 5-byte name passes the check
    and runs past the data. *)
Lemma short_packet_overruns :
  parseProtocmessage example_types [] 8 [0; 0; 0; 0; 5; 0; 0; 0; 77; 77] =
  Undef "assert(_buff_pos <= _buff_len)".
Proof. vm_compute. reflexivity. Qed.
