(* ===== verification/PacketInterface.v ===== *)
(** [common/packet_interface.h]: packets of typed values over the scratch buffers
    of [thread_buffer.h].  The overloads of [operator <<] and [operator >>] are
    the instances of the class [Packet], one per C++ type, found by the type of
    the value as C++ finds the overload.

    No file of the repository includes this header: it is the older packet
    format, kept beside [protoc_common.h]. *)

From S2P Require Import Prelude CommonTemplate ProtocCommon.
From stdpp Require Import prelude gmap strings list sorting.
#[local] Open Scope Z_scope.

Import ThreadBuffer.

Module PacketInterface.

(** ** Values *)

(** The arithmetic types; [sizeof(long)] depends on the build. *)
Inductive ctype : Set :=
| tBool | tChar | tUChar | tShort | tUShort | tInt | tUInt | tLong | tULong | tU64 | tS64 | tFloat | tDouble.

#[global] Instance ctype_eq_dec : EqDecision ctype.
Proof. solve_decision. Defined.

Definition sizeof (plat : platform) (t : ctype) : nat :=
  match t with
  | tBool | tChar | tUChar => 1
  | tShort | tUShort => 2
  | tInt | tUInt | tFloat => 4
  | tLong | tULong => match plat with WIN32 => 4 | POSIX => 8 end
  | tU64 | tS64 | tDouble => 8
  end.

Definition signed (t : ctype) : bool :=
  match t with tChar | tShort | tInt | tLong | tS64 => true | _ => false end.

(** A value of an arithmetic type; a floating point number is its bits. *)
Record num (t : ctype) : Type := Num { val : Z }.
Arguments Num {t} val.
Arguments val {t} _.

(** The value with these bits. *)
Definition of_bits (plat : platform) (t : ctype) (x : Z) : Z :=
  let w := 8 * Z.of_nat (sizeof plat t) in
  if signed t && (2 ^ (w - 1) <=? x) then x - 2 ^ w else x.

(** [std::string], of any bytes. *)
Record cstring : Type := Str { chars : list Z }.

(** [std::set] and [std::map] keep their elements in the order of [operator<]. *)
Class Less (A : Type) : Type := less : A -> A -> bool.

Record std_set (A : Type) : Type := Set_ { elems : list A }.
Record std_map (A B : Type) : Type := Map_ { pairs : list (A * B) }.
Arguments Set_ {A} elems.
Arguments elems {A} _.
Arguments Map_ {A B} pairs.
Arguments pairs {A B} _.

Section ordered.
Context {A B : Type} `{Less A}.

(** [insert]: an equal element stays. *)
Fixpoint set_insert (x : A) (l : list A) : list A :=
  match l with
  | [] => [x]
  | y :: l' => if less x y then x :: l else if less y x then y :: set_insert x l' else l
  end.

(** [m[k] = v] *)
Fixpoint map_assign (k : A) (v : B) (l : list (A * B)) : list (A * B) :=
  match l with
  | [] => [(k, v)]
  | (y, u) :: l' => if less k y then (k, v) :: l else if less y k then (y, u) :: map_assign k v l' else (y, v) :: l'
  end.
End ordered.

(** ** Writing and reading *)

(** What a packet is written to: the thread's buffers and a [thread_send_buffer]. *)
Definition writer : Type := store * send_buffer -> result (store * send_buffer).

Definition wseq (f g : writer) : writer := fun s => let! s' := f s in g s'.
Definition wnil : writer := fun s => Val s.

(** [PacketSn::addBuf] *)
Definition addBuf (d : list Z) : writer := fun s => write s.1 s.2 d.

(** Reading leaves the memory as it is. *)
Definition reader (A : Type) : Type := store -> recv_buffer -> result (A * recv_buffer).

Definition rret {A} (a : A) : reader A := fun v b => Val (a, b).
Definition rbind {A B} (m : reader A) (k : A -> reader B) : reader B := fun v b => let! (a, b') := m v b in k a v b'.

(** [PacketUsn::getBuf] *)
Definition getBuf (len : Z) : reader (list Z) := fun v b => read v b len.

(** [operator <<] and [operator >>] of a type. *)
Class Packet (A : Type) : Type := { put : A -> writer; get : reader A }.

(** The type of [sizeof(long)]. *)
Class Build : Type := build : platform.

Section overloads.
Context `{Build}.

Definition put_num (t : ctype) (x : num t) : writer := addBuf (le_bytes (sizeof build t) (val x)).

(** A [bool] with another byte than 0 and 1 is undefined. *)
Definition get_num (t : ctype) : reader (num t) :=
  rbind (getBuf (Z.of_nat (sizeof build t))) (fun d v b =>
    let x := le_val d in
    match t with
    | tBool => if x <=? 1 then Val (Num x, b) else Undef "bool"
    | _ => Val (Num (of_bits build t x), b)
    end).

#[export] Instance packet_num (t : ctype) : Packet (num t) := { put := put_num t; get := get_num t }.

(** The length written before a string or a container, an [unsigned int]. *)
Definition put_len (n : nat) : writer := put (Num (t := tUInt) (u32 (Z.of_nat n))).
Definition get_len : reader nat := rbind (get (A := num tUInt)) (fun n => rret (Z.to_nat (val n))).

Definition put_string (s : cstring) : writer := wseq (put_len (length (chars s))) (addBuf (chars s)).

(** [std::string(_tr_buff->getBegin(), slen)] is not checked against the data. *)
Definition get_string : reader cstring :=
  rbind get_len (fun slen v b =>
    let! d := copy_out v (r_owner b) _packet_recv_buffer_ (r_buff_pos b) (Z.of_nat slen) in
    let! b' := addReadLen b (Z.of_nat slen) in
    Val (Str d, b')).

#[export] Instance packet_string : Packet cstring := { put := put_string; get := get_string }.

(** *** Containers *)

Section containers.
Context {A : Type} `{Packet A}.

Fixpoint put_all (l : list A) : writer :=
  match l with [] => wnil | x :: l' => wseq (put x) (put_all l') end.

Definition put_list (l : list A) : writer := wseq (put_len (length l)) (put_all l).

(** The loop that reads [n] elements. *)
Fixpoint get_loop {C : Type} (n : nat) (add : C -> A -> C) (c : C) : reader C :=
  match n with
  | O => rret c
  | S n' => rbind get (fun x => get_loop n' add (add c x))
  end.

(** [std::list], [std::deque] and [std::vector]. *)
Definition get_list : reader (list A) := rbind get_len (fun n => get_loop n (fun l x => l ++ [x]) []).

Definition get_set `{Less A} : reader (std_set A) :=
  rbind get_len (fun n => get_loop n (fun s x => Set_ (set_insert x (elems s))) (Set_ [])).
End containers.

#[export] Instance packet_list {A} `{Packet A} : Packet (list A) := { put := put_list; get := get_list }.

#[export] Instance packet_set {A} `{Packet A, Less A} : Packet (std_set A) :=
  { put s := put_list (elems s); get := get_set }.

(** [it->first] and [it->second], one after the other. *)
#[export] Instance packet_pair {A B} `{Packet A, Packet B} : Packet (A * B) := {
  put p := wseq (put p.1) (put p.2);
  get := rbind get (fun x => rbind get (fun y => rret (x, y)))
}.

Definition get_map {A B} `{Packet A, Packet B, Less A} : reader (std_map A B) :=
  rbind get_len (fun n => get_loop (A := A * B) n (fun m p => Map_ (map_assign p.1 p.2 (pairs m))) (Map_ [])).

#[export] Instance packet_map {A B} `{Packet A, Packet B, Less A} : Packet (std_map A B) :=
  { put m := put_list (pairs m); get := get_map }.

(** *** [PacketHead], [PacketSn], [PacketUsn] *)

Record PacketHead : Type := mk_head { ph_number : num tUShort; ph_trans_id : num tUInt; ph_flag : num tUInt }.

(** [PacketHead::Sn] and [PacketHead::Usn] *)
Definition put_head (h : PacketHead) : writer :=
  wseq (put (ph_number h)) (wseq (put (ph_trans_id h)) (put (ph_flag h))).
Definition get_head : reader PacketHead :=
  rbind get (fun n => rbind get (fun t => rbind get (fun f => rret (mk_head n t f)))).

#[export] Instance packet_head : Packet PacketHead := { put := put_head; get := get_head }.

Definition PacketSn (v : store) (thread max_len : Z) : result (store * send_buffer) := new_send_buffer v thread max_len.

(** [getData()] and [getLenth()]: what goes to the connection. *)
Definition getData (s : store * send_buffer) : result (list Z) :=
  copy_out s.1 (s_owner s.2) _packet_send_buffer_ 0 (s_buff_pos s.2).

Definition resetReadPos (b : recv_buffer) : recv_buffer := mk_recv (r_owner b) 0 (r_max_length b) (r_buff_len b).

(** The constructor reads the head and goes back to the front. *)
Definition PacketUsn (v : store) (thread : Z) (data : list Z) : result (store * recv_buffer * PacketHead) :=
  let! (v', b) := new_recv_buffer v thread data in
  let! (h, b') := get (A := PacketHead) v' b in
  Val (v', resetReadPos b', h).

End overloads.
End PacketInterface.

Import PacketInterface.

(** ** The format of a type and what its overloads promise *)

(** [w] has been written. *)
Definition writing (w : list Z) (s : store * send_buffer) : Prop :=
  store_ok s.1 /\ exists m, memory s.1 (s_owner s.2) _packet_send_buffer_ = Some m /\
    Z.of_nat (length m) = s_max_length s.2 /\ s_max_length s.2 < 2 ^ 32 /\
    s_buff_pos s.2 = Z.of_nat (length w) /\ take (length w) m = w /\ Z.of_nat (length w) < s_max_length s.2.

(** [n] bytes of [data] have been read; at the end the position may have gone back
    to the front. *)
Definition reading (v : store) (data : list Z) (n : nat) (b : recv_buffer) : Prop :=
  (exists m, memory v (r_owner b) _packet_recv_buffer_ = Some m /\ take (length data) m = data) /\
  r_buff_len b = Z.of_nat (length data) /\ Z.of_nat (length data) < 2 ^ 32 /\ (n <= length data)%nat /\
  (r_buff_pos b = Z.of_nat n \/ (n = length data /\ r_buff_pos b = 0)).

(** [f] appends [d]: all of it when it fits, and throws when it does not. *)
Definition writes (f : writer) (d : list Z) : Prop :=
  forall w s, writing w s ->
    (Z.of_nat (length w + length d) < s_max_length s.2 ->
      exists s', f s = Val s' /\ writing (w ++ d) s' /\ s_max_length s'.2 = s_max_length s.2) /\
    (s_max_length s.2 <= Z.of_nat (length w + length d) < 2 ^ 32 -> f s = Throw "send_buff out of rang").

(** [m] reads [d], wherever it is in the data, as [a]. *)
Definition reads {A} (m : reader A) (d : list Z) (a : A) : Prop :=
  forall v data pre rest b, data = pre ++ d ++ rest -> reading v data (length pre) b ->
    exists b', m v b = Val (a, b') /\ reading v data (length pre + length d) b'.

(** The bytes of a value, and the values that have a format. *)
Class Format (A : Type) : Type := { enc : A -> list Z; valid : A -> Prop }.

Class PacketOk (A : Type) `{Packet A, Format A} : Prop := {
  put_writes x : valid x -> writes (put x) (enc x);
  get_reads x : valid x -> reads get (enc x) x
}.

(** *** Writers and readers put together *)

Lemma writes_nil : writes wnil [].
Proof.
  intros w s Hw. cbn [length]. rewrite Nat.add_0_r, app_nil_r. split; [eauto|].
  intros [Hle _]. destruct Hw as (_ & m & _ & _ & _ & _ & _ & Hlt). lia.
Qed.

Lemma writes_addBuf d : writes (addBuf d) d.
Proof.
  intros w [v b] (Hv & m & Hm & Hl & H32 & Hp & Ht & Hw). cbn in *. unfold addBuf. cbn [fst snd]. split.
  - intros Hfit. destruct (write_ok v b m w d Hv Hm Hl H32 Hp Ht Hfit) as (v' & m' & -> & Hv' & Hm' & Hl' & Ht').
    eexists. split; [reflexivity|]. split; [|done]. split; [done|]. exists m'. cbn. rewrite length_app in *.
    split_and!; try done; lia.
  - intros Hfull. unfold write. rewrite Hp, u32_id by (unfold is_u32; lia).
    destruct (Z.leb_spec (s_max_length b) (Z.of_nat (length w) + Z.of_nat (length d))); [done|lia].
Qed.

Lemma writes_seq f g d1 d2 : writes f d1 -> writes g d2 -> writes (wseq f g) (d1 ++ d2).
Proof.
  intros Hf Hg w s Hw. destruct (Hf w s Hw) as [Hok Hfull]. rewrite length_app. unfold wseq.
  destruct (Z.lt_ge_cases (Z.of_nat (length w + length d1)) (s_max_length s.2)) as [Hlt|Hge].
  - destruct (Hok Hlt) as (s1 & -> & H1 & Hs1). destruct (Hg _ _ H1) as [Hok2 Hfull2].
    rewrite length_app, Hs1 in *. rewrite <- Nat.add_assoc in *. split; [|done].
    intros Hfit. destruct (Hok2 Hfit) as (s2 & -> & H2 & Hs2). exists s2. by rewrite app_assoc, Hs2.
  - split; [lia|]. intros Hlen. rewrite Hfull; [done|lia].
Qed.

Lemma parses_ret {A} (a : A) : reads (rret a) [] a.
Proof. intros v data pre rest b _ Hb. exists b. cbn [length]. by rewrite Nat.add_0_r. Qed.

Lemma parses_bind {A B} (m : reader A) (k : A -> reader B) d1 d2 a c :
  reads m d1 a -> reads (k a) d2 c -> reads (rbind m k) (d1 ++ d2) c.
Proof.
  intros Hm Hk v data pre rest b Hd Hb. rewrite <- app_assoc in Hd.
  destruct (Hm v data pre (d2 ++ rest) b Hd Hb) as (b1 & Hr1 & Hb1). rewrite <- length_app in Hb1. rewrite app_assoc in Hd.
  destruct (Hk v data (pre ++ d1) rest b1 Hd Hb1) as (b2 & Hr2 & Hb2).
  exists b2. unfold rbind. rewrite Hr1, Hr2. split; [done|]. by rewrite !length_app, Nat.add_assoc in *.
Qed.

Lemma reads_map {A B} (m : reader A) (f : A -> B) d a :
  reads m d a -> reads (rbind m (fun x => rret (f x))) d (f a).
Proof. intros Hm. rewrite <- (app_nil_r d). by eapply parses_bind; [|apply parses_ret]. Qed.

(** Bytes; the position goes back to the front where they are the last ones. *)
Lemma reads_getBuf d : d <> [] -> reads (getBuf (Z.of_nat (length d))) d d.
Proof.
  intros Hne v data pre rest b Hd ((m & Hm & Ht) & Hl & H32 & Hn & Hp).
  assert (Hlen : length data = (length pre + length d + length rest)%nat) by (rewrite Hd, !length_app; lia).
  assert (Hpos : (0 < length d)%nat) by (destruct d; [done|simpl; lia]).
  assert (Hp' : r_buff_pos b = Z.of_nat (length pre)) by (destruct Hp as [|[? _]]; [done|lia]).
  unfold getBuf, read. rewrite Hl, Hp', u32_id by (unfold is_u32; lia).
  destruct (Z.ltb_spec (Z.of_nat (length data)) (Z.of_nat (length pre) + Z.of_nat (length d))); [lia|].
  rewrite (copy_out_ok _ _ _ _ data _ _ Hm Ht) by lia. rewrite !Nat2Z.id.
  assert (peek data (length pre) (length d) = d) as -> by (rewrite Hd; unfold peek; by rewrite drop_app_length, take_app_length).
  eexists. split; [reflexivity|]. split; [by exists m|]. cbn. split_and!; try done; [lia|].
  destruct (Z.eqb_spec (Z.of_nat (length pre) + Z.of_nat (length d)) (Z.of_nat (length data))); [right|left]; lia.
Qed.

(** ** The overloads *)

Section formats.
Context `{Build}.

Definition num_range (t : ctype) (x : Z) : Prop :=
  let w := 8 * Z.of_nat (sizeof build t) in
  match t with
  | tBool => 0 <= x <= 1
  | _ => if signed t then - 2 ^ (w - 1) <= x < 2 ^ (w - 1) else 0 <= x < 2 ^ w
  end.

#[export] Instance format_num t : Format (num t) := {
  enc n := le_bytes (sizeof build t) (val n);
  valid n := num_range t (val n)
}.

Lemma pow_256 n : 256 ^ Z.of_nat n = 2 ^ (8 * Z.of_nat n).
Proof. change 256 with (2 ^ 8). rewrite <- Z.pow_mul_r by lia. done. Qed.

Lemma of_bits_ok (t : ctype) (x : Z) :
  t <> tBool -> num_range t x -> of_bits build t (x mod 2 ^ (8 * Z.of_nat (sizeof build t))) = x.
Proof.
  intros Hb Hr. unfold of_bits. set (w := 8 * Z.of_nat (sizeof build t)).
  assert (Hw : 1 <= w) by (unfold w; destruct t, build; cbn; lia).
  assert (Hpow : 2 ^ w = 2 * 2 ^ (w - 1)) by (rewrite <- Z.pow_succ_r by lia; f_equal; lia).
  assert (Hpos : 0 < 2 ^ (w - 1)) by (apply Z.pow_pos_nonneg; lia).
  assert (Hrange : if signed t then - 2 ^ (w - 1) <= x < 2 ^ (w - 1) else 0 <= x < 2 ^ w) by (by destruct t).
  destruct (signed t); cbn [andb]; [|by rewrite Z.mod_small].
  destruct (Z.lt_ge_cases x 0) as [Hneg|Hge].
  - rewrite <- (Z.mod_add _ 1), Z.mul_1_l, Z.mod_small by lia. destruct (Z.leb_spec (2 ^ (w - 1)) (x + 2 ^ w)); lia.
  - rewrite Z.mod_small by lia. destruct (Z.leb_spec (2 ^ (w - 1)) x); lia.
Qed.

#[export] Instance num_ok t : PacketOk (num t).
Proof.
  split; intros [x] Hr; cbn in *.
  - apply writes_addBuf.
  - intros v data pre rest b Hd Hb. unfold get_num, rbind.
    assert (Hl : length (le_bytes (sizeof build t) x) = sizeof build t) by apply length_le_bytes.
    assert (Hne : le_bytes (sizeof build t) x <> []) by (destruct t, build; done).
    destruct (reads_getBuf _ Hne v data pre rest b Hd Hb) as (b' & Hg & Hb'). rewrite Hl in Hg, Hb'.
    rewrite Hg, Hl. exists b'. split; [|done]. rewrite le_val_bytes, pow_256.
    destruct (decide (t = tBool)) as [->|Hnb].
    + rewrite Z.mod_small by (cbn in *; lia). cbn in Hr. destruct (Z.leb_spec x 1); [done|lia].
    + rewrite of_bits_ok by done. by destruct t.
Qed.

(** A length below 2^32. *)
Definition len_ok (n : nat) : Prop := Z.of_nat n < 2 ^ 32.
Definition enc_len (n : nat) : list Z := le_bytes 4 (Z.of_nat n).
Arguments enc_len _ : simpl never.

Lemma put_len_writes n : len_ok n -> writes (put_len n) (enc_len n).
Proof.
  intros Hn. unfold put_len. rewrite u32_id by (unfold is_u32, len_ok in *; lia).
  apply (put_writes (A := num tUInt) (PacketOk := num_ok tUInt) (Num (Z.of_nat n))). cbn. unfold len_ok in Hn. lia.
Qed.

Lemma get_len_reads n : len_ok n -> reads get_len (enc_len n) n.
Proof.
  intros Hn. assert (reads get_len (enc_len n) (Z.to_nat (val (Num (t := tUInt) (Z.of_nat n))))) as Hr; [|cbn [val] in Hr; by rewrite Nat2Z.id in Hr].
  apply (reads_map get (fun k : num tUInt => Z.to_nat (val k))). apply (get_reads (A := num tUInt) (PacketOk := num_ok tUInt) (Num (Z.of_nat n))).
  cbn. unfold len_ok in Hn. lia.
Qed.

#[export] Instance format_string : Format cstring := {
  enc s := enc_len (length (chars s)) ++ chars s;
  valid s := len_ok (length (chars s))
}.

#[export] Instance string_ok : PacketOk cstring.
Proof.
  split; intros [d] Hd; cbn in *.
  - unfold put_string. apply writes_seq; [by apply put_len_writes|apply writes_addBuf].
  - unfold get_string. eapply parses_bind; [by apply get_len_reads|].
    intros v data pre rest b Hdata ((m & Hm & Ht) & Hl & H32 & Hn & Hp).
    assert (Hlen : length data = (length pre + length d + length rest)%nat) by (rewrite Hdata, !length_app; lia).
    assert (Hpos : 0 <= r_buff_pos b /\ r_buff_pos b + Z.of_nat (length d) <= Z.of_nat (length data))
      by (destruct Hp as [|[? ?]]; lia).
    rewrite (copy_out_ok _ _ _ _ data _ _ Hm Ht) by lia.
    assert (peek data (Z.to_nat (r_buff_pos b)) (Z.to_nat (Z.of_nat (length d))) = d) as ->.
    { rewrite Nat2Z.id. destruct Hp as [->|[He ->]].
      - rewrite Nat2Z.id, Hdata. unfold peek. by rewrite drop_app_length, take_app_length.
      - assert (length d = 0)%nat as Hd0 by lia. apply nil_length_inv in Hd0 as ->. done. }
    unfold addReadLen. rewrite Hl, u32_id by (unfold is_u32; lia).
    destruct (Z.leb_spec (r_buff_pos b + Z.of_nat (length d)) (Z.of_nat (length data))); [|lia].
    eexists. split; [reflexivity|]. split; [by exists m|]. cbn. split_and!; try done; [lia|].
    destruct Hp as [->|[He ->]]; [left; lia|]. destruct d; cbn in *; [right; split; lia|lia].
Qed.

(** *** Containers *)

Section containers.
Context {A : Type} `{PacketOk A}.

Definition enc_all (l : list A) : list Z := mjoin (enc <$> l).

Lemma put_all_writes l : Forall valid l -> writes (put_all l) (enc_all l).
Proof.
  induction 1 as [|x l Hx Hl IH]; [apply writes_nil|]. apply (writes_seq (put x) (put_all l) (enc x) (enc_all l)); [|done].
  by apply put_writes.
Qed.

Lemma put_list_writes l : len_ok (length l) -> Forall valid l -> writes (put_list l) (enc_len (length l) ++ enc_all l).
Proof. intros Hn Hl. apply writes_seq; [by apply put_len_writes|by apply put_all_writes]. Qed.

Lemma get_loop_reads {C} (add : C -> A -> C) l c :
  Forall valid l -> reads (get_loop (length l) add c) (enc_all l) (fold_left add l c).
Proof.
  intros Hl. revert c. induction Hl as [|x l Hx Hl IH]; intros c; [apply parses_ret|].
  apply (parses_bind get _ (enc x) (enc_all l) x); [by apply get_reads|apply IH].
Qed.

(** A container read by adding the elements one by one. *)
Lemma get_container_reads {C} (add : C -> A -> C) (e r : C) (l : list A) :
  len_ok (length l) -> Forall valid l -> fold_left add l e = r ->
  reads (rbind get_len (fun n => get_loop n add e)) (enc_len (length l) ++ enc_all l) r.
Proof. intros Hn Hl <-. eapply parses_bind; [by apply get_len_reads|by apply get_loop_reads]. Qed.

#[export] Instance format_list : Format (list A) := {
  enc l := enc_len (length l) ++ enc_all l;
  valid l := len_ok (length l) /\ Forall valid l
}.

Lemma fold_left_snoc (l acc : list A) : fold_left (fun l x => l ++ [x]) l acc = acc ++ l.
Proof. revert acc. induction l as [|x l IH]; intros acc; cbn; [by rewrite app_nil_r|]. by rewrite IH, <- app_assoc. Qed.

#[export] Instance list_ok : PacketOk (list A).
Proof.
  split; intros l [Hn Hl].
  - by apply put_list_writes.
  - apply get_container_reads; [done|done|]. by rewrite fold_left_snoc.
Qed.
End containers.

(** [operator<] is a strict order. *)
Class LessOk (A : Type) `{Less A} : Prop := less_strict :: StrictOrder (fun x y : A => less x y = true).

Lemma less_asym {A} `{LessOk A} (x y : A) : less x y = true -> less y x = false.
Proof.
  intros Hxy. destruct (less y x) eqn:Hyx; [|done]. exfalso.
  apply (StrictOrder_Irreflexive (R := fun x y : A => less x y = true) x).
  exact (StrictOrder_Transitive (R := fun x y : A => less x y = true) x y x Hxy Hyx).
Qed.

(** A tree's elements, in order. *)
Abbreviation in_order := (StronglySorted (fun x y => less x y = true)).

Lemma in_order_snoc {A} `{Less A} (l : list A) x l' :
  in_order (l ++ x :: l') -> Forall (fun y => less y x = true) l.
Proof.
  induction l as [|y l IH]; cbn; intros Hs; [constructor|]. apply StronglySorted_inv in Hs as [Hs Hy]. constructor; [|auto].
  rewrite Forall_forall in Hy. apply Hy. set_solver.
Qed.

Lemma set_insert_last {A} `{LessOk A} (x : A) l : Forall (fun y => less y x = true) l -> set_insert x l = l ++ [x].
Proof. induction 1 as [|y l Hy Hl IH]; cbn; [done|]. by rewrite (less_asym _ _ Hy), Hy, IH. Qed.

Lemma fold_insert {A} `{LessOk A} (l acc : list A) :
  in_order (acc ++ l) -> fold_left (fun s x => Set_ (set_insert x (elems s))) l (Set_ acc) = Set_ (acc ++ l).
Proof.
  revert acc. induction l as [|x l IH]; intros acc Hs; cbn; [by rewrite app_nil_r|].
  rewrite set_insert_last by (by eapply in_order_snoc). rewrite IH; rewrite <- app_assoc; done.
Qed.

#[export] Instance format_set {A} `{Format A, Less A} : Format (std_set A) := {
  enc s := enc_len (length (elems s)) ++ enc_all (elems s);
  valid s := len_ok (length (elems s)) /\ Forall valid (elems s) /\ in_order (elems s)
}.

#[export] Instance set_ok {A} `{PacketOk A, !Less A, !LessOk A} : PacketOk (std_set A).
Proof.
  split; intros [l] (Hn & Hl & Hs); cbn in *.
  - by apply put_list_writes.
  - apply get_container_reads; [done|done|]. by apply fold_insert.
Qed.

#[export] Instance format_pair {A B} `{Format A, Format B} : Format (A * B) := {
  enc p := enc p.1 ++ enc p.2;
  valid p := valid p.1 /\ valid p.2
}.

#[export] Instance pair_ok {A B} `{PacketOk A, PacketOk B} : PacketOk (A * B).
Proof.
  split; intros [x y] [Hx Hy]; cbn in *.
  - apply writes_seq; by apply put_writes.
  - eapply parses_bind; [by apply get_reads|]. apply (reads_map get (pair x)). by apply get_reads.
Qed.

Lemma map_assign_last {A B} `{LessOk A} (k : A) (v : B) l :
  Forall (fun y => less y k = true) l.*1 -> map_assign k v l = l ++ [(k, v)].
Proof.
  induction l as [|[y u] l IH]; cbn; intros Hl; [done|]. apply Forall_cons in Hl as [Hy Hl]. cbn in Hy.
  by rewrite (less_asym _ _ Hy), Hy, IH.
Qed.

Lemma fold_assign {A B} `{LessOk A} (l acc : list (A * B)) :
  in_order (acc ++ l).*1 -> fold_left (fun m p => Map_ (map_assign p.1 p.2 (pairs m))) l (Map_ acc) = Map_ (acc ++ l).
Proof.
  revert acc. induction l as [|[k v] l IH]; intros acc Hs; cbn; [by rewrite app_nil_r|].
  rewrite map_assign_last by (rewrite fmap_app in Hs; by eapply in_order_snoc). rewrite IH; rewrite <- app_assoc; done.
Qed.

#[export] Instance format_map {A B} `{Format A, Format B, Less A} : Format (std_map A B) := {
  enc m := enc_len (length (pairs m)) ++ enc_all (pairs m);
  valid m := len_ok (length (pairs m)) /\ Forall valid (pairs m) /\ in_order (pairs m).*1
}.

#[export] Instance map_ok {A B} `{PacketOk A, PacketOk B, !Less A, !LessOk A} : PacketOk (std_map A B).
Proof.
  pose proof (put_list_writes (A := A * B)) as Hput. pose proof (get_container_reads (A := A * B) (C := std_map A B)) as Hget.
  split; intros [l] (Hn & Hl & Hs).
  - exact (Hput l Hn Hl).
  - apply (Hget _ (Map_ []) (Map_ l) l Hn Hl). by apply fold_assign.
Qed.

#[export] Instance format_head : Format PacketHead := {
  enc h := enc (ph_number h) ++ enc (ph_trans_id h) ++ enc (ph_flag h);
  valid h := valid (ph_number h) /\ valid (ph_trans_id h) /\ valid (ph_flag h)
}.

#[export] Instance head_ok : PacketOk PacketHead.
Proof.
  split; intros [n t f] (Hn & Ht & Hf); cbn [ph_number ph_trans_id ph_flag] in *.
  - apply writes_seq; [by apply (put_writes (A := num tUShort))|]. apply writes_seq; by apply (put_writes (A := num tUInt)).
  - eapply parses_bind; [by apply (get_reads (A := num tUShort))|]. eapply parses_bind; [by apply (get_reads (A := num tUInt))|].
    apply (reads_map get (mk_head n t)). by apply (get_reads (A := num tUInt)).
Qed.

End formats.

(** ** Packets *)

Section packets.
Context `{Build} {A : Type} `{PacketOk A}.

(** A message: its head, then its fields. *)
Definition put_message (h : PacketHead) (x : A) : writer := wseq (put h) (put x).
Definition enc_message (h : PacketHead) (x : A) : list Z := enc h ++ enc x.

Lemma new_packet v t max_len :
  store_ok v -> 0 < max_len -> max_len * 150 < 2 ^ 32 ->
  exists s, PacketSn v t max_len = Val s /\ writing [] s /\ max_len <= s_max_length s.2.
Proof.
  intros Hv Hpos Hm. unfold PacketSn, new_send_buffer.
  destruct (manager_get_ok v t _packet_send_buffer_ max_len) as (v' & i & n & m & -> & Hv' & Hmem & Hl & Hn & Hle);
    [done|unfold _packet_send_buffer_, _packet_buffer_max_; lia|done|done|].
  eexists. split; [reflexivity|]. split; [|done]. split; [done|]. exists m. cbn. unfold _buffer_default_length in Hn.
  split_and!; try done; lia.
Qed.

Lemma getData_ok w s : writing w s -> getData s = Val w.
Proof.
  intros (_ & m & Hm & Hl & _ & Hp & Ht & Hlt). unfold getData. rewrite Hp, (copy_out_ok _ _ _ _ w _ _ Hm Ht) by lia.
  unfold peek. by rewrite drop_0, Nat2Z.id, take_ge.
Qed.

Lemma new_reading v t data :
  store_ok v -> (Z.of_nat (length data) + 1) * 150 < 2 ^ 32 ->
  exists v' b, new_recv_buffer v t data = Val (v', b) /\ store_ok v' /\ reading v' data 0 b.
Proof.
  intros Hv Hm. unfold new_recv_buffer. rewrite u32_id by (unfold is_u32; lia).
  destruct (manager_get_ok v t _packet_recv_buffer_ (Z.of_nat (length data) + 1)) as (v' & i & n & m & -> & Hv' & Hmem & Hl & Hn & Hle);
    [done|unfold _packet_recv_buffer_, _packet_buffer_max_; lia|lia|done|].
  destruct (copy_in_ok v' i _packet_recv_buffer_ m 0 data) as (v2 & -> & Hv2 & Hm2); [done|done|lia|lia|].
  eexists _, _. split; [reflexivity|]. split; [done|]. split; [|cbn; split_and!; try done; [lia|lia|by left]].
  exists (blit m 0 data). split; [done|]. rewrite take_blit by lia. by rewrite take_0.
Qed.

Lemma reset_reading v data n b : reading v data n b -> reading v data 0 (resetReadPos b).
Proof. intros (Hm & Hl & H32 & Hn & Hp). split_and!; try done; [cbn; lia|by left]. Qed.

Lemma put_message_writes h x : valid h -> valid x -> writes (put_message h x) (enc_message h x).
Proof. intros Hh Hx. apply writes_seq; by apply put_writes. Qed.


(** A message that does not fit is refused: the [BuffException] of the first item
    that reaches the end of the buffer is thrown, and nothing is written past it. *)
Theorem packet_overflow_throws v t max_len (h : PacketHead) (x : A) s :
  store_ok v -> 0 < max_len -> max_len * 150 < 2 ^ 32 -> valid h -> valid x ->
  PacketSn v t max_len = Val s -> s_max_length s.2 <= Z.of_nat (length (enc_message h x)) < 2 ^ 32 ->
  put_message h x s = Throw "send_buff out of rang".
Proof.
  intros Hv Hpos Hm Hh Hx Hs Hlen. destruct (new_packet v t max_len Hv Hpos Hm) as (s' & Hs' & Hw & _).
  assert (s' = s) as -> by congruence. by apply (put_message_writes h x Hh Hx [] s Hw).
Qed.

End packets.

(** *** A map of names to the sets of numbers of each, in a POSIX build *)

#[local] Instance posix : Build := POSIX.

#[local] Instance num_less t : Less (num t) := fun x y => val x <? val y.
#[local] Instance num_less_ok t : LessOk (num t).
Proof.
  split.
  - intros x Hx. unfold less, num_less in Hx. by rewrite Z.ltb_irrefl in Hx.
  - intros x y z Hx Hy. unfold less, num_less in *. apply Z.ltb_lt in Hx, Hy. apply Z.ltb_lt. lia.
Qed.

Definition demo_head : PacketHead := mk_head (Num 7) (Num 1000) (Num 0).
Definition demo_payload : std_map (num tLong) (list (std_set (num tShort) * cstring)) :=
  Map_ [(Num (-5), [(Set_ [Num (-1); Num 3], Str [104; 0; 105])]); (Num 9, [])].

Lemma demo_head_valid : valid demo_head.
Proof. by vm_compute. Qed.

Lemma demo_payload_valid : valid demo_payload.
Proof.
  split_and!; [by vm_compute| |].
  - repeat first [apply Forall_nil; exact I | apply Forall_cons; split | split; cbn]; try (by vm_compute).
    all: repeat constructor; by vm_compute.
  - repeat constructor; by vm_compute.
Qed.


Definition long_string : cstring := Str (repeat 65 (Z.to_nat 64990)).

Lemma long_length : Z.of_nat (length (enc_message demo_head long_string)) = 65004.
Proof.
  unfold enc_message, long_string. cbn [enc format_head format_string format_num chars].
  unfold enc_len. rewrite !length_app, !length_le_bytes, repeat_length. cbn [sizeof]. lia.
Qed.

Lemma long_valid : valid long_string.
Proof. unfold valid, format_string, len_ok, long_string. cbn [chars]. rewrite repeat_length. lia. Qed.

(** A buffer has 65000 bytes at least. *)
Lemma small_packet : exists s, PacketSn [] 1 100 = Val s /\ s_max_length s.2 = 65000.
Proof. eexists. split; reflexivity. Qed.

Lemma packet_overflow_throws_witness :
  exists s, PacketSn [] 1 100 = Val s /\ put_message demo_head long_string s = Throw "send_buff out of rang".
Proof.
  destruct small_packet as (s & Hs & Hmax). exists s. split; [exact Hs|].
  apply (packet_overflow_throws [] 1 100 demo_head long_string s); [constructor|reflexivity|reflexivity|
    exact demo_head_valid|exact long_valid|exact Hs|]. rewrite Hmax, long_length. split; [discriminate|reflexivity].
Defined.

(** ** What the code does not guarantee *)

(** [read] goes back to the front at the end of the data, so a count that is too
    large is not noticed: a packet of one number, read as a list, gives the number
    as often as it says. *)
Example list_read_round_the_packet :
  (match new_recv_buffer [] 1 [3; 0; 0; 0] with
   | Val (v, b) => match get (A := list (num tUInt)) v b with Val (l, _) => Some (val <$> l) | _ => None end
   | _ => None
   end) = Some [3; 3; 3].
Proof. vm_compute. reflexivity. Qed.

(** A string's length is not checked before its bytes are read: bytes that earlier
    packets left in the buffer are copied before the assertion fails. *)
Example string_read_past_the_data :
  (match new_recv_buffer [] 1 [9; 0; 0; 0; 65] with
   | Val (v, b) => match get (A := cstring) v b with Val _ => None | Throw w => Some w | Undef w => Some w end
   | _ => None
   end) = Some "assert(_buff_pos <= _buff_len)".
Proof. vm_compute. reflexivity. Qed.
