(* ===== verification/Text.v ===== *)
(** Text the servers build and read: what [sprintf] prints for ["%d"] and
    ["%llu"], the bound of the buffers it prints into, and the number readers
    [isIntger], [atoi] and [strtol].  The C and C++ library functions are modelled
    as far as the servers use them; [isIntger] is [common/utilities.cpp]'s. *)

From Stdlib Require Import Ascii String.
From S2P Require Import Prelude Utilities.
From stdpp Require Import prelude gmap list strings sorting pretty.
#[local] Open Scope Z_scope.

Module Text.

(** ["%d"] of an [int] and ["%llu"] of a [u64]. *)
Definition print_d (x : Z) : string := pretty x.
Definition print_u (x : Z) : string := pretty (Z.to_N x).

(** [sprintf] into a [char[size]]: the text and its NUL must fit. *)
Definition sprintf (size : Z) (text : string) : outcome string :=
  if Z.of_nat (String.length text) <? size then Ret text else UB "sprintf past the end of the buffer".

(** Digits from the front of a string: their value and how many. *)
Definition digit_of (a : ascii) : option Z :=
  let c := Z.of_N (N_of_ascii a) in
  if (48 <=? c) && (c <=? 57) then Some (c - 48) else None.

Fixpoint read_digits (s : string) (acc : Z) (seen : bool) : option Z :=
  match s with
  | String a s' =>
      match digit_of a with
      | Some d => read_digits s' (acc * 10 + d) true
      | None => if seen then Some acc else None
      end
  | EmptyString => if seen then Some acc else None
  end.

Definition is_space (a : ascii) : bool :=
  let c := Z.of_N (N_of_ascii a) in (c =? 32) || ((9 <=? c) && (c <=? 13)).

(** White space, an optional sign, digits: the number, or [None] without digits. *)
Fixpoint scan_number (s : string) : option Z :=
  match s with
  | EmptyString => None
  | String a s' =>
      if is_space a then scan_number s'
      else if Ascii.eqb a "-" then Z.opp <$> read_digits s' 0 false
      else if Ascii.eqb a "+" then read_digits s' 0 false
      else read_digits s 0 false
  end.

(** [isIntger]: [stringstream >> int] fails without digits and out of range. *)
Definition isIntger (str : string) : bool :=
  match scan_number str with
  | Some n => (- 2 ^ 31 <=? n) && (n <? 2 ^ 31)
  | None => false
  end.

(** [atoi], of a text whose number is an [int]. *)
Definition atoi (s : string) : Z := default 0 (scan_number s).

(** [strtol (s, NULL, 10)] with a 64-bit [long], clamped. *)
Definition strtol (s : string) : Z :=
  Z.max (- 2 ^ 63) (Z.min (2 ^ 63 - 1) (default 0 (scan_number s))).

End Text.

Import Text Utilities.

(** ** What is printed is read back *)

Lemma digit_of_pretty x : (x < 10)%N -> digit_of (pretty_N_char x) = Some (Z.of_N x).
Proof.
  intros Hx.
  assert (x = 0 \/ x = 1 \/ x = 2 \/ x = 3 \/ x = 4 \/ x = 5 \/ x = 6 \/ x = 7 \/ x = 8 \/ x = 9)%N
    as Hc by lia.
  by repeat (destruct Hc as [->|Hc]; [reflexivity|]); subst.
Qed.

Lemma read_digits_go (x : N) s acc seen :
  (0 < x)%N -> acc = 0 ->
  read_digits (pretty_N_go x s) acc seen = read_digits s (Z.of_N x) true.
Proof.
  revert s acc seen. induction (N.lt_wf_0 x) as [x _ IH]. intros s acc seen Hx ->.
  rewrite pretty_N_go_step by done.
  pose proof (N.mod_lt x 10 ltac:(lia)) as Hm.
  assert (Hd : digit_of (pretty_N_char (x `mod` 10)) = Some (Z.of_N (x `mod` 10))) by (by apply digit_of_pretty).
  assert (Hval : Z.of_N (x / 10) * 10 + Z.of_N (x `mod` 10) = Z.of_N x) by (rewrite (N.div_mod' x 10) at 3; lia).
  destruct (decide (0 < x / 10)%N) as [Hq|Hq].
  - rewrite IH; [|apply N.div_lt; lia|done|done]. cbn [read_digits]. by rewrite Hd, Hval.
  - assert (Hz : (x / 10)%N = 0%N) by lia. rewrite Hz in *. rewrite pretty_N_go_0.
    cbn [read_digits]. rewrite Hd. f_equal. lia.
Qed.

Lemma read_digits_print (x : N) : read_digits (pretty x) 0 false = Some (Z.of_N x).
Proof.
  unfold pretty, pretty_N. destruct (decide (x = 0%N)) as [->|]; [reflexivity|].
  by rewrite read_digits_go by lia.
Qed.

Lemma pretty_N_go_all (P : ascii -> Prop) (x : N) s :
  (forall d, (d < 10)%N -> P (pretty_N_char d)) -> all_chars P s -> all_chars P (pretty_N_go x s).
Proof.
  intros Hd. revert s. induction (N.lt_wf_0 x) as [x _ IH]. intros s Hs.
  destruct (decide (0 < x)%N) as [Hx|Hx].
  - rewrite pretty_N_go_step by done. apply IH; [apply N.div_lt; lia|].
    split; [|done]. apply Hd. apply N.mod_lt. lia.
  - assert (x = 0%N) as -> by lia. by rewrite pretty_N_go_0.
Qed.

Definition is_digit (a : ascii) : Prop := digit_of a <> None.

Lemma print_N_digits (x : N) : all_chars is_digit (pretty x).
Proof.
  unfold pretty, pretty_N. destruct (decide (x = 0%N)); [split; [discriminate|exact I]|].
  apply pretty_N_go_all; [|exact I]. intros d Hd. unfold is_digit. by rewrite digit_of_pretty.
Qed.

Lemma print_N_ne (x : N) : pretty x <> EmptyString.
Proof.
  intros He. pose proof (read_digits_print x) as Hr. by rewrite He in Hr.
Qed.

Lemma scan_digits s : s <> EmptyString -> all_chars is_digit s -> scan_number s = read_digits s 0 false.
Proof.
  destruct s as [|a s]; [done|]. intros _ [Ha _]. unfold is_digit, digit_of in Ha. cbn [scan_number].
  destruct (Z.leb_spec 48 (Z.of_N (N_of_ascii a))), (Z.leb_spec (Z.of_N (N_of_ascii a)) 57); try done.
  assert (is_space a = false) as ->.
  { unfold is_space. destruct (Z.eqb_spec (Z.of_N (N_of_ascii a)) 32); [lia|].
    destruct (Z.leb_spec (Z.of_N (N_of_ascii a)) 13); [lia|]. by rewrite andb_false_r. }
  destruct (Ascii.eqb_spec a "-") as [->|_]; [vm_compute in *; congruence|].
  destruct (Ascii.eqb_spec a "+") as [->|_]; [vm_compute in *; congruence|]. done.
Qed.

Lemma scan_print_u x : 0 <= x -> scan_number (print_u x) = Some x.
Proof.
  intros Hx. unfold print_u. rewrite scan_digits by auto using print_N_ne, print_N_digits.
  rewrite read_digits_print. f_equal. lia.
Qed.

Lemma scan_print_d x : scan_number (print_d x) = Some x.
Proof.
  unfold print_d. destruct x as [|p|p]; [reflexivity| |].
  - change (pretty (Zpos p)) with (pretty (Npos p)).
    rewrite scan_digits by auto using print_N_ne, print_N_digits. by rewrite read_digits_print.
  - change (scan_number (pretty (Zneg p))) with (Z.opp <$> read_digits (pretty (Npos p)) 0 false).
    by rewrite read_digits_print.
Qed.

(** Numbers printed contain digits and a minus sign only. *)
Lemma print_d_chars (P : ascii -> Prop) x :
  P "-"%char -> (forall a, is_digit a -> P a) -> print_d x <> EmptyString /\ all_chars P (print_d x).
Proof.
  intros Hminus Hdig.
  assert (Hw : forall s, all_chars is_digit s -> all_chars P s).
  { induction s as [|a s IH]; [done|]. intros [Ha Hs]. split; [by apply Hdig|by apply IH]. }
  unfold print_d. destruct x as [|p|p].
  - split; [discriminate|]. apply Hw. split; [discriminate|exact I].
  - change (pretty (Zpos p)) with (pretty (Npos p)).
    split; [apply print_N_ne|]. apply Hw, print_N_digits.
  - split; [discriminate|]. split; [done|]. apply Hw, (print_N_digits (Npos p)).
Qed.

Lemma print_u_chars (P : ascii -> Prop) x :
  (forall a, is_digit a -> P a) -> print_u x <> EmptyString /\ all_chars P (print_u x).
Proof.
  intros Hdig. unfold print_u. split; [apply print_N_ne|].
  assert (Hw : forall s, all_chars is_digit s -> all_chars P s).
  { induction s as [|a s IH]; [done|]. intros [Ha Hs]. split; [by apply Hdig|by apply IH]. }
  apply Hw, print_N_digits.
Qed.

Lemma isIntger_print_d x : is_s32 x -> isIntger (print_d x) = true.
Proof.
  unfold is_s32, isIntger. intros Hx. rewrite scan_print_d.
  destruct (Z.leb_spec (- 2 ^ 31) x), (Z.ltb_spec x (2 ^ 31)); (done || lia).
Qed.

Lemma atoi_print_d x : atoi (print_d x) = x.
Proof. unfold atoi. by rewrite scan_print_d. Qed.

(** [SplitStringA] on what was joined, for fields that are not empty and do not
    contain the delimiter. *)
Definition field_ok (d : ascii) (f : string) : Prop := f <> EmptyString /\ all_chars (fun a => a <> d) f.

Lemma split_join d fs :
  fs <> [] -> Forall (field_ok d) fs -> (SplitStringA (join_with d fs) (delim d)).2 = fs.
Proof.
  intros Hne Hfs. rewrite split_spec.
  - cbn [snd]. rewrite cut_join by (done || (eapply Forall_impl; [exact Hfs|]; by intros f [_ Hf])).
    apply filter_non_empty. eapply Forall_impl; [exact Hfs|]. by intros f [Hf _].
  - destruct Hfs as [|f [|g fs] [Hf _] _]; [done|done|]. cbn [join_with].
    destruct f; [done|]. rewrite string_app_cons. discriminate.
Qed.

(** ** Ordered traversal of a [std::map<std::string, T>] *)

Definition string_key_le {A} (p q : string * A) : Prop := String.leb p.1 q.1 = true.

#[global] Instance string_key_le_dec {A} (p q : string * A) : Decision (string_key_le p q).
Proof. unfold string_key_le. apply _. Defined.

Definition string_walk {A} (m : gmap string A) : list (string * A) :=
  merge_sort string_key_le (map_to_list m).

Lemma string_walk_perm {A} (m : gmap string A) : string_walk m ≡ₚ map_to_list m.
Proof. apply merge_sort_Permutation. Qed.

(** ** Lengths of printed numbers *)

Lemma length_pretty_N_go k (x : N) s :
  (x < 10 ^ N.of_nat k)%N -> (String.length (pretty_N_go x s) <= k + String.length s)%nat.
Proof.
  revert x s. induction k as [|k IH]; intros x s Hx.
  - assert (x = 0%N) as -> by (simpl in Hx; lia). by rewrite pretty_N_go_0.
  - destruct (decide (0 < x)%N) as [Hp|Hp].
    + rewrite pretty_N_go_step by done. etransitivity; [apply IH|simpl; lia].
      rewrite Nat2N.inj_succ, N.pow_succ_r' in Hx. apply N.Div0.div_lt_upper_bound. lia.
    + assert (x = 0%N) as -> by lia. rewrite pretty_N_go_0. lia.
Qed.

Lemma length_print_u x : is_u64 x -> (String.length (print_u x) <= 20)%nat.
Proof.
  unfold is_u64, print_u, pretty, pretty_N. intros Hx. destruct (decide (Z.to_N x = 0%N)); [simpl; lia|].
  etransitivity; [apply (length_pretty_N_go 20)|simpl; lia].
  change (10 ^ N.of_nat 20)%N with 100000000000000000000%N. lia.
Qed.
