(* ===== verification/Clock.v ===== *)
(** Time and buffers of [common/utilities.cpp] that [Utilities] leaves out, and the
    conversions of MySQL times in [common/database.cpp]: the tick counter and the
    monitor that measures with it, dates as text and back, the static buffer, the
    verifier's indices.

    [gettimeofday], [localtime] and [mktime] are the C library's: arguments. *)

From Stdlib Require Import Ascii String.
From S2P Require Import Prelude Utilities Text.
From stdpp Require Import prelude strings list pretty.
#[local] Open Scope Z_scope.

Module Clock.
Import Utilities Text.

(** [get_tick_count] outside Windows, from the two fields of [gettimeofday]. *)
Definition get_tick_count (tv_sec tv_usec : Z) : Z := u32 (tv_sec * 1000 + tv_usec / 1000).

(** [function_spend_time_monitor]: what the destructor prints as the time spent. *)
Definition spend_time (m_begin m_end : Z) : Z := u32 (m_end - m_begin).

(** ["%d-%d-%d %d:%d:%d"]. *)
Definition print_date (x : Z * Z * Z * Z * Z * Z) : string :=
  let '(y, m, d, h, min, s) := x in
  print_d y +:+ "-" +:+ print_d m +:+ "-" +:+ print_d d +:+ " " +:+ print_d h +:+ ":" +:+ print_d min +:+ ":" +:+ print_d s.

(** Through [char tmp[64]]. *)
Definition build_unix_time_to_string (localtime : Z -> tm) (t : Z) : outcome string :=
  sprintf 64 (print_date (convert_unix_time localtime t)).

Definition make_unix_time (mktime : tm -> Z) (year month day hour minute second : Z) : Z :=
  u32 (mktime (mk_tm second minute hour day (month - 1) (year - 1900) 0 0)).

(** [DBTime2U32] and [DBDateTime2U32]; [hour], [minute] and [second] are bytes. *)
Definition DBTime2U32 (hour minute second : Z) : Z := u32 (hour * 3600 + minute * 60 + second).

Definition DBDateTime2U32 (mktime : tm -> Z) (year month day hour minute second : Z) : Z :=
  u32 (mktime (mk_tm second minute hour day (month - 1) (year - 1900) 0 0)).

(** [get_and_create_static_buffer]: the size of [s_ptr]'s block, once there is one. *)
Definition get_and_create_static_buffer (s_ptr : option Z) (size : Z) : option Z :=
  match s_ptr with Some n => Some n | None => Some size end.

(** [data_stream_verifier]'s constructor and [reset]. *)
Record data_stream_verifier : Type := mk_verifier { send_index : Z; recv_index : Z }.
Definition reset (_ : data_stream_verifier) : data_stream_verifier := mk_verifier 0 0.

End Clock.

Import Utilities Text Clock.

(** The monitor is right across a wrap of the counter, for less than 2^32 ms. *)
Lemma spend_time_right s1 u1 s2 u2 :
  0 <= (s2 * 1000 + u2 / 1000) - (s1 * 1000 + u1 / 1000) < 2 ^ 32 ->
  spend_time (get_tick_count s1 u1) (get_tick_count s2 u2) = (s2 * 1000 + u2 / 1000) - (s1 * 1000 + u1 / 1000).
Proof. unfold spend_time, get_tick_count, u32. intros H. rewrite <- Zminus_mod. by apply Z.mod_small. Qed.

(** A date as six numbers is read back, where [mktime] inverts [localtime] on the
    fields it is given. *)
Lemma make_convert localtime mktime t :
  is_u32 t ->
  (let p := localtime t in mktime (mk_tm (tm_sec p) (tm_min p) (tm_hour p) (tm_mday p) (tm_mon p) (tm_year p) 0 0) = t) ->
  (let '(y, m, d, h, mi, s) := convert_unix_time localtime t in make_unix_time mktime y m d h mi s) = t.
Proof.
  intros Ht Hm. unfold convert_unix_time, make_unix_time. cbn in *.
  replace (tm_year (localtime t) + 1900 - 1900) with (tm_year (localtime t)) by lia.
  replace (tm_mon (localtime t) + 1 - 1) with (tm_mon (localtime t)) by lia. by rewrite Hm, u32_id.
Qed.

(** The seconds of a day. *)
Lemma DBTime2U32_bound h m s : 0 <= h < 24 -> 0 <= m < 60 -> 0 <= s < 60 -> 0 <= DBTime2U32 h m s < 86400.
Proof. unfold DBTime2U32. intros. rewrite u32_id by mach. lia. Qed.

(** Two times of a day are equal when their seconds are. *)
Lemma DBTime2U32_inj h m s h' m' s' :
  0 <= h < 24 -> 0 <= m < 60 -> 0 <= s < 60 -> 0 <= h' < 24 -> 0 <= m' < 60 -> 0 <= s' < 60 ->
  DBTime2U32 h m s = DBTime2U32 h' m' s' -> h = h' /\ m = m' /\ s = s'.
Proof. unfold DBTime2U32. intros. rewrite !u32_id in * by mach. lia. Qed.

(** The buffer keeps the size of the first call: a later call that asks for more
    gets the small one. *)
Example static_buffer_stays_small : get_and_create_static_buffer (get_and_create_static_buffer None 16) 4096 = Some 16.
Proof. reflexivity. Qed.
