(* ===== verification/GameData.v ===== *)
(** The data the game server works on: the protobuf messages of
    [message/common.proto], [dream_hero.proto], [msg_game_db.proto] as the
    generated classes of [common/message/] hold them, and
    [gameserver/GameConfig.h/.cpp], the tables loaded from the world database.

    Integers of a message are in range; a field the code may leave unset is an
    [option]. *)

From S2P Require Import Prelude.
From stdpp Require Import prelude gmap strings list.
#[local] Open Scope Z_scope.

Module Messages.

(** [message::HeroErrorCode]. *)
Inductive HeroErrorCode : Set :=
| no_error
| server_error_no_suit_id
| toy_cd_key_already_verify
| toy_cd_key_have_been_in_used
| equip_level_up_not_enough_gold
| equip_level_up_not_enough_diamand
| equip_level_up_not_found_equip
| equip_level_up_not_found_config
| equip_level_up_not_enough_equip.

#[global] Instance HeroErrorCode_eq_dec : EqDecision HeroErrorCode.
Proof. solve_decision. Defined.

Record MsgSuitData : Type := mk_suit { suit_id : Z; suit_name : string; equip_ids : list Z }.

Record MsgHeroData : Type := mk_hero_data {
  account : Z; level : Z; name : string; action_point : Z; diamand : Z; gold : Z;
  suits : list MsgSuitData
}.

Record MsgEquipData : Type := mk_equip {
  e_id : Z; e_equip_id : Z; e_level : Z; e_equipped : bool; e_client_save_flag : Z; e_count : Z
}.

Record MsgToyBaseData : Type := mk_toy_base {
  toy_config_id : Z; toy_config_type : Z; toy_level : Z
}.

Record MsgToyData : Type := mk_toy { toy_cd_key : string; time_stamp : Z; toy : MsgToyBaseData }.

Record MsgHeroDataDB2GS : Type := mk_hero_db2gs {
  h_account : Z; h_Data : MsgHeroData; h_equips : list MsgEquipData; h_toys : list MsgToyData
}.

(** [S2CMsgHeroEquip]; [end_] and [begin_] are required but may be unset. *)
Record S2CMsgHeroEquip : Type := mk_hero_equip {
  equips : list MsgEquipData; end_ : option bool; begin_ : option bool
}.

(** Messages to a client. *)
Inductive s2c : Type :=
| S2CMsgHeroInit (hero : MsgHeroData)
| S2CMsgToyInit (toys : list MsgToyBaseData)
| S2CMsgEquipInit (equip : option S2CMsgHeroEquip)
| S2CModifySuitNameACK (suit_id : Z) (suit_name : string)
| S2CModifySuitErrorACK (suit_id : Z) (error : HeroErrorCode)
| S2CModifySuitACK (suit_id : Z) (error : HeroErrorCode)
| S2CDelSuitACK (suit_id : Z) (error : HeroErrorCode)
| S2CVerifyToyCDKeyErrorACK (cd_key : string) (error : HeroErrorCode)
| S2CVerifyToyCDKeyACK (ToyData : MsgToyData)
| S2CEquipLevelUpACK (equip_id : option Z) (level gold count diamand : Z)
| S2CEquipLevelUpErrorACK (equip_id : Z) (error : HeroErrorCode).

(** Messages from the game server to the database server. *)
Inductive gs2db : Type :=
| MsgReqHeroDataGS2DB (account : Z)
| MsgSaveDataGS2DB (sql : string)
| MsgSaveAllHeroesGS2DB
| MsgVerifyToyGS2DB (cdkey : string) (account : option Z).

(** The required fields of a message are set. *)
Definition s2c_initialized (m : s2c) : bool :=
  match m with
  | S2CMsgEquipInit (Some e) =>
      match end_ e, begin_ e with Some _, Some _ => true | _, _ => false end
  | S2CMsgEquipInit None => false
  | S2CEquipLevelUpACK None _ _ _ _ => false
  | _ => true
  end.

End Messages.

Import Messages.

Module GameConfig.

Record HeroEquipConfig : Type := mk_equip_config {
  equip_config_id : Z; equip_level : Z; equip_conut : Z
}.

Record HeroConfig : Type := mk_hero_config {
  c_gold : Z; c_diamond : Z; c_level : Z;
  c_equips : list HeroEquipConfig;
  suits_name : gmap Z string
}.

Record HeroEquipLevelUpConfig : Type := mk_level_up {
  toy_config_count : Z; toy_config_diamand : Z; toy_config_gold : Z
}.

Record GameConfig : Type := mk_config {
  _hero_config : HeroConfig;
  _equips_level_up_configs : gmap Z (gmap Z HeroEquipLevelUpConfig);
  _generate_id : Z
}.

(** The constructor; the three integers of [_hero_config] start indeterminate. *)
Definition construct (gold diamond level : Z) : GameConfig :=
  mk_config (mk_hero_config gold diamond level [] ∅) ∅ 0.

(** [_generate_id++; return _generate_id]. *)
Definition generateEquipID (c : GameConfig) : Z * GameConfig :=
  let n := u64 (_generate_id c + 1) in
  (n, mk_config (_hero_config c) (_equips_level_up_configs c) n).

Definition set_generate_equip_id (c : GameConfig) (equpid : Z) : GameConfig :=
  mk_config (_hero_config c) (_equips_level_up_configs c) equpid.

Definition getEquipLevelUpConfig (c : GameConfig) (config_id config_level : Z)
  : option HeroEquipLevelUpConfig :=
  match _equips_level_up_configs c !! config_id with
  | Some levels => levels !! config_level
  | None => None
  end.

(** A row of [hero_equip_level_config]. *)
Record level_row : Type := mk_level_row {
  row_config_id : Z; row_config_level : Z; row_count : Z; row_diamand : Z; row_gold : Z
}.

(** The first row of a (config, level) pair counts. *)
Definition load_level (m : gmap Z (gmap Z HeroEquipLevelUpConfig)) (r : level_row)
  : gmap Z (gmap Z HeroEquipLevelUpConfig) :=
  let m1 := match m !! row_config_id r with Some _ => m | None => <[row_config_id r := ∅]> m end in
  let levels := match m1 !! row_config_id r with Some levels => levels | None => ∅ end in
  match levels !! row_config_level r with
  | Some _ => m1
  | None =>
      <[row_config_id r :=
        <[row_config_level r := mk_level_up (row_count r) (row_diamand r) (row_gold r)]> levels]> m1
  end.

(** [Load]: the rows of the four queries, as mysql++ converts them. *)
Definition Load (c : GameConfig) (hero_info : list (Z * Z * Z)) (hero_equip : list HeroEquipConfig)
    (suit_name_config : list (Z * string)) (hero_equip_level_config : list level_row) : GameConfig :=
  let h := _hero_config c in
  let '(g, d, l) :=
    match hero_info with
    | row :: _ => row
    | [] => (c_gold h, c_diamond h, c_level h)
    end in
  mk_config
    (mk_hero_config g d l (c_equips h ++ hero_equip)
       (fold_left (fun m r => <[r.1 := c_str r.2]> m) suit_name_config (suits_name h)))
    (fold_left load_level hero_equip_level_config (_equips_level_up_configs c))
    (_generate_id c).

End GameConfig.

Import GameConfig.

(** ** Lemmas *)

Lemma load_level_lookup m r i l :
  (levels ← load_level m r !! i; levels !! l) =
  match (levels ← m !! i; levels !! l) with
  | Some x => Some x
  | None => if decide (i = row_config_id r /\ l = row_config_level r)
            then Some (mk_level_up (row_count r) (row_diamand r) (row_gold r)) else None
  end.
Proof.
  unfold load_level. destruct (decide (i = row_config_id r)) as [->|Hne].
  - destruct (m !! row_config_id r) as [lv|] eqn:Hm.
    + rewrite Hm. destruct (lv !! row_config_level r) as [x|] eqn:Hl.
      * rewrite Hm. cbn [mbind option_bind]. destruct (lv !! l) eqn:He; [done|].
        rewrite decide_False; [done|]. intros [_ ->]. congruence.
      * rewrite lookup_insert_eq. cbn [mbind option_bind]. destruct (decide (l = row_config_level r)) as [->|Hn].
        -- rewrite lookup_insert_eq, Hl. by rewrite decide_True.
        -- rewrite lookup_insert_ne by done. destruct (lv !! l); [done|].
           by rewrite decide_False by naive_solver.
    + rewrite lookup_insert_eq. cbn. rewrite lookup_empty, insert_insert_eq, lookup_insert_eq. cbn.
      destruct (decide (l = row_config_level r)) as [->|Hn].
      * rewrite lookup_insert_eq. by rewrite decide_True.
      * rewrite lookup_insert_ne, lookup_empty by done. by rewrite decide_False by naive_solver.
  - rewrite (decide_False (P := i = row_config_id r /\ l = row_config_level r)) by naive_solver.
    assert (Hgoal : forall x : option HeroEquipLevelUpConfig, x = match x with Some y => Some y | None => None end)
      by (by intros [?|]).
    rewrite <- Hgoal.
    destruct (m !! row_config_id r) as [lv|] eqn:Hm; [rewrite Hm|rewrite lookup_insert_eq];
      destruct (_ !! row_config_level r); by rewrite ?lookup_insert_ne by done.
Qed.

(** After [Load] the level-up table answers with the first row of the world
    database for the configuration and level asked for, and with a null pointer
    when no row has them; rows loaded before win over the new ones. *)
Theorem getEquipLevelUpConfig_load c info eqs names rows i l :
  getEquipLevelUpConfig (Load c info eqs names rows) i l =
  match getEquipLevelUpConfig c i l with
  | Some x => Some x
  | None =>
      (fun r => mk_level_up (row_count r) (row_diamand r) (row_gold r)) <$>
      List.find (fun r => bool_decide (i = row_config_id r /\ l = row_config_level r)) rows
  end.
Proof.
  assert (Hfold : forall m,
    (levels ← fold_left load_level rows m !! i; levels !! l) =
    match (levels ← m !! i; levels !! l) with
    | Some x => Some x
    | None => (fun r => mk_level_up (row_count r) (row_diamand r) (row_gold r)) <$>
        List.find (fun r => bool_decide (i = row_config_id r /\ l = row_config_level r)) rows
    end).
  { induction rows as [|r rows IH]; intros m; cbn [fold_left List.find].
    - by destruct (_ ≫= _).
    - rewrite IH, load_level_lookup. destruct (m !! i ≫= _); [done|].
      case_decide as Hd; [by rewrite bool_decide_true|by rewrite bool_decide_false]. }
  unfold getEquipLevelUpConfig, Load.
  destruct (match info with [] => _ | _ => _ end) as [[g d] lv]. cbn [_equips_level_up_configs].
  specialize (Hfold (_equips_level_up_configs c)).
  destruct (fold_left load_level rows (_equips_level_up_configs c) !! i),
    (_equips_level_up_configs c !! i); cbn in Hfold; done.
Qed.
