(* ===== verification/GameWorld.v ===== *)
(** The state of the game server process ([gFuGameFather] of
    [gameserver/stdafx.h]) and the send paths that every handler shares.

    Objects are named by integers: a session object by the order of its
    creation, a gate connection by its [GateSession] object, a hero by its
    account, under which [DreamHeroManager::_heros] keeps it for ever.  Releasing
    a session removes it from [sessions]; a pointer to it then dangles and its
    use is undefined behaviour. *)

From S2P Require Import Prelude GameData.
From stdpp Require Import prelude gmap strings list.
#[local] Open Scope Z_scope.

Module GameWorld.
Import Messages.

Definition INVALID_GATE_ID : Z := 0.
Definition MAX_GATE_ID : Z := 0xff.
Definition INVALID_TRANS_ID : Z := 0.
Definition INVALID_GAME_ID : Z := 0.

(** [class Session]; [m_state] is true for [_session_online_]. *)
Record Session : Type := mk_session {
  m_tranid : Z; m_account : Z; m_gate : Z; m_state : bool; _dream_hero : option Z
}.

(** [class DreamHero]; [save_event] says whether [gEventMgr] holds an
    [EVENT_SAVE_PLAYER_DATA_] of this object. *)
Record DreamHero : Type := mk_hero {
  _info : MsgHeroData;
  _hero_equips : gmap Z MsgEquipData;
  _hero_toys : gmap string MsgToyData;
  _account : Z;
  _session : option Z;
  _online : bool;
  save_event : bool
}.

Record world : Type := mk_world {
  _heros : gmap Z DreamHero;
  _toy_cdkey_account : gmap string Z;
  _save_all_heroes_ok : bool;
  sessions : gmap Z Session;
  next_session : Z;
  m_Onlines : gmap Z Z;
  m_Gates : gmap Z Z;
  m_gate_id : gmap Z Z;
  sGameConfig : GameConfig.GameConfig
}.

(** What the process does to the outside: messages for clients go to a gate
    connection with the transaction id as flag. *)
Inductive effect : Type :=
| SendClient (gate flag : Z) (msg : s2c)
| SendDB (msg : gs2db) (flag : Z)
| SendGateRegister (gate serverid : Z)
| CloseGate (gate : Z)
| CloseServer.

Definition handler (A : Type) : Type := M world effect A.

(** *** Field updates *)

Definition set_heros (w : world) x : world :=
  mk_world x (_toy_cdkey_account w) (_save_all_heroes_ok w) (sessions w) (next_session w)
    (m_Onlines w) (m_Gates w) (m_gate_id w) (sGameConfig w).
Definition set_toy_accounts (w : world) x : world :=
  mk_world (_heros w) x (_save_all_heroes_ok w) (sessions w) (next_session w)
    (m_Onlines w) (m_Gates w) (m_gate_id w) (sGameConfig w).
Definition set_save_ok (w : world) x : world :=
  mk_world (_heros w) (_toy_cdkey_account w) x (sessions w) (next_session w)
    (m_Onlines w) (m_Gates w) (m_gate_id w) (sGameConfig w).
Definition set_sessions (w : world) x n : world :=
  mk_world (_heros w) (_toy_cdkey_account w) (_save_all_heroes_ok w) x n
    (m_Onlines w) (m_Gates w) (m_gate_id w) (sGameConfig w).
Definition set_onlines (w : world) x : world :=
  mk_world (_heros w) (_toy_cdkey_account w) (_save_all_heroes_ok w) (sessions w) (next_session w)
    x (m_Gates w) (m_gate_id w) (sGameConfig w).
Definition set_gates (w : world) x : world :=
  mk_world (_heros w) (_toy_cdkey_account w) (_save_all_heroes_ok w) (sessions w) (next_session w)
    (m_Onlines w) x (m_gate_id w) (sGameConfig w).
Definition set_gate_ids (w : world) x : world :=
  mk_world (_heros w) (_toy_cdkey_account w) (_save_all_heroes_ok w) (sessions w) (next_session w)
    (m_Onlines w) (m_Gates w) x (sGameConfig w).
Definition set_config (w : world) x : world :=
  mk_world (_heros w) (_toy_cdkey_account w) (_save_all_heroes_ok w) (sessions w) (next_session w)
    (m_Onlines w) (m_Gates w) (m_gate_id w) x.

Definition set_info_field (h : DreamHero) x : DreamHero :=
  mk_hero x (_hero_equips h) (_hero_toys h) (_account h) (_session h) (_online h) (save_event h).
Definition set_equips_field (h : DreamHero) x : DreamHero :=
  mk_hero (_info h) x (_hero_toys h) (_account h) (_session h) (_online h) (save_event h).
Definition set_toys_field (h : DreamHero) x : DreamHero :=
  mk_hero (_info h) (_hero_equips h) x (_account h) (_session h) (_online h) (save_event h).
Definition set_online_field (h : DreamHero) x : DreamHero :=
  mk_hero (_info h) (_hero_equips h) (_hero_toys h) (_account h) (_session h) x (save_event h).
Definition set_save_event (h : DreamHero) x : DreamHero :=
  mk_hero (_info h) (_hero_equips h) (_hero_toys h) (_account h) (_session h) (_online h) x.

(** *** Pointers *)

(** The object a hero pointer leads to. *)
Definition hero_of (this : Z) : handler DreamHero :=
  w <- mget ;;
  match _heros w !! this with
  | Some h => mret' h
  | None => mub "null DreamHero"
  end.

Definition put_hero (this : Z) (h : DreamHero) : handler unit :=
  mmodify (fun w => set_heros w (<[this := h]> (_heros w))).

Definition session_of (sid : Z) : handler Session :=
  w <- mget ;;
  match sessions w !! sid with
  | Some s => mret' s
  | None => mub "released Session"
  end.

Definition put_session (sid : Z) (s : Session) : handler unit :=
  mmodify (fun w => set_sessions w (<[sid := s]> (sessions w)) (next_session w)).

(** *** Sending *)

(** [GateManager::sendMessage]. *)
Definition GateManager_sendMessage (msg : s2c) (flag nGate : Z) : handler unit :=
  if (INVALID_GATE_ID <? nGate) && (nGate <? MAX_GATE_ID) then
    w <- mget ;;
    match m_Gates w !! nGate with
    | Some g => memit (SendClient g flag msg)
    | None => mret' tt
    end
  else mret' tt.

(** [Session::sendPBMessage]: nothing is sent while the client is away. *)
Definition Session_sendPBMessage (sid : Z) (p : s2c) : handler unit :=
  s <- session_of sid ;;
  if m_state s then GateManager_sendMessage p (m_tranid s) (m_gate s) else mret' tt.

(** [DreamHero::sendPBMessage]. *)
Definition DreamHero_sendPBMessage (this : Z) (p : s2c) : handler unit :=
  h <- hero_of this ;;
  match _session h with
  | Some sid => Session_sendPBMessage sid p
  | None => mret' tt
  end.

(** [gGSDBClient.sendPBMessage (&msg, _session->getTranId ())]. *)
Definition DreamHero_sendDB (this : Z) (msg : gs2db) : handler unit :=
  h <- hero_of this ;;
  match _session h with
  | Some sid => s <- session_of sid ;; memit (SendDB msg (m_tranid s))
  | None => mub "null Session"
  end.

End GameWorld.
