(* ===== verification/DreamHero.v ===== *)
(** [gameserver/DreamHero.cpp]: a player's hero in the game server: its suits,
    equipment and toys, the requests a client makes on them, and its
    persistence as SQL text.

    [localtime] and the current time are arguments of the operations that print
    dates. *)

From Stdlib Require Import Ascii String.
From S2P Require Import Prelude Utilities Text GameData GameWorld.
From stdpp Require Import prelude gmap strings list.
#[local] Open Scope Z_scope.

Module DreamHero.
Import Messages GameConfig GameWorld Text.

(** The constructor; the session pointer starts indeterminate and every caller
    sets it first, here null.  The account is the key it will have. *)
Definition construct (acc : Z) : GameWorld.DreamHero :=
  mk_hero (mk_hero_data acc 1 "test" 0 0 0 []) ∅ ∅ acc None false false.

(** *** Field updates of [_info] *)

Definition with_suits (i : MsgHeroData) (l : list MsgSuitData) : MsgHeroData :=
  mk_hero_data (account i) (level i) (name i) (action_point i) (diamand i) (gold i) l.
Definition with_account (i : MsgHeroData) (a : Z) : MsgHeroData :=
  mk_hero_data a (level i) (name i) (action_point i) (diamand i) (gold i) (suits i).
Definition with_diamand (i : MsgHeroData) (d : Z) : MsgHeroData :=
  mk_hero_data (account i) (level i) (name i) (action_point i) d (gold i) (suits i).
Definition with_gold (i : MsgHeroData) (g : Z) : MsgHeroData :=
  mk_hero_data (account i) (level i) (name i) (action_point i) (diamand i) g (suits i).
Definition with_level (i : MsgHeroData) (l : Z) : MsgHeroData :=
  mk_hero_data (account i) l (name i) (action_point i) (diamand i) (gold i) (suits i).

Definition set_account (h : GameWorld.DreamHero) (acc : Z) : GameWorld.DreamHero :=
  mk_hero (with_account (_info h) acc) (_hero_equips h) (_hero_toys h) acc (_session h)
    (_online h) (save_event h).

Definition set_session (h : GameWorld.DreamHero) (s : option Z) : GameWorld.DreamHero :=
  mk_hero (_info h) (_hero_equips h) (_hero_toys h) (_account h) s (_online h) (save_event h).

(** [std::map::insert] keeps an entry that is there. *)
Definition insert_new {K A} `{Countable K} (m : gmap K A) (k : K) (x : A) : gmap K A :=
  match m !! k with Some _ => m | None => <[k := x]> m end.

Definition set_info (h : GameWorld.DreamHero) (info : MsgHeroDataDB2GS) : GameWorld.DreamHero :=
  mk_hero (h_Data info)
    (fold_left (fun m e => insert_new m (e_id e) e) (h_equips info) (_hero_equips h))
    (fold_left (fun m t => insert_new m (toy_cd_key t) t) (h_toys info) (_hero_toys h))
    (_account h) (_session h) (_online h) (save_event h).

(** *** Suits *)

(** The loop of [ModifySuit]: every suit with the id is replaced. *)
Fixpoint modify_loop (l : list MsgSuitData) (suitData : MsgSuitData) : list MsgSuitData * bool :=
  match l with
  | [] => ([], false)
  | s :: l' =>
      let '(r, modified) := modify_loop l' suitData in
      if suit_id s =? suit_id suitData then (suitData :: r, true) else (s :: r, modified)
  end.

Definition ModifySuit (this : Z) (suitData : MsgSuitData) : handler unit :=
  h <- hero_of this ;;
  let '(l, modify_temp) := modify_loop (suits (_info h)) suitData in
  let l := if modify_temp then l else l ++ [suitData] in
  put_hero this (set_info_field h (with_suits (_info h) l)) ;;;
  DreamHero_sendPBMessage this (S2CModifySuitACK (suit_id suitData) no_error).

(** The loop of [DelSuit]; [pos] is the iterator.  [erase(it)] moves the later
    elements down, so the [it++] that follows skips one, and steps past the end
    when the last element was erased. *)
Fixpoint del_loop (fuel : nat) (l : list MsgSuitData) (pos : nat) (id : Z) (error_temp : HeroErrorCode)
  : outcome (list MsgSuitData * HeroErrorCode) :=
  match fuel with
  | O => UB "out of fuel"
  | S fuel' =>
      if (pos =? length l)%nat then Ret (l, error_temp)
      else
        match l !! pos with
        | None => UB "iterator past the end"
        | Some s =>
            if suit_id s =? id then del_loop fuel' (delete pos l) (S pos) id no_error
            else del_loop fuel' l (S pos) id error_temp
        end
  end.

Definition DelSuit (this : Z) (suit_id_temp : Z) : handler unit :=
  h <- hero_of this ;;
  match del_loop (S (S (length (suits (_info h))))) (suits (_info h)) 0 suit_id_temp
          server_error_no_suit_id with
  | UB why => mub why
  | Ret (l, error_temp) =>
      put_hero this (set_info_field h (with_suits (_info h) l)) ;;;
      DreamHero_sendPBMessage this (S2CDelSuitACK suit_id_temp error_temp)
  end.

(** The loop of [modify_suit]: the first suit with the id gets the name. *)
Fixpoint rename_loop (l : list MsgSuitData) (id : Z) (szname : string) : option (list MsgSuitData) :=
  match l with
  | [] => None
  | s :: l' =>
      if suit_id s =? id then Some (mk_suit (suit_id s) szname (equip_ids s) :: l')
      else cons s <$> rename_loop l' id szname
  end.

Definition modify_suit (this : Z) (suit_config : Z) (szname : string) : handler unit :=
  h <- hero_of this ;;
  let szname := c_str szname in
  match rename_loop (suits (_info h)) suit_config szname with
  | Some l =>
      put_hero this (set_info_field h (with_suits (_info h) l)) ;;;
      DreamHero_sendPBMessage this (S2CModifySuitNameACK suit_config szname)
  | None => DreamHero_sendPBMessage this (S2CModifySuitErrorACK suit_config server_error_no_suit_id)
  end.

(** *** Toys *)

Definition VerifyToyCDKey (this : Z) (cd_key : string) : handler unit :=
  h <- hero_of this ;;
  let cd_key_temp := c_str cd_key in
  match _hero_toys h !! cd_key_temp with
  | Some _ =>
      DreamHero_sendPBMessage this (S2CVerifyToyCDKeyErrorACK cd_key_temp toy_cd_key_have_been_in_used)
  | None => DreamHero_sendDB this (MsgVerifyToyGS2DB cd_key_temp None)
  end.

Definition RemoveToyByCDKey (this : Z) (cd_key : string) : handler unit :=
  h <- hero_of this ;;
  put_hero this (set_toys_field h (delete cd_key (_hero_toys h))).

(** [VerifyToy (MsgVerifyToyDB2GS)]: [owner] is the account the database had. *)
Definition VerifyToy (this : Z) (t : MsgToyData) (owner : Z) : handler unit :=
  let cd_key_temp := toy_cd_key t in
  w <- mget ;;
  h <- hero_of this ;;
  (match _heros w !! owner with
   | Some _ =>
       RemoveToyByCDKey owner (c_str cd_key_temp) ;;;
       mmodify (fun w => set_toy_accounts w
         (<[c_str cd_key_temp := _account h]> (_toy_cdkey_account w)))
   | None => mret' tt
   end) ;;;
  h <- hero_of this ;;
  match _hero_toys h !! c_str cd_key_temp with
  | Some _ => mret' tt
  | None =>
      put_hero this (set_toys_field h (insert_new (_hero_toys h) cd_key_temp t)) ;;;
      DreamHero_sendPBMessage this (S2CVerifyToyCDKeyACK t)
  end.

(** [VerifyToy (MsgVerifyToyErrorDB2GS)]. *)
Definition VerifyToyError (this : Z) (cdkey : string) (error : HeroErrorCode) : handler unit :=
  DreamHero_sendPBMessage this (S2CVerifyToyCDKeyErrorACK (c_str cdkey) error).

(** *** Equipment *)

(** [int] arithmetic: out of range is undefined. *)
Definition int_of (x : Z) : handler Z :=
  if (- 2 ^ 31 <=? x) && (x <? 2 ^ 31) then mret' x else mub "int overflow".

Definition EquipLevelUp (this : Z) (equip_id : Z) : handler unit :=
  h <- hero_of this ;;
  w <- mget ;;
  cur_error <-
    (match _hero_equips h !! equip_id with
     | Some e =>
         level <- int_of (e_level e + 1) ;;
         match getEquipLevelUpConfig (sGameConfig w) (e_equip_id e) level with
         | Some cfg =>
             if e_count e <? toy_config_count cfg then mret' equip_level_up_not_enough_equip
             else if gold (_info h) <? toy_config_gold cfg then mret' equip_level_up_not_enough_gold
             else if diamand (_info h) <? toy_config_diamand cfg
             then mret' equip_level_up_not_enough_diamand
             else
               gold_temp <- int_of (gold (_info h) - toy_config_gold cfg) ;;
               diamand_temp <- int_of (diamand (_info h) - toy_config_diamand cfg) ;;
               count_temp <- int_of (e_count e - toy_config_count cfg) ;;
               put_hero this
                 (set_equips_field
                    (set_info_field h (with_diamand (with_gold (_info h) gold_temp) diamand_temp))
                    (<[equip_id := mk_equip (e_id e) (e_equip_id e) level (e_equipped e)
                                     (e_client_save_flag e) count_temp]> (_hero_equips h))) ;;;
               DreamHero_sendPBMessage this
                 (S2CEquipLevelUpACK None level gold_temp count_temp diamand_temp) ;;;
               mret' no_error
         | None => mret' no_error
         end
     | None => mret' equip_level_up_not_found_equip
     end) ;;
  if bool_decide (cur_error = no_error) then mret' tt
  else DreamHero_sendPBMessage this (S2CEquipLevelUpErrorACK equip_id cur_error).

(** *** Creation and initial messages *)

Definition StartSave (this : Z) : handler unit :=
  h <- hero_of this ;;
  if save_event h then mret' tt else put_hero this (set_save_event h true).

Definition StopSave (this : Z) : handler unit :=
  h <- hero_of this ;;
  if save_event h then put_hero this (set_save_event h false) else mret' tt.

(** The equipment message under construction in [SendClientInit]: the
    sub-message and whether [equip] is set in its parent. *)
Record equip_msg : Type := mk_equip_msg { equip_ : S2CMsgHeroEquip; has_equip : bool }.

Definition sent (m : equip_msg) : s2c :=
  S2CMsgEquipInit (if has_equip m then Some (equip_ m) else None).

(** [clear_equip]: the sub-message is emptied and stays allocated. *)
Definition clear_equip (m : equip_msg) : equip_msg := mk_equip_msg (mk_hero_equip [] None None) false.

Definition max_count : Z := 40.

(** The loop over [_hero_equips]; [equip_temp] points to the sub-message from
    the first iteration on. *)
Fixpoint equip_loop (this : Z) (l : list MsgEquipData) (max_count_equip current_count current_equip_count : Z)
    (m : equip_msg) : handler equip_msg :=
  match l with
  | [] => mret' m
  | e :: l' =>
      let m := if current_count =? 0 then mk_equip_msg (equip_ m) true else m in
      let s := equip_ m in
      let s := mk_hero_equip (equips s ++ [e])
        (if current_equip_count =? max_count_equip then Some true else end_ s)
        (if current_equip_count =? 1 then Some true else begin_ s) in
      let m := mk_equip_msg s (has_equip m) in
      (if max_count <=? current_count
       then DreamHero_sendPBMessage this (sent m) else mret' tt) ;;;
      equip_loop this l' max_count_equip (current_count + 1) (current_equip_count + 1)
        (if max_count <=? current_count then clear_equip m else m)
  end.

Definition SendClientInit (this : Z) : handler unit :=
  StartSave this ;;;
  h <- hero_of this ;;
  let l := map snd (map_walk (_hero_equips h)) in
  m <- equip_loop this l (Z.of_nat (length l)) 0 1 (mk_equip_msg (mk_hero_equip [] None None) true) ;;
  (if (0 <? Z.of_nat (length (equips (equip_ m))))
   then DreamHero_sendPBMessage this (sent (mk_equip_msg (equip_ m) true)) else mret' tt) ;;;
  DreamHero_sendPBMessage this (S2CMsgToyInit (map (fun p => toy p.2) (string_walk (_hero_toys h)))) ;;;
  DreamHero_sendPBMessage this (S2CMsgHeroInit (_info h)) ;;;
  h <- hero_of this ;;
  put_hero this (set_online_field h true).

(** [LoadFromConfig]: the equipment and suits of a new hero. *)
Fixpoint give_equips (l : list HeroEquipConfig) (c : GameConfig) (m : gmap Z MsgEquipData)
  : GameConfig * gmap Z MsgEquipData :=
  match l with
  | [] => (c, m)
  | e :: l' =>
      let '(n, c) := generateEquipID c in
      give_equips l' c
        (<[n := mk_equip n (equip_config_id e) (equip_level e) true 0 (equip_conut e)]> m)
  end.

Definition LoadFromConfig (c : GameConfig) (h : GameWorld.DreamHero) : GameConfig * GameWorld.DreamHero :=
  let cfg := _hero_config c in
  let i := _info h in
  let i := mk_hero_data (account i) (u32 (c_level cfg)) (name i) (action_point i) (c_diamond cfg)
             (c_gold cfg)
             (suits i ++ map (fun p => mk_suit p.1 (c_str p.2) []) (map_walk (suits_name cfg))) in
  let '(c, m) := give_equips (c_equips cfg) c (_hero_equips h) in
  (c, set_equips_field (set_info_field h i) m).

End DreamHero.

Import Messages GameConfig GameWorld Text DreamHero.

(** ** Running the shared paths *)

(** A hero whose session pointer does not dangle. *)
Definition session_live (w : world) (h : GameWorld.DreamHero) : Prop :=
  match _session h with None => True | Some sid => is_Some (sessions w !! sid) end.

(** What reaches a gate when the hero is sent [msg]. *)
Definition deliver (w : world) (h : GameWorld.DreamHero) (msg : s2c) : list effect :=
  match sid ← _session h; sessions w !! sid with
  | Some s =>
      if m_state s && ((INVALID_GATE_ID <? m_gate s) && (m_gate s <? MAX_GATE_ID)) then
        match m_Gates w !! m_gate s with
        | Some g => [SendClient g (m_tranid s) msg]
        | None => []
        end
      else []
  | None => []
  end.

(** The world with another hero object. *)
Definition upd_hero (w : world) (this : Z) (h : GameWorld.DreamHero) : world :=
  set_heros w (<[this := h]> (_heros w)).

Lemma hero_of_run this w h : _heros w !! this = Some h -> hero_of this w = Ret (h, w, []).
Proof. intros Hh. unfold hero_of, mbind', mget. by rewrite Hh. Qed.

Lemma send_run this w h msg :
  _heros w !! this = Some h -> session_live w h ->
  DreamHero_sendPBMessage this msg w = Ret (tt, w, deliver w h msg).
Proof.
  intros Hh Hl. unfold DreamHero_sendPBMessage. rewrite (mbind_run _ _ _ _ _ _ (hero_of_run _ _ _ Hh)).
  unfold session_live, deliver in *. destruct (_session h) as [sid|]; [|done]. destruct Hl as [s Hs].
  cbn [mbind option_bind]. unfold Session_sendPBMessage, session_of, GateManager_sendMessage. rewrite Hs.
  unfold mbind', mget. rewrite Hs. unfold mret', memit.
  destruct (m_state s); [|done]. cbn [andb].
  destruct ((INVALID_GATE_ID <? m_gate s) && (m_gate s <? MAX_GATE_ID)); [|done].
  by destruct (m_Gates w !! m_gate s).
Qed.

Lemma upd_hero_lookup w this h : _heros (upd_hero w this h) !! this = Some h.
Proof. apply lookup_insert_eq. Qed.

Lemma deliver_upd w this h h' msg :
  _session h' = _session h -> deliver (upd_hero w this h') h' msg = deliver w h msg.
Proof. intros Hs. unfold deliver. by rewrite Hs. Qed.

Lemma session_live_upd w this h h' :
  _session h' = _session h -> session_live w h -> session_live (upd_hero w this h') h'.
Proof. intros Hs. unfold session_live. by rewrite Hs. Qed.

(** [put_hero] then a message: the two steps at the end of most requests. *)
Lemma put_send_run this w h h' msg :
  _session h' = _session h -> session_live w h ->
  (put_hero this h' ;;; DreamHero_sendPBMessage this msg) w =
  Ret (tt, upd_hero w this h', deliver w h msg).
Proof.
  intros Hs Hl. unfold mbind' at 1. change (put_hero this h' w) with (Ret (tt, upd_hero w this h', @nil effect)).
  cbv iota beta.
  rewrite (send_run this _ h' msg) by (apply upd_hero_lookup || by apply (session_live_upd _ _ h)).
  by rewrite (deliver_upd _ _ h).
Qed.

(** ** Suits *)

Definition has_id (id : Z) (s : MsgSuitData) : Prop := suit_id s = id.

#[global] Instance has_id_dec id s : Decision (has_id id s).
Proof. unfold has_id. apply _. Defined.

Definition without_id (id : Z) (l : list MsgSuitData) : list MsgSuitData := filter (fun s => ~ has_id id s) l.

Lemma modify_loop_spec l d :
  let '(r, m) := modify_loop l d in
  length r = length l /\ without_id (suit_id d) r = without_id (suit_id d) l /\
  Forall (fun s => has_id (suit_id d) s -> s = d) r /\ (m = true <-> d ∈ r) /\
  (m = false -> Forall (fun s => ~ has_id (suit_id d) s) r).
Proof.
  induction l as [|s l IH]; cbn [modify_loop].
  { split_and!; try done. split; [done|inversion 1]. }
  destruct (modify_loop l d) as [r m]. destruct IH as (Hlen & Hw & Hall & Hin & Hno).
  destruct (Z.eqb_spec (suit_id s) (suit_id d)) as [He|Hne].
  - split_and!; try done.
    + simpl. lia.
    + unfold without_id in *. rewrite !filter_cons_False by (unfold has_id; naive_solver). done.
    + by constructor.
    + split; [intros _; apply list_elem_of_here|done].
  - split_and!.
    + simpl. lia.
    + unfold without_id in *. rewrite !filter_cons_True by done. by rewrite Hw.
    + constructor; [|done]. intros Hid. by destruct Hne.
    + rewrite Hin. split; [by constructor|]. inversion 1; subst; [done|assumption].
    + intros ->. constructor; [done|auto].
Qed.

(** After [ModifySuit] the hero has the suit as the client sent it and no
    other suit with that id; every other suit is where it was, nothing else of
    the hero or the world changes, and the client is acknowledged. *)
Theorem ModifySuit_sets_suit w this h d :
  _heros w !! this = Some h -> session_live w h ->
  exists l, ModifySuit this d w =
      Ret (tt, upd_hero w this (set_info_field h (with_suits (_info h) l)),
           deliver w h (S2CModifySuitACK (suit_id d) no_error)) /\
    d ∈ l /\ (forall s, s ∈ l -> suit_id s = suit_id d -> s = d) /\
    without_id (suit_id d) l = without_id (suit_id d) (suits (_info h)).
Proof.
  intros Hh Hl. unfold ModifySuit. rewrite (mbind_run _ _ _ _ _ _ (hero_of_run _ _ _ Hh)).
  pose proof (modify_loop_spec (suits (_info h)) d) as Hspec.
  destruct (modify_loop (suits (_info h)) d) as [r m]. destruct Hspec as (_ & Hw & Hall & Hin & Hno).
  exists (if m then r else r ++ [d]). rewrite (put_send_run this w h) by done. cbn [app].
  split; [done|]. destruct m.
  - split_and!; [by apply Hin| |done]. intros s Hs. by apply (proj1 (Forall_forall _ _) Hall s).
  - split_and!.
    + apply elem_of_app. right. apply list_elem_of_here.
    + intros s [Hs|Hs%list_elem_of_singleton]%elem_of_app He; [|done].
      by destruct (proj1 (Forall_forall _ _) (Hno eq_refl) s Hs).
    + unfold without_id in *. rewrite filter_app, filter_cons_False by (unfold has_id; naive_solver).
      rewrite filter_nil, app_nil_r. done.
Qed.

(** The iterator after the elements [p], none of the rest with the id. *)
Lemma del_loop_none fuel p l id err :
  (length l < fuel)%nat -> Forall (fun s => ~ has_id id s) l ->
  del_loop fuel (p ++ l) (length p) id err = Ret (p ++ l, err).
Proof.
  revert fuel p. induction l as [|s l IH]; intros fuel p Hf Hl; (destruct fuel as [|fuel]; [simpl in Hf; lia|]);
    cbn [del_loop].
  - rewrite app_nil_r. by rewrite Nat.eqb_refl.
  - rewrite length_app. cbn [length] in *. destruct (Nat.eqb_spec (length p) (length p + S (length l))); [lia|].
    rewrite list_lookup_middle by done. inversion Hl as [|? ? Hs Hl']; subst.
    destruct (Z.eqb_spec (suit_id s) id); [done|].
    replace (S (length p)) with (length (p ++ [s])) by (rewrite length_app; simpl; lia).
    replace (p ++ s :: l) with ((p ++ [s]) ++ l) by (by rewrite <- app_assoc).
    apply IH; [lia|done].
Qed.

Lemma del_loop_found fuel p l1 s l2 id err :
  (S (length (l1 ++ s :: l2)) < fuel)%nat -> suit_id s = id ->
  Forall (fun s => ~ has_id id s) l1 -> Forall (fun s => ~ has_id id s) l2 ->
  del_loop fuel (p ++ l1 ++ s :: l2) (length p) id err =
  match l2 with
  | [] => UB "iterator past the end"
  | _ => Ret (p ++ l1 ++ l2, no_error)
  end.
Proof.
  intros Hf Hs Hl1 Hl2. revert fuel p Hf. induction Hl1 as [|a l1 Ha Hl1 IH]; intros fuel p Hf;
    (destruct fuel as [|fuel]; [simpl in Hf; lia|]); cbn [del_loop app]; cbn [app length] in Hf;
    rewrite length_app; cbn [length].
  - destruct (Nat.eqb_spec (length p) (length p + S (length l2))); [lia|].
    rewrite list_lookup_middle, Hs, Z.eqb_refl by done. rewrite delete_middle.
    destruct l2 as [|b l2].
    + destruct fuel as [|fuel]; [lia|]. cbn [del_loop]. rewrite app_nil_r.
      destruct (Nat.eqb_spec (S (length p)) (length p)); [lia|].
      by rewrite lookup_ge_None_2 by lia.
    + replace (S (length p)) with (length (p ++ [b])) by (rewrite length_app; simpl; lia).
      replace (p ++ b :: l2) with ((p ++ [b]) ++ l2) by (by rewrite <- app_assoc).
      inversion Hl2; subst. apply del_loop_none; [simpl in Hf; lia|done].
  - destruct (Nat.eqb_spec (length p) (length p + S (length (l1 ++ s :: l2)))); [lia|].
    rewrite list_lookup_middle by done.
    destruct (Z.eqb_spec (suit_id a) id); [done|].
    replace (S (length p)) with (length (p ++ [a])) by (rewrite length_app; simpl; lia).
    replace (p ++ a :: l1 ++ s :: l2) with ((p ++ [a]) ++ l1 ++ s :: l2) by (by rewrite <- app_assoc).
    rewrite IH by lia. destruct l2; [done|]. by rewrite <- app_assoc.
Qed.

(** With distinct suit ids [DelSuit] removes exactly the suit asked for and
    acknowledges; without it, it reports [server_error_no_suit_id] and changes
    nothing; but on the last suit of the list the iterator runs past the end,
    undefined behaviour. *)
Theorem DelSuit_removes_suit w this h id :
  _heros w !! this = Some h -> session_live w h -> NoDup (map suit_id (suits (_info h))) ->
  let result l error :=
    Ret (tt, upd_hero w this (set_info_field h (with_suits (_info h) l)),
         deliver w h (S2CDelSuitACK id error)) in
  (id ∉ map suit_id (suits (_info h)) ->
     DelSuit this id w = result (suits (_info h)) server_error_no_suit_id) /\
  (forall l1 s l2, suits (_info h) = l1 ++ s :: l2 -> suit_id s = id ->
     DelSuit this id w =
     match l2 with [] => UB "iterator past the end" | _ => result (l1 ++ l2) no_error end).
Proof.
  intros Hh Hl Hnd result. unfold DelSuit.
  rewrite (mbind_run _ _ _ _ _ _ (hero_of_run _ _ _ Hh)). split.
  - intros Hid. rewrite (del_loop_none _ [] (suits (_info h))).
    + rewrite (put_send_run this w h) by done. done.
    + lia.
    + apply Forall_forall. intros s Hs He. apply Hid. rewrite <- He. by apply list_elem_of_fmap_2.
  - intros l1 s l2 He Hs. rewrite He in Hnd. rewrite map_app in Hnd. cbn [map] in Hnd.
    apply NoDup_app in Hnd as (_ & Hd1 & [Hd2 _]%NoDup_cons).
    rewrite He, (del_loop_found _ [] l1 s l2).
    + destruct l2; [done|]. rewrite (put_send_run this w h) by done. done.
    + lia.
    + done.
    + apply Forall_forall. intros x Hx Hid. apply (Hd1 (suit_id x)); [by apply list_elem_of_fmap_2|].
      rewrite Hid, <- Hs. apply list_elem_of_here.
    + apply Forall_forall. intros x Hx Hid. apply Hd2. rewrite Hs, <- Hid. by apply list_elem_of_fmap_2.
Qed.

(** ** Equipment *)

Lemma int_of_run x w : is_s32 x -> int_of x w = Ret (x, w, []).
Proof.
  unfold is_s32, int_of. intros Hx.
  destruct (Z.leb_spec (- 2 ^ 31) x), (Z.ltb_spec x (2 ^ 31)); (done || lia).
Qed.

Definition cost_ok (cfg : HeroEquipLevelUpConfig) : Prop :=
  0 <= toy_config_gold cfg /\ 0 <= toy_config_diamand cfg /\ 0 <= toy_config_count cfg.

(** What an upgrade lacks, in the order the code looks. *)
Definition shortage (i : MsgHeroData) (e : MsgEquipData) (cfg : HeroEquipLevelUpConfig) : option HeroErrorCode :=
  if e_count e <? toy_config_count cfg then Some equip_level_up_not_enough_equip
  else if gold i <? toy_config_gold cfg then Some equip_level_up_not_enough_gold
  else if diamand i <? toy_config_diamand cfg then Some equip_level_up_not_enough_diamand
  else None.

(** The hero after paying for an upgrade. *)
Definition upgraded (h : GameWorld.DreamHero) (k : Z) (e : MsgEquipData) (cfg : HeroEquipLevelUpConfig)
  : GameWorld.DreamHero :=
  set_equips_field
    (set_info_field h (with_diamand (with_gold (_info h) (gold (_info h) - toy_config_gold cfg))
       (diamand (_info h) - toy_config_diamand cfg)))
    (<[k := mk_equip (e_id e) (e_equip_id e) (e_level e + 1) (e_equipped e) (e_client_save_flag e)
              (e_count e - toy_config_count cfg)]> (_hero_equips h)).

(** The numbers of the hero and its equipment are [int]s below the largest one. *)
Definition hero_ints (h : GameWorld.DreamHero) : Prop :=
  is_s32 (gold (_info h)) /\ is_s32 (diamand (_info h)) /\
  map_Forall (fun _ e => is_s32 (e_count e) /\ is_s32 (e_level e) /\ is_s32 (e_level e + 1)) (_hero_equips h).


(** ** The messages of a login *)

(** One message of equipment, complete and with both marks. *)
Definition full_equip (l : list MsgEquipData) : S2CMsgHeroEquip := mk_hero_equip l (Some true) (Some true).

Lemma equip_loop_first this l before m w h :
  _heros w !! this = Some h -> session_live w h ->
  has_equip m = true -> equips (equip_ m) = before -> (before <> [] -> begin_ (equip_ m) = Some true) ->
  l <> [] -> (length before + length l <= 41)%nat ->
  equip_loop this l (Z.of_nat (length before + length l)) (Z.of_nat (length before))
    (Z.of_nat (length before) + 1) m w =
  if (length before + length l =? 41)%nat
  then Ret (clear_equip m, w, deliver w h (S2CMsgEquipInit (Some (full_equip (before ++ l)))))
  else Ret (mk_equip_msg (full_equip (before ++ l)) true, w, []).
Proof.
  intros Hh Hl. revert before m. induction l as [|e l IH]; intros before m Hhas Heq Hbeg Hne Hle; [done|].
  assert (Hm1 : (if Z.of_nat (length before) =? 0 then mk_equip_msg (equip_ m) true else m)
    = mk_equip_msg (equip_ m) true) by (destruct m; simpl in *; subst; by case_match).
  assert (Hb : (if Z.of_nat (length before) + 1 =? 1 then Some true else begin_ (equip_ m)) = Some true).
  { destruct (Z.eqb_spec (Z.of_nat (length before) + 1) 1); [done|]. apply Hbeg. intros ->. done. }
  cbn [equip_loop]. rewrite Hm1. cbn [equip_ has_equip]. rewrite Hb, Heq. cbn [length].
  destruct l as [|e' l].
  - cbn [length equip_loop] in *.
    destruct (Z.eqb_spec (Z.of_nat (length before) + 1) (Z.of_nat (length before + 1))); [|lia].
    unfold max_count. destruct (Nat.eqb_spec (length before + 1) 41), (Z.leb_spec 40 (Z.of_nat (length before))); try lia.
    + rewrite (mbind_run _ _ _ _ _ _ (send_run this w h _ Hh Hl)). unfold mret'. by rewrite app_nil_r.
    + by rewrite (mbind_pure _ _ w tt).
  - cbn [length] in Hle. unfold max_count. destruct (Z.leb_spec 40 (Z.of_nat (length before))); [lia|].
    rewrite (mbind_pure _ _ w tt) by done.
    specialize (IH (before ++ [e])). rewrite length_app in IH. cbn [length] in IH.
    cbn [length]. replace (Z.of_nat (length before) + 1) with (Z.of_nat (length before + 1)) by lia.
    replace (length before + S (S (length l)))%nat with (length before + 1 + S (length l))%nat by lia.
    rewrite IH; [|done|done|done|done|lia]. by rewrite <- app_assoc.
Qed.

(** A client that enters the game with at most 41 pieces of equipment receives
    all of them, in key order, in one complete message marked as both first and
    last, then its toys, then its hero; the hero becomes online and its periodic
    save runs. *)
Lemma SendClientInit_run w this h :
  _heros w !! this = Some h -> session_live w h -> (size (_hero_equips h) <= 41)%nat ->
  let l := map snd (map_walk (_hero_equips h)) in
  SendClientInit this w =
  Ret (tt, upd_hero w this (set_online_field (set_save_event h true) true),
    (if bool_decide (l = []) then [] else deliver w h (S2CMsgEquipInit (Some (full_equip l)))) ++
    deliver w h (S2CMsgToyInit (map (fun p => toy p.2) (string_walk (_hero_toys h)))) ++
    deliver w h (S2CMsgHeroInit (_info h))).
Proof.
  intros Hh Hl Hsize l.
  assert (Hlen : (length l <= 41)%nat) by (unfold l; rewrite length_map, length_map_walk; done).
  assert (Hstart : exists w1, StartSave this w = Ret (tt, w1, []) /\ w1 = upd_hero w this (set_save_event h true)).
  { unfold StartSave. rewrite (mbind_pure _ _ _ _ (hero_of_run _ _ _ Hh)).
    destruct (save_event h) eqn:Hs; [|eexists; done]. eexists. split; [done|].
    unfold upd_hero. rewrite insert_id; [by destruct w|]. rewrite Hh. f_equal. destruct h; simpl in *. by subst. }
  destruct Hstart as (w1 & Hrun & ->).
  set (h1 := set_save_event h true) in *. set (w1 := upd_hero w this h1) in *.
  assert (Hh1 : _heros w1 !! this = Some h1) by apply upd_hero_lookup.
  assert (Hl1 : session_live w1 h1) by (by apply (session_live_upd w this h)).
  assert (Hdel : forall msg, deliver w1 h1 msg = deliver w h msg) by (intros; by apply deliver_upd).
  assert (Hloop : exists m o1, equip_loop this l (Z.of_nat (length l)) 0 1 (mk_equip_msg (mk_hero_equip [] None None) true) w1
      = Ret (m, w1, o1) /\
    o1 ++ (if 0 <? Z.of_nat (length (equips (equip_ m))) then deliver w h (sent (mk_equip_msg (equip_ m) true)) else [])
    = if bool_decide (l = []) then [] else deliver w h (S2CMsgEquipInit (Some (full_equip l)))).
  { destruct (decide (l = [])) as [He|He]; [rewrite He; eexists _, _; done|]. rewrite bool_decide_false by done.
    pose proof (equip_loop_first this l [] (mk_equip_msg (mk_hero_equip [] None None) true) w1 h1 Hh1 Hl1
      eq_refl eq_refl ltac:(done) He Hlen) as Hf. cbn [length app Nat.add] in Hf.
    change (Z.of_nat 0 + 1) with 1 in Hf. change (Z.of_nat 0) with 0 in Hf. rewrite Hf.
    destruct (length l =? 41)%nat; eexists _, _; (split; [done|]).
    - cbn. by rewrite app_nil_r, Hdel.
    - unfold full_equip, sent. cbn [equip_ equips has_equip app].
      destruct (Z.ltb_spec 0 (Z.of_nat (length l))); [done|]. destruct l; [done|simpl in *; lia]. }
  destruct Hloop as (m & o1 & Hloop & Hout).
  unfold SendClientInit. rewrite (mbind_run _ _ _ _ _ _ Hrun), (mbind_pure _ _ _ _ (hero_of_run _ _ _ Hh1)).
  change (_hero_equips h1) with (_hero_equips h). fold l.
  rewrite (mbind_run _ _ _ _ _ _ Hloop).
  assert (Hlast : (if 0 <? Z.of_nat (length (equips (equip_ m)))
      then DreamHero_sendPBMessage this (sent (mk_equip_msg (equip_ m) true)) else mret' tt) w1 =
    Ret (tt, w1, if 0 <? Z.of_nat (length (equips (equip_ m)))
      then deliver w h (sent (mk_equip_msg (equip_ m) true)) else [])).
  { case_match; [|done]. by rewrite (send_run this w1 h1), Hdel. }
  rewrite (mbind_run _ _ _ _ _ _ Hlast), (mbind_run _ _ _ _ _ _ (send_run this w1 h1 _ Hh1 Hl1)),
    (mbind_run _ _ _ _ _ _ (send_run this w1 h1 _ Hh1 Hl1)), (mbind_pure _ _ _ _ (hero_of_run _ _ _ Hh1)).
  unfold put_hero, mmodify. cbv beta iota. rewrite !Hdel, !app_nil_r, !app_nil_l, (app_assoc o1), Hout.
  do 3 f_equal. unfold upd_hero, w1, set_heros. cbn. by rewrite insert_insert_eq.
Qed.

(** ** New heroes *)

Definition given (n : Z) (e : HeroEquipConfig) : MsgEquipData :=
  mk_equip n (equip_config_id e) (equip_level e) true 0 (equip_conut e).

Lemma give_equips_spec l c m c' m' :
  give_equips l c m = (c', m') -> 0 <= _generate_id c -> _generate_id c + Z.of_nat (length l) < 2 ^ 64 ->
  (forall k, _generate_id c < k -> m !! k = None) ->
  c' = mk_config (_hero_config c) (_equips_level_up_configs c) (_generate_id c + Z.of_nat (length l)) /\
  size m' = (size m + length l)%nat /\
  (forall k, k <= _generate_id c -> m' !! k = m !! k) /\
  (forall i e, l !! i = Some e ->
     m' !! (_generate_id c + 1 + Z.of_nat i) = Some (given (_generate_id c + 1 + Z.of_nat i) e)).
Proof.
  revert c m. induction l as [|e l IH]; intros c m; cbn [give_equips generateEquipID].
  - intros [= <- <-] H0 Hb Hm. split_and!; [destruct c; cbn; f_equal; lia|simpl; lia|done|done].
  - cbn [length]. intros H H0 Hb Hm. rewrite u64_id in H by (unfold is_u64; lia).
    apply IH in H as (-> & Hsize & Hlow & Hnew); cbn [_generate_id _hero_config _equips_level_up_configs] in *.
    + split_and!.
      * f_equal. lia.
      * rewrite Hsize, map_size_insert_None by (apply Hm; lia). lia.
      * intros k Hk. rewrite Hlow by lia. by rewrite lookup_insert_ne by lia.
      * intros [|i] e' He.
        -- cbn in He. injection He as <-. replace (_generate_id c + 1 + Z.of_nat 0) with (_generate_id c + 1) by lia.
           rewrite Hlow by lia. by rewrite lookup_insert_eq.
        -- cbn in He. replace (_generate_id c + 1 + Z.of_nat (S i)) with (_generate_id c + 1 + 1 + Z.of_nat i) by lia.
           by apply Hnew.
    + lia.
    + lia.
    + intros k Hk. rewrite lookup_insert_ne by lia. apply Hm. lia.
Qed.

(** A new hero gets what the configuration says: its money, level and suits,
    and one piece of equipment per configured piece, under identifiers above
    every one generated before and all different; the generator moves past them,
    so that no later hero gets them again. *)
Theorem LoadFromConfig_new_hero c acc c' h :
  LoadFromConfig c (construct acc) = (c', h) ->
  0 <= _generate_id c -> _generate_id c + Z.of_nat (length (c_equips (_hero_config c))) < 2 ^ 64 ->
  gold (_info h) = c_gold (_hero_config c) /\ diamand (_info h) = c_diamond (_hero_config c) /\
  level (_info h) = u32 (c_level (_hero_config c)) /\
  suits (_info h) = map (fun p => mk_suit p.1 (c_str p.2) []) (map_walk (suits_name (_hero_config c))) /\
  (forall i e, c_equips (_hero_config c) !! i = Some e ->
     _hero_equips h !! (_generate_id c + 1 + Z.of_nat i) = Some (given (_generate_id c + 1 + Z.of_nat i) e)) /\
  size (_hero_equips h) = length (c_equips (_hero_config c)) /\
  _generate_id c' = _generate_id c + Z.of_nat (length (c_equips (_hero_config c))) /\
  _hero_config c' = _hero_config c.
Proof.
  unfold LoadFromConfig. cbn [_hero_equips construct _info suits app]. intros H H0 Hb.
  destruct (give_equips _ _ _) as [c1 m] eqn:Hg. injection H as <- <-.
  apply give_equips_spec in Hg as (-> & Hsize & _ & Hnew); [|done|done|intros; apply lookup_empty].
  by split_and!.
Qed.

(** ** A concrete hero *)

Definition demo_equip : MsgEquipData := mk_equip 5 77 1 true 0 3.
Definition demo_cfg : HeroEquipLevelUpConfig := mk_level_up 2 4 60.
Definition demo_hero : GameWorld.DreamHero :=
  mk_hero (mk_hero_data 9 1 "nine" 0 10 100 [mk_suit 1 "red" [5]; mk_suit 2 "blue" []])
    {[5 := demo_equip]} ∅ 9 (Some 1) false false.
Definition demo_world : world :=
  mk_world {[9 := demo_hero]} ∅ false {[1 := mk_session 3 9 2 true (Some 9)]} 2 {[3 := 1]} {[2 := 50]}
    {[50 := 2]} (mk_config (mk_hero_config 100 10 1 [] ∅) {[77 := {[2 := demo_cfg]}]} 5).

Lemma demo_lookup : _heros demo_world !! 9 = Some demo_hero.
Proof. reflexivity. Qed.

Lemma demo_live : session_live demo_world demo_hero.
Proof. by exists (mk_session 3 9 2 true (Some 9)). Qed.

Lemma demo_ints : hero_ints demo_hero.
Proof.
  unfold hero_ints. split_and!; [done|done|]. apply map_Forall_singleton. done.
Qed.

Lemma demo_costs i l cfg : getEquipLevelUpConfig (sGameConfig demo_world) i l = Some cfg -> cost_ok cfg.
Proof.
  unfold getEquipLevelUpConfig. cbn [sGameConfig demo_world _equips_level_up_configs].
  destruct (decide (i = 77)) as [->|]; [|by rewrite lookup_singleton_ne].
  rewrite lookup_singleton_eq. destruct (decide (l = 2)) as [->|]; [|by rewrite lookup_singleton_ne].
  rewrite lookup_singleton_eq. intros [= <-]. unfold cost_ok. simpl. lia.
Qed.

Lemma demo_equip_lookup : _hero_equips demo_hero !! 5 = Some demo_equip.
Proof. reflexivity. Qed.

Lemma demo_cfg_lookup : getEquipLevelUpConfig (sGameConfig demo_world) 77 2 = Some demo_cfg.
Proof. reflexivity. Qed.


Lemma ModifySuit_sets_suit_witness :
  exists l, ModifySuit 9 (mk_suit 2 "green" [5]) demo_world =
      Ret (tt, upd_hero demo_world 9 (set_info_field demo_hero (with_suits (_info demo_hero) l)),
           deliver demo_world demo_hero (S2CModifySuitACK 2 no_error)) /\
    mk_suit 2 "green" [5] ∈ l /\ (forall s, s ∈ l -> suit_id s = 2 -> s = mk_suit 2 "green" [5]) /\
    without_id 2 l = without_id 2 (suits (_info demo_hero)).
Proof. exact (ModifySuit_sets_suit demo_world 9 demo_hero (mk_suit 2 "green" [5]) demo_lookup demo_live). Defined.

Lemma demo_suits_distinct : NoDup (map suit_id (suits (_info demo_hero))).
Proof. apply (bool_decide_unpack _). reflexivity. Qed.

Lemma DelSuit_removes_suit_witness :
  DelSuit 9 1 demo_world =
    Ret (tt, upd_hero demo_world 9 (set_info_field demo_hero
               (with_suits (_info demo_hero) [mk_suit 2 "blue" []])),
         deliver demo_world demo_hero (S2CDelSuitACK 1 no_error)).
Proof.
  exact (proj2 (DelSuit_removes_suit demo_world 9 demo_hero 1 demo_lookup demo_live demo_suits_distinct)
    [] (mk_suit 1 "red" [5]) [mk_suit 2 "blue" []] eq_refl eq_refl).
Defined.

(** ** What the code does not guarantee *)

(** Deleting the only suit, or any last one, is undefined. *)
Lemma delete_last_suit_undefined :
  del_loop 9 [mk_suit 1 "red" []] 0 1 server_error_no_suit_id = UB "iterator past the end".
Proof. reflexivity. Qed.

(** With more than 41 pieces the first message lacks the required [end] mark,
    and from the forty-second on each piece is put in a sub-message that is not
    set in the message sent: no message is complete. *)
Definition many_equips (n : nat) : list MsgEquipData :=
  map (fun i => mk_equip (Z.of_nat i) 77 1 true 0 1) (seq 1 n).

Lemma equip_42_is_lost :
  exists m o, equip_loop 9 (many_equips 42) 42 0 1 (mk_equip_msg (mk_hero_equip [] None None) true) demo_world
      = Ret (m, demo_world, o) /\
    map (fun e => match e with SendClient _ _ msg => s2c_initialized msg | _ => true end) o = [false; false] /\
    equips (equip_ m) = [].
Proof.
  eexists _, _. split; [vm_compute; reflexivity|]. split; reflexivity.
Qed.

(** Every level-up acknowledgement lacks the required [equip_id]. *)
Lemma level_up_ack_uninitialized l g c d : s2c_initialized (S2CEquipLevelUpACK None l g c d) = false.
Proof. reflexivity. Qed.

Definition demo_config : GameConfig :=
  mk_config (mk_hero_config 100 10 1 [mk_equip_config 77 1 3; mk_equip_config 78 2 1] {[4 := "red"]}) ∅ 5.

Lemma LoadFromConfig_new_hero_witness :
  let h := (LoadFromConfig demo_config (construct 9)).2 in
  gold (_info h) = 100 /\ diamand (_info h) = 10 /\ level (_info h) = u32 1 /\
  suits (_info h) = map (fun p => mk_suit p.1 (c_str p.2) []) (map_walk (suits_name (_hero_config demo_config))) /\
  (forall i e, c_equips (_hero_config demo_config) !! i = Some e ->
     _hero_equips h !! (5 + 1 + Z.of_nat i) = Some (given (5 + 1 + Z.of_nat i) e)) /\
  size (_hero_equips h) = 2%nat /\
  _generate_id (LoadFromConfig demo_config (construct 9)).1 = 5 + Z.of_nat 2 /\
  _hero_config (LoadFromConfig demo_config (construct 9)).1 = _hero_config demo_config.
Proof.
  apply (LoadFromConfig_new_hero demo_config 9 (LoadFromConfig demo_config (construct 9)).1
    (LoadFromConfig demo_config (construct 9)).2);
    [reflexivity|cbn; lia|cbn; lia].
Defined.
