(* ===== verification/HeroSave.v ===== *)
(** [DreamHero::SaveHero] of [gameserver/DreamHero.cpp]: a hero written as SQL
    statements for the database server.

    [localtime] and [now], the value of [time()], are arguments. *)

From Stdlib Require Import Ascii String.
From S2P Require Import Prelude Utilities Text GameData GameWorld DreamHero.
From stdpp Require Import prelude gmap strings list.
#[local] Open Scope Z_scope.

Module HeroSave.
Import Messages GameWorld Text Utilities.

Notation "'let?' x ':=' m 'in' k" :=
  (match m with Ret x => k | UB why => UB why end)
  (at level 200, x binder, right associativity) : srv_scope.

Definition lift {A} (m : outcome A) : handler A :=
  match m with Ret a => mret' a | UB why => mub why end.

(** *** The text of the suits *)

(** The inner loop over [equip_ids]; [char suit_temp[256]]. *)
Fixpoint equip_ids_loop (ids : list Z) (suits_sql : string) : outcome string :=
  match ids with
  | [] => Ret suits_sql
  | equip_id :: ids' =>
      let? suit_temp := sprintf 256 (print_u equip_id) in
      equip_ids_loop ids' (suits_sql +:+ "," +:+ suit_temp)
  end.

(** The outer loop; [first] is [i == 0]. *)
Fixpoint suits_loop (l : list MsgSuitData) (first : bool) (suits_sql : string) : outcome string :=
  match l with
  | [] => Ret suits_sql
  | s :: l' =>
      let suits_sql := if first then suits_sql else suits_sql +:+ ":" in
      let? suit_temp := sprintf 256 (print_d (suit_id s) +:+ "," +:+ c_str (suit_name s)) in
      let? suits_sql := equip_ids_loop (equip_ids s) (suits_sql +:+ suit_temp) in
      suits_loop l' false suits_sql
  end.

(** *** The statements *)

(** [char temp[2048]]. *)
Definition hero_sql (i : MsgHeroData) (suits_sql : string) : outcome string :=
  sprintf 2048
    ("replace into `character`(`account_id`, `level`, `name`,`action_point`, `diamand`, `gold`, `suits_name`) values("
     +:+ print_u (account i) +:+ ", " +:+ print_d (s32 (level i)) +:+ ", '" +:+ c_str (name i) +:+ "', "
     +:+ print_d (action_point i) +:+ ", " +:+ print_d (diamand i) +:+ ", " +:+ print_d (gold i)
     +:+ ", '" +:+ c_str suits_sql +:+ "')").

Definition equip_head : string :=
  "replace into `character_equip`(`equip_id`, `account_id`, `equip_config_id`, `level`, `equipped`, `client_save_flag`,`equip_count`) values".

Definition equip_row (acc : Z) (e : MsgEquipData) : outcome string :=
  sprintf 2048
    ("(" +:+ print_u (e_id e) +:+ ", " +:+ print_u acc +:+ ", " +:+ print_d (e_equip_id e) +:+ ", "
     +:+ print_d (e_level e) +:+ ", " +:+ print_d (if e_equipped e then 1 else 0) +:+ ", "
     +:+ print_d (e_client_save_flag e) +:+ ", " +:+ print_d (e_count e) +:+ ")").

Definition toy_head : string :=
  "replace into `character_toy`(`toy_cd_key`, `account`, `toy_config_id`, `toy_config_type`, `toy_level`, `verify_time`) values".

(** The ["%d-%d-%d %d:%d:%d"] of [get_time]. *)
Definition time_text (t : Z * Z * Z * Z * Z * Z) : string :=
  let '(y, mo, d, h, mi, s) := t in
  print_d y +:+ "-" +:+ print_d mo +:+ "-" +:+ print_d d +:+ " " +:+ print_d h +:+ ":"
  +:+ print_d mi +:+ ":" +:+ print_d s.

Section with_clock.
Context (localtime : Z -> tm) (now : Z).

(** [char sztemp[512]]. *)
Definition toy_row (acc : Z) (t : MsgToyData) : outcome string :=
  sprintf 512
    ("('" +:+ c_str (toy_cd_key t) +:+ "', '" +:+ print_u acc +:+ "', " +:+ print_d (toy_config_id (toy t))
     +:+ ", " +:+ print_d (toy_config_type (toy t)) +:+ ", " +:+ print_d (toy_level (toy t)) +:+ ", '"
     +:+ time_text (get_time localtime now (time_stamp t)) +:+ "')").

(** Both row loops: a statement is sent once [limit] rows are counted; the text
    is cleared then for the toys ([clear]) and not for the equipment. *)
Fixpoint batch_loop {A} (this : Z) (row : A -> outcome string) (head : string) (limit : Z) (clear : bool)
    (l : list A) (count : Z) (sql_temp : string) : handler string :=
  match l with
  | [] => mret' sql_temp
  | x :: l' =>
      (if limit <=? count then DreamHero_sendDB this (MsgSaveDataGS2DB sql_temp) else mret' tt) ;;;
      let sql_temp := if (limit <=? count) && clear then EmptyString else sql_temp in
      let count := if limit <=? count then 0 else count in
      let sql_temp := sql_temp +:+ (if count =? 0 then head else ",") in
      temp <- lift (row x) ;;
      batch_loop this row head limit clear l' (count + 1) (sql_temp +:+ temp)
  end.

Definition send_rest (this : Z) (sql : string) : handler unit :=
  if String.eqb sql EmptyString then mret' tt else DreamHero_sendDB this (MsgSaveDataGS2DB sql).

Definition SaveHero (this : Z) : handler unit :=
  h <- hero_of this ;;
  suits_sql <- lift (suits_loop (suits (_info h)) true EmptyString) ;;
  temp <- lift (hero_sql (_info h) suits_sql) ;;
  DreamHero_sendDB this (MsgSaveDataGS2DB temp) ;;;
  (if (size (_hero_equips h) =? 0)%nat then mret' tt
   else
     sql_temp <- batch_loop this (equip_row (account (_info h))) equip_head 20 false
                   (map snd (map_walk (_hero_equips h))) 0 EmptyString ;;
     send_rest this sql_temp) ;;;
  (if (size (_hero_toys h) =? 0)%nat then mret' tt
   else
     sql_excute <- batch_loop this (toy_row (_account h)) toy_head 21 true
                     (map snd (string_walk (_hero_toys h))) 0 EmptyString ;;
     send_rest this sql_excute).

End with_clock.
End HeroSave.

Import Messages GameWorld Text Utilities HeroSave.

(** ** Rows and statements *)

(** A statement for several rows. *)
Definition statement (head : string) (rows : list string) : string := head +:+ join_with ","%char rows.

(** [l] in pieces of [n]. *)
Fixpoint chunks_fuel {A} (fuel n : nat) (l : list A) : list (list A) :=
  match fuel, l with
  | S fuel', _ :: _ => take n l :: chunks_fuel fuel' n (drop n l)
  | _, _ => []
  end.

Definition chunks {A} (n : nat) (l : list A) : list (list A) := chunks_fuel (length l) n l.

(** Each text with all the texts before it in front. *)
Fixpoint growing (before : string) (l : list string) : list string :=
  match l with
  | [] => []
  | s :: l' => (before +:+ s) :: growing (before +:+ s) l'
  end.

Lemma chunks_fuel_enough {A} f1 f2 n (l : list A) :
  (0 < n)%nat -> (length l <= f1)%nat -> (length l <= f2)%nat -> chunks_fuel f1 n l = chunks_fuel f2 n l.
Proof.
  intros Hn. revert f2 l. induction f1 as [|f1 IH]; intros f2 l H1 H2.
  - destruct l; [by destruct f2|simpl in H1; lia].
  - destruct l as [|x l]; [by destruct f2|]. destruct f2 as [|f2]; [simpl in H2; lia|].
    cbn [chunks_fuel]. f_equal. apply IH; rewrite length_drop; simpl in *; lia.
Qed.

Lemma chunks_full {A} n (cur rest : list A) :
  (0 < n)%nat -> length cur = n -> chunks n (cur ++ rest) = cur :: chunks n rest.
Proof.
  intros Hn Hl. unfold chunks. rewrite length_app. destruct cur as [|c cur]; [simpl in Hl; lia|].
  cbn [length Nat.add app chunks_fuel]. change (c :: cur ++ rest) with ((c :: cur) ++ rest).
  rewrite take_app_length' by done. rewrite drop_app_length' by done. f_equal.
  apply chunks_fuel_enough; simpl in *; lia.
Qed.

Lemma chunks_last {A} n (cur : list A) : (0 < length cur <= n)%nat -> chunks n cur = [cur].
Proof.
  intros Hl. unfold chunks. destruct cur as [|c cur]; [simpl in Hl; lia|]. cbn [length chunks_fuel].
  rewrite take_ge, drop_ge by lia. by destruct (length cur).
Qed.

Lemma concat_chunks {A} n (l : list A) : (0 < n)%nat -> concat (chunks n l) = l.
Proof.
  intros Hn. unfold chunks.
  assert (Hf : forall f (l : list A), (length l <= f)%nat -> concat (chunks_fuel f n l) = l).
  { clear l. induction f as [|f IH]; intros l Hl; [by destruct l; [|simpl in Hl; lia]|].
    destruct l as [|x l]; [done|]. cbn [chunks_fuel concat].
    rewrite IH by (rewrite length_drop; simpl in *; lia). apply take_drop. }
  by apply Hf.
Qed.

Lemma join_with_snoc d l x : l <> [] -> join_with d (l ++ [x]) = join_with d l +:+ String d x.
Proof.
  induction l as [|a l IH]; [done|]. intros _. destruct l as [|b l]; [done|].
  change (join_with d ((a :: b :: l) ++ [x])) with (a +:+ String d (join_with d ((b :: l) ++ [x]))).
  rewrite IH by done. change (join_with d (a :: b :: l)) with (a +:+ String d (join_with d (b :: l))).
  by rewrite string_app_assoc.
Qed.

(** The text in the buffer when the rows [cur] wait in it. *)
Definition pending (head : string) (cur : list string) : string :=
  match cur with [] => EmptyString | _ => statement head cur end.

Lemma pending_snoc head cur x :
  pending head (cur ++ [x]) = pending head cur +:+ ((if (length cur =? 0)%nat then head else ",") +:+ x).
Proof.
  destruct cur as [|a cur]; [done|]. cbn [length Nat.eqb app pending].
  change (a :: cur ++ [x]) with ((a :: cur) ++ [x]). unfold statement.
  rewrite join_with_snoc by done. by rewrite string_app_assoc.
Qed.

Section saving.
Context (w : world) (this : Z) (h : GameWorld.DreamHero) (sid : Z) (s : Session).
Context (Hh : _heros w !! this = Some h) (Hs : _session h = Some sid) (Hsid : sessions w !! sid = Some s).

Definition save (sql : string) : effect := SendDB (MsgSaveDataGS2DB sql) (m_tranid s).

Lemma sendDB_run sql : DreamHero_sendDB this (MsgSaveDataGS2DB sql) w = Ret (tt, w, [save sql]).
Proof.
  unfold DreamHero_sendDB. rewrite (mbind_pure _ _ _ _ (hero_of_run _ _ _ Hh)), Hs.
  unfold session_of, mbind', mget. by rewrite Hsid.
Qed.

(** The texts a row loop produces, the last one still in the buffer. *)
Definition texts (clear : bool) (before : string) (l : list string) : list string :=
  if clear then l else growing before l.

Lemma batch_loop_run {A} (row : A -> outcome string) head n clear l rows cur before :
  (0 < n)%nat -> map row l = map Ret rows -> (length cur <= n)%nat -> (clear = true -> before = EmptyString) ->
  exists out last, batch_loop this row head (Z.of_nat n) clear l (Z.of_nat (length cur)) (before +:+ pending head cur) w
    = Ret (last, w, map save out) /\
    (cur ++ rows <> [] -> out ++ [last] = texts clear before (map (statement head) (chunks n (cur ++ rows)))) /\
    (cur ++ rows = [] -> out = [] /\ last = before).
Proof.
  intros Hn. revert rows cur before. induction l as [|x l IH]; intros rows cur before Hrows Hcur Hclear.
  - destruct rows as [|? ?]; [|done]. exists [], (before +:+ pending head cur). rewrite app_nil_r. split; [done|].
    split; [|intros ->; by rewrite string_app_nil_r]. intros Hne. rewrite chunks_last by (destruct cur; [by destruct Hne|simpl in *; lia]).
    unfold texts. destruct cur; [by destruct Hne|]. destruct clear; [|done]. by rewrite (Hclear eq_refl).
  - destruct rows as [|r rows]; [done|]. cbn [map] in Hrows. injection Hrows as Hr Hrows.
    cbn [batch_loop]. destruct (Z.leb_spec (Z.of_nat n) (Z.of_nat (length cur))) as [Hfull|Hroom].
    + assert (Hlen : length cur = n) by lia.
      rewrite (mbind_run _ _ _ _ _ _ (sendDB_run _)). unfold lift at 1. rewrite Hr, mbind_ret_l.
      cbn [andb]. rewrite Z.eqb_refl.
      destruct (IH rows [r] (if clear then EmptyString else before +:+ pending head cur) Hrows) as (out & last & Hrun & Hout & _);
        [simpl; lia|by destruct clear|].
      change (Z.of_nat (length [r])) with (0 + 1) in Hrun.
      replace (((if clear then EmptyString else before +:+ pending head cur) +:+ head) +:+ r)
        with ((if clear then EmptyString else before +:+ pending head cur) +:+ pending head [r])
        by (by rewrite string_app_assoc).
      rewrite Hrun. exists ((before +:+ pending head cur) :: out), last. split; [done|].
      split; [|by destruct cur].
      intros _. rewrite chunks_full by done. cbn [app map]. specialize (Hout ltac:(done)). rewrite Hout.
      destruct cur as [|c cur]; [simpl in Hlen; lia|]. cbn [pending]. unfold texts.
      destruct clear; [|done]. by rewrite (Hclear eq_refl).
    + rewrite (mbind_pure _ _ w tt) by done. unfold lift at 1. rewrite Hr, mbind_ret_l. cbn [andb].
      destruct (IH rows (cur ++ [r]) before Hrows) as (out & last & Hrun & Hout & Hnil);
        [rewrite length_app; simpl; lia|done|].
      exists out, last. rewrite <- app_assoc in Hout, Hnil. cbn [app] in Hout, Hnil. split; [|done].
      rewrite <- Hrun. f_equal; [rewrite length_app; simpl; lia|].
      rewrite pending_snoc, !string_app_assoc. do 3 f_equal.
      destruct (Z.eqb_spec (Z.of_nat (length cur)) 0), (Nat.eqb_spec (length cur) 0); (done || lia).
Qed.

End saving.

Lemma string_app_ne a b : a <> EmptyString -> a +:+ b <> EmptyString.
Proof. destruct a; [done|]. intros _. rewrite string_app_cons. discriminate. Qed.

Lemma texts_ne clear head rows before :
  head <> EmptyString ->
  Forall (fun t => t <> EmptyString) (texts clear before (map (statement head) rows)).
Proof.
  intros Hh. unfold texts. destruct clear.
  - induction rows as [|r rows IH]; constructor; [by apply string_app_ne|done].
  - revert before. induction rows as [|r rows IH]; intros before; constructor; [|apply IH].
    destruct before; [exact (string_app_ne head _ Hh)|]. by apply string_app_ne.
Qed.

(** One of the two row loops with the final send. *)
Lemma save_rows_run w this h sid s {A} (row : A -> outcome string) head n clear (l : list A) rows :
  _heros w !! this = Some h -> _session h = Some sid -> sessions w !! sid = Some s ->
  head <> EmptyString -> (0 < n)%nat -> map row l = map Ret rows ->
  (sql <- batch_loop this row head (Z.of_nat n) clear l 0 EmptyString ;; send_rest this sql) w =
  Ret (tt, w, map (save s) (texts clear EmptyString (map (statement head) (chunks n rows)))).
Proof.
  intros Hh Hs Hsid Hhead Hn Hrows.
  destruct (batch_loop_run w this h sid s Hh Hs Hsid row head n clear l rows [] EmptyString)
    as (out & last & Hrun & Hout & Hnil); [done|done|simpl; lia|done|].
  change (Z.of_nat (length [])) with 0 in Hrun. change (EmptyString +:+ pending head []) with EmptyString in Hrun.
  rewrite (mbind_run _ _ _ _ _ _ Hrun). cbn [app] in Hout, Hnil. unfold send_rest.
  destruct rows as [|r rows].
  - destruct (Hnil eq_refl) as [-> ->]. by destruct clear.
  - specialize (Hout ltac:(done)).
    assert (Hne : last <> EmptyString).
    { pose proof (texts_ne clear head (chunks n (r :: rows)) EmptyString Hhead) as Hall.
      rewrite <- Hout in Hall. apply Forall_app in Hall as [_ Hlast]. by inversion Hlast. }
    apply String.eqb_neq in Hne. rewrite Hne.
    rewrite (sendDB_run w this h sid s Hh Hs Hsid), <- Hout, map_app. done.
Qed.

(** C29: [SaveHero] writes the whole hero.  When no text overflows its buffer it
    sends the hero's row, then the equipment, then the toys, each row in key
    order; the toys go in statements of at most 21 rows, each made of one header
    and its rows, so that every toy is in exactly one; the equipment goes in
    pieces of 20 rows whose text is never cleared, so that statement k repeats
    the k - 1 before it, and is well-formed only for up to 20 pieces.  The
    world is unchanged. *)
Theorem SaveHero_statements localtime now w this h sid s st hs erows trows :
  _heros w !! this = Some h -> _session h = Some sid -> sessions w !! sid = Some s ->
  suits_loop (suits (_info h)) true EmptyString = Ret st ->
  hero_sql (_info h) st = Ret hs ->
  map (equip_row (account (_info h))) (map snd (map_walk (_hero_equips h))) = map Ret erows ->
  map (toy_row localtime now (_account h)) (map snd (string_walk (_hero_toys h))) = map Ret trows ->
  SaveHero localtime now this w =
    Ret (tt, w, map (save s)
      (hs :: growing EmptyString (map (statement equip_head) (chunks 20 erows))
          ++ map (statement toy_head) (chunks 21 trows))) /\
  concat (chunks 20 erows) = erows /\ concat (chunks 21 trows) = trows.
Proof.
  intros Hh Hs Hsid Hst Hhs He Ht. split; [|split; apply concat_chunks; lia]. unfold SaveHero.
  rewrite (mbind_pure _ _ _ _ (hero_of_run _ _ _ Hh)). unfold lift. rewrite Hst, mbind_ret_l, Hhs, mbind_ret_l.
  rewrite (mbind_run _ _ _ _ _ _ (sendDB_run w this h sid s Hh Hs Hsid hs)).
  pose proof (save_rows_run w this h sid s (equip_row (account (_info h))) equip_head 20 false _ erows
    Hh Hs Hsid ltac:(discriminate) ltac:(lia) He) as HE.
  pose proof (save_rows_run w this h sid s (toy_row localtime now (_account h)) toy_head 21 true _ trows
    Hh Hs Hsid ltac:(discriminate) ltac:(lia) Ht) as HT.
  change (Z.of_nat 20) with 20 in HE. change (Z.of_nat 21) with 21 in HT. cbn [texts] in HE, HT.
  rewrite (mbind_run _ _ w tt w (map (save s) (growing EmptyString (map (statement equip_head) (chunks 20 erows))))).
  - assert (HT' : (if (size (_hero_toys h) =? 0)%nat then mret' tt
       else sql_excute <- batch_loop this (toy_row localtime now (_account h)) toy_head 21 true
              (map snd (string_walk (_hero_toys h))) 0 EmptyString ;; send_rest this sql_excute) w
       = Ret (tt, w, map (save s) (map (statement toy_head) (chunks 21 trows)))).
    { destruct (Nat.eqb_spec (size (_hero_toys h)) 0) as [Hz|_]; [|exact HT].
      apply map_size_empty_inv in Hz. rewrite Hz in Ht. change (map snd (string_walk ∅)) with (@nil MsgToyData) in Ht.
      destruct trows; [done|discriminate]. }
    rewrite HT'. by rewrite map_cons, map_app.
  - destruct (Nat.eqb_spec (size (_hero_equips h)) 0) as [Hz|_]; [|exact HE].
    apply map_size_empty_inv in Hz. rewrite Hz in He. change (map snd (map_walk ∅)) with (@nil MsgEquipData) in He.
    destruct erows; [done|discriminate].
Qed.

Definition example_clock : Z -> tm := fun _ => mk_tm 5 4 3 2 1 100 0 0.

Lemma SaveHero_statements_witness :
  SaveHero example_clock 0 9 demo_world =
    Ret (tt, demo_world, map (save (mk_session 3 9 2 true (Some 9)))
      (["replace into `character`(`account_id`, `level`, `name`,`action_point`, `diamand`, `gold`, `suits_name`) values(9, 1, 'nine', 0, 10, 100, '1,red,5:2,blue')"]
       ++ growing EmptyString (map (statement equip_head) (chunks 20 ["(5, 9, 77, 1, 1, 0, 3)"]))
       ++ map (statement toy_head) (chunks 21 []))) /\
  concat (chunks 20 ["(5, 9, 77, 1, 1, 0, 3)"]) = ["(5, 9, 77, 1, 1, 0, 3)"] /\
  concat (chunks 21 (@nil string)) = [].
Proof.
  apply (SaveHero_statements example_clock 0 demo_world 9 demo_hero 1 (mk_session 3 9 2 true (Some 9))
    "1,red,5:2,blue"); reflexivity.
Defined.

(** ** What the code does not guarantee *)

(** A suit name of 254 characters or more, which a client may send, overflows the
    256-byte buffer at the next save. *)
Lemma long_suit_name_overflows i nm l rest acc :
  254 <= Z.of_nat (String.length (c_str nm)) ->
  suits_loop (mk_suit i nm l :: rest) true acc = UB "sprintf past the end of the buffer".
Proof.
  intros Hlen. cbn [suits_loop suit_id suit_name]. unfold sprintf.
  rewrite !length_string_app.
  assert (0 < String.length (print_d i))%nat.
  { destruct (print_d_chars (fun _ => True) i) as [Hne _]; [done|done|]. destruct (print_d i); [done|simpl; lia]. }
  change (String.length ",") with 1%nat.
  destruct (Z.ltb_spec (Z.of_nat (String.length (print_d i) + (1 + String.length (c_str nm)))) 256); [lia|done].
Qed.

(** The second statement for more than 20 pieces of equipment starts with the
    whole first one. *)
Lemma second_equip_statement_repeats a b rest :
  exists tail, growing EmptyString (statement equip_head a :: statement equip_head b :: rest) =
    statement equip_head a :: (statement equip_head a +:+ statement equip_head b) :: tail.
Proof. eexists. reflexivity. Qed.
