(* ===== verification/DbQuest.v ===== *)
(** The database server: [databaseserver/db_quest.cpp] (the queries made for the
    game servers and their call-backs), [game_manager.cpp] (the connected game
    servers) and [game_session.cpp] (their requests).

    A result row is what mysql++ presents, a value per column; asking for a
    column the result does not have throws.  [localtime] and [now] are
    arguments; [uuid]s are not used. *)

From Stdlib Require Import Ascii String.
From S2P Require Import Prelude Utilities Text GameData HeroSave.
From stdpp Require Import prelude gmap strings list.
#[local] Open Scope Z_scope.

Module DbQuest.
Import Messages Text Utilities HeroSave.

Definition INVALID_GATE_ID : Z := 0.
Definition MAX_GATE_ID : Z := 0xff.

(** *** Result rows *)

Inductive value : Type := Num (z : Z) | Txt (s : string).

Definition row : Type := gmap string value.

Definition num (r : row) (col : string) : outcome Z :=
  match r !! col with
  | Some (Num z) => Ret z
  | Some (Txt _) => UB "BadConversion"
  | None => UB "BadFieldName"
  end.

Definition txt (r : row) (col : string) : outcome string :=
  match r !! col with
  | Some (Txt s) => Ret s
  | Some (Num _) => UB "BadConversion"
  | None => UB "BadFieldName"
  end.

(** *** Tasks and messages *)

(** The thread types of the [enum]. *)
Definition _QUERY_HERO_INFO_ : Z := 1.
Definition _SAVE_HERO_INFO_ : Z := 3.
Definition _QUERRY_VERIFY_TOY_CDKEY_ : Z := 4.

Record tgHeroData : Type := mk_tg { t_account : Z; tranid : Z; gsid : Z; info : MsgHeroDataDB2GS }.

Record tgVerify : Type := mk_verify { v_account : Z; v_tranid : Z; v_gsid : Z; cd_key : string }.

(** The call-back a query is added with, and its parameter. *)
Inductive callback : Type :=
| DoQueryHeroInfo (d : tgHeroData)
| DoQueryHeroEquips (d : tgHeroData)
| DoQuerryHeroToys (d : tgHeroData)
| DoQuerryToyVerify (d : tgVerify)
| CallNothing.

Inductive db2gs : Type :=
| HeroDataDB2GS (info : MsgHeroDataDB2GS)
| NeedCreateHeroDB2GS
| SaveAllHeroesDB2GS
| VerifyToyDB2GS (toy : MsgToyData) (account : Z).

Inductive effect : Type :=
| AddSQueryTask (cb : callback) (sql : string) (ntype : Z)
| SendGame (game flag : Z) (msg : db2gs)
| StopDatabase
| CloseGame (game : Z).

(** [m_Games] holds the connection of each game server id, [m_game_id] the id of
    each connection. *)
Record world : Type := mk_world {
  m_Games : gmap Z Z;
  m_game_id : gmap Z Z;
  _receive_cose_msg : bool;
  close_event : bool;
  close_gs_id : Z
}.

Definition handler (A : Type) : Type := M world effect A.

Definition from {A} (m : outcome A) : handler A :=
  match m with Ret a => mret' a | UB why => mub why end.

(** *** [GameManager] *)

Definition sendMessage (msg : db2gs) (flag gs : Z) : handler unit :=
  if (INVALID_GATE_ID <? gs) && (gs <? MAX_GATE_ID) then
    w <- mget ;;
    match m_Games w !! gs with
    | Some g => memit (SendGame g flag msg)
    | None => mret' tt
    end
  else mret' tt.

Definition getGameClient (w : world) (gs : Z) : option Z :=
  if (INVALID_GATE_ID <? gs) && (gs <? MAX_GATE_ID) then m_Games w !! gs else None.

Definition set_games (w : world) g ids : world :=
  mk_world g ids (_receive_cose_msg w) (close_event w) (close_gs_id w).

(** [addGame nId p]; [p] is the connection or null. *)
Definition addGame (nId : Z) (p : option Z) : handler bool :=
  match p with
  | None => mret' false
  | Some p =>
      if (INVALID_GATE_ID <? nId) && (nId <? MAX_GATE_ID) then
        mmodify (fun w => set_games w (<[nId := p]> (m_Games w)) (m_game_id w)) ;;;
        mret' true
      else mret' false
  end.

Definition game_id_of (w : world) (p : Z) : Z := default 0 (m_game_id w !! p).

Definition removeGame (p : Z) : handler unit :=
  w <- mget ;;
  let nId := game_id_of w p in
  if (INVALID_GATE_ID <? nId) && (nId <? MAX_GATE_ID) then
    if bool_decide (m_Games w !! nId = Some p)
    then mput (set_games w (delete nId (m_Games w)) (m_game_id w))
    else mret' tt
  else mret' tt.

(** *** Queries *)

Definition empty_info : MsgHeroDataDB2GS := mk_hero_db2gs 0 (mk_hero_data 0 0 "" 0 0 0 []) [] [].

Definition queryHeroInfo (a t gs : Z) : handler unit :=
  sql <- from (sprintf 256 ("select * from `character` where `account_id`=" +:+ print_u a +:+ ";")) ;;
  memit (AddSQueryTask (DoQueryHeroInfo (mk_tg a t gs empty_info)) sql _QUERY_HERO_INFO_).

Definition verifyToyCDKey (t gs acc : Z) (cdkey : string) : handler unit :=
  sql <- from (sprintf 256 ("select * from `character_toy` where `toy_cd_key`='" +:+ c_str cdkey +:+ "';")) ;;
  memit (AddSQueryTask (DoQuerryToyVerify (mk_verify acc t gs (c_str cdkey))) sql
           _QUERRY_VERIFY_TOY_CDKEY_).

Definition saveSqlData (sql : string) : handler unit :=
  memit (AddSQueryTask CallNothing (c_str sql) _SAVE_HERO_INFO_).

Definition onSaveToClose : handler unit := memit StopDatabase.

(** [saveToClose]: the close event is added once. *)
Definition saveToClose (gsid : Z) : handler unit :=
  w <- mget ;;
  if _receive_cose_msg w then mret' tt
  else
    mput (mk_world (m_Games w) (m_game_id w) true true
            (if close_event w then close_gs_id w else gsid)) ;;;
    sendMessage SaveAllHeroesDB2GS 0 gsid.

(** *** Call-backs; [r] is [None] when the query failed *)

(** One suit of the [suits_name] column, cut at the commas.  The identifiers of
    its equipment are read from the first field each time. *)
Definition parse_suit (vc_suit_info : list string) : list MsgSuitData :=
  match vc_suit_info with
  | f0 :: f1 :: rest =>
      if isIntger (c_str f0)
      then [mk_suit (atoi (c_str f0)) (c_str f1) (map (fun _ => u64 (strtol (c_str f0))) rest)]
      else []
  | _ => []
  end.

Definition parse_suits (sql_suits_name : string) : list MsgSuitData :=
  concat (map (fun str_temp => parse_suit (SplitStringA str_temp ",").2)
            (SplitStringA sql_suits_name ":").2).

Definition dbDoQueryHeroInfo (r : option (list row)) (d : tgHeroData) : handler unit :=
  match r with
  | Some (r0 :: _) =>
      acc <- from (num r0 "account_id") ;;
      lv <- from (num r0 "level") ;;
      name_temp <- from (txt r0 "name") ;;
      ap <- from (num r0 "action_point") ;;
      g <- from (num r0 "gold") ;;
      dm <- from (num r0 "diamand") ;;
      sn <- from (txt r0 "suits_name") ;;
      let data := mk_hero_data acc lv (c_str name_temp) ap dm g
                    (suits (h_Data (info d)) ++ parse_suits (c_str sn)) in
      let d' := mk_tg (t_account d) (tranid d) (gsid d)
                  (mk_hero_db2gs acc data (h_equips (info d)) (h_toys (info d))) in
      sql <- from (sprintf 256 ("select * from `character_equip` where `account_id`=" +:+ print_u acc +:+ ";")) ;;
      memit (AddSQueryTask (DoQueryHeroEquips d') sql _QUERY_HERO_INFO_)
  | _ => sendMessage NeedCreateHeroDB2GS (tranid d) (gsid d)
  end.

Definition equip_of_row (r : row) : outcome MsgEquipData :=
  let? i := num r "equip_id" in
  let? c := num r "equip_config_id" in
  let? eq := num r "equipped" in
  let? l := num r "level" in
  let? f := num r "client_save_flag" in
  let? n := num r "equip_count" in
  Ret (mk_equip i c l (negb (eq =? 0)) f n).

Fixpoint rows_of {A} (f : row -> outcome A) (l : list row) : outcome (list A) :=
  match l with
  | [] => Ret []
  | r :: l' =>
      let? x := f r in
      let? xs := rows_of f l' in
      Ret (x :: xs)
  end.

Definition dbDoQueryHeroEquips (r : option (list row)) (d : tgHeroData) : handler unit :=
  match r with
  | None => mret' tt
  | Some rows =>
      es <- from (rows_of equip_of_row rows) ;;
      let i := info d in
      let d' := mk_tg (t_account d) (tranid d) (gsid d)
                  (mk_hero_db2gs (h_account i) (h_Data i) (h_equips i ++ es) (h_toys i)) in
      sql <- from (sprintf 256 ("select * from `character_toy` where `account`=" +:+ print_u (t_account d) +:+ ";")) ;;
      memit (AddSQueryTask (DoQuerryHeroToys d') sql _QUERY_HERO_INFO_)
  end.

Definition toy_base_of_row (r : row) : outcome MsgToyBaseData :=
  let? c := num r "toy_config_id" in
  let? ty := num r "toy_config_type" in
  let? l := num r "toy_level" in
  Ret (mk_toy_base c ty l).

Definition toy_of_row (r : row) : outcome MsgToyData :=
  let? ts := num r "UNIX_TIMESTAMP(`verify_time`)" in
  let? k := txt r "toy_cd_key" in
  let? b := toy_base_of_row r in
  Ret (mk_toy (c_str k) ts b).

Definition dbDoQuerryHeroToys (r : option (list row)) (d : tgHeroData) : handler unit :=
  match r with
  | None => mret' tt
  | Some rows =>
      ts <- from (rows_of toy_of_row rows) ;;
      let i := info d in
      sendMessage (HeroDataDB2GS (mk_hero_db2gs (h_account i) (h_Data i) (h_equips i) (h_toys i ++ ts)))
        (tranid d) (gsid d)
  end.

Section with_clock.
Context (localtime : Z -> tm) (now g_server_time : Z).

Definition dbDoQuerryToyVerify (r : option (list row)) (d : tgVerify) : handler unit :=
  match r with
  | Some (r0 :: _) =>
      acc <- from (num r0 "account") ;;
      k <- from (txt r0 "toy_cd_key") ;;
      b <- from (toy_base_of_row r0) ;;
      let entry := mk_toy (c_str k) g_server_time b in
      sql <- from (sprintf 512
        ("update set `account`=" +:+ print_u (v_account d) +:+ ", `verify_time`='"
         +:+ time_text (get_time localtime now g_server_time) +:+ "' where `toy_cd_key`='"
         +:+ c_str (cd_key d) +:+ "'")) ;;
      memit (AddSQueryTask CallNothing sql _QUERRY_VERIFY_TOY_CDKEY_) ;;;
      sendMessage (VerifyToyDB2GS entry acc) (v_tranid d) (v_gsid d)
  | _ => mret' tt
  end.

(** [Database::run] delivering a result. *)
Definition execute (cb : callback) (r : option (list row)) : handler unit :=
  match cb with
  | DoQueryHeroInfo d => dbDoQueryHeroInfo r d
  | DoQueryHeroEquips d => dbDoQueryHeroEquips r d
  | DoQuerryHeroToys d => dbDoQuerryHeroToys r d
  | DoQuerryToyVerify d => dbDoQuerryToyVerify r d
  | CallNothing => mret' tt
  end.

End with_clock.

(** *** [GameSession] *)

(** [parseGameRegister]; [version_ok] is [gDBVersion.checkVersion]. *)
Definition parseGameRegister (this serverid : Z) (version_ok : bool) : handler unit :=
  mmodify (fun w => set_games w (m_Games w) (<[this := u16 serverid]> (m_game_id w))) ;;;
  (if version_ok then mret' tt else memit (CloseGame this)) ;;;
  _ <- addGame (u16 serverid) (Some this) ;;
  mret' tt.

(** The requests of a game server. *)
Inductive request : Type :=
| MsgReqHeroData (account : Z)
| MsgSaveData (sql : string)
| MsgSaveAllHeroes
| MsgVerifyToy (cdkey : string) (account : Z).

Definition parseRequest (this flag : Z) (q : request) : handler unit :=
  w <- mget ;;
  match q with
  | MsgReqHeroData a => queryHeroInfo a flag (game_id_of w this)
  | MsgSaveData sql => saveSqlData sql
  | MsgSaveAllHeroes => saveToClose (game_id_of w this)
  | MsgVerifyToy k a => verifyToyCDKey flag (game_id_of w this) a k
  end.

Definition on_close (this : Z) : handler unit := removeGame this.

End DbQuest.

Import Messages Text Utilities HeroSave DbQuest.

(** ** Texts *)

Lemma c_str_id s : all_chars (fun a => a <> Ascii.zero) s -> c_str s = s.
Proof.
  induction s as [|a s IH]; [done|]. intros [Ha Hs]. cbn [c_str].
  destruct (Ascii.eqb_spec a Ascii.zero); [done|]. by rewrite IH.
Qed.

Lemma c_str_chars s : all_chars (fun a => a <> Ascii.zero) (c_str s).
Proof.
  induction s as [|a s IH]; [done|]. cbn [c_str].
  by destruct (Ascii.eqb_spec a Ascii.zero).
Qed.

Lemma all_chars_app (P : ascii -> Prop) a b : all_chars P (a +:+ b) <-> all_chars P a /\ all_chars P b.
Proof. induction a as [|x a IH]; [simpl; tauto|]. rewrite string_app_cons. simpl. rewrite IH. tauto. Qed.

Lemma all_chars_join (P : ascii -> Prop) d fs : P d -> Forall (all_chars P) fs -> all_chars P (join_with d fs).
Proof.
  intros Hd. induction 1 as [|f fs Hf Hfs IH]; [exact I|]. destruct fs as [|g fs]; [done|].
  change (join_with d (f :: g :: fs)) with (f +:+ String d (join_with d (g :: fs))).
  by apply all_chars_app.
Qed.

(** The fields after the first, each behind its delimiter. *)
Definition tail_text (d : ascii) (fs : list string) : string :=
  foldr (fun f t => String d (f +:+ t)) EmptyString fs.

Lemma join_with_cons d f fs : join_with d (f :: fs) = f +:+ tail_text d fs.
Proof.
  revert f. induction fs as [|g fs IH]; intros f; [by rewrite string_app_nil_r|].
  change (join_with d (f :: g :: fs)) with (f +:+ String d (join_with d (g :: fs))). by rewrite IH.
Qed.

(** ** The text of the suits *)

Definition suit_fields (s : MsgSuitData) : list string :=
  print_d (suit_id s) :: c_str (suit_name s) :: map print_u (equip_ids s).

Definition suit_text (s : MsgSuitData) : string := join_with ","%char (suit_fields s).

Lemma sprintf_ret n t r : sprintf n t = Ret r -> r = t.
Proof. unfold sprintf. by destruct (_ <? _); intros [= ->]. Qed.

Lemma equip_ids_loop_text ids acc r :
  equip_ids_loop ids acc = Ret r -> r = acc +:+ tail_text ","%char (map print_u ids).
Proof.
  revert acc. induction ids as [|i ids IH]; intros acc; cbn [equip_ids_loop].
  - intros [= <-]. by rewrite string_app_nil_r.
  - destruct (sprintf 256 (print_u i)) as [t|] eqn:Ht; [|done]. apply sprintf_ret in Ht as ->.
    intros ->%IH. cbn [map tail_text foldr]. by rewrite !string_app_assoc.
Qed.

Lemma suits_loop_text l first acc r :
  suits_loop l first acc = Ret r ->
  r = acc +:+ (if first then join_with ":"%char (map suit_text l) else tail_text ":"%char (map suit_text l)).
Proof.
  revert first acc. induction l as [|s l IH]; intros first acc; cbn [suits_loop].
  - intros [= <-]. destruct first; by rewrite string_app_nil_r.
  - destruct (sprintf 256 _) as [t|] eqn:Ht; [|done]. apply sprintf_ret in Ht as ->.
    destruct (equip_ids_loop _ _) as [u|] eqn:Hu; [|done]. apply equip_ids_loop_text in Hu as ->.
    assert (Hs : suit_text s = (print_d (suit_id s) +:+ "," +:+ c_str (suit_name s)) +:+
        tail_text ","%char (map print_u (equip_ids s))).
    { unfold suit_text, suit_fields. rewrite join_with_cons. cbn [tail_text foldr].
      by rewrite !string_app_assoc. }
    intros ->%IH. cbn [map]. destruct first.
    + by rewrite join_with_cons, Hs, !string_app_assoc.
    + cbn [tail_text foldr]. by rewrite Hs, !string_app_assoc.
Qed.

(** A suit whose name survives the separators. *)
Definition suit_ok (s : MsgSuitData) : Prop :=
  is_s32 (suit_id s) /\ field_ok ","%char (c_str (suit_name s)) /\ field_ok ":"%char (c_str (suit_name s)).

(** What a saved suit is read back as: its equipment is replaced by its id. *)
Definition reloaded (s : MsgSuitData) : MsgSuitData :=
  mk_suit (suit_id s) (c_str (suit_name s)) (map (fun _ => u64 (suit_id s)) (equip_ids s)).

Lemma digit_ne d a : digit_of d = None -> is_digit a -> a <> d.
Proof. intros Hd Ha ->. by apply Ha. Qed.

Lemma suit_fields_chars d s :
  digit_of d = None -> d <> "-"%char -> field_ok d (c_str (suit_name s)) -> Forall (field_ok d) (suit_fields s).
Proof.
  intros Hd Hm Hn. constructor; [|constructor; [done|]].
  - apply print_d_chars; [congruence|]. intros a. by apply digit_ne.
  - apply Forall_map, Forall_true. intros i. apply print_u_chars. intros a. by apply digit_ne.
Qed.

Lemma suit_text_field s : suit_ok s -> field_ok ":"%char (suit_text s).
Proof.
  intros (_ & _ & Hc). pose proof (suit_fields_chars ":"%char s eq_refl ltac:(discriminate) Hc) as Hf.
  split.
  - unfold suit_text, suit_fields in *. apply Forall_cons_1 in Hf as [[Hne _] _].
    rewrite join_with_cons. by apply string_app_ne.
  - apply all_chars_join; [discriminate|]. eapply Forall_impl; [exact Hf|]. by intros f [_ H].
Qed.

Lemma parse_suit_text s : suit_ok s -> parse_suit (SplitStringA (suit_text s) ",").2 = [reloaded s].
Proof.
  intros (Hid & Hn & _). change "," with (delim ","%char). unfold suit_text.
  rewrite split_join; [|done|by apply suit_fields_chars].
  unfold suit_fields, parse_suit.
  assert (Hp : c_str (print_d (suit_id s)) = print_d (suit_id s)).
  { apply c_str_id, print_d_chars; [discriminate|]. intros a. by apply digit_ne. }
  rewrite Hp, isIntger_print_d, atoi_print_d, (c_str_id (c_str _)) by (done || apply c_str_chars).
  unfold reloaded. do 2 f_equal. rewrite map_map. apply map_ext. intros _.
  unfold strtol. rewrite scan_print_d. cbn [default]. f_equal. unfold is_s32 in Hid. simpl. lia.
Qed.

(** The [suits_name] column is read back suit by suit. *)
Lemma parse_suits_text l st :
  Forall suit_ok l -> suits_loop l true EmptyString = Ret st -> parse_suits st = map reloaded l.
Proof.
  intros Hl ->%suits_loop_text. change (EmptyString +:+ ?x) with x. unfold parse_suits.
  destruct l as [|s l]; [done|].
  change ":" with (delim ":"%char). rewrite split_join; [|done|].
  - rewrite map_map. induction Hl as [|s' l' Hs Hl IH]; [done|]. cbn [map concat].
    rewrite parse_suit_text by done. by rewrite IH.
  - apply Forall_map. eapply Forall_impl; [exact Hl|]. apply suit_text_field.
Qed.

Lemma suits_text_no_nul l st :
  suits_loop l true EmptyString = Ret st -> c_str st = st.
Proof.
  intros ->%suits_loop_text. change (EmptyString +:+ ?x) with x. apply c_str_id, all_chars_join; [discriminate|].
  apply Forall_map, Forall_true. intros s. apply all_chars_join; [discriminate|].
  assert (Hdig : forall a, is_digit a -> a <> Ascii.zero) by (intros a; by apply digit_ne).
  constructor; [by apply print_d_chars|]. constructor; [apply c_str_chars|].
  apply Forall_map, Forall_true. intros i. by apply print_u_chars.
Qed.

(** The suits survive a save and a load up to their equipment.  For suits
    with an [int] id and a name that is not empty and has no comma or colon,
    whatever text [SaveHero] builds without overflow, the database server reads
    back the same suits in the same order with the same ids and names; but each
    identifier of a piece of equipment comes back as the suit's own id. *)
Theorem suits_text_roundtrip l st :
  Forall suit_ok l -> suits_loop l true EmptyString = Ret st ->
  parse_suits (c_str st) = map reloaded l /\
  (Forall (fun s => equip_ids s = []) l -> map suit_id (map reloaded l) = map suit_id l /\
     map suit_name (map reloaded l) = map (fun s => c_str (suit_name s)) l /\
     Forall (fun s => equip_ids s = []) (map reloaded l)).
Proof.
  intros Hl Hst. split.
  - rewrite (suits_text_no_nul _ _ Hst). by apply parse_suits_text.
  - intros He. rewrite !map_map. split_and!; [done|done|]. apply Forall_map.
    eapply Forall_impl; [exact He|]. intros s Hs. cbn. by rewrite Hs.
Qed.

Definition example_suits : list MsgSuitData := [mk_suit 12 "red" [70; 71]; mk_suit (-3) "blue" []].

Lemma example_suits_ok : Forall suit_ok example_suits.
Proof. repeat constructor; (lia || discriminate). Qed.

Lemma suits_text_roundtrip_witness :
  parse_suits (c_str "12,red,70,71:-3,blue") = [mk_suit 12 "red" [12; 12]; mk_suit (-3) "blue" []].
Proof.
  exact (proj1 (suits_text_roundtrip example_suits "12,red,70,71:-3,blue" example_suits_ok eq_refl)).
Defined.

(** ** A hero saved and loaded *)

(** The row MySQL holds after the statement of [hero_sql]. *)
Definition character_row (i : MsgHeroData) (st : string) : row :=
  list_to_map [("account_id", Num (account i)); ("level", Num (level i)); ("name", Txt (c_str (name i)));
    ("action_point", Num (action_point i)); ("diamand", Num (diamand i)); ("gold", Num (gold i));
    ("suits_name", Txt st)].

(** The row it holds after that of [equip_row]. *)
Definition character_equip_row (e : MsgEquipData) : row :=
  list_to_map [("equip_id", Num (e_id e)); ("equip_config_id", Num (e_equip_id e)); ("level", Num (e_level e));
    ("equipped", Num (if e_equipped e then 1 else 0)); ("client_save_flag", Num (e_client_save_flag e));
    ("equip_count", Num (e_count e))].

Lemma equip_of_character_equip_row e : equip_of_row (character_equip_row e) = Ret e.
Proof. destruct e as [i c l [|] f n]; reflexivity. Qed.

Lemma rows_of_equips l : rows_of equip_of_row (map character_equip_row l) = Ret l.
Proof. induction l as [|e l IH]; [done|]. cbn [map rows_of]. by rewrite equip_of_character_equip_row, IH. Qed.

Lemma query_text_fits prefix x :
  is_u64 x -> (String.length prefix <= 200)%nat ->
  sprintf 256 (prefix +:+ print_u x +:+ ";") = Ret (prefix +:+ print_u x +:+ ";").
Proof.
  intros Hx Hp. pose proof (length_print_u x Hx). unfold sprintf. rewrite !length_string_app.
  change (String.length ";") with 1%nat.
  destruct (Z.ltb_spec (Z.of_nat (String.length prefix + (String.length (print_u x) + 1))) 256); [done|lia].
Qed.

Lemma sendMessage_run w msg flag gs g :
  0 < gs < 0xff -> m_Games w !! gs = Some g -> sendMessage msg flag gs w = Ret (tt, w, [SendGame g flag msg]).
Proof.
  intros Hgs Hg. unfold sendMessage, INVALID_GATE_ID, MAX_GATE_ID.
  destruct (Z.ltb_spec 0 gs), (Z.ltb_spec gs 0xff); try lia. cbn [andb]. unfold mbind', mget. by rewrite Hg.
Qed.

Definition reloaded_hero (i : MsgHeroData) : MsgHeroData :=
  mk_hero_data (account i) (level i) (c_str (name i)) (action_point i) (diamand i) (gold i) (map reloaded (suits i)).


Definition example_hero : MsgHeroData := mk_hero_data 9 3 "nine" 0 10 100 example_suits.
Definition example_world : world := mk_world {[4 := 70]} {[70 := 4]} false false 0.

Lemma example_game : m_Games example_world !! 4 = Some 70.
Proof. reflexivity. Qed.


(** ** The table of game servers *)

(** Everything the server process can be asked to do. *)
Inductive event : Type :=
| Register (this serverid : Z) (version_ok : bool)
| Request (this flag : Z) (q : request)
| Result (localtime : Z -> tm) (now server_time : Z) (cb : callback) (r : option (list row))
| SaveTimer
| Closed (this : Z).

Definition handle (e : event) : handler unit :=
  match e with
  | Register this serverid ok => parseGameRegister this serverid ok
  | Request this flag q => parseRequest this flag q
  | Result localtime now t cb r => execute localtime now t cb r
  | SaveTimer => onSaveToClose
  | Closed this => on_close this
  end.

(** A connection registers while it is not in the table. *)
Definition allowed (w : world) (e : event) : Prop :=
  match e with Register this _ _ => forall gs, m_Games w !! gs <> Some this | _ => True end.

Inductive step (w w' : world) : Prop :=
| step_handle e o : allowed w e -> handle e w = Ret (tt, w', o) -> step w w'.

Definition start : world := mk_world ∅ ∅ false false 0.

(** Each entry is a connection that has that id. *)
Definition table_ok (w : world) : Prop :=
  forall gs p, m_Games w !! gs = Some p -> game_id_of w p = gs /\ 0 < gs < 0xff.

(** Handlers that leave the table alone. *)
Definition same_table (w0 w : world) : Prop := m_Games w = m_Games w0 /\ m_game_id w = m_game_id w0.

Lemma preserves_from (I : world -> Prop) {A} (m : outcome A) : preserves I (from m).
Proof. destruct m; [apply preserves_ret|apply preserves_ub]. Qed.

Lemma preserves_sendMessage (I : world -> Prop) msg flag gs : preserves I (sendMessage msg flag gs).
Proof.
  unfold sendMessage. case_match; [|apply preserves_ret]. apply preserves_bind; [apply preserves_get|].
  intros w. case_match; [apply preserves_emit|apply preserves_ret].
Qed.

#[local] Hint Resolve preserves_from preserves_sendMessage : inv.

Lemma preserves_saveToClose w0 gs : preserves (same_table w0) (saveToClose gs).
Proof.
  intros w [Hg Hi]. unfold saveToClose. rewrite (mbind_pure mget _ w w) by done.
  destruct (_receive_cose_msg w); [done|].
  set (w1 := mk_world (m_Games w) (m_game_id w) true true (if close_event w then close_gs_id w else gs)).
  rewrite (mbind_run (mput w1) _ w tt w1 []) by done.
  pose proof (preserves_sendMessage (same_table w0) SaveAllHeroesDB2GS 0 gs w1 (conj Hg Hi)) as Hp.
  by destruct (sendMessage _ _ _ w1) as [[[[] w2] o]|].
Qed.

Lemma preserves_queries w0 :
  (forall a t gs, preserves (same_table w0) (queryHeroInfo a t gs)) /\
  (forall t gs acc k, preserves (same_table w0) (verifyToyCDKey t gs acc k)).
Proof. unfold queryHeroInfo, verifyToyCDKey. auto 10 with inv. Qed.

Lemma preserves_request w0 this flag q : preserves (same_table w0) (parseRequest this flag q).
Proof.
  destruct (preserves_queries w0). unfold parseRequest. apply preserves_bind; [apply preserves_get|].
  intros w. destruct q; [done|apply preserves_emit|apply preserves_saveToClose|done].
Qed.

Lemma preserves_execute w0 localtime now t cb r : preserves (same_table w0) (execute localtime now t cb r).
Proof.
  destruct cb; cbn [execute]; unfold dbDoQueryHeroInfo, dbDoQueryHeroEquips, dbDoQuerryHeroToys, dbDoQuerryToyVerify;
    repeat case_match; auto 20 with inv.
Qed.

Lemma game_id_insert w p q n : 
  game_id_of (set_games w (m_Games w) (<[q := n]> (m_game_id w))) p = if decide (p = q) then n else game_id_of w p.
Proof.
  unfold game_id_of. cbn [m_game_id set_games]. case_decide as Hd.
  - subst. by rewrite lookup_insert_eq.
  - by rewrite lookup_insert_ne.
Qed.

Lemma step_table_ok w w' : table_ok w -> step w w' -> table_ok w'.
Proof.
  intros Hw [e o Hal Hrun].
  assert (Hsame : same_table w w' -> table_ok w').
  { intros [Hg Hi] gs p. unfold game_id_of. rewrite Hg, Hi. apply Hw. }
  destruct e as [this serverid ok|this flag q|localtime now t cb r| |this]; cbn [handle allowed] in *.
  - unfold parseGameRegister, addGame, INVALID_GATE_ID, MAX_GATE_ID in Hrun. mstep.
    set (n := u16 serverid) in *. set (w1 := set_games w (m_Games w) (<[this := n]> (m_game_id w))) in *.
    assert (H1 : table_ok w1).
    { intros gs p Hp. unfold w1. rewrite game_id_insert. rewrite decide_False; [by apply Hw|].
      intros ->. by destruct (Hal gs). }
    destruct (Z.ltb_spec 0 n), (Z.ltb_spec n 0xff); cbn [andb] in Hrun; destruct ok; injection Hrun as <- _; try done.
    all: intros gs p; cbn [m_Games set_games w1]; unfold game_id_of; cbn [m_game_id set_games].
    all: destruct (decide (gs = n)) as [->|Hne];
      [rewrite lookup_insert_eq; intros [= <-]; by rewrite lookup_insert_eq
      |rewrite lookup_insert_ne by done; intros Hp; by apply (H1 gs p)].
  - apply Hsame. pose proof (preserves_request w this flag q w (conj eq_refl eq_refl)) as Hp. by rewrite Hrun in Hp.
  - apply Hsame. pose proof (preserves_execute w localtime now t cb r w (conj eq_refl eq_refl)) as Hp. by rewrite Hrun in Hp.
  - injection Hrun as <- _. done.
  - unfold on_close, removeGame in Hrun. mstep.
    destruct ((INVALID_GATE_ID <? game_id_of w this) && (game_id_of w this <? MAX_GATE_ID));
      [case_bool_decide|]; injection Hrun as <- _; try done.
    intros gs p Hp. cbn [m_Games set_games] in Hp. apply lookup_delete_Some in Hp as [_ Hp]. by apply Hw.
Qed.

(** The database server answers the game server that asked.  Whatever
    registrations, requests, query results and closed connections come in, with
    each connection registering only while it is not in the table, every entry
    is a connection that carries the entry's id, a valid one; and once a
    connection has closed, no entry refers to it, so no later answer is sent on
    it. *)
Theorem game_table_sound w :
  rtc step start w ->
  table_ok w /\
  forall this w' o, on_close this w = Ret (tt, w', o) -> forall gs, m_Games w' !! gs <> Some this.
Proof.
  intros Hr.
  assert (Hok : table_ok w).
  { apply (rtc_ind_r (R := step) table_ok start); [intros gs p; cbn [m_Games start]; by rewrite lookup_empty|intros; by eapply step_table_ok|done]. }
  split; [done|]. intros this w' o Hrun gs Hgs. unfold on_close, removeGame, INVALID_GATE_ID, MAX_GATE_ID in Hrun.
  mstep. destruct (Z.ltb_spec 0 (game_id_of w this)), (Z.ltb_spec (game_id_of w this) 0xff); cbn [andb] in Hrun;
    [case_bool_decide as Hd|..]; injection Hrun as <- _; cbn [m_Games set_games] in Hgs;
    try (apply lookup_delete_Some in Hgs as [Hne Hgs]); destruct (Hok _ _ Hgs) as [He Hr']; subst; (done || lia).
Qed.

Lemma registered_step :
  rtc step start (mk_world {[4 := 70]} {[70 := 4]} false false 0).
Proof.
  apply rtc_once, (step_handle _ _ (Register 70 4 true) []); [intros gs; cbn [m_Games start]; by rewrite lookup_empty|reflexivity].
Qed.

Lemma game_table_sound_witness :
  table_ok example_world /\
  forall this w' o, on_close this example_world = Ret (tt, w', o) -> forall gs, m_Games w' !! gs <> Some this.
Proof. exact (game_table_sound example_world registered_step). Defined.

(** ** What the code does not guarantee *)

(** The toys are read with [select *], whose result has no column
    [UNIX_TIMESTAMP(`verify_time`)]: mysql++ throws and the hero is not sent. *)
Lemma toys_cannot_be_loaded r rows d w :
  r !! "UNIX_TIMESTAMP(`verify_time`)" = None ->
  dbDoQuerryHeroToys (Some (r :: rows)) d w = UB "BadFieldName".
Proof.
  intros Hr. unfold dbDoQuerryHeroToys. cbn [rows_of]. unfold toy_of_row at 1, num at 1. by rewrite Hr.
Qed.
