(* ===== verification/GameServer.v ===== *)
(** The sessions of the game server: [gameserver/session.cpp],
    [gate_manager.cpp], [gate_session.cpp] (users that come and go through the
    gates), [DreamHeroManager.cpp] (the heroes), ["db_client .cpp"] (answers of
    the database server) and the stop sequence of [server.cpp]. *)

From Stdlib Require Import Ascii String.
From S2P Require Import Prelude Utilities Text GameData GameWorld DreamHero HeroSave.
From stdpp Require Import prelude gmap strings list.
#[local] Open Scope Z_scope.

Module GameServer.
Import Messages GameWorld DreamHero HeroSave Utilities.

(** *** [DreamHeroManager] *)

(** [GetHero]. *)
Definition GetHero (w : world) (account : Z) : option GameWorld.DreamHero := _heros w !! account.

(** [CreateHero] from the database's answer; [session] is the new owner. *)
Definition CreateHero_db (HeroDataMsg : MsgHeroDataDB2GS) (acc session : Z) : handler unit :=
  w <- mget ;;
  (match GetHero w acc with
   | Some _ => mret' tt
   | None => put_hero acc (set_account (set_info (construct acc) HeroDataMsg) acc)
   end) ;;;
  h <- hero_of acc ;;
  put_hero acc (set_account (set_session h (Some session)) acc).

(** [CreateHero] of a player without a saved hero. *)
Definition CreateHero_new (acc session : Z) : handler unit :=
  w <- mget ;;
  h <-
    (match GetHero w acc with
     | Some h => mret' h
     | None =>
         let '(c, h) := LoadFromConfig (sGameConfig w) (construct acc) in
         mmodify (fun w => set_config w c) ;;;
         mret' h
     end) ;;
  put_hero acc (set_account (set_session h (Some session)) acc).

Definition getToyHero (w : world) (cdkey : string) : Z := default 0 (_toy_cdkey_account w !! cdkey).

Definition save_all_heroes_ok : handler unit := mmodify (fun w => set_save_ok w true).

Section with_clock.
Context (localtime : Z -> tm) (now : Z).

Definition SaveDreamHeroes : handler unit :=
  w <- mget ;;
  mfor (map_walk (_heros w)) (fun p => SaveHero localtime now p.1) ;;;
  memit (SendDB MsgSaveAllHeroesGS2DB 0).

(** *** [GameServer]: the stop sequence *)

Definition setStop : handler unit := SaveDreamHeroes.

(** [checkStop]: the result says whether the server stops. *)
Definition checkStop : handler bool :=
  w <- mget ;;
  if _save_all_heroes_ok w then
    SaveDreamHeroes ;;;
    memit CloseServer ;;;
    mret' true
  else mret' false.

End with_clock.

(** *** [Session] *)

Definition with_state (s : Session) (b : bool) : Session :=
  mk_session (m_tranid s) (m_account s) (m_gate s) b (_dream_hero s).

Definition with_hero (s : Session) (h : option Z) : Session :=
  mk_session (m_tranid s) (m_account s) (m_gate s) (m_state s) h.

Definition set_online (this : Z) (b : bool) : handler unit :=
  h <- hero_of this ;; put_hero this (set_online_field h b).

(** [Memory::createObject<Session>] and the constructor. *)
Definition new_Session (t a gate : Z) : handler Z :=
  w <- mget ;;
  let sid := next_session w in
  mput (set_sessions w (<[sid := mk_session t a gate true None]> (sessions w)) (sid + 1)) ;;;
  (match GetHero w a with
   | Some _ =>
       s <- session_of sid ;;
       put_session sid (with_hero s (Some a)) ;;;
       h <- hero_of a ;;
       put_hero a (set_session h (Some sid)) ;;;
       SendClientInit a
   | None => memit (SendDB (MsgReqHeroDataGS2DB a) t)
   end) ;;;
  mret' sid.

Definition setReconnet (sid : Z) : handler unit :=
  s <- session_of sid ;;
  put_session sid (with_state s true) ;;;
  match _dream_hero s with
  | Some a => set_online a true
  | None => mret' tt
  end.

Definition setWaitReconnet (sid : Z) : handler unit :=
  s <- session_of sid ;;
  put_session sid (with_state s false) ;;;
  match _dream_hero s with
  | Some a => set_online a false
  | None => mub "null DreamHero"
  end.

Definition parseDBQueryNeedCreateHero (sid : Z) : handler unit :=
  s <- session_of sid ;;
  CreateHero_new (m_account s) sid ;;;
  s <- session_of sid ;;
  put_session sid (with_hero s (Some (m_account s))) ;;;
  SendClientInit (m_account s).

Definition praseDBQueryHeroInfo (sid : Z) (HeroDataMsg : MsgHeroDataDB2GS) : handler unit :=
  s <- session_of sid ;;
  CreateHero_db HeroDataMsg (m_account s) sid ;;;
  s <- session_of sid ;;
  put_session sid (with_hero s (Some (m_account s))) ;;;
  SendClientInit (m_account s).

(** The client's requests; only four types are registered, the others go to
    [prasePBDefault], which logs. *)
Inductive c2s : Type :=
| C2SModifySuitNameReq (suit_id : Z) (suit_name : string)
| C2SModifySuitReq (data : MsgSuitData)
| C2SDelSuitReq (suit_id : Z)
| C2SVerifyToyCDKeyReq (cd_key : string)
| S2CEquipLevelUpReq (equip_id : Z)
| OtherReq.

Definition parsePBMessage (sid : Z) (p : c2s) : handler unit :=
  s <- session_of sid ;;
  match _dream_hero s with
  | None => mret' tt
  | Some a =>
      match p with
      | C2SModifySuitNameReq i n => modify_suit a i n
      | C2SModifySuitReq d => ModifySuit a d
      | C2SDelSuitReq i => DelSuit a i
      | C2SVerifyToyCDKeyReq k => VerifyToyCDKey a k
      | S2CEquipLevelUpReq _ | OtherReq => mret' tt
      end
  end.

(** *** [GateManager] *)

Definition getUser (w : world) (tranid : Z) : option Z := m_Onlines w !! tranid.

Definition addUser (tranid accid gate : Z) : handler unit :=
  w <- mget ;;
  match getUser w tranid with
  | None =>
      sid <- new_Session tranid accid gate ;;
      mmodify (fun w => set_onlines w (<[tranid := sid]> (m_Onlines w)))
  | Some sid =>
      s <- session_of sid ;;
      if (m_gate s =? gate) && (m_account s =? accid) then setReconnet sid else mret' tt
  end.

(** [Memory::releaseObject<Session>]. *)
Definition release (sid : Z) : handler unit :=
  _ <- session_of sid ;;
  mmodify (fun w => set_sessions w (delete sid (sessions w)) (next_session w)).

Definition removeUser (tranid : Z) : handler unit :=
  w <- mget ;;
  match getUser w tranid with
  | Some sid => mput (set_onlines w (delete tranid (m_Onlines w))) ;;; release sid
  | None => mret' tt
  end.

Definition offlineUser (tranid : Z) : handler unit :=
  w <- mget ;;
  match getUser w tranid with
  | Some sid => setWaitReconnet sid
  | None => mret' tt
  end.

Definition removeUserByGate (nGateId : Z) : handler unit :=
  w <- mget ;;
  mfor (map_walk (m_Onlines w)) (fun p =>
    s <- session_of p.2 ;;
    if m_gate s =? nGateId then
      release p.2 ;;;
      mmodify (fun w => set_onlines w (delete p.1 (m_Onlines w)))
    else mret' tt).

Definition removeAllUsers : handler unit :=
  w <- mget ;;
  mfor (map_walk (m_Onlines w)) (fun p => release p.2) ;;;
  mmodify (fun w => set_onlines w ∅).

(** [addGate nId pkGate] with a gate connection. *)
Definition addGate (nId pkGate : Z) : handler bool :=
  if (INVALID_GATE_ID <? nId) && (nId <? MAX_GATE_ID) then
    mmodify (fun w => set_gates w (<[nId := pkGate]> (m_Gates w))) ;;;
    mret' true
  else mret' false.

Definition gate_id_of (w : world) (g : Z) : Z := default INVALID_GAME_ID (m_gate_id w !! g).

Definition removeGate (pkGate : Z) : handler unit :=
  w <- mget ;;
  let nId := gate_id_of w pkGate in
  if (INVALID_GATE_ID <? nId) && (nId <? MAX_GATE_ID) then
    if bool_decide (m_Gates w !! nId = Some pkGate) then
      removeUserByGate nId ;;;
      mmodify (fun w => set_gates w (delete nId (m_Gates w)))
    else mret' tt
  else mret' tt.

(** *** [GateSession] *)

Definition parseAddUser (this transid account : Z) : handler unit :=
  w <- mget ;; addUser transid account (gate_id_of w this).

Definition parseUserMsg (flag : Z) (p : c2s) : handler unit :=
  w <- mget ;;
  match getUser w flag with
  | Some sid => parsePBMessage sid p
  | None => mret' tt
  end.

(** [parseGateRegister]; a gate of a wrong version is closed and added. *)
Definition parseGateRegister (this serverid own_id : Z) (version_ok : bool) : handler unit :=
  mmodify (fun w => set_gate_ids w (<[this := u16 serverid]> (m_gate_id w))) ;;;
  (if version_ok then mret' tt else memit (CloseGate this)) ;;;
  _ <- addGate (u16 serverid) this ;;
  memit (SendGateRegister this own_id).

(** *** [GameDBClient] *)

Definition with_user (flag : Z) (f : Z -> handler unit) : handler unit :=
  w <- mget ;;
  match getUser w flag with
  | Some sid => f sid
  | None => mret' tt
  end.

Definition parseNeedCreateHero (flag : Z) : handler unit := with_user flag parseDBQueryNeedCreateHero.

Definition parseQueryHeroInfo (flag : Z) (msg : MsgHeroDataDB2GS) : handler unit :=
  with_user flag (fun sid => praseDBQueryHeroInfo sid msg).

Definition parseMsgVerifyToy (flag : Z) (t : MsgToyData) (account : Z) : handler unit :=
  with_user flag (fun sid =>
    s <- session_of sid ;;
    match _dream_hero s with
    | Some a => VerifyToy a t account
    | None => mret' tt
    end).

Definition MsgVerifyToyError (flag : Z) (cdkey : string) (error : HeroErrorCode) : handler unit :=
  with_user flag (fun sid =>
    s <- session_of sid ;;
    match _dream_hero s with
    | Some a => VerifyToyError a cdkey error
    | None => mub "null DreamHero"
    end).

(** *** Everything the process is asked to do *)

Inductive event : Type :=
| GateRegister (this serverid own_id : Z) (version_ok : bool)
| GateClosed (this : Z)
| AddUser (this transid account : Z)
| RemoveUser (trans : Z)
| OfflineUser (trans : Z)
| UserMsg (flag : Z) (p : c2s)
| DbNeedCreate (flag : Z)
| DbHeroInfo (flag : Z) (msg : MsgHeroDataDB2GS)
| DbVerifyToy (flag : Z) (t : MsgToyData) (account : Z)
| DbVerifyToyError (flag : Z) (cdkey : string) (error : HeroErrorCode)
| DbSaveAllHeroes
| SaveTimer (account : Z)
| Stop.

Section handlers.
Context (localtime : Z -> tm) (now : Z).

(** [SaveTimer]: the event manager runs [SaveHero] of a hero that has the event. *)
Definition handle (e : event) : handler unit :=
  match e with
  | GateRegister this serverid own_id ok => parseGateRegister this serverid own_id ok
  | GateClosed this => removeGate this
  | AddUser this transid account => parseAddUser this transid account
  | RemoveUser trans => removeUser trans
  | OfflineUser trans => offlineUser trans
  | UserMsg flag p => parseUserMsg flag p
  | DbNeedCreate flag => parseNeedCreateHero flag
  | DbHeroInfo flag msg => parseQueryHeroInfo flag msg
  | DbVerifyToy flag t account => parseMsgVerifyToy flag t account
  | DbVerifyToyError flag cdkey error => MsgVerifyToyError flag cdkey error
  | DbSaveAllHeroes => save_all_heroes_ok
  | SaveTimer account =>
      w <- mget ;;
      match _heros w !! account with
      | Some h => if save_event h then SaveHero localtime now account else mret' tt
      | None => mret' tt
      end
  | Stop => setStop localtime now
  end.

End handlers.

End GameServer.

Import Messages GameWorld DreamHero HeroSave GameServer Utilities.

(** ** Runs taken apart *)

Lemma hero_of_inv this w h w1 o : hero_of this w = Ret (h, w1, o) -> w1 = w /\ _heros w !! this = Some h.
Proof. unfold hero_of, mbind', mget. destruct (_heros w !! this) eqn:Hh; [|done]. intros [= <- <- _]. done. Qed.

Lemma session_of_inv sid w s w1 o : session_of sid w = Ret (s, w1, o) -> w1 = w /\ sessions w !! sid = Some s.
Proof. unfold session_of, mbind', mget. destruct (sessions w !! sid) eqn:Hs; [|done]. intros [= <- <- _]. done. Qed.

(** Split the run in hypothesis [H] at its first bind, naming the parts. *)
Ltac binv H a w1 H1 :=
  let o1 := fresh "o1" in let o2 := fresh "o2" in
  apply bind_inv in H as (a & w1 & o1 & o2 & H1 & H & ->).

(** The same where the first part only reads. *)
Ltac binv_get H := let w1 := fresh "w1" in let a := fresh "a" in let H1 := fresh "H1" in
  binv H a w1 H1; injection H1 as <- <- _.
Ltac binv_hero H h Hh := let w1 := fresh "w1" in
  binv H h w1 Hh; apply hero_of_inv in Hh as [-> Hh].
Ltac binv_session H s Hs := let w1 := fresh "w1" in
  binv H s w1 Hs; apply session_of_inv in Hs as [-> Hs].

(** Operations that do not change the world. *)
Definition reads {A} (m : handler A) : Prop := forall w a w' o, m w = Ret (a, w', o) -> w' = w.

Lemma reads_bind {A B} (m : handler A) (k : A -> handler B) : reads m -> (forall a, reads (k a)) -> reads (mbind' m k).
Proof. intros Hm Hk w b w' o H. binv H a w1 H1. apply Hm in H1 as ->. by eapply Hk. Qed.

Lemma reads_ret {A} (a : A) : reads (mret' a).
Proof. intros w b w' o [= _ <- _]. done. Qed.

Lemma reads_get : reads mget.
Proof. intros w b w' o [= _ <- _]. done. Qed.

Lemma reads_emit e : reads (memit e).
Proof. intros w b w' o [= _ <- _]. done. Qed.

Lemma reads_ub {A} why : reads (mub (A:=A) why).
Proof. intros w b w' o H. discriminate. Qed.

Lemma reads_for {A} (l : list A) f : (forall x, reads (f x)) -> reads (mfor l f).
Proof. intros Hf. induction l as [|x l IH]; [apply reads_ret|]. apply reads_bind; auto. Qed.

Lemma reads_hero_of this : reads (hero_of this).
Proof. intros w h w' o H. by apply hero_of_inv in H as [-> _]. Qed.

Lemma reads_session_of sid : reads (session_of sid).
Proof. intros w h w' o H. by apply session_of_inv in H as [-> _]. Qed.

Lemma reads_lift {A} (m : outcome A) : reads (lift m).
Proof. destruct m; [apply reads_ret|apply reads_ub]. Qed.

Create HintDb reads.
#[export] Hint Resolve reads_bind reads_ret reads_get reads_emit reads_ub reads_for reads_hero_of
  reads_session_of reads_lift : reads.

(** Solve [reads m] by the structure of [m]. *)
Ltac reads_tac :=
  first [ solve [eauto with reads nocore]
        | apply reads_bind; [reads_tac | intros ?; reads_tac]
        | case_match; reads_tac ].

Lemma reads_sendMessage msg flag g : reads (GateManager_sendMessage msg flag g).
Proof. unfold GateManager_sendMessage. reads_tac. Qed.
#[export] Hint Resolve reads_sendMessage : reads.

Lemma reads_send this msg : reads (DreamHero_sendPBMessage this msg).
Proof. unfold DreamHero_sendPBMessage, Session_sendPBMessage. reads_tac. Qed.

Lemma reads_sendDB this msg : reads (DreamHero_sendDB this msg).
Proof. unfold DreamHero_sendDB. reads_tac. Qed.
#[export] Hint Resolve reads_send reads_sendDB : reads.

Lemma reads_equip_loop this l n c ce m : reads (equip_loop this l n c ce m).
Proof.
  revert c ce m. induction l as [|e l IH]; intros c ce m; cbn [equip_loop]; [reads_tac|].
  apply reads_bind; [reads_tac|intros _; apply IH].
Qed.

Lemma reads_batch_loop {A} this (row : A -> outcome string) head n clear l c sql :
  reads (batch_loop this row head n clear l c sql).
Proof.
  revert c sql. induction l as [|x l IH]; intros c sql; cbn [batch_loop]; [reads_tac|].
  apply reads_bind; [reads_tac|intros _]. apply reads_bind; [reads_tac|intros ?; apply IH].
Qed.
#[export] Hint Resolve reads_equip_loop reads_batch_loop : reads.

Lemma reads_SaveHero localtime now this : reads (SaveHero localtime now this).
Proof.
  unfold SaveHero, send_rest. reads_tac.
Qed.
#[export] Hint Resolve reads_SaveHero : reads.

(** ** Operations on a hero *)

Definition ident (h : GameWorld.DreamHero) : Z * Z * option Z := (_account h, account (_info h), _session h).

(** [w'] differs from [w] in heroes' contents and toy owners only: the same
    heroes exist, with the same accounts and session pointers. *)
Record heros_only (w w' : world) : Prop := {
  ho_sessions : sessions w' = sessions w;
  ho_next : next_session w' = next_session w;
  ho_onlines : m_Onlines w' = m_Onlines w;
  ho_gates : m_Gates w' = m_Gates w;
  ho_gate_id : m_gate_id w' = m_gate_id w;
  ho_heros : forall a, ident <$> _heros w' !! a = ident <$> _heros w !! a
}.

#[global] Instance heros_only_preorder : PreOrder heros_only.
Proof.
  split.
  - intros w. by constructor.
  - intros w1 w2 w3 [] []. constructor; congruence.
Qed.

Lemma put_hero_keeps w a h h' u w' o :
  _heros w !! a = Some h -> ident h' = ident h -> put_hero a h' w = Ret (u, w', o) -> heros_only w w'.
Proof.
  intros Hh Hi [= _ <- _]. constructor; try done. intros b. cbn [_heros set_heros].
  destruct (decide (b = a)) as [->|Hne]; [rewrite lookup_insert_eq, Hh; cbn; by rewrite Hi|].
  by rewrite lookup_insert_ne.
Qed.

Lemma put_then_read {A} w a h h' (m : handler A) b w' o :
  _heros w !! a = Some h -> ident h' = ident h -> reads m ->
  (put_hero a h' ;;; m) w = Ret (b, w', o) -> heros_only w w'.
Proof.
  intros Hh Hi Hm H. binv H u w1 H1. apply Hm in H as ->. by eapply put_hero_keeps.
Qed.

Lemma reads_keeps {A} (m : handler A) w a w' o : reads m -> m w = Ret (a, w', o) -> heros_only w w'.
Proof. intros Hm H. apply Hm in H as ->. reflexivity. Qed.

Lemma RemoveToyByCDKey_keeps this k w u w' o : RemoveToyByCDKey this k w = Ret (u, w', o) -> heros_only w w'.
Proof. unfold RemoveToyByCDKey. intros H. binv_hero H h Hh. eapply put_hero_keeps; [exact Hh| |exact H]; reflexivity. Qed.

Lemma set_online_keeps this b w u w' o : set_online this b w = Ret (u, w', o) -> heros_only w w'.
Proof. unfold set_online. intros H. binv_hero H h Hh. eapply put_hero_keeps; [exact Hh| |exact H]; reflexivity. Qed.

Lemma StartSave_keeps this w u w' o : StartSave this w = Ret (u, w', o) -> heros_only w w'.
Proof.
  unfold StartSave. intros H. binv_hero H h Hh. destruct (save_event h); [by injection H as _ <- _|].
  eapply put_hero_keeps; [exact Hh| |exact H]; reflexivity.
Qed.

Lemma SendClientInit_keeps this w u w' o : SendClientInit this w = Ret (u, w', o) -> heros_only w w'.
Proof.
  unfold SendClientInit. intros H. binv H u1 w1 H1. apply StartSave_keeps in H1. rewrite H1. clear H1.
  binv_hero H h Hh. binv H m w2 H2. apply reads_equip_loop in H2 as ->.
  binv H u2 w3 H3. apply (reads_keeps _ w1 u2 w3 _) in H3; [|reads_tac].
  binv H u3 w4 H4. apply reads_send in H4 as ->. binv H u4 w5 H5. apply reads_send in H5 as ->.
  rewrite H3. exact (set_online_keeps _ _ _ _ _ _ H).
Qed.

Lemma VerifyToy_keeps this t owner w u w' o : VerifyToy this t owner w = Ret (u, w', o) -> heros_only w w'.
Proof.
  unfold VerifyToy. intros H. binv_get H. binv_hero H h Hh. binv H u1 w1 H1.
  assert (Hk : heros_only w w1).
  { destruct (_heros w !! owner); [|by injection H1 as _ <- _]. binv H1 u2 w2 H2.
    apply RemoveToyByCDKey_keeps in H2. rewrite H2. injection H1 as _ <- _. by constructor. }
  rewrite Hk. binv_hero H h1 Hh1. destruct (_hero_toys h1 !! _); [by injection H as _ <- _|].
  eapply put_then_read; [exact Hh1| |apply reads_send|exact H]; reflexivity.
Qed.

(** No request of a client changes more than heroes' contents. *)
Lemma parsePBMessage_keeps sid p w u w' o : parsePBMessage sid p w = Ret (u, w', o) -> heros_only w w'.
Proof.
  unfold parsePBMessage. intros H. binv_session H s Hs.
  destruct (_dream_hero s) as [a|]; [|by injection H as _ <- _].
  destruct p as [i n|d|i|k|i|]; try (injection H as _ <- _; reflexivity).
  - unfold modify_suit in H. binv_hero H h Hh. destruct (rename_loop _ _ _).
    + eapply put_then_read; [exact Hh| |apply reads_send|exact H]; reflexivity.
    + by apply reads_send in H as ->.
  - unfold ModifySuit in H. binv_hero H h Hh. destruct (modify_loop _ _) as [l m].
    eapply put_then_read; [exact Hh| |apply reads_send|exact H]; reflexivity.
  - unfold DelSuit in H. binv_hero H h Hh. destruct (del_loop _ _ _ _ _) as [[l e]|]; [|discriminate].
    eapply put_then_read; [exact Hh| |apply reads_send|exact H]; reflexivity.
  - unfold VerifyToyCDKey in H. binv_hero H h Hh. destruct (_hero_toys h !! _);
      [by apply reads_send in H as ->|by apply reads_sendDB in H as ->].
Qed.

(** ** The invariant of the session tables *)

Record world_ok (w : world) : Prop := {
  online_session : forall t sid, m_Onlines w !! t = Some sid ->
    exists s, sessions w !! sid = Some s /\ m_tranid s = t;
  session_online : forall sid s, sessions w !! sid = Some s -> m_Onlines w !! m_tranid s = Some sid;
  session_fresh : forall sid s, sessions w !! sid = Some s -> sid < next_session w;
  session_hero : forall sid s a, sessions w !! sid = Some s -> _dream_hero s = Some a ->
    a = m_account s /\ is_Some (_heros w !! a);
  hero_account : forall a h, _heros w !! a = Some h -> _account h = a /\ account (_info h) = a;
  hero_fresh : forall a h sid, _heros w !! a = Some h -> _session h = Some sid -> sid < next_session w;
  hero_session : forall a h sid s, _heros w !! a = Some h -> _session h = Some sid ->
    sessions w !! sid = Some s -> m_account s = a
}.

Lemma heros_only_back w w' a h' :
  heros_only w w' -> _heros w' !! a = Some h' -> exists h, _heros w !! a = Some h /\ ident h' = ident h.
Proof.
  intros Hk Hh. pose proof (ho_heros _ _ Hk a) as He. rewrite Hh in He.
  destruct (_heros w !! a) as [h|]; [|done]. cbn in He. injection He as He. exists h. split; [done|].
  unfold ident. congruence.
Qed.

Lemma heros_only_dom w w' a : heros_only w w' -> is_Some (_heros w !! a) -> is_Some (_heros w' !! a).
Proof.
  intros Hk [h Hh]. pose proof (ho_heros _ _ Hk a) as He. rewrite Hh in He.
  destruct (_heros w' !! a); [eauto|done].
Qed.

Lemma world_ok_keeps w w' : world_ok w -> heros_only w w' -> world_ok w'.
Proof.
  intros [] Hk. constructor; rewrite ?(ho_sessions _ _ Hk), ?(ho_onlines _ _ Hk), ?(ho_next _ _ Hk); try done.
  - intros sid s a Hs Ha. edestruct session_hero0; eauto using heros_only_dom.
  - intros a h Hh. destruct (heros_only_back _ _ _ _ Hk Hh) as (h0 & Hh0 & [= -> -> _]). eauto.
  - intros a h sid Hh Hs. destruct (heros_only_back _ _ _ _ Hk Hh) as (h0 & Hh0 & [= _ _ He]). rewrite He in Hs. eauto.
  - intros a h sid s Hh Hs. destruct (heros_only_back _ _ _ _ Hk Hh) as (h0 & Hh0 & [= _ _ He]). rewrite He in Hs. eauto.
Qed.

(** A session object changed in place, its transaction and account kept. *)
Lemma put_session_ok w sid s s' :
  world_ok w -> sessions w !! sid = Some s -> m_tranid s' = m_tranid s -> m_account s' = m_account s ->
  (forall a, _dream_hero s' = Some a -> a = m_account s /\ is_Some (_heros w !! a)) ->
  world_ok (set_sessions w (<[sid := s']> (sessions w)) (next_session w)).
Proof.
  intros Hw Hs Ht Ha Hd. destruct Hw. constructor; cbn; try done.
  - intros t sid' Ho. destruct (online_session0 _ _ Ho) as (s0 & Hs0 & <-).
    destruct (decide (sid' = sid)) as [->|Hne].
    + exists s'. rewrite lookup_insert_eq. split; [done|]. congruence.
    + exists s0. by rewrite lookup_insert_ne.
  - intros sid' s0 [[<- <-]|[Hne H0]]%lookup_insert_Some; [rewrite Ht|]; eauto.
  - intros sid' s0 [[<- <-]|[Hne H0]]%lookup_insert_Some; eauto.
  - intros sid' s0 a [[<- <-]|[Hne H0]]%lookup_insert_Some; [rewrite Ha|]; eauto.
  - intros a h sid' s0 Hh Hsid [[<- <-]|[Hne H0]]%lookup_insert_Some; [rewrite Ha|]; eauto.
Qed.

(** The account's hero, made or found, now belongs to session [sid]. *)
Record gets_hero (w w' : world) (acc sid : Z) : Prop := {
  gh_sessions : sessions w' = sessions w;
  gh_next : next_session w' = next_session w;
  gh_onlines : m_Onlines w' = m_Onlines w;
  gh_hero : exists h, _heros w' = <[acc := h]> (_heros w) /\ ident h = (acc, acc, Some sid)
}.

Lemma CreateHero_db_gets msg acc sid w u w' o :
  CreateHero_db msg acc sid w = Ret (u, w', o) -> gets_hero w w' acc sid.
Proof.
  unfold CreateHero_db, GetHero. intros H. binv_get H. binv H u1 w1 H1. binv_hero H h Hh.
  injection H as _ <- _.
  assert (Hw1 : sessions w1 = sessions w /\ next_session w1 = next_session w /\ m_Onlines w1 = m_Onlines w /\
    exists m, _heros w1 = m /\ forall x, <[acc := x]> m = <[acc := x]> (_heros w)).
  { destruct (_heros w !! acc); injection H1 as _ <- _; cbn; split_and!; eauto.
    eexists. split; [done|]. intros x. by rewrite insert_insert_eq. }
  destruct Hw1 as (? & ? & ? & m & Hm & Hins). constructor; cbn; try done.
  eexists. rewrite Hm, Hins. split; [done|]. done.
Qed.

Lemma CreateHero_new_gets acc sid w u w' o :
  CreateHero_new acc sid w = Ret (u, w', o) -> gets_hero w w' acc sid.
Proof.
  unfold CreateHero_new, GetHero. intros H. binv_get H. binv H h w1 H1. injection H as _ <- _.
  assert (Hw1 : sessions w1 = sessions w /\ next_session w1 = next_session w /\ m_Onlines w1 = m_Onlines w /\
    _heros w1 = _heros w).
  { destruct (_heros w !! acc); [by injection H1 as _ <- _|].
    destruct (LoadFromConfig _ _) as [c h0]. binv H1 u2 w2 H2. injection H2 as _ <- _. by injection H1 as _ <- _. }
  destruct Hw1 as (? & ? & ? & Hm). constructor; cbn; try done. eexists. rewrite Hm. done.
Qed.

Lemma gets_hero_ok w w' acc sid s :
  world_ok w -> sessions w !! sid = Some s -> m_account s = acc -> gets_hero w w' acc sid -> world_ok w'.
Proof.
  intros [] Hs Hacc [Hse Hn Ho (h & Hh & Hid)]. injection Hid as Hi1 Hi2 Hi3.
  constructor; rewrite ?Hse, ?Ho, ?Hn, ?Hh; try done.
  - intros sid' s0 a H0 Ha. destruct (session_hero0 _ _ _ H0 Ha). split; [done|].
    destruct (decide (a = acc)) as [->|]; [rewrite lookup_insert_eq; eauto|by rewrite lookup_insert_ne].
  - intros a h0 [[<- <-]|[Hne H0]]%lookup_insert_Some; eauto.
  - intros a h0 sid' [[<- <-]|[Hne H0]]%lookup_insert_Some Hsid; [|eauto]. assert (sid' = sid) as -> by congruence. eauto.
  - intros a h0 sid' s0 [[<- <-]|[Hne H0]]%lookup_insert_Some Hsid Hs0; [|eauto].
    assert (sid' = sid) as -> by congruence. congruence.
Qed.

(** The end of both answers of the database: the session points to the hero and
    the client is initialised. *)
Lemma adopt_ok w w1 sid s u w' o :
  world_ok w -> sessions w !! sid = Some s -> gets_hero w w1 (m_account s) sid ->
  (s' <- session_of sid ;;
   put_session sid (with_hero s' (Some (m_account s'))) ;;;
   SendClientInit (m_account s')) w1 = Ret (u, w', o) -> world_ok w'.
Proof.
  intros Hw Hs Hg H. pose proof (gets_hero_ok _ _ _ _ _ Hw Hs eq_refl Hg) as Hw1.
  binv_session H s' Hs'. binv H u1 w2 H2. injection H2 as _ <- _. apply SendClientInit_keeps in H.
  eapply world_ok_keeps; [|exact H]. eapply put_session_ok; [exact Hw1|exact Hs'|done|done|].
  intros a [= <-]. split; [done|]. destruct Hg as [Hse _ _ (h & -> & _)].
  rewrite Hse, Hs in Hs'. injection Hs' as <-. rewrite lookup_insert_eq. eauto.
Qed.

Lemma parseDBQueryNeedCreateHero_ok sid w u w' o :
  world_ok w -> parseDBQueryNeedCreateHero sid w = Ret (u, w', o) -> world_ok w'.
Proof.
  unfold parseDBQueryNeedCreateHero. intros Hw H. binv_session H s Hs. binv H u1 w1 H1.
  apply CreateHero_new_gets in H1. exact (adopt_ok _ _ _ _ _ _ _ Hw Hs H1 H).
Qed.

Lemma praseDBQueryHeroInfo_ok sid msg w u w' o :
  world_ok w -> praseDBQueryHeroInfo sid msg w = Ret (u, w', o) -> world_ok w'.
Proof.
  unfold praseDBQueryHeroInfo. intros Hw H. binv_session H s Hs. binv H u1 w1 H1.
  apply CreateHero_db_gets in H1. exact (adopt_ok _ _ _ _ _ _ _ Hw Hs H1 H).
Qed.

(** Going online or offline changes one flag of the session and the hero. *)
Lemma set_state_ok sid b (other : handler unit) w u w' o :
  world_ok w ->
  (forall w1 u1 w2 o2, other w1 = Ret (u1, w2, o2) -> heros_only w1 w2) ->
  (s <- session_of sid ;;
   put_session sid (with_state s b) ;;;
   match _dream_hero s with Some a => set_online a b | None => other end) w = Ret (u, w', o) ->
  world_ok w'.
Proof.
  intros Hw Hother H. binv_session H s Hs. binv H u1 w1 H1. injection H1 as _ <- _.
  assert (Hk : heros_only (set_sessions w (<[sid := with_state s b]> (sessions w)) (next_session w)) w').
  { destruct (_dream_hero s); [by eapply set_online_keeps|by eapply Hother]. }
  eapply world_ok_keeps; [|exact Hk]. eapply put_session_ok; [exact Hw|exact Hs|done|done|].
  intros a Ha. exact (session_hero _ Hw sid s a Hs Ha).
Qed.

Lemma setReconnet_ok sid w u w' o : world_ok w -> setReconnet sid w = Ret (u, w', o) -> world_ok w'.
Proof. intros Hw H. eapply set_state_ok; [exact Hw| |exact H]. intros w1 u1 w2 o2 [= _ <- _]. reflexivity. Qed.

Lemma setWaitReconnet_ok sid w u w' o : world_ok w -> setWaitReconnet sid w = Ret (u, w', o) -> world_ok w'.
Proof. intros Hw H. eapply set_state_ok; [exact Hw| |exact H]. discriminate. Qed.

(** A fresh session, registered under a transaction id that is free. *)
Lemma fresh_session_ok w t a gate hero :
  world_ok w -> m_Onlines w !! t = None -> (forall b, hero = Some b -> b = a /\ is_Some (_heros w !! b)) ->
  world_ok (set_onlines
    (set_sessions w (<[next_session w := mk_session t a gate true hero]> (sessions w)) (next_session w + 1))
    (<[t := next_session w]> (m_Onlines w))).
Proof.
  intros Hw Ht Hhero. destruct Hw. set (sid := next_session w) in *.
  assert (Hnone : sessions w !! sid = None).
  { destruct (sessions w !! sid) as [s|] eqn:Hs; [|done]. apply session_fresh0 in Hs. unfold sid in Hs. lia. }
  constructor; cbn.
  - intros t' sid' [[<- <-]|[Hne Ho]]%lookup_insert_Some.
    + eexists. by rewrite lookup_insert_eq.
    + destruct (online_session0 _ _ Ho) as (s & Hs & <-). exists s. rewrite lookup_insert_ne; [done|]. congruence.
  - intros sid' s [[<- <-]|[Hne Hs]]%lookup_insert_Some; cbn; [by rewrite lookup_insert_eq|].
    rewrite lookup_insert_ne; [eauto|]. intros ->. apply session_online0 in Hs. congruence.
  - intros sid' s [[<- <-]|[Hne Hs]]%lookup_insert_Some; [lia|]. apply session_fresh0 in Hs. unfold sid. lia.
  - intros sid' s b [[<- <-]|[Hne Hs]]%lookup_insert_Some Hb; [by apply Hhero|eauto].
  - done.
  - intros b h sid' Hh Hsid. pose proof (hero_fresh0 _ _ _ Hh Hsid). unfold sid. lia.
  - intros b h sid' s Hh Hsid [[<- <-]|[Hne Hs]]%lookup_insert_Some; [|eauto].
    pose proof (hero_fresh0 _ _ _ Hh Hsid). unfold sid in *. lia.
Qed.

Lemma addUser_ok t a gate w u w' o : world_ok w -> addUser t a gate w = Ret (u, w', o) -> world_ok w'.
Proof.
  intros Hw H. unfold addUser, getUser in H. binv_get H.
  destruct (m_Onlines w !! t) as [sid|] eqn:Ht.
  { binv_session H s Hs. destruct (_ && _); [by eapply setReconnet_ok|by injection H as _ <- _]. }
  binv H sid w1 H1. injection H as _ <- _. unfold new_Session, GetHero in H1. binv_get H1.
  binv H1 u2 w2 H2. injection H2 as _ <- _. binv H1 u3 w3 H3. injection H1 as <- <- _.
  set (sid := next_session w) in *. destruct (_heros w !! a) as [h|] eqn:Hh.
  - binv_session H3 s Hs. cbn in Hs. rewrite lookup_insert_eq in Hs. injection Hs as <-.
    binv H3 u4 w4 H4. injection H4 as _ <- _. binv_hero H3 h' Hh'. cbn in Hh'. rewrite Hh in Hh'. injection Hh' as <-.
    binv H3 u5 w5 H5. injection H5 as _ <- _. apply SendClientInit_keeps in H3.
    assert (Hbase : world_ok (set_onlines
      (set_sessions w (<[sid := mk_session t a gate true (Some a)]> (sessions w)) (sid + 1)) (<[t := sid]> (m_Onlines w)))).
    { apply fresh_session_ok; [done|done|]. intros b [= <-]. eauto. }
    eapply world_ok_keeps.
    + eapply (gets_hero_ok _ (set_onlines (set_heros (set_sessions w (<[sid := mk_session t a gate true (Some a)]> (sessions w))
        (sid + 1)) (<[a := set_session h (Some sid)]> (_heros w))) (<[t := sid]> (m_Onlines w))) a sid
        (mk_session t a gate true (Some a)) Hbase); [cbn; by rewrite lookup_insert_eq|done|].
      constructor; cbn; try done. eexists. split; [done|]. unfold ident. cbn.
      destruct (hero_account _ Hw _ _ Hh) as [-> ->]. done.
    + destruct H3 as [? ? Ho ? ? ?]. cbn in *. rewrite insert_insert_eq in *. constructor; cbn; try done. by rewrite Ho.
  - injection H3 as _ <- _. by apply (fresh_session_ok w).
Qed.

(** Releasing an online session. *)
Lemma release_ok w t sid :
  world_ok w -> m_Onlines w !! t = Some sid ->
  world_ok (set_sessions (set_onlines w (delete t (m_Onlines w))) (delete sid (sessions w)) (next_session w)).
Proof.
  intros Hw Ht. destruct (online_session _ Hw _ _ Ht) as (s & Hs & Hst). destruct Hw.
  constructor; cbn; try done.
  - intros t' sid' [Hne Ho]%lookup_delete_Some. destruct (online_session0 _ _ Ho) as (s' & Hs' & <-).
    exists s'. split; [|done]. apply lookup_delete_Some. split; [|done]. intros <-. congruence.
  - intros sid' s' [Hne Hs']%lookup_delete_Some. apply lookup_delete_Some. split; [|eauto].
    intros ->. apply session_online0 in Hs'. congruence.
  - intros sid' s' [Hne Hs']%lookup_delete_Some. eauto.
  - intros sid' s' a [Hne Hs']%lookup_delete_Some. eauto.
  - intros a h sid' s' Hh Hsid [Hne Hs']%lookup_delete_Some. eauto.
Qed.

Lemma removeUser_ok t w u w' o : world_ok w -> removeUser t w = Ret (u, w', o) -> world_ok w'.
Proof.
  unfold removeUser, getUser, release. intros Hw H. binv_get H.
  destruct (m_Onlines w !! t) as [sid|] eqn:Ht; [|by injection H as _ <- _].
  binv H u1 w1 H1. injection H1 as _ <- _. binv_session H s Hs. injection H as _ <- _. by eapply release_ok.
Qed.

(** One turn of the loop of [removeUserByGate]. *)
Definition remove_if (n : Z) (p : Z * Z) : handler unit :=
  s <- session_of p.2 ;;
  if m_gate s =? n then
    release p.2 ;;;
    mmodify (fun w => set_onlines w (delete p.1 (m_Onlines w)))
  else mret' tt.

(** What the two loops leave alone. *)
Definition same_heros (w w' : world) : Prop :=
  _heros w' = _heros w /\ m_Gates w' = m_Gates w /\ m_gate_id w' = m_gate_id w /\ sGameConfig w' = sGameConfig w.

Lemma remove_loop_run n l w :
  world_ok w -> NoDup l.*1 -> (forall p, p ∈ l -> m_Onlines w !! p.1 = Some p.2) ->
  exists w', mfor l (remove_if n) w = Ret (tt, w', []) /\ world_ok w' /\ same_heros w w' /\
    (forall sid s, sessions w' !! sid = Some s <-> sessions w !! sid = Some s /\ ~ (m_gate s = n /\ sid ∈ l.*2)).
Proof.
  revert w. induction l as [|[t sid] l IH]; intros w Hw Hnd Hl.
  { exists w. split_and!; try done. intros sid s. split; [|tauto]. intros Hs. split; [done|].
    intros [_ Hin]. inversion Hin. }
  cbn [fmap list_fmap fst] in Hnd. apply NoDup_cons in Hnd as [Hnot Hnd].
  pose proof (Hl (t, sid) ltac:(apply list_elem_of_here)) as Ht. cbn in Ht.
  destruct (online_session _ Hw _ _ Ht) as (s & Hs & Hst).
  assert (Hstep : exists w1, remove_if n (t, sid) w = Ret (tt, w1, []) /\ world_ok w1 /\ same_heros w w1 /\
    (forall t', t' <> t -> m_Onlines w1 !! t' = m_Onlines w !! t') /\
    (forall sid' s', sessions w1 !! sid' = Some s' <-> sessions w !! sid' = Some s' /\ ~ (m_gate s' = n /\ sid' = sid))).
  { assert (Hof : session_of sid w = Ret (s, w, [])) by (unfold session_of, mbind', mget; by rewrite Hs).
    unfold remove_if, release. cbn [fst snd]. rewrite (mbind_pure _ _ _ _ Hof).
    destruct (Z.eqb_spec (m_gate s) n) as [Hn|Hn].
    - exists (set_onlines (set_sessions w (delete sid (sessions w)) (next_session w)) (delete t (m_Onlines w))).
      split_and!; [| |done| |].
      + rewrite mbind_assoc, (mbind_pure _ _ _ _ Hof). done.
      + by apply (release_ok w t sid).
      + intros t' Hne. cbn. by rewrite lookup_delete_ne.
      + intros sid' s'. cbn. rewrite lookup_delete_Some. split.
        * intros [Hne Hs']. split; [done|]. intros [_ ->]. done.
        * intros [Hs' Hno]. split; [|done]. intros <-. apply Hno. split; [congruence|done].
    - exists w. split_and!; try done. intros sid' s'. split; [|tauto]. intros Hs'. split; [done|].
      intros [Hg ->]. congruence. }
  destruct Hstep as (w1 & Hrun & Hw1 & (He1 & He2 & He3 & He4) & Hon & Hse).
  destruct (IH w1 Hw1 Hnd) as (w2 & Hrun2 & Hw2 & (Hf1 & Hf2 & Hf3 & Hf4) & Hse2).
  { intros p Hp. rewrite Hon; [apply Hl; by apply list_elem_of_further|]. intros He. apply Hnot.
    rewrite <- He. by apply list_elem_of_fmap_2. }
  exists w2. split_and!; [|done|unfold same_heros; split_and!; congruence|].
  - cbn [mfor]. rewrite (mbind_run _ _ _ _ _ _ Hrun). by rewrite Hrun2.
  - intros sid' s'. rewrite Hse2, Hse. cbn [fmap list_fmap snd]. rewrite elem_of_cons. tauto.
Qed.

Lemma map_walk_keys {A} (m : gmap Z A) : NoDup (map_walk m).*1.
Proof. rewrite map_walk_perm. apply NoDup_fst_map_to_list. Qed.

(** [removeUserByGate] ends without an error and keeps exactly the sessions of
    other gates. *)
Lemma removeUserByGate_run n w :
  world_ok w ->
  exists w', removeUserByGate n w = Ret (tt, w', []) /\ world_ok w' /\ same_heros w w' /\
    (forall sid s, sessions w' !! sid = Some s <-> sessions w !! sid = Some s /\ m_gate s <> n).
Proof.
  intros Hw.
  destruct (remove_loop_run n (map_walk (m_Onlines w)) w Hw (map_walk_keys _)) as (w' & Hrun & Hw' & Hsame & Hse).
  { intros [t sid] Hp. by apply elem_of_map_walk in Hp. }
  exists w'. split_and!; [|done|done|].
  - unfold removeUserByGate. by rewrite (mbind_pure mget _ w w).
  - intros sid s. rewrite Hse. split; intros [Hs Hno]; (split; [done|]); intros Hg; apply Hno; [|by destruct Hg].
    split; [done|]. apply (list_elem_of_fmap_2' snd _ (m_tranid s, sid)); [|done].
    apply elem_of_map_walk. by apply (session_online _ Hw).
Qed.

Lemma set_gates_ok w x : world_ok w -> world_ok (set_gates w x).
Proof. intros []. by constructor. Qed.

Lemma removeGate_ok g w u w' o : world_ok w -> removeGate g w = Ret (u, w', o) -> world_ok w'.
Proof.
  unfold removeGate. intros Hw H. binv_get H.
  destruct (_ && _); [|by injection H as _ <- _]. case_bool_decide; [|by injection H as _ <- _].
  destruct (removeUserByGate_run (gate_id_of w g) w Hw) as (w1 & Hrun & Hw1 & _).
  rewrite (mbind_run _ _ _ _ _ _ Hrun) in H. injection H as _ <- _. by apply set_gates_ok.
Qed.

Lemma with_user_ok flag f w u w' o :
  (forall sid u1 w1 o1, f sid w = Ret (u1, w1, o1) -> world_ok w1) ->
  world_ok w -> with_user flag f w = Ret (u, w', o) -> world_ok w'.
Proof.
  intros Hf Hw H. unfold with_user in H. binv_get H.
  destruct (getUser w flag); [by eapply Hf|by injection H as _ <- _].
Qed.

Lemma handle_ok localtime now e w u w' o : world_ok w -> handle localtime now e w = Ret (u, w', o) -> world_ok w'.
Proof.
  intros Hw H. destruct e as [this sv own ok|this|this t a|t|t|f p|f|f msg|f t a|f k e| |a|]; cbn [handle] in H.
  - unfold parseGateRegister, addGate in H. binv H u1 w1 H1. injection H1 as _ <- _. binv H u2 w2 H2.
    assert (w2 = set_gate_ids w (<[this := u16 sv]> (m_gate_id w))) as -> by (destruct ok; by injection H2).
    binv H b w3 H3. injection H as _ <- _. destruct Hw.
    destruct (_ && _); injection H3 as _ <- _; by constructor.
  - by eapply removeGate_ok.
  - unfold parseAddUser in H. binv_get H. by eapply addUser_ok.
  - by eapply removeUser_ok.
  - unfold offlineUser in H. binv_get H. destruct (getUser w t); [by eapply setWaitReconnet_ok|by injection H as _ <- _].
  - unfold parseUserMsg in H. binv_get H. destruct (getUser w f); [|by injection H as _ <- _].
    eapply world_ok_keeps; [exact Hw|by eapply parsePBMessage_keeps].
  - eapply with_user_ok; [|exact Hw|exact H]. intros. by eapply parseDBQueryNeedCreateHero_ok.
  - eapply with_user_ok; [|exact Hw|exact H]. intros sid u1 w1 o1 H1.
    exact (praseDBQueryHeroInfo_ok _ _ _ _ _ _ Hw H1).
  - eapply with_user_ok; [|exact Hw|exact H]. cbn beta. intros sid u1 w1 o1' H1. binv_session H1 s Hs.
    eapply world_ok_keeps; [exact Hw|]. destruct (_dream_hero s); [by eapply VerifyToy_keeps|by injection H1 as _ <- _].
  - eapply with_user_ok; [|exact Hw|exact H]. cbn beta. intros sid u1 w1 o1' H1. binv_session H1 s Hs.
    destruct (_dream_hero s); [by apply reads_send in H1 as ->|discriminate].
  - injection H as _ <- _. destruct Hw. by constructor.
  - assert (reads (w <- mget ;; match _heros w !! a with
      | Some h => if save_event h then SaveHero localtime now a else mret' tt | None => mret' tt end)) as Hr by reads_tac.
    by apply Hr in H as ->.
  - unfold setStop, SaveDreamHeroes in H.
    assert (reads (w <- mget ;; mfor (map_walk (_heros w)) (fun p => SaveHero localtime now p.1) ;;;
      memit (SendDB MsgSaveAllHeroesGS2DB 0))) as Hr.
    { apply reads_bind; [auto with reads|]. intros w0. apply reads_bind; [|auto with reads].
      intros ?. apply reads_for. intros ?. apply reads_SaveHero. }
    by apply Hr in H as ->.
Qed.

(** ** The theorems *)

(** One event handled to its end. *)
Inductive step (w w' : world) : Prop :=
| step_handle localtime now e o : handle localtime now e w = Ret (tt, w', o) -> step w w'.

(** The process after its start: nobody online, no hero, [c] loaded. *)
Definition start (c : GameConfig.GameConfig) : world := mk_world ∅ ∅ false ∅ 0 ∅ ∅ ∅ c.

Lemma start_ok c : world_ok (start c).
Proof. by constructor; cbn; intros *; rewrite lookup_empty. Qed.

(** C3: the session tables stay consistent.  Whatever gates register and close,
    users come, go, reconnect and send, and whatever the database server
    answers, as long as every event is handled to its end: each online entry
    leads to a live session with that transaction id, each live session is
    online, a session's hero is the hero of its account, every hero is kept
    under its own account, and a hero's session, while it lives, is one of that
    account. *)
Theorem session_tables_sound c w : rtc step (start c) w -> world_ok w.
Proof.
  intros Hr. apply (rtc_ind_r (R := step) world_ok (start c)); [apply start_ok| |done].
  intros y z _ [localtime now e o Hrun] Hy. exact (handle_ok _ _ _ _ _ _ _ Hy Hrun).
Qed.

(** When a gate's connection closes, exactly the users that came through it
    disappear.  [removeGate] of a registered gate ends without an error; the
    online table keeps the users of other gates and no others, the gate's slot
    is empty, no hero is touched. *)
Theorem gate_loss_removes_its_users w g :
  world_ok w -> 0 < gate_id_of w g < 0xff -> m_Gates w !! gate_id_of w g = Some g ->
  exists w', removeGate g w = Ret (tt, w', []) /\ world_ok w' /\
    (forall t sid, m_Onlines w' !! t = Some sid <->
       m_Onlines w !! t = Some sid /\ exists s, sessions w !! sid = Some s /\ m_gate s <> gate_id_of w g) /\
    m_Gates w' = delete (gate_id_of w g) (m_Gates w) /\ _heros w' = _heros w.
Proof.
  intros Hw Hid Hg. destruct (removeUserByGate_run (gate_id_of w g) w Hw) as (w1 & Hrun & Hw1 & (Hh & Hgates & _) & Hse).
  exists (set_gates w1 (delete (gate_id_of w g) (m_Gates w1))). split_and!.
  - unfold removeGate. rewrite (mbind_pure mget _ w w) by done. unfold INVALID_GATE_ID, MAX_GATE_ID.
    destruct (Z.ltb_spec 0 (gate_id_of w g)), (Z.ltb_spec (gate_id_of w g) 0xff); try lia. cbn [andb].
    rewrite bool_decide_true by done. by rewrite (mbind_run _ _ _ _ _ _ Hrun).
  - by apply set_gates_ok.
  - intros t sid. cbn [m_Onlines set_gates]. split.
    + intros Ho. destruct (online_session _ Hw1 _ _ Ho) as (s & Hs & <-). apply Hse in Hs as [Hs Hne].
      split; [by apply (session_online _ Hw)|eauto].
    + intros [Ho (s & Hs & Hne)]. destruct (online_session _ Hw _ _ Ho) as (s' & Hs' & <-).
      assert (s' = s) as -> by congruence. apply (session_online _ Hw1). by apply Hse.
  - cbn. by rewrite Hgates.
  - done.
Qed.

Lemma deliver_online w h sid s g msg :
  _session h = Some sid -> sessions w !! sid = Some s -> m_state s = true -> 0 < m_gate s < 0xff ->
  m_Gates w !! m_gate s = Some g -> deliver w h msg = [SendClient g (m_tranid s) msg].
Proof.
  intros Hs Hsid Hst Hid Hg. unfold deliver. rewrite Hs. cbn [mbind option_bind]. rewrite Hsid, Hst, Hg.
  unfold INVALID_GATE_ID, MAX_GATE_ID.
  destruct (Z.ltb_spec 0 (m_gate s)), (Z.ltb_spec (m_gate s) 0xff); (done || lia).
Qed.

(** The messages of [SendClientInit] for a hero. *)
Definition init_messages (h : GameWorld.DreamHero) : list s2c :=
  let l := map snd (map_walk (_hero_equips h)) in
  (if bool_decide (l = []) then [] else [S2CMsgEquipInit (Some (full_equip l))])
  ++ [S2CMsgToyInit (map (fun p => toy p.2) (string_walk (_hero_toys h))); S2CMsgHeroInit (_info h)].

Lemma SendClientInit_online a w h sid s g :
  _heros w !! a = Some h -> (size (_hero_equips h) <= 41)%nat ->
  _session h = Some sid -> sessions w !! sid = Some s -> m_state s = true -> 0 < m_gate s < 0xff ->
  m_Gates w !! m_gate s = Some g ->
  SendClientInit a w = Ret (tt, upd_hero w a (set_online_field (set_save_event h true) true),
    map (SendClient g (m_tranid s)) (init_messages h)).
Proof.
  intros Hh Hsize Hs Hsid Hst Hid Hg. rewrite (SendClientInit_run w a h Hh); [|unfold session_live; rewrite Hs; eauto|done].
  f_equal. f_equal. rewrite !(deliver_online w h sid s g) by done. unfold init_messages. by case_bool_decide.
Qed.

(** The run behind [new_player_enters]. *)
Lemma new_player_run w g t a :
  let cfg := GameConfig._hero_config (sGameConfig w) in
  world_ok w -> m_Onlines w !! t = None -> _heros w !! a = None ->
  0 < gate_id_of w g < 0xff -> m_Gates w !! gate_id_of w g = Some g ->
  (length (GameConfig.c_equips cfg) <= 41)%nat ->
  0 <= GameConfig._generate_id (sGameConfig w) ->
  GameConfig._generate_id (sGameConfig w) + Z.of_nat (length (GameConfig.c_equips cfg)) < 2 ^ 64 ->
  exists w1 w2 h,
    parseAddUser g t a w = Ret (tt, w1, [SendDB (MsgReqHeroDataGS2DB a) t]) /\
    parseNeedCreateHero t w1 = Ret (tt, w2, map (SendClient g t) (init_messages h)) /\
    _heros w2 !! a = Some h /\ account (_info h) = a /\ gold (_info h) = GameConfig.c_gold cfg /\
    size (_hero_equips h) = length (GameConfig.c_equips cfg) /\ _online h = true /\ save_event h = true /\
    exists sid, m_Onlines w2 !! t = Some sid /\ _session h = Some sid /\ is_Some (sessions w2 !! sid).
Proof.
  intros cfg Hw Ht Ha Hid Hg Hlen Hgen Hmax.
  set (n := gate_id_of w g) in *. set (sid := next_session w).
  destruct (LoadFromConfig (sGameConfig w) (construct a)) as [c' h0] eqn:Hload.
  assert (Hspec : gold (_info h0) = GameConfig.c_gold cfg /\ size (_hero_equips h0) = length (GameConfig.c_equips cfg)).
  { pose proof Hload as Hl. unfold LoadFromConfig in Hl. cbn [_hero_equips construct] in Hl.
    destruct (give_equips _ _ _) as [c1 m] eqn:Hge. injection Hl as <- <-.
    apply give_equips_spec in Hge as (_ & Hsize & _); [|done|done|intros; apply lookup_empty]. split; [done|].
    cbn. by rewrite Hsize. }
  destruct Hspec as [Hgold Hsize].
  set (w1 := set_onlines (set_sessions w (<[sid := mk_session t a n true None]> (sessions w)) (sid + 1))
    (<[t := sid]> (m_Onlines w))).
  set (h1 := set_account (set_session h0 (Some sid)) a).
  set (w2 := set_heros (set_config w1 c') (<[a := h1]> (_heros w))).
  set (w3 := set_sessions w2 (<[sid := mk_session t a n true (Some a)]> (sessions w2)) (next_session w2)).
  set (h := set_online_field (set_save_event h1 true) true).
  assert (Hinit : SendClientInit a w3 = Ret (tt, upd_hero w3 a h, map (SendClient g t) (init_messages h1))).
  { apply (SendClientInit_online a w3 h1 sid (mk_session t a n true (Some a)) g); try done.
    - cbn. by rewrite lookup_insert_eq.
    - unfold h1. cbn. rewrite Hsize. done.
    - cbn. by rewrite lookup_insert_eq. }
  assert (Hsess : forall x, session_of sid (set_heros (set_config w1 x) (<[a := h1]> (_heros w)))
    = Ret (mk_session t a n true None, set_heros (set_config w1 x) (<[a := h1]> (_heros w)), [])).
  { intros x. unfold session_of, mbind', mget. cbn. by rewrite lookup_insert_eq. }
  exists w1, (upd_hero w3 a h), h. split_and!; try done.
  - unfold parseAddUser. rewrite (mbind_pure mget _ w w) by done. unfold addUser, getUser.
    rewrite (mbind_pure mget _ w w), Ht by done. unfold new_Session, GetHero.
    rewrite mbind_assoc, (mbind_pure mget _ w w) by done. rewrite Ha. reflexivity.
  - unfold parseNeedCreateHero, with_user, getUser. rewrite (mbind_pure mget _ w1 w1) by done.
    cbn [m_Onlines w1 set_onlines]. rewrite lookup_insert_eq. unfold parseDBQueryNeedCreateHero.
    assert (Hs1 : session_of sid w1 = Ret (mk_session t a n true None, w1, [])).
    { unfold session_of, mbind', mget. cbn. by rewrite lookup_insert_eq. }
    rewrite (mbind_pure _ _ _ _ Hs1). cbn [m_account].
    rewrite (mbind_run _ _ w1 tt w2 []).
    + rewrite (mbind_pure _ _ _ _ (Hsess c')). rewrite (mbind_run _ _ w2 tt w3 []) by done.
      cbn [m_account]. by rewrite Hinit.
    + unfold CreateHero_new, GetHero. rewrite (mbind_pure mget _ w1 w1) by done.
      change (_heros w1 !! a) with (_heros w !! a). rewrite Ha.
      change (sGameConfig w1) with (sGameConfig w). rewrite Hload. reflexivity.
  - cbn. by rewrite lookup_insert_eq.
  - exists sid. cbn. rewrite !lookup_insert_eq. split_and!; [done|done|eauto].
Qed.

(** A new player gets into the game.  A user announced by a registered gate,
    whose account has no hero in the process, makes one request to the database
    server; when that answers that there is none, a hero is created from the
    configuration, tied to the session and its account, and its equipment, toys
    and data are sent through that gate under the user's transaction id. *)
Theorem new_player_enters w g t a :
  let cfg := GameConfig._hero_config (sGameConfig w) in
  world_ok w -> m_Onlines w !! t = None -> _heros w !! a = None ->
  0 < gate_id_of w g < 0xff -> m_Gates w !! gate_id_of w g = Some g ->
  (length (GameConfig.c_equips cfg) <= 41)%nat ->
  0 <= GameConfig._generate_id (sGameConfig w) ->
  GameConfig._generate_id (sGameConfig w) + Z.of_nat (length (GameConfig.c_equips cfg)) < 2 ^ 64 ->
  exists w1 w2 h,
    parseAddUser g t a w = Ret (tt, w1, [SendDB (MsgReqHeroDataGS2DB a) t]) /\
    parseNeedCreateHero t w1 = Ret (tt, w2, map (SendClient g t) (init_messages h)) /\
    _heros w2 !! a = Some h /\ account (_info h) = a /\ gold (_info h) = GameConfig.c_gold cfg /\
    size (_hero_equips h) = length (GameConfig.c_equips cfg) /\ _online h = true /\ save_event h = true /\
    exists sid, m_Onlines w2 !! t = Some sid /\ _session h = Some sid /\ is_Some (sessions w2 !! sid).
Proof. exact (new_player_run w g t a). Qed.

(** ** Concrete worlds *)

(** Gate 2 is registered. *)
Definition gate_world : world := mk_world ∅ ∅ false ∅ 0 ∅ {[2 := 50]} {[50 := 2]} demo_config.

Lemma gate_world_step : step (start demo_config) gate_world.
Proof.
  apply (step_handle _ _ (fun _ => mk_tm 0 0 0 1 0 70 4 0) 0 (GateRegister 50 2 1 true) [SendGateRegister 50 1]).
  reflexivity.
Qed.

Lemma gate_world_ok : world_ok gate_world.
Proof. destruct gate_world_step as [localtime now e o Hrun]. exact (handle_ok _ _ _ _ _ _ _ (start_ok _) Hrun). Qed.

(** User 3 of account 9 came through it. *)
Definition user_world : world :=
  set_onlines (set_sessions gate_world (<[0 := mk_session 3 9 2 true None]> (sessions gate_world)) (0 + 1))
    (<[3 := 0]> (m_Onlines gate_world)).

Lemma user_world_ok : world_ok user_world.
Proof. apply (fresh_session_ok gate_world 3 9 2 None gate_world_ok eq_refl). discriminate. Qed.

Lemma user_world_gate : m_Gates user_world !! gate_id_of user_world 50 = Some 50.
Proof. reflexivity. Qed.

Lemma user_world_id : 0 < gate_id_of user_world 50 < 0xff.
Proof. vm_compute. split; reflexivity. Qed.

Lemma session_tables_sound_witness : world_ok gate_world.
Proof. exact (session_tables_sound demo_config gate_world (rtc_once _ _ gate_world_step)). Defined.

Lemma gate_loss_removes_its_users_witness :
  exists w', removeGate 50 user_world = Ret (tt, w', []) /\ world_ok w' /\
    (forall t sid, m_Onlines w' !! t = Some sid <->
       m_Onlines user_world !! t = Some sid /\
       exists s, sessions user_world !! sid = Some s /\ m_gate s <> gate_id_of user_world 50) /\
    m_Gates w' = delete (gate_id_of user_world 50) (m_Gates user_world) /\ _heros w' = _heros user_world.
Proof. exact (gate_loss_removes_its_users user_world 50 user_world_ok user_world_id user_world_gate). Defined.

Lemma gate_world_id : 0 < gate_id_of gate_world 50 < 0xff.
Proof. vm_compute. split; reflexivity. Qed.

Lemma demo_config_small :
  (length (GameConfig.c_equips (GameConfig._hero_config (sGameConfig gate_world))) <= 41)%nat /\
  0 <= GameConfig._generate_id (sGameConfig gate_world) /\
  GameConfig._generate_id (sGameConfig gate_world)
    + Z.of_nat (length (GameConfig.c_equips (GameConfig._hero_config (sGameConfig gate_world)))) < 2 ^ 64.
Proof. cbn. lia. Qed.

Lemma new_player_enters_witness :
  exists w1 w2 h,
    parseAddUser 50 3 9 gate_world = Ret (tt, w1, [SendDB (MsgReqHeroDataGS2DB 9) 3]) /\
    parseNeedCreateHero 3 w1 = Ret (tt, w2, map (SendClient 50 3) (init_messages h)) /\
    _heros w2 !! 9 = Some h /\ account (_info h) = 9 /\ gold (_info h) = 100 /\
    size (_hero_equips h) = 2%nat /\ _online h = true /\ save_event h = true /\
    exists sid, m_Onlines w2 !! 3 = Some sid /\ _session h = Some sid /\ is_Some (sessions w2 !! sid).
Proof.
  destruct demo_config_small as (H1 & H2 & H3).
  exact (new_player_enters gate_world 50 3 9 gate_world_ok eq_refl eq_refl gate_world_id eq_refl H1 H2 H3).
Defined.

(** ** What the code does not guarantee *)

(** After [removeUser] the hero still points to the released session: its next
    periodic save is a use after release. *)
Lemma save_after_logout_dangles localtime now w t sid a h q u w' o :
  m_Onlines w !! t = Some sid -> _heros w !! a = Some h -> _session h = Some sid -> save_event h = true ->
  suits (_info h) = [] -> hero_sql (_info h) "" = Ret q ->
  removeUser t w = Ret (u, w', o) ->
  handle localtime now (SaveTimer a) w' = UB "released Session".
Proof.
  intros Ht Hh Hs He Hsu Hq H. unfold removeUser, getUser, release in H. binv_get H. rewrite Ht in H.
  binv H u1 w1 H1. injection H1 as _ <- _. binv_session H s Hse. injection H as _ <- _.
  set (w2 := set_sessions _ _ _). assert (Hh2 : _heros w2 !! a = Some h) by done.
  cbn [handle]. rewrite (mbind_pure mget _ w2 w2), Hh2, He by done.
  unfold SaveHero. rewrite (mbind_pure _ _ _ _ (hero_of_run _ _ _ Hh2)). unfold lift. rewrite Hsu.
  cbn [suits_loop]. rewrite mbind_ret_l, Hq, mbind_ret_l. unfold mbind' at 1. unfold DreamHero_sendDB.
  rewrite (mbind_pure _ _ _ _ (hero_of_run _ _ _ Hh2)), Hs. unfold session_of, mbind', mget. cbn.
  by rewrite lookup_delete_eq.
Qed.

(** A user taken offline before the database answered has no hero: null
    dereference. *)
Lemma offline_without_hero_undefined : offlineUser 3 user_world = UB "null DreamHero".
Proof. reflexivity. Qed.

(** A gate of the wrong version is closed, and registered all the same. *)
Lemma wrong_version_registered :
  parseGateRegister 50 2 1 false (start demo_config) =
  Ret (tt, gate_world, [CloseGate 50; SendGateRegister 50 1]).
Proof. reflexivity. Qed.

(** Level-up requests reach no handler. *)
Lemma level_up_not_registered sid s k w :
  sessions w !! sid = Some s -> parsePBMessage sid (S2CEquipLevelUpReq k) w = Ret (tt, w, []).
Proof.
  intros Hs. unfold parsePBMessage. unfold session_of, mbind', mget. rewrite Hs. unfold mret'.
  cbn. destruct (_dream_hero s); reflexivity.
Qed.
