(* ===== verification/SessionInfo.v ===== *)
(** What the game server counts and broadcasts: [GateManager::collectSessionInfo],
    which a timer runs, and [sendMsgToAll] ([gameserver/gate_manager.cpp]). *)

From Stdlib Require Import String.
From S2P Require Import Prelude GameData GameWorld GameServer.
From stdpp Require Import prelude gmap strings list.
#[local] Open Scope Z_scope.

Module SessionInfo.
Import Messages GameWorld GameServer.

(** The counters of [collectSessionInfo] as it logs them. *)
Record session_info : Type := mk_session_info {
  MAPINT_online : gmap Z Z;
  vcTemp : gset Z;
  online_count : Z;
  offline_count : Z;
  have_hero_count : Z
}.

Definition no_info : session_info := mk_session_info ∅ ∅ 0 0 0.

Definition current_player (i : session_info) : Z := offline_count i + online_count i.

(** The body of the loop for the session [s]; [MAPINT_online[gate_id] ++] on an
    entry made 0 when there is none. *)
Definition count_session (i : session_info) (s : Session) : session_info :=
  let online := m_state s in
  mk_session_info
    (if online then <[m_gate s := default 0 (MAPINT_online i !! m_gate s) + 1]> (MAPINT_online i) else MAPINT_online i)
    ({[m_account s]} ∪ vcTemp i)
    (if online then online_count i + 1 else online_count i)
    (if online then offline_count i else offline_count i + 1)
    (match _dream_hero s with Some _ => have_hero_count i + 1 | None => have_hero_count i end).

Fixpoint collect_loop (l : list (Z * Z)) (i : session_info) : handler session_info :=
  match l with
  | [] => mret' i
  | (_, sid) :: l' => s <- session_of sid ;; collect_loop l' (count_session i s)
  end.

Definition collectSessionInfo : handler session_info :=
  w <- mget ;; collect_loop (map_walk (m_Onlines w)) no_info.

Definition sendMsgToAll (msg : s2c) (flag : Z) : handler unit :=
  w <- mget ;;
  mfor (seqZ 0 MAX_GATE_ID) (fun i =>
    match m_Gates w !! i with
    | Some g => memit (SendClient g flag msg)
    | None => mret' tt
    end).

(** [DreamHeroManager::CollectInfo]: the heroes that are online and that are not. *)
Definition count_hero (i : Z * Z) (h : GameWorld.DreamHero) : Z * Z :=
  if _online h then (i.1 + 1, i.2) else (i.1, i.2 + 1).

Definition CollectInfo : handler (Z * Z) :=
  w <- mget ;; mret' (foldl count_hero (0, 0) (map snd (map_walk (_heros w)))).

Definition modifyToyAccount (acc : Z) (cdkey : string) : handler unit :=
  mmodify (fun w => set_toy_accounts w (<[c_str cdkey := acc]> (_toy_cdkey_account w))).

(** [GameDBClient::parseDBMsgDefault]: a message with no handler of its own goes on to
    the player's client. *)
Definition parseDBMsgDefault (p : s2c) (flag : Z) : handler unit :=
  if negb (flag =? INVALID_TRANS_ID) then with_user flag (fun sid => Session_sendPBMessage sid p) else mret' tt.

End SessionInfo.

Import Messages GameWorld GameServer SessionInfo.

(** The sessions of a list of entries. *)
Definition sessions_at (w : world) (l : list (Z * Z)) : list Session := omap (fun p => sessions w !! p.2) l.

Lemma collect_loop_run w l i :
  (forall p, p ∈ l -> is_Some (sessions w !! p.2)) ->
  collect_loop l i w = Ret (foldl count_session i (sessions_at w l), w, []).
Proof.
  revert i. induction l as [|[t sid] l IH]; intros i Hl; [done|]. cbn [collect_loop].
  destruct (Hl (t, sid) (list_elem_of_here _ _)) as [s Hs]. cbn in Hs.
  rewrite (mbind_pure (session_of sid) _ w s) by (unfold session_of, mbind', mget; by rewrite Hs).
  rewrite IH by set_solver. unfold sessions_at. cbn. by rewrite Hs.
Qed.

(** The counters after the sessions [l]. *)
Definition counted (l : list Session) (i : session_info) : Prop :=
  online_count i = Z.of_nat (length (filter (fun s => m_state s = true) l)) /\
  current_player i = Z.of_nat (length l) /\
  have_hero_count i = Z.of_nat (length (filter (fun s => is_Some (_dream_hero s)) l)) /\
  (forall a, a ∈ vcTemp i <-> exists s, s ∈ l /\ m_account s = a) /\
  forall g, default 0 (MAPINT_online i !! g) = Z.of_nat (length (filter (fun s => m_state s = true /\ m_gate s = g) l)).

Lemma count_session_counted l i s : counted l i -> counted (l ++ [s]) (count_session i s).
Proof.
  intros (Ho & Hc & Hh & Ha & Hg). unfold counted, current_player in *. rewrite !filter_app, !length_app. cbn.
  split_and!.
  - destruct (m_state s) eqn:Hs; cbn; case_decide; cbn; (lia || congruence).
  - destruct (m_state s); lia.
  - destruct (_dream_hero s); cbn; case_decide as Hd; cbn; try lia; [destruct Hd; eauto|by destruct Hd].
  - intros a. rewrite elem_of_union, Ha, elem_of_singleton. setoid_rewrite elem_of_app. setoid_rewrite list_elem_of_singleton.
    naive_solver.
  - intros g. rewrite filter_app, length_app. cbn. specialize (Hg g). destruct (m_state s) eqn:Hs.
    + destruct (decide (g = m_gate s)) as [->|Hne]; [rewrite lookup_insert_eq|rewrite lookup_insert_ne by done];
        case_decide as Hd; cbn; try naive_solver lia.
    + repeat (case_decide as Hd; cbn); naive_solver lia.
Qed.

(** [collectSessionInfo] reads no released session and counts right: every
    session is online or offline, and the gates' counts are those of their online
    sessions. *)
Lemma collectSessionInfo_counts w :
  world_ok w ->
  exists i, collectSessionInfo w = Ret (i, w, []) /\ counted (sessions_at w (map_walk (m_Onlines w))) i /\
    current_player i = Z.of_nat (size (m_Onlines w)).
Proof.
  intros Hw. assert (Hl : forall p, p ∈ map_walk (m_Onlines w) -> is_Some (sessions w !! p.2)).
  { intros [t sid] Hp%elem_of_map_walk. destruct (online_session _ Hw _ _ Hp) as (s & Hs & _). by exists s. }
  eexists. split; [unfold collectSessionInfo; rewrite (mbind_pure mget _ w w) by done; by apply collect_loop_run|].
  assert (Hc : forall l, counted l (foldl count_session no_info l)).
  { induction l as [|s l IH] using rev_ind; [|rewrite foldl_snoc; by apply count_session_counted].
    split_and!; try done; set_solver. }
  split; [apply Hc|]. destruct (Hc (sessions_at w (map_walk (m_Onlines w)))) as (_ & -> & _). f_equal.
  replace (size (m_Onlines w)) with (length (map_walk (m_Onlines w))).
  - clear Hc. induction (map_walk (m_Onlines w)) as [|p l IH]; [done|]. unfold sessions_at in *. cbn.
    destruct (Hl p (list_elem_of_here _ _)) as [s ->]. cbn. f_equal. apply IH. set_solver.
  - rewrite map_walk_perm. apply length_map_to_list.
Qed.

(** The two counts of [CollectInfo] are of all heroes. *)
Lemma CollectInfo_counts w :
  exists on off, CollectInfo w = Ret ((on, off), w, []) /\ on + off = Z.of_nat (size (_heros w)) /\
    on = Z.of_nat (length (filter (fun h => _online h = true) (map snd (map_walk (_heros w))))).
Proof.
  unfold CollectInfo, mbind', mget, mret'. destruct (foldl count_hero _ _) as [on off] eqn:Hf.
  exists on, off. split; [done|].
  assert (Hc : forall l, (foldl count_hero (0, 0) l).1 = Z.of_nat (length (filter (fun h => _online h = true) l)) /\
                (foldl count_hero (0, 0) l).1 + (foldl count_hero (0, 0) l).2 = Z.of_nat (length l)).
  { induction l as [|h l [IH1 IH2]] using rev_ind; [done|].
    rewrite foldl_snoc, filter_app, !length_app. destruct (foldl count_hero (0, 0) l) as [i j]. unfold count_hero. cbn in *.
    destruct (_online h) eqn:Hh; cbn; case_decide; try congruence; cbn; lia. }
  specialize (Hc (map snd (map_walk (_heros w)))). rewrite Hf in Hc. cbn in Hc. destruct Hc as [-> Hc]. split; [|done].
  by rewrite Hc, length_map, length_map_walk.
Qed.
