(* ===== verification/ServerFrame.v ===== *)
(** [common/version.h/.cpp] and the main loop of every server process,
    [common/server_frame.h/.cpp]: one turn of the loop, the stop requested by a
    signal, and the [setStop] and [checkStop] the four servers give it. *)

From Stdlib Require Import Ascii String.
From S2P Require Import Prelude TcpServer Utilities Text.
From stdpp Require Import prelude strings list.
#[local] Open Scope Z_scope.

Module Version.
Import Text.

Definition VERSION_MAJOR : Z := 0.
Definition VERSION_MINOR : Z := 0.
Definition VERSION_BUILD : Z := 1.
Definition VERSION_SVN : Z := 1.

Record Version : Type := mk_version { nMajor : Z; nMinor : Z; nBuild : Z; nAppSvn : Z }.

Definition construct : Version := mk_version VERSION_MAJOR VERSION_MINOR VERSION_BUILD VERSION_SVN.

Definition toString : string :=
  print_u VERSION_MAJOR +:+ "." +:+ print_u VERSION_MINOR +:+ "." +:+ print_u VERSION_BUILD +:+ "." +:+ print_u VERSION_SVN.

(** [checkVersion(const Version&)]. *)
Definition checkSame (own v : Version) : bool :=
  (nMajor own =? nMajor v) && (nMinor own =? nMinor v) && (nBuild own =? nBuild v) && (nAppSvn own =? nAppSvn v).

(** [checkVersion(u16, u16, u16, u16)] on the 32-bit fields of a message. *)
Definition checkVersion (own : Version) (major minor build svn : Z) : bool :=
  (nMajor own =? u16 major) && (nMinor own =? u16 minor) && (nBuild own =? u16 build) && (u16 svn =? nAppSvn own).

End Version.

Module ServerFrame.
Section frame.
(** [S] is the process, [O] what it does to the outside. *)
Context {S O : Type}.

(** The virtual methods of a server. *)
Record methods : Type := {
  runOnce : Z -> M S O unit;
  onKey : M S O unit;
  setStop : M S O unit;
  checkStop : M S O bool;      (* whether it sets [_stop] *)
  overrides_signalStop : bool  (* [DBServer] *)
}.

(** [_stop], [_wait_stop], the global [g_wait_stop] set by the signal handler, the
    time of the last turn in milliseconds, and the server. *)
Record frame : Type := mk_frame {
  _stop : bool; _wait_stop : bool; g_wait_stop : bool; nLastTime : Z; server : S
}.

Definition init (now : Z) (s : S) : frame := mk_frame false false false now s.

(** The handler of SIGINT, SIGHUP and SIGQUIT: only 3, SIGQUIT, does anything. *)
Definition signal_handle (n : Z) (f : frame) : frame :=
  if n =? 3 then mk_frame (_stop f) (_wait_stop f) true (nLastTime f) (server f) else f.

(** A method of the server. *)
Definition call {A} (m : M S O A) : M frame O A := fun f =>
  match m (server f) with
  | UB why => UB why
  | Ret (a, s', o) => Ret (a, mk_frame (_stop f) (_wait_stop f) (g_wait_stop f) (nLastTime f) s', o)
  end.

Definition set_wait_stop : M frame O unit :=
  mmodify (fun f => mk_frame (_stop f) true (g_wait_stop f) (nLastTime f) (server f)).

(** [ServerFrame::signalStop], or [DBServer]'s. *)
Definition signalStop (v : methods) : M frame O unit :=
  if overrides_signalStop v then set_wait_stop
  else
    f <- mget ;;
    if g_wait_stop f then
      if negb (Bool.eqb (g_wait_stop f) (_wait_stop f)) then call (setStop v) ;;; set_wait_stop else mret' tt
    else mret' tt.

(** The body of [while (!_stop)] in [run], at time [now]. *)
Definition turn (v : methods) (now : Z) : M frame O unit :=
  f <- mget ;;
  let elapse := now - nLastTime f in
  mput (mk_frame (_stop f) (_wait_stop f) (g_wait_stop f) now (server f)) ;;;
  call (runOnce v (u32 elapse)) ;;;
  call (onKey v) ;;;
  f <- mget ;;
  (if _wait_stop f then
     b <- call (checkStop v) ;;
     if b then mmodify (fun f => mk_frame true (_wait_stop f) (g_wait_stop f) (nLastTime f) (server f)) else mret' tt
   else mret' tt) ;;;
  signalStop v.

(** [run] over the times of its turns; it leaves the loop when [_stop] is set. *)
Fixpoint run (v : methods) (times : list Z) : M frame O unit :=
  match times with
  | [] => mret' tt
  | t :: times' => f <- mget ;; if _stop f then mret' tt else turn v t ;;; run v times'
  end.

End frame.
Arguments methods : clear implicits.
Arguments frame : clear implicits.

(** The other two servers that stop by [ServerFrame]'s own sequence
    ([GameServer] has its own file). *)
Section servers.
Context {S O : Type} (once : Z -> M S O unit) (shutDown : M S O unit).

(** [LoginServer]: [setStop] sets [_wait_stop], which [signalStop] does too. *)
Definition LoginServer : methods S O :=
  {| runOnce := once; onKey := mret' tt; setStop := mret' tt; checkStop := mret' true; overrides_signalStop := false |}.

(** [GateServer::checkStop] shuts down and does not set [_stop]. *)
Definition GateServer : methods S O :=
  {| runOnce := once; onKey := mret' tt; setStop := mret' tt;
     checkStop := shutDown ;;; mret' false; overrides_signalStop := false |}.

(** [DBServer]; [isObjStop] asks the database layer. *)
Definition DBServer (isObjStop : S -> bool) : methods S O :=
  {| runOnce := once; onKey := mret' tt; setStop := mret' tt;
     checkStop := s <- mget ;; if isObjStop s then shutDown ;;; mret' true else mret' false;
     overrides_signalStop := true |}.

End servers.
End ServerFrame.

Import ServerFrame.

(** ** Stopping *)

Section stopping.
Context {S O : Type} (once : Z -> M S O unit).
Hypothesis once_total : forall d s, exists s' o, once d s = Ret (tt, s', o).

(** Two turns after SIGQUIT the login server has left its loop, whatever the times;
    [runOnce] ran twice. *)
Lemma login_stops f t1 t2 times :
  _stop f = false -> _wait_stop f = false -> exists s1 s2 o1 o2,
  once (u32 (t1 - nLastTime f)) (server f) = Ret (tt, s1, o1) /\ once (u32 (t2 - t1)) s1 = Ret (tt, s2, o2) /\
  run (LoginServer once) (t1 :: t2 :: times) (signal_handle 3 f) = Ret (tt, mk_frame true true true t2 s2, o1 ++ o2).
Proof.
  destruct f as [st ws g t s]; cbn. intros -> ->.
  destruct (once_total (u32 (t1 - t)) s) as (s1 & o1 & H1). destruct (once_total (u32 (t2 - t1)) s1) as (s2 & o2 & H2).
  exists s1, s2, o1, o2. split; [done|]. split; [done|].
  unfold turn, call, signalStop, set_wait_stop, mbind', mget, mput, mmodify, mret'. cbn. rewrite H1. cbn. rewrite H2. cbn.
  destruct times; cbn; by rewrite !app_nil_r.
Qed.

Lemma gate_turn (shutDown : M S O unit) f t f' o :
  _stop f = false -> turn (GateServer once shutDown) t f = Ret (tt, f', o) -> _stop f' = false.
Proof.
  destruct f as [st ws g t0 s]; cbn; intros ->.
  unfold turn, call, signalStop, set_wait_stop, mbind', mget, mput, mmodify, mret'. cbn.
  destruct (once_total (u32 (t - t0)) s) as (s1 & o1 & ->). cbn.
  destruct ws, g; cbn; try destruct (shutDown s1) as [[[[] s2] o2]|]; cbn; congruence || (intros [= <- _]; done).
Qed.

(** The gate server never leaves its loop: once the stop is requested [shutDown] is
    called on every turn. *)
Lemma gate_does_not_stop (shutDown : M S O unit) f times f' o :
  _stop f = false -> run (GateServer once shutDown) times f = Ret (tt, f', o) -> _stop f' = false.
Proof.
  revert f o. induction times as [|t times IH]; intros f o Hf; cbn [run]; [by intros [= <- _]|].
  rewrite (mbind_pure mget _ f f) by done. rewrite Hf. unfold mbind' at 1.
  destruct (turn _ t f) as [[[[] f1] o1]|] eqn:Ht; [|done]. apply gate_turn in Ht; [|done].
  destruct (run _ times f1) as [[[[] f2] o2]|] eqn:Hr; [|done]. intros [= <- _]. by eapply IH.
Qed.

End stopping.

(** The gate's [shutDown] stops its [tcp_server]; the rest of it cannot fail. *)
Definition stop_listener {O} : M TcpServer.Listener.listener O unit := fun l =>
  match TcpServer.Listener.stop l with Ret l' => Ret (tt, l', []) | UB why => UB why end.

#[local] Arguments TcpServer.Listener.stop : simpl never.

(** Three turns after SIGQUIT the gate server has used the deleted objects. *)
Lemma gate_stop_crashes {O} (once : Z -> M TcpServer.Listener.listener O unit) f t1 t2 t3 times :
  (forall d s, exists o, once d s = Ret (tt, s, o)) -> _stop f = false -> _wait_stop f = false ->
  exists why, run (GateServer once stop_listener) (t1 :: t2 :: t3 :: times) (signal_handle 3 f) = UB why.
Proof.
  intros Honce. destruct f as [st ws g t s]; cbn. intros -> ->.
  unfold turn, call, signalStop, set_wait_stop, stop_listener, mbind', mget, mput, mmodify, mret'. cbn.
  destruct (Honce (u32 (t1 - t)) s) as [o1 ->]. cbn. destruct (Honce (u32 (t2 - t1)) s) as [o2 ->]. cbn.
  unfold mbind', mret'. cbn. destruct (TcpServer.Listener.stop s) as [s'|why] eqn:Hs; [|cbn; by exists why]. cbn.
  destruct (Honce (u32 (t3 - t2)) s') as [o3 ->]. unfold mbind', mret'. cbn.
  destruct (second_stop_undefined _ _ Hs) as [why ->]. cbn; by exists why.
Qed.
