(* ===== verification/Login.v ===== *)
(** The login server: [login/account_manager.cpp] (accounts and their checks),
    [gate_manager.cpp] (the gates, the choice of one for a player),
    [gate_session.cpp] (a gate's messages) and [user_session.cpp] (a player's
    connection).

    Session objects are named by integers.  The database is asked through
    [Database]: a query is an entry of [tasks] until its answer arrives; what MySQL
    answered is an argument. *)

From Stdlib Require Import Ascii String.
From S2P Require Import Prelude CommonTemplate Crypt Utilities Text GameWorld ServerFrame.
From stdpp Require Import prelude gmap gmultiset strings list relations.
#[local] Open Scope Z_scope.

Module Login.
Import Version Text Utilities.

Definition INVALID_ACCOUNT : Z := 0.
Definition INVALID_GATE_ID : Z := GameWorld.INVALID_GATE_ID.
Definition MAX_GATE_ID : Z := GameWorld.MAX_GATE_ID.
Definition INVALID_GAME_ID : Z := GameWorld.INVALID_GAME_ID.
Definition INVALID_TRANS_ID : Z := GameWorld.INVALID_TRANS_ID.

Inductive user_state : Set := _disable_ | _wait_data_ | _checking_data_ | _wait_gate_ | _wait_close_.
#[export] Instance user_state_eq_dec : EqDecision user_state.
Proof. solve_decision. Defined.

(** [class UserLoginSession]; [close_events] are the pending
    [EVENT_USER_SESSION_CLOSE] of the object, by their period in milliseconds. *)
Record UserLoginSession : Type := mk_user {
  m_accid : Z;
  m_state : user_state;
  is_valid : bool;
  remote_address : string;
  close_events : list Z
}.

(** [struct GateInfo] and the vector of [class GateSession]. *)
Record GateSession : Type := mk_gate {
  gate_id : Z;
  onlines : Z;
  out_ip : string;
  out_port : Z;
  _balence_time : list Z
}.

Record Account : Type := mk_account { nGateId : Z; nId : Z; nTranId : Z }.

Inductive check_result : Set := _check_pass_ | _not_found_ | _error_name_pwd | _already_have_acc.
Inductive check_kind : Set := _login_check_ | _new_acc_check_.

(** [struct CheckAcct]; [result] is the number of the enumeration. *)
Record CheckAcct : Type := mk_check {
  str : string; pwd : string; result : Z; ower : Z; acct : Z; check_type : check_kind
}.

Definition new_CheckAcct (name password : string) (t : check_kind) (p : Z) : CheckAcct :=
  mk_check name password 0 p INVALID_ACCOUNT t.

(** The call-back a task was queued with. *)
Inductive callback : Set := CreateNewAccountCb | checkAccountCallCb.

Record world : Type := mk_world {
  m_Accts : gmap Z Account;
  m_Gates : gmap Z Z;
  m_WaitSessions : gmap Z Z;
  users : gmap Z UserLoginSession;
  gates : gmap Z GateSession;
  tasks : list (CheckAcct * callback)
}.

Inductive enumLoginResult : Set :=
| enumLoginResult_Success | enumLoginResult_Fail | enumLoginResult_NameFail
| enumLoginResult_PwdFail | enumLoginResult_HaveLogin.

Inductive user_msg : Type :=
| LoginFailed (result : enumLoginResult)
| LoginResponse (gate_ip : string) (gate_port user_account : Z)
| RegisterAccountFaildACK.

Inductive gate_msg : Type :=
| MsgLN2GTKickUser (account transid : Z)
| MsgLN2GTUserLogin (account transid : Z).

(** Messages given to the sessions' [sendPBMessage] (a session without a
    connection drops them, [TcpSession.send_message]) and closed connections. *)
Inductive effect : Type :=
| ToUser (s : Z) (m : user_msg)
| ToGate (g : Z) (m : gate_msg)
| CloseGateSession (g : Z).

Definition handler (A : Type) : Type := M world effect A.

(** *** Field updates *)

Definition set_accts (w : world) x : world := mk_world x (m_Gates w) (m_WaitSessions w) (users w) (gates w) (tasks w).
Definition set_gate_table (w : world) x : world := mk_world (m_Accts w) x (m_WaitSessions w) (users w) (gates w) (tasks w).
Definition set_waits (w : world) x : world := mk_world (m_Accts w) (m_Gates w) x (users w) (gates w) (tasks w).
Definition set_users (w : world) x : world := mk_world (m_Accts w) (m_Gates w) (m_WaitSessions w) x (gates w) (tasks w).
Definition set_gates (w : world) x : world := mk_world (m_Accts w) (m_Gates w) (m_WaitSessions w) (users w) x (tasks w).
Definition set_tasks (w : world) x : world := mk_world (m_Accts w) (m_Gates w) (m_WaitSessions w) (users w) (gates w) x.

Definition with_state (u : UserLoginSession) st ev : UserLoginSession :=
  mk_user (m_accid u) st (is_valid u) (remote_address u) ev.
Definition with_account (u : UserLoginSession) a : UserLoginSession :=
  mk_user a (m_state u) (is_valid u) (remote_address u) (close_events u).
Definition with_balance (g : GateSession) l : GateSession :=
  mk_gate (gate_id g) (onlines g) (out_ip g) (out_port g) l.
Definition with_onlines (g : GateSession) n : GateSession :=
  mk_gate (gate_id g) n (out_ip g) (out_port g) (_balence_time g).

Definition user_of (s : Z) : handler UserLoginSession :=
  w <- mget ;; match users w !! s with Some u => mret' u | None => mub "null UserLoginSession" end.
Definition put_user (s : Z) (u : UserLoginSession) : handler unit :=
  mmodify (fun w => set_users w (<[s := u]> (users w))).
Definition gate_of (g : Z) : handler GateSession :=
  w <- mget ;; match gates w !! g with Some x => mret' x | None => mub "null GateSession" end.
Definition put_gate (g : Z) (x : GateSession) : handler unit :=
  mmodify (fun w => set_gates w (<[g := x]> (gates w))).

(** *** [UserLoginSession] *)

Definition _TIME_SECOND_MSEL_ : Z := 1000.
Definition _SESSION_WAIT_ACCOUNT_ : Z := 30 * _TIME_SECOND_MSEL_.
Definition _SESSION_CHECK_ACCOUNT_ : Z := 60 * _TIME_SECOND_MSEL_.
Definition _SESSION_WAIT_GATE_ : Z := 60 * _TIME_SECOND_MSEL_.
Definition _SESSION_WAIT_CLOSE : Z := 5 * _TIME_SECOND_MSEL_.

(** [modifyEventTimeAndTimeLeft] on every pending event, if there is one. *)
Definition retime (ev : list Z) (t : Z) : list Z := (fun _ => t) <$> ev.

Definition setState_events (s : user_state) (ev : list Z) : list Z :=
  match s with
  | _disable_ => []
  | _wait_data_ => ev ++ [_SESSION_WAIT_ACCOUNT_]
  | _checking_data_ => retime ev _SESSION_CHECK_ACCOUNT_
  | _wait_gate_ => retime ev _SESSION_WAIT_GATE_
  | _wait_close_ => retime ev _SESSION_WAIT_CLOSE
  end.

Definition setState (s : Z) (st : user_state) : handler unit :=
  u <- user_of s ;; put_user s (with_state u st (setState_events st (close_events u))).

Definition setAccount (s acc : Z) : handler unit := u <- user_of s ;; put_user s (with_account u acc).

(** [on_accept]; [addr] is the peer. *)
Definition user_on_accept (s : Z) (addr : string) : handler unit :=
  u <- user_of s ;;
  put_user s (mk_user (m_accid u) (m_state u) true addr (close_events u)) ;;;
  setState s _wait_data_.

(** [reset], by [free_session] of [tcp_session::on_close]. *)
Definition user_reset (s : Z) : handler unit :=
  u <- user_of s ;; put_user s (mk_user 0 _disable_ false EmptyString (close_events u)).

Definition user_on_close (s : Z) : handler unit := setState s _disable_ ;;; user_reset s.

(** *** [GateSession] *)

(** [_BALENCE_TIME_ * 20 + time_temp], textually [2 * _TIME_SECOND_MSEL_ * 20 + time_temp]. *)
Definition balance_expired (g_server_time t : Z) : bool := u64 (2 * _TIME_SECOND_MSEL_ * 20 + t) <? g_server_time.

Definition addBalenceTime (g_server_time g : Z) : handler unit :=
  x <- gate_of g ;; put_gate g (with_balance x (_balence_time x ++ [g_server_time])).

Definition balenceInfoEvent (g_server_time g : Z) : handler unit :=
  x <- gate_of g ;;
  put_gate g (with_balance x (List.filter (fun t => negb (balance_expired g_server_time t)) (_balence_time x))).

(** [int temp_count = onlines + size ()]. *)
Definition getBalenceCount (x : GateSession) : Z := s32 (onlines x + Z.of_nat (length (_balence_time x))).

(** *** [GateManager] *)

Definition in_gate_range (nId : Z) : bool := (INVALID_GATE_ID <? nId) && (nId <? MAX_GATE_ID).

Definition addGate (nId pkGate : Z) : handler unit :=
  mwhen (in_gate_range nId) (mmodify (fun w => set_gate_table w (<[nId := pkGate]> (m_Gates w)))).

Definition removeGate (pkGate : Z) : handler unit :=
  x <- gate_of pkGate ;;
  w <- mget ;;
  if in_gate_range (gate_id x) then
    if bool_decide (m_Gates w !! gate_id x = Some pkGate)
    then mput (set_gate_table w (delete (gate_id x) (m_Gates w)))
    else mret' tt
  else mret' tt.

Definition kickUserFromGate (a : Account) : handler unit :=
  w <- mget ;;
  if (INVALID_GATE_ID <=? nGateId a) && (nGateId a <? MAX_GATE_ID) then
    match m_Gates w !! nGateId a with
    | Some g => memit (ToGate g (MsgLN2GTKickUser (nId a) (nTranId a)))
    | None => mret' tt
    end
  else mret' tt.

(** One turn of the loop of [getIdleGate] on [m_Gates[i]]. *)
Definition idle_step (best : option Z) (i : Z) : handler (option Z) :=
  w <- mget ;;
  match m_Gates w !! i with
  | None => mret' best
  | Some g =>
      match best with
      | None => mret' (Some g)
      | Some b =>
          xb <- gate_of b ;;
          xg <- gate_of g ;;
          mret' (if getBalenceCount xg <? getBalenceCount xb then Some g else Some b)
      end
  end.

Fixpoint idle_loop (l : list Z) (best : option Z) : handler (option Z) :=
  match l with
  | [] => mret' best
  | i :: l' => b <- idle_step best i ;; idle_loop l' b
  end.

Definition gate_indices : list Z := seqZ 0 MAX_GATE_ID.

Definition getIdleGate : handler (option Z) := idle_loop gate_indices None.

Definition getWaiteSession (w : world) (nAccountId : Z) : option Z := m_WaitSessions w !! u32 nAccountId.

Definition removeWaitSession (nAccountId : Z) : handler unit :=
  mmodify (fun w => set_waits w (ObjPtrMap.eraseData (m_WaitSessions w) (u32 nAccountId)).1).

(** The account is the entry of [m_Accts] under [key], where the code has a pointer to it. *)
Definition account_of (key : Z) : handler Account :=
  w <- mget ;; match m_Accts w !! key with Some a => mret' a | None => mub "null Account" end.
Definition put_account (key : Z) (a : Account) : handler unit :=
  mmodify (fun w => set_accts w (<[key := a]> (m_Accts w))).

Definition giveUserToGate (g_server_time key s : Z) : handler bool :=
  idle <- getIdleGate ;;
  match idle with
  | None => mret' false
  | Some g =>
      x <- gate_of g ;;
      a <- account_of key ;;
      put_account key (mk_account (gate_id x) (nId a) (nTranId a)) ;;;
      setAccount s (nId a) ;;;
      setState s _wait_gate_ ;;;
      addBalenceTime g_server_time g ;;;
      mmodify (fun w => set_waits w (ObjPtrMap.addData (m_WaitSessions w) (nTranId a) s).1) ;;;
      memit (ToGate g (MsgLN2GTUserLogin (nId a) (nTranId a))) ;;;
      mret' true
  end.

Definition receiveUserPrepar (ntran : Z) (ip : string) (port : Z) : handler unit :=
  w <- mget ;;
  match getWaiteSession w ntran with
  | Some s =>
      memit (ToUser s (LoginResponse ip port (u32 ntran))) ;;;
      setState s _wait_close_ ;;;
      removeWaitSession ntran
  | None => mret' tt
  end.

(** *** [AccountManager] *)

Definition addAccount (account tranid gate : Z) : handler unit :=
  mmodify (fun w => set_accts w (<[account := mk_account gate account tranid]> (m_Accts w))).

Definition removeAccount (a : Z) : handler unit :=
  mmodify (fun w => set_accts w (ObjPtrMap.eraseData (m_Accts w) a).1).

Definition string_bytes (s : string) : list Z :=
  (fun a => Z.of_N (N_of_ascii a)) <$> list_ascii_of_string s.

(** [makeTransId] at time [now]. *)
Definition makeTransId (now : Z) (s : string) : Z :=
  Ssl.sslCrc32 (Some (string_bytes (s +:+ print_d now))).

(** [batchQuery] on the rows of [CALL CheckAccount] or [CALL NewAccount]; it runs in
    a worker thread and changes only its [CheckAcct]. *)
Definition procedure_of (t : check_kind) : string :=
  match t with
  | _login_check_ => "CALL CheckAccount(%0q, %1q)"
  | _new_acc_check_ => "CALL NewAccount(%0q, %1q)"
  end.

Definition batchQuery (rows : list (Z * Z)) (c : CheckAcct) : CheckAcct :=
  match rows with
  | (a, r) :: _ => mk_check (str c) (pwd c) (u8 r) (ower c) (u32 a) (check_type c)
  | [] => c
  end.

Definition addBatchTask (c : CheckAcct) (cb : callback) : handler unit :=
  mmodify (fun w => set_tasks w (tasks w ++ [(c, cb)])).

Definition checkAccount (strName strPwd : string) (p : Z) (t : check_kind) : handler unit :=
  setState p _checking_data_ ;;;
  addBatchTask (new_CheckAcct strName strPwd t p)
    (match t with _login_check_ => checkAccountCallCb | _new_acc_check_ => CreateNewAccountCb end).

Definition CreateNewAccount (data : CheckAcct) (sucess : bool) : handler unit :=
  u <- user_of (ower data) ;;
  if is_valid u then
    if negb sucess then
      memit (ToUser (ower data) RegisterAccountFaildACK) ;;; setState (ower data) _wait_close_
    else if negb (result data =? 0) then
      memit (ToUser (ower data) RegisterAccountFaildACK) ;;; setState (ower data) _wait_close_
    else addBatchTask (new_CheckAcct (str data) (pwd data) _login_check_ (ower data)) checkAccountCallCb
  else mret' tt.

(** [now] is [time()], [g_server_time] the main loop's copy of it. *)
Definition checkAccountCall (now g_server_time : Z) (data : CheckAcct) (sucess : bool) : handler unit :=
  let s := ower data in
  u <- user_of s ;;
  if is_valid u then
    if negb sucess then
      memit (ToUser s (LoginFailed enumLoginResult_Fail)) ;;; setState s _wait_close_
    else if negb (acct data =? INVALID_ACCOUNT) then
      w <- mget ;;
      (match m_Accts w !! acct data with
       | Some p => kickUserFromGate p
       | None => put_account (acct data) (mk_account INVALID_GATE_ID INVALID_ACCOUNT INVALID_TRANS_ID)
       end) ;;;
      let str' := str data +:+ pwd data +:+ remote_address u in
      put_account (acct data) (mk_account INVALID_GAME_ID (acct data) (makeTransId now str')) ;;;
      given <- giveUserToGate g_server_time (acct data) s ;;
      if given then mret' tt
      else
        removeAccount (acct data) ;;;
        memit (ToUser s (LoginFailed enumLoginResult_Fail)) ;;;
        setState s _wait_close_
    else
      setState s _wait_close_ ;;;
      memit (ToUser s (LoginFailed enumLoginResult_NameFail))
  else mret' tt.

(** *** [GateSession]: messages *)

Definition parseGateOnlines (g n : Z) : handler unit := x <- gate_of g ;; put_gate g (with_onlines x n).

Definition parseGateUserPrepar (g account : Z) : handler unit :=
  x <- gate_of g ;; receiveUserPrepar account (out_ip x) (out_port x).

(** One turn of the loop over the gate's accounts; [ndebug] says whether the
    [assert] is compiled out. *)
Definition register_account (ndebug : bool) (g : Z) (d : Z * Z) : handler unit :=
  x <- gate_of g ;;
  w <- mget ;;
  (match m_Accts w !! d.1 with
   | Some p =>
       if negb (nGateId p =? gate_id x) then
         if ndebug then kickUserFromGate p else mub "assert( p->nGateId == m_GateInfo.gate_id)"
       else mret' tt
   | None => mret' tt
   end) ;;;
  addAccount d.1 d.2 (gate_id x).

Definition parseGateRegister (ndebug : bool) (own : Version) (g serverid : Z) (v : Version) (ip : string) (port : Z)
    (accounts : list (Z * Z)) : handler unit :=
  x <- gate_of g ;;
  put_gate g (mk_gate (u8 serverid) (onlines x) (out_ip x) (out_port x) (_balence_time x)) ;;;
  (if negb (checkVersion own (nMajor v) (nMinor v) (nBuild v) (nAppSvn v)) then memit (CloseGateSession g) else mret' tt) ;;;
  x <- gate_of g ;;
  put_gate g (mk_gate (gate_id x) (u32 (Z.of_nat (length accounts))) ip (u16 port) (_balence_time x)) ;;;
  addGate (gate_id x) g ;;;
  mfor accounts (register_account ndebug g).

Definition gate_on_close (g : Z) : handler unit := removeGate g.

(** *** Everything that happens to the process *)

Inductive event : Type :=
| NewUserObject (s : Z)
| NewGateObject (g : Z)
| UserAccept (s : Z) (addr : string)
| UserClose (s : Z)
| LoginRequest (s : Z) (name pwd : string)
| RegisterAccountRequest (s : Z) (name pwd : string)
| DbAnswer (i : nat) (rows : option (list (Z * Z)))
| GateRegister (g serverid : Z) (v : Version) (ip : string) (port : Z) (accounts : list (Z * Z))
| GateOnlines (g n : Z)
| GatePrepar (g account : Z)
| GateClose (g : Z)
| BalanceTimer (g : Z).

Section process.
Context (ndebug : bool) (own : Version) (now : Z).

(** [DbAnswer i rows]: the answer of the [i]th query under way, [None] when the
    transaction failed. *)
Definition db_answer (i : nat) (rows : option (list (Z * Z))) : handler unit :=
  w <- mget ;;
  match tasks w !! i with
  | None => mret' tt
  | Some (c, cb) =>
      mput (set_tasks w (take i (tasks w) ++ drop (S i) (tasks w))) ;;;
      let c' := match rows with Some r => batchQuery r c | None => c end in
      let ok := match rows with Some _ => true | None => false end in
      match cb with
      | CreateNewAccountCb => CreateNewAccount c' ok
      | checkAccountCallCb => checkAccountCall now now c' ok
      end
  end.

Definition handle (e : event) : handler unit :=
  match e with
  | NewUserObject s =>
      w <- mget ;;
      match users w !! s with Some _ => mret' tt | None => put_user s (mk_user 0 _disable_ false EmptyString []) end
  | NewGateObject g =>
      w <- mget ;;
      match gates w !! g with Some _ => mret' tt | None => put_gate g (mk_gate 0 0 "127.0.0.1" 0 []) end
  | UserAccept s addr => user_on_accept s addr
  | UserClose s => user_on_close s
  | LoginRequest s name pwd => checkAccount name pwd s _login_check_
  | RegisterAccountRequest s name pwd => checkAccount name pwd s _new_acc_check_
  | DbAnswer i rows => db_answer i rows
  | GateRegister g serverid v ip port accounts => parseGateRegister ndebug own g serverid v ip port accounts
  | GateOnlines g n => parseGateOnlines g n
  | GatePrepar g account => parseGateUserPrepar g account
  | GateClose g => gate_on_close g
  | BalanceTimer g => balenceInfoEvent now g
  end.

End process.

(** The events [l], one after the other. *)
Definition play_effects (ndebug : bool) (own : Version) (now : Z) (l : list event) : handler unit :=
  mfor l (handle ndebug own now).

Definition init : world := mk_world ∅ ∅ ∅ ∅ ∅ [].

End Login.

Module Bans.

(** [BanAndMute], made with [INVALID_ACCOUNT]; [m_BanAndMute] by account. *)
Record BanAndMute : Type := mk_ban { nId : Z; nBan : Z; nMute : Z }.

Definition construct : BanAndMute := mk_ban 0 0 0.

(** One turn of the loop of [loadBanCall]: the columns of a row as [u32]s.  An object
    that is there is written through its pointer, and [addData] then does nothing. *)
Definition load_row (m : gmap Z BanAndMute) (row : Z * Z * Z) : gmap Z BanAndMute :=
  let '(id, ban, mute) := row in
  match ObjPtrMap.getData m id with
  | None => (ObjPtrMap.addData m id (mk_ban id ban mute)).1
  | Some pkBan => <[id := mk_ban id ban mute]> m
  end.

Definition loadBanCall (m : gmap Z BanAndMute) (r : list (Z * Z * Z)) : bool * gmap Z BanAndMute :=
  (true, fold_left load_row r m).

(** What looks the account up is commented out. *)
Definition isBanned (nAccountId : Z) : bool := false.

(** What the lines commented out compute. *)
Definition banned_until (m : gmap Z BanAndMute) (nAccountId now : Z) : bool :=
  match m !! nAccountId with Some b => now <=? nBan b | None => false end.

End Bans.

Import Version Login.

(** ** The choice of a gate *)

(** A gate's players and the logins it was given lately. *)
Definition load (x : GateSession) : Z := onlines x + Z.of_nat (length (_balence_time x)).

(** Every gate of the table is an object. *)
Definition gates_exist (w : world) : Prop := forall i g, m_Gates w !! i = Some g -> is_Some (gates w !! g).

Definition balance_of (w : world) (g : Z) : Z :=
  match gates w !! g with Some x => getBalenceCount x | None => 0 end.

(** [idle_step] without its effects. *)
Definition idle_pick (w : world) (best : option Z) (i : Z) : option Z :=
  match m_Gates w !! i, best with
  | None, _ => best
  | Some g, None => Some g
  | Some g, Some b => if balance_of w g <? balance_of w b then Some g else Some b
  end.

Definition known (w : world) (best : option Z) : Prop :=
  match best with Some b => is_Some (gates w !! b) | None => True end.

Lemma gate_of_run w g x : gates w !! g = Some x -> gate_of g w = Ret (x, w, []).
Proof. intros Hg. unfold gate_of, mbind', mget. by rewrite Hg. Qed.

Lemma user_of_run w s u : users w !! s = Some u -> user_of s w = Ret (u, w, []).
Proof. intros Hu. unfold user_of, mbind', mget. by rewrite Hu. Qed.

Lemma account_of_run w k a : m_Accts w !! k = Some a -> account_of k w = Ret (a, w, []).
Proof. intros Ha. unfold account_of, mbind', mget. by rewrite Ha. Qed.

Lemma idle_step_run w best i :
  gates_exist w -> known w best ->
  idle_step best i w = Ret (idle_pick w best i, w, []) /\ known w (idle_pick w best i).
Proof.
  intros Hex Hb. unfold idle_step, idle_pick. unfold mbind' at 1, mget.
  destruct (m_Gates w !! i) as [g|] eqn:Hi; [|by split].
  destruct (Hex _ _ Hi) as [xg Hg]. destruct best as [b|]; [|split; [done|by exists xg]].
  destruct Hb as [xb Hxb]. rewrite (mbind_pure _ _ _ _ (gate_of_run w b xb Hxb)), (mbind_pure _ _ _ _ (gate_of_run w g xg Hg)).
  unfold balance_of. rewrite Hg, Hxb. split; [done|]. case_match; cbn; rewrite ?Hg, ?Hxb; eauto.
Qed.

Lemma idle_loop_run w l best :
  gates_exist w -> known w best -> idle_loop l best w = Ret (foldl (idle_pick w) best l, w, []).
Proof.
  intros Hex. revert best. induction l as [|i l IH]; intros best Hb; [done|].
  destruct (idle_step_run w best i Hex Hb) as [Hr Hk]. cbn [idle_loop foldl].
  rewrite (mbind_pure _ _ _ _ Hr). by apply IH.
Qed.

(** What has been picked after the indices [l]: the first gate of least balance. *)
Definition picked (w : world) (l : list Z) (r : option Z) : Prop :=
  match r with
  | None => forall i, i ∈ l -> m_Gates w !! i = None
  | Some b =>
      exists l1 i l2, l = l1 ++ i :: l2 /\ m_Gates w !! i = Some b /\
        (forall j g, j ∈ l1 -> m_Gates w !! j = Some g -> balance_of w b < balance_of w g) /\
        (forall j g, j ∈ l2 -> m_Gates w !! j = Some g -> balance_of w b <= balance_of w g)
  end.

Lemma idle_picked w l : picked w l (foldl (idle_pick w) None l).
Proof.
  induction l as [|i l IH] using rev_ind; [by intros i ?%elem_of_nil|].
  rewrite foldl_app. cbn [foldl]. set (r := foldl (idle_pick w) None l) in *. unfold idle_pick.
  destruct (m_Gates w !! i) as [g|] eqn:Hi; destruct r as [b|]; cbn in IH |- *.
  - destruct IH as (l1 & k & l2 & -> & Hk & H1 & H2). case_match eqn:Hlt.
    + apply Z.ltb_lt in Hlt. exists (l1 ++ k :: l2), i, []. split_and!; [done|done| |by intros ? ? ?%elem_of_nil].
      intros j g' [Hj|[->|Hj]%elem_of_cons]%elem_of_app Hg'; [specialize (H1 _ _ Hj Hg')| |specialize (H2 _ _ Hj Hg')]; try lia.
      rewrite Hk in Hg'. injection Hg' as ->. lia.
    + apply Z.ltb_ge in Hlt. exists l1, k, (l2 ++ [i]). split_and!; [by rewrite <- app_assoc|done|done|].
      intros j g' [Hj|Hj]%elem_of_app Hg'; [by eapply H2|]. apply list_elem_of_singleton in Hj as ->.
      rewrite Hi in Hg'. injection Hg' as <-. lia.
  - exists l, i, []. split_and!; [done|done| |by intros ? ? ?%elem_of_nil].
    intros j g' Hj Hg'. by rewrite IH in Hg'.
  - destruct IH as (l1 & k & l2 & -> & Hk & H1 & H2). exists l1, k, (l2 ++ [i]).
    split_and!; [by rewrite <- app_assoc|done|done|].
    intros j g' [Hj|Hj]%elem_of_app Hg'; [by eapply H2|]. apply list_elem_of_singleton in Hj as ->. congruence.
  - intros j [Hj|Hj]%elem_of_app; [by apply IH|]. by apply list_elem_of_singleton in Hj as ->.
Qed.

Lemma getIdleGate_run w : gates_exist w -> getIdleGate w = Ret (foldl (idle_pick w) None gate_indices, w, []).
Proof. intros Hex. by apply idle_loop_run. Qed.

Lemma balance_load w g x : gates w !! g = Some x -> 0 <= load x < 2 ^ 31 -> balance_of w g = load x.
Proof. intros Hg Hl. unfold balance_of. rewrite Hg. apply s32_id. unfold load in *. mach. Qed.

(** Before and after an index of [gate_indices] are the smaller and larger ones. *)
Lemma gate_indices_split l1 i l2 j :
  gate_indices = l1 ++ i :: l2 -> 0 <= j < MAX_GATE_ID ->
  0 <= i < MAX_GATE_ID /\ (j < i -> j ∈ l1) /\ (i < j -> j ∈ l2).
Proof.
  intros Heq Hj. assert (Hn : forall k z, gate_indices !! k = Some z -> z = Z.of_nat k /\ 0 <= z < MAX_GATE_ID).
  { intros k z. unfold gate_indices. rewrite lookup_seqZ. lia. }
  assert (Hi : i = Z.of_nat (length l1) /\ 0 <= i < MAX_GATE_ID).
  { apply Hn. rewrite Heq. by apply list_lookup_middle. }
  assert (Hlk : gate_indices !! Z.to_nat j = Some j) by (apply lookup_seqZ; lia).
  split; [apply Hi|]. destruct Hi as [-> _]. rewrite Heq in Hlk. split; intros Hlt.
  - rewrite lookup_app_l in Hlk by lia. by eapply list_elem_of_lookup_2.
  - rewrite lookup_app_r in Hlk by lia. destruct (Z.to_nat j - length l1)%nat as [|k] eqn:Hk; [lia|].
    by eapply list_elem_of_lookup_2.
Qed.

(** [getIdleGate] changes nothing and returns no gate exactly when none is
    registered; otherwise it returns a gate that has the least load (its players
    plus the logins it was given lately), the one of least number among those.
    The loads are added into an [int]: they must stay below 2^31. *)
Theorem getIdleGate_least_loaded w :
  gates_exist w -> (forall g x, gates w !! g = Some x -> 0 <= load x < 2 ^ 31) ->
  exists r, getIdleGate w = Ret (r, w, []) /\
    match r with
    | None => forall i, 0 <= i < MAX_GATE_ID -> m_Gates w !! i = None
    | Some b =>
        exists i xb, 0 <= i < MAX_GATE_ID /\ m_Gates w !! i = Some b /\ gates w !! b = Some xb /\
          forall j g x, 0 <= j < MAX_GATE_ID -> m_Gates w !! j = Some g -> gates w !! g = Some x ->
            load xb <= load x /\ (j < i -> load xb < load x)
    end.
Proof.
  intros Hex Hld. eexists. split; [by apply getIdleGate_run|].
  pose proof (idle_picked w gate_indices) as Hp. destruct (foldl _ _ _) as [b|].
  - destruct Hp as (l1 & i & l2 & Heq & Hi & H1 & H2). destruct (Hex _ _ Hi) as [xb Hxb].
    exists i, xb. split; [by apply (gate_indices_split _ _ _ 0 Heq)|]. split_and!; [done..|].
    intros j g x Hj Hg Hx. destruct (gate_indices_split _ _ _ j Heq Hj) as (_ & Hlt & Hgt).
    rewrite <- (balance_load w g x), <- (balance_load w b xb) by eauto.
    destruct (Z.lt_trichotomy j i) as [H|[->|H]].
    + specialize (H1 j g (Hlt H) Hg). split; [|intros _]; lia.
    + rewrite Hi in Hg. injection Hg as ->. lia.
    + specialize (H2 j g (Hgt H) Hg). split; [|intros ?]; lia.
  - intros i Hi. apply Hp, elem_of_seqZ. lia.
Qed.

(** Three gates; the second and the third have one player each. *)
Definition three_gates : world :=
  mk_world ∅ {[ 1 := 10; 2 := 20; 3 := 30 ]} ∅ ∅
    {[ 10 := mk_gate 1 5 "a" 1 []; 20 := mk_gate 2 1 "b" 2 []; 30 := mk_gate 3 0 "c" 3 [100] ]} [].

Lemma three_gates_exist : gates_exist three_gates.
Proof.
  intros i g Hi. cbn in Hi. rewrite !lookup_insert_Some, lookup_singleton_Some in Hi.
  destruct Hi as [[_ <-]|[_ [[_ <-]|[_ [_ <-]]]]]; eexists; reflexivity.
Qed.

Lemma three_gates_loads g x : gates three_gates !! g = Some x -> 0 <= load x < 2 ^ 31.
Proof.
  intros Hg. cbn in Hg. rewrite !lookup_insert_Some, lookup_singleton_Some in Hg.
  destruct Hg as [[_ <-]|[_ [[_ <-]|[_ [_ <-]]]]]; unfold load; cbn; lia.
Qed.

Lemma getIdleGate_least_loaded_witness :
  getIdleGate three_gates = Ret (Some 20, three_gates, []) /\
  exists r, getIdleGate three_gates = Ret (r, three_gates, []).
Proof.
  split; [vm_compute; reflexivity|].
  destruct (getIdleGate_least_loaded three_gates three_gates_exist three_gates_loads) as (r & Hr & _).
  exists r. exact Hr.
Defined.

(** The sum wraps: a gate that reports 2^31 players is taken for the emptiest. *)
Lemma balance_wraps :
  let w := mk_world ∅ {[ 1 := 10; 2 := 20 ]} ∅ ∅
             {[ 10 := mk_gate 1 0 "a" 1 []; 20 := mk_gate 2 (2 ^ 31) "b" 2 [] ]} [] in
  getIdleGate w = Ret (Some 20, w, []).
Proof. vm_compute. reflexivity. Qed.

(** ** The answer to a login *)

#[local] Opaque gate_indices.

Definition idle (w : world) : option Z := foldl (idle_pick w) None gate_indices.

(** The message that takes account [a] away from the gate it was given to. *)
Definition kick_of (w : world) (a : Z) : list effect :=
  match m_Accts w !! a with
  | Some p =>
      if (INVALID_GATE_ID <=? nGateId p) && (nGateId p <? MAX_GATE_ID) then
        match m_Gates w !! nGateId p with
        | Some g => [ToGate g (MsgLN2GTKickUser (nId p) (nTranId p))]
        | None => []
        end
      else []
  | None => []
  end.

Definition closing_user (u : UserLoginSession) : UserLoginSession :=
  with_state u _wait_close_ (retime (close_events u) _SESSION_WAIT_CLOSE).

Definition waiting_user (u : UserLoginSession) (a : Z) : UserLoginSession :=
  mk_user a _wait_gate_ (is_valid u) (remote_address u) (retime (close_events u) _SESSION_WAIT_GATE_).

(** Account [a] given to gate [g] with transaction [t], session [s] waiting. *)
Definition given (w : world) (now : Z) (a t s g : Z) (x : GateSession) (u : UserLoginSession) : world :=
  mk_world (<[a := mk_account (gate_id x) a t]> (m_Accts w)) (m_Gates w)
    (ObjPtrMap.addData (m_WaitSessions w) t s).1 (<[s := waiting_user u a]> (users w))
    (<[g := with_balance x (_balence_time x ++ [now])]> (gates w)) (tasks w).

Lemma kick_run w p a :
  m_Accts w !! a = Some p -> kickUserFromGate p w = Ret (tt, w, kick_of w a).
Proof.
  intros Ha. unfold kickUserFromGate, kick_of, mbind', mget. rewrite Ha.
  destruct (_ && _); [|done]. by destruct (m_Gates w !! nGateId p).
Qed.

Lemma setState_run w s st u :
  users w !! s = Some u ->
  setState s st w = Ret (tt, set_users w (<[s := with_state u st (setState_events st (close_events u))]> (users w)), []).
Proof. intros Hu. unfold setState. by rewrite (mbind_pure _ _ _ _ (user_of_run w s u Hu)). Qed.

Lemma setAccount_run w s acc u :
  users w !! s = Some u -> setAccount s acc w = Ret (tt, set_users w (<[s := with_account u acc]> (users w)), []).
Proof. intros Hu. unfold setAccount. by rewrite (mbind_pure _ _ _ _ (user_of_run w s u Hu)). Qed.

(** The choice depends on the gates alone. *)
Lemma idle_same w w' : m_Gates w' = m_Gates w -> gates w' = gates w -> idle w' = idle w.
Proof.
  intros H1 H2. unfold idle. generalize (@None Z). induction gate_indices as [|i l IH]; intros b; [done|].
  cbn [foldl]. rewrite IH. f_equal. unfold idle_pick, balance_of. by rewrite H1, H2.
Qed.

Lemma picked_exists w l g :
  gates_exist w -> foldl (idle_pick w) None l = Some g -> is_Some (gates w !! g) /\ exists i, m_Gates w !! i = Some g.
Proof.
  intros Hex Hi. pose proof (idle_picked w l) as Hp. rewrite Hi in Hp.
  destruct Hp as (l1 & i & l2 & _ & Hg & _). eauto.
Qed.

Lemma idle_exists w g : gates_exist w -> idle w = Some g -> is_Some (gates w !! g) /\ exists i, m_Gates w !! i = Some g.
Proof. exact (picked_exists w gate_indices g). Qed.

Lemma giveUserToGate_run w now key s g x a t gid u :
  gates_exist w -> idle w = Some g -> gates w !! g = Some x ->
  m_Accts w !! key = Some (mk_account gid a t) -> users w !! s = Some u -> key = a ->
  giveUserToGate now key s w = Ret (true, given w now a t s g x u, [ToGate g (MsgLN2GTUserLogin a t)]).
Proof.
  intros Hex Hi Hx Ha Hu ->. unfold giveUserToGate.
  rewrite (mbind_pure _ _ _ _ (getIdleGate_run w Hex)). fold (idle w). rewrite Hi.
  rewrite (mbind_pure _ _ _ _ (gate_of_run w g x Hx)), (mbind_pure _ _ _ _ (account_of_run w a _ Ha)).
  cbn [nId nTranId]. set (w1 := set_accts w (<[a := mk_account (gate_id x) a t]> (m_Accts w))).
  rewrite (mbind_run (put_account _ _) _ w tt w1 []) by done.
  rewrite (mbind_run _ _ _ _ _ _ (setAccount_run w1 s a u Hu)).
  set (w2 := set_users w1 _).
  assert (Hu2 : users w2 !! s = Some (with_account u a)) by (cbn; apply lookup_insert_eq).
  rewrite (mbind_run _ _ _ _ _ _ (setState_run w2 s _wait_gate_ _ Hu2)). unfold addBalenceTime.
  set (w3 := set_users w2 _). assert (Hx3 : gates w3 !! g = Some x) by done.
  rewrite mbind_assoc, (mbind_pure _ _ _ _ (gate_of_run w3 g x Hx3)).
  unfold mbind', put_gate, mmodify, memit, mret', given, waiting_user. subst w3 w2 w1. cbn.
  by rewrite insert_insert_eq.
Qed.

Lemma giveUserToGate_none w now key s :
  gates_exist w -> idle w = None -> giveUserToGate now key s w = Ret (false, w, []).
Proof.
  intros Hex Hi. unfold giveUserToGate. rewrite (mbind_pure _ _ _ _ (getIdleGate_run w Hex)).
  fold (idle w). by rewrite Hi.
Qed.

(** The part of [checkAccountCall] before the gate is chosen: the account is
    taken from its gate, or made. *)
Lemma take_account_run w a :
  exists w1, (match m_Accts w !! a with
      | Some p => kickUserFromGate p
      | None => put_account a (mk_account INVALID_GATE_ID INVALID_ACCOUNT INVALID_TRANS_ID)
      end) w = Ret (tt, w1, kick_of w a) /\
    w1 = set_accts w (m_Accts w1) /\ forall b, b <> a -> m_Accts w1 !! b = m_Accts w !! b.
Proof.
  destruct (m_Accts w !! a) as [p|] eqn:Ha.
  - exists w. split; [by apply kick_run|]. by destruct w.
  - eexists. split; [unfold kick_of; rewrite Ha; reflexivity|]. split; [done|].
    intros b Hb. cbn. by rewrite lookup_insert_ne.
Qed.

(** What [checkAccountCall] does to the world and sends, from the verdict of the
    database and the gates. *)
Definition login_outcome (now : Z) (w : world) (c : CheckAcct) (sucess : bool) (u : UserLoginSession)
    : world * list effect :=
  let s := ower c in
  let a := acct c in
  let t := makeTransId now (str c +:+ pwd c +:+ remote_address u) in
  let refused w r := (set_users w (<[s := closing_user u]> (users w)), [ToUser s (LoginFailed r)]) in
  if negb (is_valid u) then (w, [])
  else if negb sucess then refused w enumLoginResult_Fail
  else if a =? INVALID_ACCOUNT then refused w enumLoginResult_NameFail
  else
    match idle w with
    | None => let '(w', o) := refused (set_accts w (delete a (m_Accts w))) enumLoginResult_Fail in (w', kick_of w a ++ o)
    | Some g =>
        match gates w !! g with
        | Some x => (given w now a t s g x u, kick_of w a ++ [ToGate g (MsgLN2GTUserLogin a t)])
        | None => (w, [])
        end
    end.

Lemma set_accts_twice w x y : set_accts (set_accts w x) y = set_accts w y.
Proof. done. Qed.

Lemma checkAccountCall_run now w c sucess u :
  users w !! ower c = Some u -> gates_exist w ->
  checkAccountCall now now c sucess w =
  Ret (tt, (login_outcome now w c sucess u).1, (login_outcome now w c sucess u).2).
Proof.
  intros Hu Hex. unfold checkAccountCall, login_outcome. rewrite (mbind_pure _ _ _ _ (user_of_run w _ u Hu)).
  destruct (is_valid u) eqn:Hv; [cbn [negb]|done]. destruct sucess; cbn [negb].
  2:{ unfold mbind' at 1, memit. by rewrite (setState_run w _ _ u Hu). }
  destruct (Z.eqb_spec (acct c) INVALID_ACCOUNT) as [Ha|Ha]; cbn [negb].
  { by rewrite (mbind_run _ _ _ _ _ _ (setState_run w _ _ u Hu)). }
  unfold mbind' at 1, mget. destruct (take_account_run w (acct c)) as (w1 & Hr & Hw1 & Hrest).
  rewrite (mbind_run _ _ _ _ _ _ Hr).
  set (t := makeTransId now _). set (w2 := set_accts w (<[acct c := mk_account INVALID_GAME_ID (acct c) t]> (m_Accts w))).
  assert (Hput : put_account (acct c) (mk_account INVALID_GAME_ID (acct c) t) w1 = Ret (tt, w2, [])).
  { unfold put_account, mmodify. do 3 f_equal. unfold w2. rewrite Hw1. cbn. unfold set_accts. f_equal. apply map_eq. intros b.
    destruct (decide (b = acct c)) as [->|Hb]; [by rewrite !lookup_insert_eq|]. rewrite !lookup_insert_ne; auto. }
  rewrite (mbind_run _ _ _ _ _ _ Hput). rewrite <- (idle_same w w2) by done.
  destruct (idle w2) as [g|] eqn:Hi.
  - destruct (idle_exists w2 g Hex Hi) as [[x Hx] _]. change (gates w) with (gates w2). rewrite Hx.
    erewrite (mbind_run _ _ _ _ _ _ (giveUserToGate_run w2 now _ _ g x _ t _ u Hex Hi Hx _ Hu eq_refl)).
    Unshelve. 3: { cbn. by rewrite lookup_insert_eq. }
    cbn. unfold given. cbn. by rewrite insert_insert_eq.
  - rewrite (mbind_pure _ _ _ _ (giveUserToGate_none w2 now _ _ Hex Hi)).
    unfold removeAccount, ObjPtrMap.eraseData. unfold mbind', mmodify, memit. cbn [m_Accts w2 set_accts].
    rewrite lookup_insert_eq. cbn [fst]. rewrite (setState_run _ _ _ u) by done.
    cbn. by rewrite delete_insert_eq.
Qed.

(** ** One gate per account *)

Definition claims : Type := gset (Z * Z).

(** The pairs (account, gate connection) such that the gate holds the account:
    it was told of the login and not of a kick since. *)
Definition told (c : claims) (e : effect) : claims :=
  match e with
  | ToGate g (MsgLN2GTUserLogin a _) => {[ (a, g) ]} ∪ c
  | ToGate g (MsgLN2GTKickUser a _) => c ∖ {[ (a, g) ]}
  | _ => c
  end.

(** A lost gate holds nothing; a gate that registers holds the accounts it lists. *)
Definition before (e : event) (c : claims) : claims :=
  match e with
  | GateClose g => filter (fun p => p.2 <> g) c
  | GateRegister g _ _ _ _ accounts => list_to_set ((fun d => (d.1, g)) <$> accounts) ∪ c
  | _ => c
  end.

Definition claims_after (e : event) (o : list effect) (c : claims) : claims := foldl told (before e c) o.

(** Gates have numbers of their own, within the table, and register once per
    connection ([GateLoginClient::on_connect]). *)
Definition deployment_ok (w : world) (e : event) : Prop :=
  match e with
  | GateRegister g serverid _ _ _ _ =>
      in_gate_range (u8 serverid) = true /\ m_Gates w !! u8 serverid = None /\ forall i, m_Gates w !! i <> Some g
  | _ => True
  end.

Inductive step (ndebug : bool) (own : Version) : world * claims -> world * claims -> Prop :=
| step_event now e w c w' o :
    deployment_ok w e -> handle ndebug own now e w = Ret (tt, w', o) ->
    step ndebug own (w, c) (w', claims_after e o c).

(** [pending]: accounts of gate [g] whose registration is under way. *)
Record login_inv (g : Z) (pending : list Z) (w : world) (c : claims) : Prop := {
  li_gates : forall i h, m_Gates w !! i = Some h ->
    in_gate_range i = true /\ exists x, gates w !! h = Some x /\ gate_id x = i;
  li_claims : forall a h, (a, h) ∈ c ->
    (h = g /\ a ∈ pending) \/ exists p, m_Accts w !! a = Some p /\ m_Gates w !! nGateId p = Some h;
  li_ids : forall a p, m_Accts w !! a = Some p -> nId p = a
}.

Lemma login_inv_any g g' w c : login_inv g [] w c -> login_inv g' [] w c.
Proof. intros []. split; auto. intros a h Hin. destruct (li_claims0 _ _ Hin) as [[_ Hp]|?]; [by apply elem_of_nil in Hp|auto]. Qed.

Lemma inv_gates_exist g l w c : login_inv g l w c -> gates_exist w.
Proof. intros [] i h Hi. destruct (li_gates0 _ _ Hi) as (_ & x & Hx & _). eauto. Qed.

(** What [kick_of] leaves are the claims on other accounts. *)
Lemma told_kick g l w c a b h :
  login_inv g l w c ->
  (b, h) ∈ foldl told c (kick_of w a) -> (b, h) ∈ c /\ b <> a \/ (b, h) ∈ c /\ h = g /\ b ∈ l.
Proof.
  intros Hi Hin. assert (Hc : (b, h) ∈ c).
  { revert Hin. unfold kick_of. repeat case_match; cbn [foldl told]; set_solver. }
  destruct (decide (b = a)) as [->|]; [|auto].
  destruct (li_claims _ _ _ _ Hi _ _ Hc) as [[-> Hl]|(p & Hp & Hg)]; [by auto|].
  exfalso. destruct (li_gates _ _ _ _ Hi _ _ Hg) as (Hr & _). unfold in_gate_range, INVALID_GATE_ID, GameWorld.INVALID_GATE_ID in Hr.
  revert Hin. unfold kick_of. rewrite Hp, Hg, (li_ids _ _ _ _ Hi _ _ Hp).
  replace ((INVALID_GATE_ID <=? nGateId p) && (nGateId p <? MAX_GATE_ID)) with true.
  - cbn [foldl told]. set_solver.
  - symmetry. unfold INVALID_GATE_ID, GameWorld.INVALID_GATE_ID. apply andb_true_iff in Hr as [H1 H2].
    rewrite H2. apply Z.ltb_lt in H1. rewrite andb_true_r. apply Z.leb_le. lia.
Qed.

(** *** Events that concern neither accounts nor the table of gates *)

Record quiet (w w' : world) (o : list effect) : Prop := {
  q_accts : m_Accts w' = m_Accts w;
  q_table : m_Gates w' = m_Gates w;
  q_gates : forall g x, gates w !! g = Some x -> exists x', gates w' !! g = Some x' /\ gate_id x' = gate_id x;
  q_told : forall c, foldl told c o = c
}.

Definition is_quiet {A} (m : handler A) : Prop := forall w, wlp m (fun _ w' o => quiet w w' o) w.

Lemma quiet_refl w : quiet w w [].
Proof. split; eauto. Qed.

Lemma quiet_trans w1 w2 w3 o1 o2 : quiet w1 w2 o1 -> quiet w2 w3 o2 -> quiet w1 w3 (o1 ++ o2).
Proof.
  intros [A1 T1 G1 C1] [A2 T2 G2 C2]. split; [congruence..| |].
  - intros g x Hx. destruct (G1 _ _ Hx) as (y & Hy & Ey). destruct (G2 _ _ Hy) as (z & Hz & Ez). exists z. by rewrite Ez.
  - intros c. by rewrite foldl_app, C1.
Qed.

Lemma quiet_bind {A B} (m : handler A) (k : A -> handler B) : is_quiet m -> (forall a, is_quiet (k a)) -> is_quiet (mbind' m k).
Proof.
  intros Hm Hk w. apply wp_bind. eapply wp_mono; [apply Hm|]. intros a w1 o1 H1.
  eapply wp_mono; [apply Hk|]. intros b w2 o2 H2. exact (quiet_trans _ _ _ _ _ H1 H2).
Qed.

Lemma quiet_ret {A} (a : A) : is_quiet (mret' a).
Proof. intros w. apply quiet_refl. Qed.
Lemma quiet_get : is_quiet mget.
Proof. intros w. apply quiet_refl. Qed.
Lemma quiet_ub {A} why : is_quiet (mub (A:=A) why).
Proof. done. Qed.
Lemma quiet_to_user s m : is_quiet (memit (ToUser s m)).
Proof. intros w. split; eauto. Qed.
Lemma quiet_user_of s : is_quiet (user_of s).
Proof. intros w. unfold user_of. wp_steps. destruct (users w !! s); [apply quiet_refl|done]. Qed.
Lemma quiet_gate_of s : is_quiet (gate_of s).
Proof. intros w. unfold gate_of. wp_steps. destruct (gates w !! s); [apply quiet_refl|done]. Qed.
Lemma quiet_put_user s u : is_quiet (put_user s u).
Proof. intros w. split; eauto. Qed.
Lemma quiet_tasks f : is_quiet (mmodify (fun w => set_tasks w (f w))).
Proof. intros w. split; eauto. Qed.
Lemma quiet_put_tasks w0 l : wlp (mput (set_tasks w0 l)) (fun _ w' o => quiet w0 w' o) w0.
Proof. split; eauto. Qed.
Lemma quiet_waits f : is_quiet (mmodify (fun w => set_waits w (f w))).
Proof. intros w. split; eauto. Qed.

Lemma quiet_gate_update g f : (forall x, gate_id (f x) = gate_id x) -> is_quiet (x <- gate_of g ;; put_gate g (f x)).
Proof.
  intros Hf w. unfold gate_of. wp_steps. destruct (gates w !! g) as [x|] eqn:Hx; [|done]. unfold put_gate. wp_steps.
  split; try done. intros h y Hy. cbn. destruct (decide (h = g)) as [->|].
  - rewrite lookup_insert_eq. eexists. split; [done|]. rewrite Hf. congruence.
  - rewrite lookup_insert_ne by done. eauto.
Qed.

#[export] Hint Resolve quiet_ret quiet_get quiet_ub quiet_to_user quiet_user_of quiet_gate_of quiet_put_user : quiet.
#[export] Hint Extern 1 (is_quiet (mmodify _)) => first [apply quiet_tasks | apply quiet_waits] : quiet.

(** Solve [is_quiet m] by the structure of [m]. *)
Ltac quiet_tac :=
  first [ solve [eauto with quiet nocore]
        | apply quiet_bind; [quiet_tac | intros ?; quiet_tac]
        | case_match; quiet_tac ].

Lemma quiet_setState s st : is_quiet (setState s st).
Proof. unfold setState. quiet_tac. Qed.
#[export] Hint Resolve quiet_setState : quiet.

Lemma quiet_checkAccount n p s t : is_quiet (checkAccount n p s t).
Proof. unfold checkAccount, addBatchTask. quiet_tac. Qed.

Lemma quiet_CreateNewAccount c ok : is_quiet (CreateNewAccount c ok).
Proof. unfold CreateNewAccount, addBatchTask. quiet_tac. Qed.

Lemma quiet_prepar g a : is_quiet (parseGateUserPrepar g a).
Proof. unfold parseGateUserPrepar, receiveUserPrepar, removeWaitSession. quiet_tac. Qed.

Lemma quiet_accept s addr : is_quiet (user_on_accept s addr).
Proof. unfold user_on_accept. quiet_tac. Qed.

Lemma quiet_close s : is_quiet (user_on_close s).
Proof. unfold user_on_close, user_reset. quiet_tac. Qed.

Lemma quiet_inv g w w' o c : quiet w w' o -> login_inv g [] w c -> login_inv g [] w' (foldl told c o).
Proof.
  intros [A T G C] []. rewrite C. split; rewrite ?A, ?T; auto.
  intros i h Hi. destruct (li_gates0 _ _ Hi) as (Hr & x & Hx & He). split; [done|].
  destruct (G _ _ Hx) as (x' & Hx' & He'). exists x'. by rewrite He'.
Qed.

(** *** The events that do *)

Lemma outcome_inv g now w c d ok u :
  login_inv g [] w c -> users w !! ower d = Some u ->
  login_inv g [] (login_outcome now w d ok u).1 (foldl told c (login_outcome now w d ok u).2).
Proof.
  intros Hi Hu. pose proof (inv_gates_exist _ _ _ _ Hi) as Hex. unfold login_outcome.
  destruct (is_valid u); cbn [negb fst snd]; [|done].
  assert (Hsame : forall r, login_inv g [] (set_users w (<[ower d := closing_user u]> (users w)))
            (foldl told c [ToUser (ower d) (LoginFailed r)])) by (intros r; destruct Hi; split; auto).
  destruct ok; cbn [negb fst snd]; [|done]. destruct (acct d =? INVALID_ACCOUNT); cbn [fst snd]; [done|].
  destruct (idle w) as [h|] eqn:Hid.
  - destruct (idle_exists w h Hex Hid) as [[x Hx] [i Hg]]. rewrite Hx. cbn [fst snd].
    destruct (li_gates _ _ _ _ Hi _ _ Hg) as (Hr & x' & Hx' & He). rewrite Hx in Hx'. injection Hx' as <-. subst i.
    rewrite foldl_app. cbn [foldl told]. unfold given. split; cbn.
    + intros j h' Hj. destruct (li_gates _ _ _ _ Hi _ _ Hj) as (Hr' & y & Hy & Ey). split; [done|].
      destruct (decide (h' = h)) as [->|]; [|rewrite lookup_insert_ne by done; eauto].
      rewrite lookup_insert_eq. eexists. split; [done|]. cbn. congruence.
    + intros b h' [Heq|Hin]%elem_of_union; right.
      * apply elem_of_singleton in Heq as [= -> ->]. rewrite lookup_insert_eq. eexists. split; [done|done].
      * destruct (told_kick _ _ _ _ _ _ _ Hi Hin) as [[Hc Hne]|(_ & _ & Hp)]; [|by apply elem_of_nil in Hp].
        rewrite lookup_insert_ne by done.
        by destruct (li_claims _ _ _ _ Hi _ _ Hc) as [[_ Hp]|?]; [apply elem_of_nil in Hp|].
    + intros b p. destruct (decide (b = acct d)) as [->|]; [rewrite lookup_insert_eq; by intros [= <-]|].
      rewrite lookup_insert_ne by done. apply Hi.
  - cbn [fst snd]. rewrite foldl_app. cbn [foldl told]. split; cbn; [apply Hi| |].
    + intros b h' Hin. right. destruct (told_kick _ _ _ _ _ _ _ Hi Hin) as [[Hc Hne]|(_ & _ & Hp)]; [|by apply elem_of_nil in Hp].
      rewrite lookup_delete_ne by done.
      by destruct (li_claims _ _ _ _ Hi _ _ Hc) as [[_ Hp]|?]; [apply elem_of_nil in Hp|].
    + intros b p [_ Hp]%lookup_delete_Some. by apply Hi.
Qed.

Lemma db_answer_inv g now i rows w c :
  login_inv g [] w c -> wlp (db_answer now i rows) (fun _ w' o => login_inv g [] w' (foldl told c o)) w.
Proof.
  intros Hi. unfold db_answer. wp_steps. destruct (tasks w !! i) as [[d cb]|]; wp_steps; [|done].
  set (w1 := set_tasks w _). set (d' := match rows with Some r => batchQuery r d | None => d end).
  assert (Hi1 : login_inv g [] w1 c) by (destruct Hi; split; auto).
  destruct cb.
  - eapply wp_mono; [apply quiet_CreateNewAccount|]. intros u w' o Hq. exact (quiet_inv _ _ _ _ _ Hq Hi1).
  - destruct (users w1 !! ower d') as [u|] eqn:Hu.
    + unfold run_post. rewrite (checkAccountCall_run now w1 d' _ u Hu (inv_gates_exist _ _ _ _ Hi1)). by apply outcome_inv.
    + unfold checkAccountCall, user_of. wp_steps. by rewrite Hu.
Qed.

Lemma gate_close_inv g h w c :
  login_inv h [] w c -> wlp (removeGate g) (fun _ w' o => login_inv h [] w' (foldl told (before (GateClose g) c) o)) w.
Proof.
  intros Hi. unfold removeGate. wp_steps. unfold gate_of. wp_steps.
  assert (Hsub : login_inv h [] w (before (GateClose g) c)).
  { destruct Hi. split; auto. intros a k [_ Hin]%elem_of_filter. by apply li_claims0. }
  destruct (gates w !! g) as [x|]; [|done]. wp_steps.
  case_match; wp_steps; [|done]. case_bool_decide as Hg; wp_steps; [|done].
  split; cbn.
  - intros i k [_ Hk]%lookup_delete_Some. by apply Hi.
  - intros a k [Hk Hin]%elem_of_filter. cbn in Hk. right.
    destruct (li_claims _ _ _ _ Hi _ _ Hin) as [[_ Hp]|(p & Hp & Ht)]; [by apply elem_of_nil in Hp|].
    exists p. split; [done|]. apply lookup_delete_Some. split; [|done]. intros Heq. rewrite Heq in Hg. congruence.
  - apply Hi.
Qed.

(** One account of the registering gate [g] of number [id]. *)
Lemma register_account_inv nd g id l d w c :
  login_inv g (d.1 :: l) w c -> m_Gates w !! id = Some g -> (exists x, gates w !! g = Some x /\ gate_id x = id) ->
  wlp (register_account nd g d)
      (fun _ w' o => login_inv g l w' (foldl told c o) /\ m_Gates w' = m_Gates w /\ gates w' = gates w) w.
Proof.
  intros Hi Hid (x & Hx & He). unfold register_account.
  apply wp_bind. unfold run_post at 1. rewrite (gate_of_run w g x Hx). wp_steps.
  assert (Hadd : forall o, (forall b k, (b, k) ∈ foldl told c o -> (b, k) ∈ c /\ (b <> d.1 \/ k = g)) ->
    login_inv g l (set_accts w (<[d.1 := mk_account (gate_id x) d.1 d.2]> (m_Accts w))) (foldl told c o)).
  { intros o Ho. split; cbn; [apply Hi| |].
    - intros b k Hin. destruct (Ho _ _ Hin) as [Hc Hb]. destruct (decide (b = d.1)) as [->|Hne].
      + destruct Hb as [?| ->]; [done|]. right. rewrite lookup_insert_eq. eexists. split; [done|]. cbn. by rewrite He.
      + destruct (li_claims _ _ _ _ Hi _ _ Hc) as [[-> Hin'%elem_of_cons]|(p & Hp & Ht)].
        * left. naive_solver.
        * right. exists p. by rewrite lookup_insert_ne.
    - intros b p. destruct (decide (b = d.1)) as [->|]; [rewrite lookup_insert_eq; by intros [= <-]|].
      rewrite lookup_insert_ne by done. apply Hi. }
  assert (Hhere : forall b k, (b, k) ∈ c -> (forall p, m_Accts w !! d.1 = Some p -> nGateId p = id) -> b <> d.1 \/ k = g).
  { intros b k Hin Hp. destruct (decide (b = d.1)) as [->|]; [right|by left].
    destruct (li_claims _ _ _ _ Hi _ _ Hin) as [[-> _]|(p & Hp' & Ht)]; [done|]. rewrite (Hp _ Hp') in Ht. congruence. }
  assert (Hcall : forall p, m_Accts w !! d.1 = Some p -> kickUserFromGate p w = Ret (tt, w, kick_of w d.1)) by (intros; by apply kick_run).
  destruct (m_Accts w !! d.1) as [p|] eqn:Hp.
  - destruct (Z.eqb_spec (nGateId p) (gate_id x)) as [Heq|Hne]; cbn [negb].
    + wp_steps. split; [|done]. apply (Hadd []). intros b k Hin. split; [done|]. apply Hhere; [done|]. intros ? [= <-]. congruence.
    + destruct nd; wp_steps. unfold run_post at 1. rewrite (Hcall p eq_refl). unfold addAccount. wp_steps.
      rewrite app_nil_r. split; [|done]. apply Hadd. intros b k Hin.
      destruct (told_kick _ _ _ _ _ _ _ Hi Hin) as [[? ?]|(? & ? & _)]; auto.
  - wp_steps. split; [|done]. apply (Hadd []). intros b k Hin. split; [done|]. apply Hhere; [done|]. done.
Qed.

Lemma register_loop_inv nd g id ds w c :
  login_inv g ds.*1 w c -> m_Gates w !! id = Some g -> (exists x, gates w !! g = Some x /\ gate_id x = id) ->
  wlp (mfor ds (register_account nd g)) (fun _ w' o => login_inv g [] w' (foldl told c o)) w.
Proof.
  revert w c. induction ds as [|d ds IH]; intros w c Hi Hid Hx; cbn [mfor]; wp_steps; [done|].
  eapply wp_mono; [by apply (register_account_inv nd g id ds.*1)|]. intros u w1 o1 (H1 & HG & Hg).
  eapply wp_mono; [apply IH; [done|by rewrite HG|by rewrite Hg]|]. intros v w2 o2 H2. by rewrite foldl_app.
Qed.

(** A gate outside the table may change its number. *)
Lemma put_gate_inv g x w c h l :
  login_inv h l w c -> (forall i, m_Gates w !! i <> Some g) -> login_inv h l (set_gates w (<[g := x]> (gates w))) c.
Proof.
  intros [] Hn. split; cbn; auto. intros i k Hk. destruct (li_gates0 _ _ Hk) as (Hr & y & Hy & He). split; [done|].
  exists y. rewrite lookup_insert_ne; [done|]. intros ->. by apply (Hn i).
Qed.

Lemma gate_register_inv nd own g serverid v ip port accounts w c h :
  deployment_ok w (GateRegister g serverid v ip port accounts) -> login_inv h [] w c ->
  wlp (parseGateRegister nd own g serverid v ip port accounts)
      (fun _ w' o => login_inv h [] w' (claims_after (GateRegister g serverid v ip port accounts) o c)) w.
Proof.
  intros (Hr & Hfree & Hn) Hi. unfold parseGateRegister, claims_after. wp_steps.
  unfold gate_of at 1. wp_steps. destruct (gates w !! g) as [x|] eqn:Hx; [|done]. wp_steps. unfold put_gate at 1. wp_steps.
  set (x1 := mk_gate (u8 serverid) _ _ _ _). set (w1 := set_gates w (<[g := x1]> (gates w))).
  assert (Hi1 : login_inv h [] w1 c) by (by apply put_gate_inv).
  assert (Hclose : forall Q, (forall o, (forall c, foldl told c o = c) -> Q tt w1 o) ->
    wlp (if negb (checkVersion own (nMajor v) (nMinor v) (nBuild v) (nAppSvn v)) then memit (CloseGateSession g) else mret' tt) Q w1).
  { intros Q HQ. case_match; wp_steps; apply HQ; done. }
  apply Hclose. intros o1 Ho1.
  unfold gate_of at 1. wp_steps. change (gates w1) with (<[g := x1]> (gates w)). rewrite lookup_insert_eq. wp_steps.
  unfold put_gate. wp_steps. cbn [gate_id x1]. set (x2 := mk_gate _ _ _ _ _). set (w2 := set_gates w1 _).
  assert (Hi2 : login_inv h [] w2 c) by (by apply put_gate_inv). unfold addGate. rewrite Hr. cbn [mwhen]. wp_steps.
  set (w3 := set_gate_table w2 _).
  assert (Hx3 : gates w3 !! g = Some x2) by (cbn; apply lookup_insert_eq).
  assert (Hi3 : login_inv g accounts.*1 w3 (before (GateRegister g serverid v ip port accounts) c)).
  { split.
    - intros i k. cbn [m_Gates w3 set_gate_table]. destruct (decide (i = u8 serverid)) as [->|Hne].
      + rewrite lookup_insert_eq. intros [= <-]. split; [done|]. by exists x2.
      + rewrite lookup_insert_ne by done. apply Hi2.
    - intros a k Hin. cbn [before] in Hin. apply elem_of_union in Hin as [Hin|Hin].
      + apply elem_of_list_to_set, list_elem_of_fmap in Hin as (d & [= -> ->] & Hd). left. split; [done|].
        by apply list_elem_of_fmap_2.
      + right. destruct (li_claims _ _ _ _ Hi2 _ _ Hin) as [[_ Hp]|(p & Hp & Ht)]; [by apply elem_of_nil in Hp|].
        exists p. split; [done|]. cbn. rewrite lookup_insert_ne; [done|]. intros Heq. cbn in Ht. congruence.
    - apply Hi2. }
  eapply wp_mono; [apply (register_loop_inv nd g (u8 serverid) accounts w3); [done|cbn; apply lookup_insert_eq|by exists x2]|].
  intros u w4 o4 H4. cbn [app]. rewrite foldl_app, Ho1. by apply (login_inv_any g).
Qed.

Lemma handle_inv nd own now e w c h :
  deployment_ok w e -> login_inv h [] w c ->
  wlp (handle nd own now e) (fun _ w' o => login_inv h [] w' (claims_after e o c)) w.
Proof.
  intros Hd Hi.
  assert (Hq : forall m : handler unit, is_quiet m -> wlp m (fun _ w' o => login_inv h [] w' (foldl told c o)) w).
  { intros m Hm. eapply wp_mono; [apply Hm|]. intros u w' o Q. exact (quiet_inv _ _ _ _ _ Q Hi). }
  destruct e; cbn [handle].
  - apply Hq. quiet_tac.
  - wp_steps. destruct (gates w !! g) eqn:Hg; wp_steps; [done|]. unfold put_gate. wp_steps.
    apply put_gate_inv; [done|]. intros i Hgi. destruct (li_gates _ _ _ _ Hi _ _ Hgi) as (_ & x & Hx & _). congruence.
  - apply Hq, quiet_accept.
  - apply Hq, quiet_close.
  - apply Hq, quiet_checkAccount.
  - apply Hq, quiet_checkAccount.
  - by apply db_answer_inv.
  - by apply gate_register_inv.
  - apply Hq, quiet_gate_update. done.
  - apply Hq, quiet_prepar.
  - by apply gate_close_inv.
  - apply Hq, quiet_gate_update. done.
Qed.

Lemma init_inv h : login_inv h [] init ∅.
Proof. split; cbn; [intros i g; by rewrite lookup_empty|set_solver|intros a p; by rewrite lookup_empty]. Qed.

Lemma reachable_inv nd own s : rtc (step nd own) (init, ∅) s -> login_inv 0 [] s.1 s.2.
Proof.
  intros Hr. apply (rtc_ind_r (R := step nd own) (fun s => login_inv 0 [] s.1 s.2) (init, ∅)); [apply init_inv| |done].
  clear s Hr. intros s1 s2 _ Hs IH.
  destruct Hs as [now e w c w' o Hd Hh]. exact (wlp_run _ _ _ _ _ _ (handle_inv nd own now e w c 0 Hd IH) Hh).
Qed.


(** *** A run: two gates, one account that logs in from two places *)

Definition deployment_okb (w : world) (e : event) : bool :=
  match e with
  | GateRegister g serverid _ _ _ _ =>
      in_gate_range (u8 serverid) && bool_decide (m_Gates w !! u8 serverid = None) &&
      forallb (fun p => negb (p.2 =? g)) (map_to_list (m_Gates w))
  | _ => true
  end.

Lemma deployment_okb_sound w e : deployment_okb w e = true -> deployment_ok w e.
Proof.
  destruct e; cbn; try done. intros [[Hr Hf]%andb_true_iff Hn]%andb_true_iff. split_and!; [done|by apply bool_decide_eq_true in Hf|].
  intros i Hi. rewrite forallb_forall in Hn. specialize (Hn (i, g)). cbn in Hn. rewrite Z.eqb_refl in Hn.
  assert (Hin : In (i, g) (map_to_list (m_Gates w))) by (by apply list_elem_of_In, elem_of_map_to_list). by apply Hn in Hin.
Qed.

Fixpoint play (nd : bool) (own : Version) (now : Z) (l : list event) (s : world * claims) : option (world * claims) :=
  match l with
  | [] => Some s
  | e :: l' =>
      if deployment_okb s.1 e then
        match handle nd own now e s.1 with
        | Ret (_, w', o) => play nd own now l' (w', claims_after e o s.2)
        | UB _ => None
        end
      else None
  end.

Lemma play_sound nd own now l s s' : play nd own now l s = Some s' -> rtc (step nd own) s s'.
Proof.
  revert s. induction l as [|e l IH]; intros [w c]; cbn [play]; [by intros [= ->]|].
  destruct (deployment_okb _ e) eqn:Hd; [|done]. destruct (handle nd own now e _) as [[[[] w1] o]|] eqn:Hh; [|done].
  intros Hp. eapply rtc_l; [|by apply IH].
  apply (step_event nd own now); [by apply deployment_okb_sound|done].
Qed.

Definition two_logins : list event :=
  [ NewUserObject 1; NewUserObject 2; NewGateObject 10; NewGateObject 20;
    GateRegister 10 1 Version.construct "10.0.0.1" 22000 []; GateRegister 20 2 Version.construct "10.0.0.2" 22000 [];
    UserAccept 1 "1.2.3.4"; LoginRequest 1 "ann" "secret"; DbAnswer 0 (Some [(77, 0)]);
    UserAccept 2 "5.6.7.8"; LoginRequest 2 "ann" "secret"; DbAnswer 0 (Some [(77, 0)]) ]%string.

Definition two_logins_end : world * claims :=
  default (init, ∅) (play false Version.construct 1000 two_logins (init, ∅)).

Lemma two_logins_run : rtc (step false Version.construct) (init, ∅) (two_logins_end.1, two_logins_end.2).
Proof.
  rewrite <- surjective_pairing. unfold two_logins_end.
  destruct (play false Version.construct 1000 two_logins (init, ∅)) eqn:Hp; [exact (play_sound _ _ _ _ _ _ Hp)|].
  exfalso. revert Hp. vm_compute. discriminate.
Qed.

Lemma two_logins_claim : (77, 20) ∈ two_logins_end.2.
Proof. apply (bool_decide_unpack _). vm_compute. exact I. Qed.


(** *** Answers *)

(** C25: What comes of a login when the database answers: a session that is gone
    gets nothing and nothing changes; a failed query, a wrong name or password and
    the lack of a gate each give the client exactly one refusal and let its
    session close, the last with the account kicked from the gate it was in and
    forgotten; otherwise exactly one gate, that of least load, is told of the
    account with a fresh transaction number, after the gate that had it was told
    to kick it, and the client waits. *)
Theorem checkAccountCall_answers now w c sucess u :
  users w !! ower c = Some u -> gates_exist w ->
  let s := ower c in
  let a := acct c in
  let t := makeTransId now (str c +:+ pwd c +:+ remote_address u) in
  exists w' o, checkAccountCall now now c sucess w = Ret (tt, w', o) /\
    (is_valid u = false -> w' = w /\ o = []) /\
    (is_valid u = true ->
     (sucess = false ->
        o = [ToUser s (LoginFailed enumLoginResult_Fail)] /\ w' = set_users w (<[s := closing_user u]> (users w))) /\
     (sucess = true -> a = INVALID_ACCOUNT ->
        o = [ToUser s (LoginFailed enumLoginResult_NameFail)] /\ w' = set_users w (<[s := closing_user u]> (users w))) /\
     (sucess = true -> a <> INVALID_ACCOUNT -> getIdleGate w = Ret (None, w, []) ->
        o = kick_of w a ++ [ToUser s (LoginFailed enumLoginResult_Fail)] /\
        m_Accts w' = delete a (m_Accts w) /\ users w' = <[s := closing_user u]> (users w) /\
        m_WaitSessions w' = m_WaitSessions w) /\
     (forall g, sucess = true -> a <> INVALID_ACCOUNT -> getIdleGate w = Ret (Some g, w, []) ->
        exists x, gates w !! g = Some x /\
          o = kick_of w a ++ [ToGate g (MsgLN2GTUserLogin a t)] /\
          m_Accts w' = <[a := mk_account (gate_id x) a t]> (m_Accts w) /\
          users w' = <[s := waiting_user u a]> (users w) /\
          (m_WaitSessions w !! t = None -> m_WaitSessions w' = <[t := s]> (m_WaitSessions w)) /\
          exists x', gates w' !! g = Some x' /\ _balence_time x' = _balence_time x ++ [now])).
Proof.
  intros Hu Hex. cbv zeta. eexists _, _. split; [by apply checkAccountCall_run|].
  unfold login_outcome. rewrite (getIdleGate_run w Hex). fold (idle w).
  destruct (is_valid u); cbn [negb fst snd]; [|done]. split; [done|]. intros _.
  destruct sucess; cbn [negb fst snd]; [|done]. split; [done|].
  destruct (Z.eqb_spec (acct c) INVALID_ACCOUNT) as [Ha|Ha]; cbn [fst snd]; [done|]. split; [done|].
  destruct (idle w) as [g|] eqn:Hid; [|done].
  destruct (idle_exists w g Hex Hid) as [[x Hx] _]. rewrite Hx. cbn [fst snd]. split; [done|].
  intros g' _ _ [= <-]. exists x. unfold given, ObjPtrMap.addData. cbn. split_and!; try done.
  - by intros ->.
  - eexists. split; [apply lookup_insert_eq|done].
Qed.

Definition asking_user : UserLoginSession := mk_user 0 _checking_data_ true "h" [60000].
Definition asking_world : world := set_users three_gates {[ 1 := asking_user ]}.

Lemma asking_user_there : users asking_world !! 1 = Some asking_user.
Proof. apply lookup_singleton_eq. Qed.

Lemma asking_gates_exist : gates_exist asking_world.
Proof. exact three_gates_exist. Qed.

Lemma checkAccountCall_answers_witness :
  exists w' o, checkAccountCall 1000 1000 (mk_check "ann" "x" 2 1 0 _login_check_) true asking_world = Ret (tt, w', o) /\
    o = [ToUser 1 (LoginFailed enumLoginResult_NameFail)].
Proof.
  destruct (checkAccountCall_answers 1000 asking_world (mk_check "ann" "x" 2 1 0 _login_check_) true asking_user
    asking_user_there asking_gates_exist) as (w' & o & Hr & _ & Hv).
  exists w', o. split; [exact Hr|]. destruct (Hv eq_refl) as (_ & Hn & _). exact (proj1 (Hn eq_refl eq_refl)).
Defined.

(** ** What goes wrong *)

(** Objects of closed sessions are used again, and neither a query under way nor
    an entry of [m_WaitSessions] is cancelled when its session closes: the answer
    to the first client's login is sent to the second one. *)
Lemma login_answer_reaches_stranger :
  exists w, play_effects false Version.construct 1000
    [ NewUserObject 1; NewGateObject 10; GateRegister 10 1 Version.construct "10.0.0.1" 22000 [];
      UserAccept 1 "1.2.3.4"; LoginRequest 1 "ann" "secret"; UserClose 1;
      UserAccept 1 "6.6.6.6"; DbAnswer 0 (Some [(77, 0)]);
      GatePrepar 10 (makeTransId 1000 "annsecret6.6.6.6") ]%string init =
  Ret (tt, w, [ ToGate 10 (MsgLN2GTUserLogin 77 (makeTransId 1000 "annsecret6.6.6.6"));
                ToUser 1 (LoginResponse "10.0.0.1" 22000 (makeTransId 1000 "annsecret6.6.6.6")) ]).
Proof. eexists. vm_compute. reflexivity. Qed.

(** A gate that comes back with an account that is in another gate meanwhile
    stops the process, unless assertions are compiled out. *)
Lemma returning_gate_aborts :
  play_effects false Version.construct 1000
    [ NewGateObject 10; NewGateObject 20;
      GateRegister 10 1 Version.construct "10.0.0.1" 22000 [(77, 5)];
      GateRegister 20 2 Version.construct "10.0.0.2" 22000 [(77, 6)] ]%string init =
  UB "assert( p->nGateId == m_GateInfo.gate_id)".
Proof. vm_compute. reflexivity. Qed.

(** Logins are to be counted for 40 seconds, but the period is in milliseconds and
    the clock in seconds: they count for 40000. *)
Lemma balance_kept_for_hours : balance_expired 41000 1000 = false /\ balance_expired 41001 1000 = true.
Proof. split; reflexivity. Qed.

(** ** Bans *)

Lemma load_row_insert m id ban mute : Bans.load_row m (id, ban, mute) = <[id := Bans.mk_ban id ban mute]> m.
Proof. unfold Bans.load_row, ObjPtrMap.getData, ObjPtrMap.addData. by destruct (m !! id). Qed.

(** The table holds the last row of every account. *)
Lemma loadBanCall_lookup m r id ban mute r' :
  (forall b u, (id, b, u) ∉ r') ->
  (Bans.loadBanCall m (r ++ (id, ban, mute) :: r')).2 !! id = Some (Bans.mk_ban id ban mute).
Proof.
  intros Hr. cbn. rewrite fold_left_app. cbn [fold_left]. rewrite load_row_insert. revert Hr.
  generalize (fold_left Bans.load_row r m) as n. intros n.
  generalize (lookup_insert_eq n id (Bans.mk_ban id ban mute)).
  generalize (<[id := Bans.mk_ban id ban mute]> n) as k. clear n. induction r' as [|[[i b] u] r' IH]; intros k Hk Hr; [done|].
  cbn [fold_left]. apply IH; [|intros b' u' ?; apply (Hr b' u'); set_solver]. rewrite load_row_insert.
  rewrite lookup_insert_ne; [done|]. intros ->. apply (Hr b u). set_solver.
Qed.

(** A ban in the table is not asked for: the account is not banned. *)
Lemma bans_are_ignored :
  let m := (Bans.loadBanCall ∅ [(7, 2000, 0)]).2 in
  Bans.banned_until m 7 1000 = true /\ Bans.isBanned 7 = false.
Proof. by split. Qed.
