(* ===== verification/Gate.v ===== *)
(** The gate server: [gateserver/user_manager.cpp] (who is expected, online or may
    come back), [user_session.cpp] (a client's connection), [game_manager.cpp] and
    [game_client.cpp] (the connections to the game servers), [login_client.cpp] (the
    connection to the login server).

    Sessions and game connections are named by integers.  A message of a client or
    of a game server that the gate only passes on is its payload [p]. *)

From Stdlib Require Import Ascii String.
From S2P Require Import Prelude CommonTemplate TcpServer GameWorld ServerFrame.
From stdpp Require Import prelude gmap strings list relations.
#[local] Open Scope Z_scope.

Module Gate.
Import Version.

Definition INVALID_ACCOUNT : Z := 0.
Definition INVALID_TRANS_ID : Z := GameWorld.INVALID_TRANS_ID.
Definition INVALID_GAME_ID : Z := GameWorld.INVALID_GAME_ID.
Definition MAX_GAME_ID : Z := 0xff.

Inductive user_state : Set := _disable_ | _wait_account_ | _connect_ | _wait_close_.
#[export] Instance gate_user_state_eq_dec : EqDecision user_state.
Proof. solve_decision. Defined.

(** [class UserSession]; [close_events] are the pending
    [EVENT_USER_SESSION_CLOSE] of the object, by their period in milliseconds. *)
Record UserSession : Type := mk_user {
  m_tranid : Z; m_gs_id : Z; m_state : user_state; close_events : list Z
}.

(** [struct GameInfo] of [class GateGameClient]. *)
Record GameInfo : Type := mk_info { game_id : Z; onlines : Z }.

(** [UserManager], [GameManager] and the sessions; [wait_timers] and
    [recon_timers] are the transactions with a pending [EVENT_REMOVE_WAIT_CONNECT]
    and [EVENT_REMOVE_RECONNECT], [tell_event] says whether
    [EVENT_TELL_LOGIN_GATE_INFO] is there. *)
Record world : Type := mk_world {
  m_onlines : gmap Z Z;
  m_onlineaccs : gmap Z Z;
  m_wait_map : gmap Z Z;
  m_recon_map : gmap Z Z;
  m_activeGames : gmap Z Z;
  users : gmap Z UserSession;
  m_Games : gmap Z GameInfo;
  wait_timers : list Z;
  recon_timers : list Z;
  tell_event : bool
}.

Inductive login_msg : Type :=
| MsgGT2LNPrepar (account : Z)
| MsgGT2LNOnlines (onlines : Z)
| MsgGTRegisterLG (serverid : Z) (v : Version) (ip : string) (port : Z) (accounts : list (Z * Z)).

Inductive game_msg : Type :=
| MsgGT2GSAddUser (account transid : Z)
| MsgGT2GSRemoveUser (trans : Z)
| MsgGT2GSOfflineUser (trans : Z)
| MsgServerRegister (serverid : Z) (v : Version)
| UserMsg (p flag : Z).

Inductive effect : Type :=
| ToLogin (m : login_msg)
| ToGame (g : Z) (m : game_msg)
| ToClient (s : Z) (p flag : Z)
| CloseUser (s : Z)
| CloseGame (g : Z).

Definition handler (A : Type) : Type := M world effect A.

(** *** Field updates *)

Definition set_onlines (w : world) x : world :=
  mk_world x (m_onlineaccs w) (m_wait_map w) (m_recon_map w) (m_activeGames w) (users w) (m_Games w) (wait_timers w) (recon_timers w) (tell_event w).
Definition set_accs (w : world) x : world :=
  mk_world (m_onlines w) x (m_wait_map w) (m_recon_map w) (m_activeGames w) (users w) (m_Games w) (wait_timers w) (recon_timers w) (tell_event w).
Definition set_wait (w : world) x t : world :=
  mk_world (m_onlines w) (m_onlineaccs w) x (m_recon_map w) (m_activeGames w) (users w) (m_Games w) t (recon_timers w) (tell_event w).
Definition set_recon (w : world) x t : world :=
  mk_world (m_onlines w) (m_onlineaccs w) (m_wait_map w) x (m_activeGames w) (users w) (m_Games w) (wait_timers w) t (tell_event w).
Definition set_active (w : world) x : world :=
  mk_world (m_onlines w) (m_onlineaccs w) (m_wait_map w) (m_recon_map w) x (users w) (m_Games w) (wait_timers w) (recon_timers w) (tell_event w).
Definition set_users (w : world) x : world :=
  mk_world (m_onlines w) (m_onlineaccs w) (m_wait_map w) (m_recon_map w) (m_activeGames w) x (m_Games w) (wait_timers w) (recon_timers w) (tell_event w).
Definition set_games (w : world) x : world :=
  mk_world (m_onlines w) (m_onlineaccs w) (m_wait_map w) (m_recon_map w) (m_activeGames w) (users w) x (wait_timers w) (recon_timers w) (tell_event w).
Definition set_tell (w : world) x : world :=
  mk_world (m_onlines w) (m_onlineaccs w) (m_wait_map w) (m_recon_map w) (m_activeGames w) (users w) (m_Games w) (wait_timers w) (recon_timers w) x.

Definition with_trans (u : UserSession) t : UserSession := mk_user t (m_gs_id u) (m_state u) (close_events u).
Definition with_gs (u : UserSession) g : UserSession := mk_user (m_tranid u) g (m_state u) (close_events u).

Definition user_of (s : Z) : handler UserSession :=
  w <- mget ;; match users w !! s with Some u => mret' u | None => mub "null UserSession" end.
Definition put_user (s : Z) (u : UserSession) : handler unit :=
  mmodify (fun w => set_users w (<[s := u]> (users w))).
Definition game_of (g : Z) : handler GameInfo :=
  w <- mget ;; match m_Games w !! g with Some i => mret' i | None => mub "null GateGameClient" end.

(** An operation of [CommonTemplate] that can be undefined. *)
Definition lift {A} (x : outcome A) : handler A :=
  match x with Ret a => mret' a | UB why => mub why end.

(** *** [UserSession] *)

Definition _TIME_SECOND_MSEL_ : Z := 1000.
Definition _WAIT_ACCOUNT_DATA_TIME_ : Z := 20 * _TIME_SECOND_MSEL_.
Definition _WAIT_CLOSE_TIME_ : Z := 1 * _TIME_SECOND_MSEL_.

(** [setState] on the object. *)
Definition state_set (s : user_state) (u : UserSession) : UserSession :=
  match s with
  | _disable_ => mk_user INVALID_TRANS_ID INVALID_GAME_ID s []
  | _wait_account_ => mk_user (m_tranid u) (m_gs_id u) s (close_events u ++ [_WAIT_ACCOUNT_DATA_TIME_])
  | _connect_ => mk_user (m_tranid u) (m_gs_id u) s []
  | _wait_close_ =>
      mk_user (m_tranid u) (m_gs_id u) s
        (match close_events u with [] => [_WAIT_CLOSE_TIME_] | ev => (fun _ => _WAIT_CLOSE_TIME_) <$> ev end)
  end.

Definition setState (s : Z) (st : user_state) : handler unit := u <- user_of s ;; put_user s (state_set st u).
Definition setGSid (s gs : Z) : handler unit := u <- user_of s ;; put_user s (with_gs u (u16 gs)).
Definition setTrans (s t : Z) : handler unit := u <- user_of s ;; put_user s (with_trans u t).

(** [setClose], [close]. *)
Definition setClose (s : Z) : handler unit := memit (CloseUser s).

(** *** [GateGameClient]: messages to a game server *)

Definition offlinePlayer (g t : Z) : handler unit := memit (ToGame g (MsgGT2GSOfflineUser t)).
Definition addNewPlayer (g t a : Z) : handler unit := memit (ToGame g (MsgGT2GSAddUser a t)).
Definition removePlayer (g t : Z) : handler unit := memit (ToGame g (MsgGT2GSRemoveUser t)).

(** *** [GameManager] *)

Definition addActiveGameClient (pkConn nId : Z) : handler unit :=
  mwhen ((0 <? nId) && (nId <? MAX_GAME_ID)) (mmodify (fun w => set_active w (<[nId := pkConn]> (m_activeGames w)))).

Definition getGameClient (w : world) (gs : Z) : option Z :=
  if (INVALID_GAME_ID <? u16 gs) && (u16 gs <? MAX_GAME_ID) then m_activeGames w !! u16 gs else None.

Definition isGamesStop (w : world) : bool :=
  forallb (fun i => negb (bool_decide (is_Some (m_activeGames w !! i)))) (seqZ 0 MAX_GAME_ID).

(** The loop of [getIdleGameClient] from [m_activeGames[i]] on; [idle_max] is
    [getGSIdleMax ()]. *)
Fixpoint idle_game_loop (idle_max : Z) (l : list Z) (best : option Z) : handler (option Z) :=
  match l with
  | [] => mret' best
  | i :: l' =>
      w <- mget ;;
      match m_activeGames w !! i with
      | None => idle_game_loop idle_max l' best
      | Some g =>
          x <- game_of g ;;
          match best with
          | None => if onlines x <? idle_max then mret' (Some g) else idle_game_loop idle_max l' (Some g)
          | Some b =>
              y <- game_of b ;;
              if onlines x <? onlines y then
                if onlines x <? idle_max then mret' (Some g) else idle_game_loop idle_max l' (Some g)
              else idle_game_loop idle_max l' best
          end
      end
  end.

Definition game_indices : list Z := seqZ 0 MAX_GAME_ID.

Definition getIdleGameClient (idle_max : Z) : handler (option Z) := idle_game_loop idle_max game_indices None.

Definition addClientByConfig (g : Z) : handler unit :=
  w <- mget ;;
  match m_Games w !! g with
  | Some _ => mret' tt
  | None => mput (set_games w (<[g := mk_info 0 0]> (m_Games w)))
  end.

Definition GameManager_shutDown : handler unit :=
  mmodify (fun w => set_active w ∅) ;;;
  w <- mget ;;
  mfor (map_walk (m_Games w)) (fun p => memit (CloseGame p.1)) ;;;
  mmodify (fun w => set_games w ∅).

(** *** [UserManager] *)

Section manager.
Context (plat : platform) (idle_max : Z).

(** [kickUser]; the account of a kicked waiting user goes out of
    [m_onlineaccs] too. *)
Definition kickUser (t a : Z) : handler unit :=
  w <- mget ;;
  match m_onlines w !! t with
  | Some s =>
      u <- user_of s ;;
      (match getGameClient w (m_gs_id u) with Some g => removePlayer g t | None => mret' tt end) ;;;
      memit (CloseUser s) ;;;
      mmodify (fun w => set_onlines w (ObjPtrMap.eraseData (m_onlines w) t).1) ;;;
      mmodify (fun w => set_accs w (ObjMap.eraseData (m_onlineaccs w) a).1)
  | None =>
      let '(wait, (_, v)) := ObjMap.eraseDataOut (m_wait_map w) t INVALID_ACCOUNT in
      mput (set_wait w wait (wait_timers w)) ;;;
      (if negb (v =? INVALID_ACCOUNT) then mmodify (fun w => set_accs w (ObjMap.eraseData (m_onlineaccs w) v).1) else mret' tt) ;;;
      w <- mget ;;
      let '(recon, (found, gs)) := ObjMap.eraseDataOut (m_recon_map w) t INVALID_GAME_ID in
      mput (set_recon w recon (recon_timers w)) ;;;
      if found then match getGameClient w gs with Some g => removePlayer g t | None => mret' tt end else mret' tt
  end.

Definition addToWait (t a : Z) : handler unit :=
  w <- mget ;;
  (match m_onlines w !! t with Some _ => kickUser t a | None => mret' tt end) ;;;
  mmodify (fun w => set_wait w (ObjMap.addData (m_wait_map w) t a).1 (wait_timers w ++ [t])) ;;;
  memit (ToLogin (MsgGT2LNPrepar t)).

Definition eventCallRemoveWait (t : Z) : handler unit :=
  mmodify (fun w => set_wait w (ObjMap.eraseDataOut (m_wait_map w) t INVALID_ACCOUNT).1 (wait_timers w)).

(** The loop of [removeUsers] over the copy of [m_onlines]; the [#else] branch
    increments the iterator it erased. *)
Fixpoint removeUsers_loop (gs : Z) (l : list (Z * Z)) : handler unit :=
  match l with
  | [] => mret' tt
  | (_, s) :: l' =>
      u <- user_of s ;;
      if m_gs_id u =? gs then
        setState s _wait_close_ ;;;
        match plat with
        | WIN32 => removeUsers_loop gs l'
        | POSIX => mub "removeUsers: ++ on an erased std::map iterator"
        end
      else removeUsers_loop gs l'
  end.

Definition removeUsers (gs : Z) : handler unit :=
  w <- mget ;;
  removeUsers_loop gs (map_walk (m_onlines w)) ;;;
  w <- mget ;;
  m <- lift (ObjMap.eraseValue plat (m_recon_map w) gs) ;;
  mput (set_recon w m (recon_timers w)).

Definition getAccount (w : world) (t : Z) : Z := (ObjMap.getKey (m_onlineaccs w) INVALID_ACCOUNT t).2.

Definition enableGateEvent : handler unit := mmodify (fun w => set_tell w true).

Definition getUserSession (w : world) (t : Z) : option Z := ObjPtrMap.getData (m_onlines w) t.

Definition evevntCall : handler unit :=
  w <- mget ;; memit (ToLogin (MsgGT2LNOnlines (u32 (Z.of_nat (ObjMap.getSize (m_onlineaccs w)))))).

Definition checkClose (s : Z) : handler unit :=
  u <- user_of s ;;
  let tranid := m_tranid u in
  mmodify (fun w => set_onlines w (ObjPtrMap.eraseData (m_onlines w) tranid).1) ;;;
  w <- mget ;;
  (match getGameClient w (m_gs_id u) with
   | Some g =>
       if decide (m_state u = _connect_) then
         mput (set_recon w (ObjMap.addData (m_recon_map w) tranid (m_gs_id u)).1 (recon_timers w)) ;;;
         offlinePlayer g tranid
       else
         m <- lift (ObjMap.eraseValue plat (m_onlineaccs w) tranid) ;;
         mput (set_accs w m) ;;;
         removePlayer g tranid
   | None =>
       m <- lift (ObjMap.eraseValue plat (m_onlineaccs w) tranid) ;;
       mput (set_accs w m)
   end) ;;;
  mmodify (fun w => set_recon w (m_recon_map w) (recon_timers w ++ [tranid])).

Definition eventCallRemoveReconn (t : Z) : handler unit :=
  w <- mget ;;
  let '(recon, (_, gsid)) := ObjMap.eraseDataOut (m_recon_map w) t INVALID_GAME_ID in
  mput (set_recon w recon (recon_timers w)) ;;;
  m <- lift (ObjMap.eraseValue plat (m_onlineaccs w) t) ;;
  mmodify (fun w => set_accs w m) ;;;
  if negb (gsid =? INVALID_GAME_ID) then
    match getGameClient w gsid with Some g => removePlayer g t | None => mret' tt end
  else mret' tt.

Definition checkConn (t s : Z) : handler bool :=
  w <- mget ;;
  if ObjMap.hasData (m_wait_map w) t then
    let '(wait, (_, v)) := ObjMap.eraseDataOut (m_wait_map w) t INVALID_ACCOUNT in
    mput (set_wait w wait (wait_timers w)) ;;;
    idle <- getIdleGameClient idle_max ;;
    match idle with
    | None => setState s _wait_close_ ;;; mret' false
    | Some g =>
        x <- game_of g ;;
        addNewPlayer g t v ;;;
        setGSid s (game_id x) ;;;
        setState s _connect_ ;;;
        mmodify (fun w => set_onlines w (ObjPtrMap.addData (m_onlines w) t s).1) ;;;
        mmodify (fun w => set_accs w (ObjMap.addData (m_onlineaccs w) v t).1) ;;;
        mret' true
    end
  else
    let '(found, gs) := ObjMap.getData (m_recon_map w) t INVALID_GAME_ID in
    if found then
      mput (set_recon w (ObjMap.eraseData (m_recon_map w) t).1 (recon_timers w)) ;;;
      setGSid s gs ;;;
      setState s _connect_ ;;;
      mmodify (fun w => set_onlines w (ObjPtrMap.addData (m_onlines w) t s).1) ;;;
      mret' true
    else
      setState s _wait_close_ ;;; mret' false.

(** [makeRegisterData]: (account, transid) in key order. *)
Definition makeRegisterData (w : world) : list (Z * Z) := map_walk (m_onlineaccs w).

(** *** [UserSession]: messages and the life of a connection *)

Definition parseLoginGame (s t : Z) : handler unit :=
  u <- user_of s ;;
  if decide (m_state u = _connect_) then mret' tt
  else ok <- checkConn t s ;; if ok then setTrans s t else mret' tt.

Definition user_parseGameMsg (s p : Z) : handler unit :=
  u <- user_of s ;;
  w <- mget ;;
  match getGameClient w (m_gs_id u) with
  | Some g => memit (ToGame g (UserMsg p (m_tranid u)))
  | None => mret' tt
  end.

Definition user_on_accept (s : Z) : handler unit := setState s _wait_account_.

Definition user_reset (s : Z) : handler unit :=
  u <- user_of s ;; put_user s (mk_user INVALID_TRANS_ID INVALID_GAME_ID _disable_ (close_events u)).

Definition user_on_close (s : Z) : handler unit := checkClose s ;;; setState s _disable_ ;;; user_reset s.

(** The [EVENT_USER_SESSION_CLOSE] of [s] fires, once. *)
Definition close_timer (s : Z) : handler unit :=
  u <- user_of s ;;
  match close_events u with
  | [] => mret' tt
  | _ :: ev => setClose s ;;; put_user s (mk_user (m_tranid u) (m_gs_id u) (m_state u) ev)
  end.

(** *** [GateGameClient]: messages from a game server *)

Definition game_parseGameMsg (p flag : Z) : handler unit :=
  w <- mget ;;
  match getUserSession w flag with
  | Some s => memit (ToClient s p flag)
  | None => mret' tt
  end.

Definition parseChangeGS (this gameserverid flag : Z) : handler unit :=
  w <- mget ;;
  match getUserSession w flag with
  | None => mret' tt
  | Some s =>
      match getGameClient w gameserverid with
      | None => setClose s
      | Some new =>
          u <- user_of s ;;
          removePlayer this (m_tranid u) ;;;
          let a := getAccount w (m_tranid u) in
          if negb (a =? INVALID_ACCOUNT) then
            setGSid s gameserverid ;;;
            addNewPlayer new (m_tranid u) a
          else setClose s
      end
  end.

Definition parseGameRegister (this serverid : Z) : handler unit :=
  i <- game_of this ;;
  mmodify (fun w => set_games w (<[this := mk_info (u8 serverid) (onlines i)]> (m_Games w))) ;;;
  addActiveGameClient this (u8 serverid).

Definition parseGameOnlines (this n : Z) : handler unit :=
  i <- game_of this ;; mmodify (fun w => set_games w (<[this := mk_info (game_id i) n]> (m_Games w))).

Definition removeActiveGameClient (pkConn : Z) : handler unit :=
  i <- game_of pkConn ;;
  if (0 <? game_id i) && (game_id i <? MAX_GAME_ID) then
    w <- mget ;;
    if decide (m_activeGames w !! game_id i = Some pkConn) then
      removeUsers (game_id i) ;;;
      mmodify (fun w => set_active w (delete (game_id i) (m_activeGames w)))
    else mret' tt
  else mret' tt.

Definition game_on_connect (own : Version) (conf_id this : Z) : handler unit :=
  memit (ToGame this (MsgServerRegister conf_id own)).

(** *** [GateLoginClient] *)

Definition parseLoginUser (account transid : Z) : handler unit := addToWait transid account.
Definition parseLoginKick (account transid : Z) : handler unit := kickUser transid account.

Definition login_on_connect (own : Version) (id : Z) (ip : string) (port : Z) : handler unit :=
  w <- mget ;;
  memit (ToLogin (MsgGTRegisterLG id own ip port (makeRegisterData w))) ;;;
  enableGateEvent.

(** *** Everything that happens to the process *)

Inductive event : Type :=
| NewUserObject (s : Z)
| UserAccept (s : Z)
| UserClose (s : Z)
| LoginGame (s t : Z)
| ClientMsg (s p : Z)
| CloseTimer (s : Z)
| LoginUser (account transid : Z)
| LoginKick (account transid : Z)
| LoginConnected (own : Version) (id : Z) (ip : string) (port : Z)
| TellTimer
| WaitTimer (t : Z)
| ReconTimer (t : Z)
| NewGame (g : Z)
| GameConnected (own : Version) (conf_id g : Z)
| GameRegister (g serverid : Z)
| GameOnlines (g n : Z)
| GameMsg (p flag : Z)
| GameChange (g gameserverid flag : Z)
| GameClosed (g : Z).

Definition handle (e : event) : handler unit :=
  match e with
  | NewUserObject s =>
      w <- mget ;;
      match users w !! s with
      | Some _ => mret' tt
      | None => put_user s (mk_user INVALID_TRANS_ID INVALID_GAME_ID _disable_ [])
      end
  | UserAccept s => user_on_accept s
  | UserClose s => user_on_close s
  | LoginGame s t => parseLoginGame s t
  | ClientMsg s p => user_parseGameMsg s p
  | CloseTimer s => close_timer s
  | LoginUser account transid => parseLoginUser account transid
  | LoginKick account transid => parseLoginKick account transid
  | LoginConnected own id ip port => login_on_connect own id ip port
  | TellTimer => w <- mget ;; if tell_event w then evevntCall else mret' tt
  | WaitTimer t =>
      w <- mget ;;
      if decide (t ∈ wait_timers w) then
        mput (set_wait w (m_wait_map w) (TcpServer.remove_first t (wait_timers w))) ;;; eventCallRemoveWait t
      else mret' tt
  | ReconTimer t =>
      w <- mget ;;
      if decide (t ∈ recon_timers w) then
        mput (set_recon w (m_recon_map w) (TcpServer.remove_first t (recon_timers w))) ;;; eventCallRemoveReconn t
      else mret' tt
  | NewGame g => addClientByConfig g
  | GameConnected own conf_id g => game_on_connect own conf_id g
  | GameRegister g serverid => parseGameRegister g serverid
  | GameOnlines g n => parseGameOnlines g n
  | GameMsg p flag => game_parseGameMsg p flag
  | GameChange g gameserverid flag => parseChangeGS g gameserverid flag
  | GameClosed g => removeActiveGameClient g
  end.

Definition run (l : list event) : handler unit := mfor l handle.

End manager.

Definition init : world := mk_world ∅ ∅ ∅ ∅ ∅ ∅ ∅ [] [] false.

End Gate.

Import GameWorld Version Gate.

(** ** Whom the game servers hear of *)

Section announced.
(** The (account, transaction) pairs the login server has announced. *)
Context (ann : gset (Z * Z)).

Definition knows (t : Z) : Prop := exists a, (a, t) ∈ ann.

(** What a gate may say to a game server. *)
Definition fine (e : effect) : Prop :=
  match e with
  | ToGame _ (MsgGT2GSAddUser a t) => (a, t) ∈ ann
  | ToGame _ (MsgGT2GSOfflineUser t) | ToGame _ (UserMsg _ t) => knows t
  | ToGame _ (MsgGT2GSRemoveUser t) => t = INVALID_TRANS_ID \/ knows t
  | _ => True
  end.

(** [hold]: a session whose transaction is about to be set. *)
Record gate_inv (hold : option Z) (w : world) : Prop := {
  gi_wait : forall t a, m_wait_map w !! t = Some a -> (a, t) ∈ ann;
  gi_accs : forall a t, m_onlineaccs w !! a = Some t -> (a, t) ∈ ann;
  gi_recon : forall t g, m_recon_map w !! t = Some g -> knows t;
  gi_online : forall t s, m_onlines w !! t = Some s -> knows t;
  gi_trans : forall s u, users w !! s = Some u -> m_tranid u = INVALID_TRANS_ID \/ knows (m_tranid u);
  gi_game : forall s u, users w !! s = Some u -> m_gs_id u <> INVALID_GAME_ID -> hold <> Some s -> knows (m_tranid u)
}.

(** A handler keeps the invariant and says only what it may. *)
Definition keeps {A} (h : option Z) (m : handler A) (h' : option Z) : Prop :=
  forall w, gate_inv h w -> wlp m (fun _ w' o => gate_inv h' w' /\ Forall fine o) w.

Lemma keeps_bind {A B} h1 h2 h3 (m : handler A) (k : A -> handler B) :
  keeps h1 m h2 -> (forall a, keeps h2 (k a) h3) -> keeps h1 (mbind' m k) h3.
Proof.
  intros Hm Hk w Hw. apply wp_bind. eapply wp_mono; [by apply Hm|]. intros a w1 o1 (H1 & F1).
  eapply wp_mono; [by apply Hk|]. intros b w2 o2 (H2 & F2). split; [done|]. by apply Forall_app.
Qed.

Lemma keeps_get {B} h h' (k : world -> handler B) :
  (forall w, gate_inv h w -> wlp (k w) (fun _ w' o => gate_inv h' w' /\ Forall fine o) w) -> keeps h (mbind' mget k) h'.
Proof. intros Hk w Hw. wp_steps. eapply wp_mono; [by apply Hk|]. done. Qed.

Lemma keeps_ret {A} h (a : A) : keeps h (mret' a) h.
Proof. done. Qed.

Lemma keeps_ub {A} h h' why : keeps h (mub (A:=A) why) h'.
Proof. done. Qed.

Lemma keeps_emit h e : fine e -> keeps h (memit e) h.
Proof. intros He w Hw. split; [done|]. by repeat constructor. Qed.

Lemma keeps_modify h h' f : (forall w, gate_inv h w -> gate_inv h' (f w)) -> keeps h (mmodify f) h'.
Proof. intros Hf w Hw. split; [by apply Hf|constructor]. Qed.

(** Steps that read the state they start in. *)
Lemma keeps_put h h' f w : gate_inv h w -> (forall w, gate_inv h w -> gate_inv h' (f w)) ->
  wlp (mput (f w)) (fun _ w' o => gate_inv h' w' /\ Forall fine o) w.
Proof. intros Hw Hf. split; [by apply Hf|constructor]. Qed.

Lemma keeps_seq {A B} h1 h2 h3 (m : handler A) (k : A -> handler B) w :
  wlp m (fun _ w' o => gate_inv h2 w' /\ Forall fine o) w -> (forall a, keeps h2 (k a) h3) -> gate_inv h1 w ->
  wlp (mbind' m k) (fun _ w' o => gate_inv h3 w' /\ Forall fine o) w.
Proof.
  intros Hm Hk _. apply wp_bind. eapply wp_mono; [exact Hm|]. intros a w1 o1 (H1 & F1).
  eapply wp_mono; [by apply Hk|]. intros b w2 o2 (H2 & F2). split; [done|]. by apply Forall_app.
Qed.

(** Maps that lost entries, or gained announced ones, with the same sessions. *)
Lemma gate_inv_maps h w w' :
  gate_inv h w -> users w' = users w ->
  (forall t a, m_wait_map w' !! t = Some a -> (a, t) ∈ ann) ->
  (forall a t, m_onlineaccs w' !! a = Some t -> (a, t) ∈ ann) ->
  (forall t g, m_recon_map w' !! t = Some g -> knows t) ->
  (forall t s, m_onlines w' !! t = Some s -> knows t) -> gate_inv h w'.
Proof. intros [] Hu. split; rewrite ?Hu; auto. Qed.

Lemma put_user_inv h h' w s u :
  gate_inv h w -> (m_tranid u = INVALID_TRANS_ID \/ knows (m_tranid u)) ->
  (m_gs_id u <> INVALID_GAME_ID -> h' <> Some s -> knows (m_tranid u)) ->
  (forall s', s' <> s -> h' <> Some s' -> h <> Some s') ->
  gate_inv h' (set_users w (<[s := u]> (users w))).
Proof.
  intros [] Ht Hg Hh. split; cbn; auto.
  - intros s' u'. rewrite lookup_insert_Some. naive_solver.
  - intros s' u'. rewrite lookup_insert_Some. intros [[<- <-]|[Hne Hu]]; [done|]. intros ? ?. eapply gi_game0; eauto.
Qed.

Lemma user_of_wlp s Q w :
  (forall u, users w !! s = Some u -> Q u w []) -> wlp (user_of s) Q w.
Proof. intros HQ. unfold user_of. wp_steps. destruct (users w !! s) eqn:Hu; [by apply HQ|done]. Qed.

Lemma setState_keeps h s st : keeps h (setState s st) h.
Proof.
  intros w Hw. unfold setState. apply wp_bind, user_of_wlp. intros u Hu. unfold put_user. wp_steps. split; [|constructor].
  apply (put_user_inv h); [done| | |auto].
  - destruct st; cbn; [by left|..]; by apply (gi_trans _ _ Hw s).
  - destruct st; cbn; [done|..]; by apply (gi_game _ _ Hw).
Qed.

Lemma setGSid_keeps h s gs : h = None \/ h = Some s -> keeps h (setGSid s gs) (Some s).
Proof.
  intros Hh w Hw. unfold setGSid. apply wp_bind, user_of_wlp. intros u Hu. unfold put_user. wp_steps. split; [|constructor].
  apply (put_user_inv h); [done|exact (gi_trans _ _ Hw s u Hu)|naive_solver|naive_solver].
Qed.

Lemma setTrans_keeps s t : knows t -> keeps (Some s) (setTrans s t) None.
Proof.
  intros Ht w Hw. unfold setTrans. apply wp_bind, user_of_wlp. intros u Hu. unfold put_user. wp_steps. split; [|constructor].
  apply (put_user_inv (Some s)); [done|by right|done|]. naive_solver.
Qed.

Lemma lift_wlp {A} (x : outcome A) Q w : (forall a, x = Ret a -> Q a w []) -> wlp (lift x) Q w.
Proof. intros HQ. destruct x; [by apply HQ|done]. Qed.

(** Close the goals about maps after an operation of [CommonTemplate]. *)
Ltac maps_tac :=
  match goal with H : gate_inv _ ?w |- gate_inv _ _ => apply (gate_inv_maps _ w); [exact H|reflexivity|..] end;
  cbn; intros;
  repeat match goal with
  | H : (ObjMap.addData _ _ _).1 !! _ = Some _ |- _ => apply addData_Some in H as [H|[-> ->]]
  | H : (ObjPtrMap.addData _ _ _).1 !! _ = Some _ |- _ => apply ptr_addData_Some in H as [H|[-> ->]]
  | H : (ObjMap.eraseData _ _).1 !! _ = Some _ |- _ => apply eraseData_Some in H
  | H : (ObjPtrMap.eraseData _ _).1 !! _ = Some _ |- _ => apply ptr_eraseData_Some in H
  | H : (ObjMap.eraseDataOut _ _ _).1 !! _ = Some _ |- _ => apply eraseDataOut_Some in H
  end;
  try done; try (by eapply gi_wait); try (by eapply gi_accs); try (by eapply gi_recon); try (by eapply gi_online).

Lemma erase_value_keeps plat h (m : gmap Z Z) v w Q :
  (forall m', (forall k x, m' !! k = Some x -> m !! k = Some x) -> Q m' w []) ->
  gate_inv h w -> wlp (lift (ObjMap.eraseValue plat m v)) Q w.
Proof. intros HQ _. apply lift_wlp. intros m' Hm. apply HQ. intros k x Hk. by apply (eraseValue_Some plat m v m' k x Hm). Qed.

(** From a goal about the run at [w] to one about the handler. *)
Ltac to_keeps h' :=
  match goal with Hw : gate_inv ?h ?w |- run_post True ?m _ ?w => refine ((_ : keeps h m h') w Hw) end.

Lemma user_of_keeps h s : keeps h (user_of s) h.
Proof. intros w Hw. by apply user_of_wlp. Qed.

Lemma game_of_keeps h g : keeps h (game_of g) h.
Proof. intros w Hw. unfold game_of. wp_steps. by destruct (m_Games w !! g). Qed.

Lemma put_keeps h h' w w1 : gate_inv h w -> gate_inv h' w1 -> wlp (mput w1) (fun _ w' o => gate_inv h' w' /\ Forall fine o) w.
Proof. done. Qed.

Lemma remove_player_keeps h w gs t :
  t = INVALID_TRANS_ID \/ knows t ->
  keeps h (match getGameClient w gs with Some g => removePlayer g t | None => mret' tt end) h.
Proof. intros Ht. destruct (getGameClient w gs); [by apply keeps_emit|apply keeps_ret]. Qed.

Lemma kickUser_keeps t a : keeps None (kickUser t a) None.
Proof.
  apply keeps_get. intros w Hw. destruct (m_onlines w !! t) as [s|] eqn:Ho.
  - to_keeps (@None Z). pose proof (gi_online _ _ Hw _ _ Ho) as Ht.
    apply (keeps_bind _ None); [apply user_of_keeps|intros u].
    apply (keeps_bind _ None); [apply remove_player_keeps; by right|intros _].
    apply (keeps_bind _ None); [by apply keeps_emit|intros _].
    apply (keeps_bind _ None); apply keeps_modify || intros _; [|apply keeps_modify]; clear; intros w Hw; maps_tac.
  - destruct (ObjMap.eraseDataOut (m_wait_map w) t INVALID_ACCOUNT) as [wait [b v]] eqn:Hwait.
    apply (keeps_seq None None None); [|intros _|done].
    { apply (put_keeps None _ w); [done|]. replace wait with (ObjMap.eraseDataOut (m_wait_map w) t INVALID_ACCOUNT).1 by (by rewrite Hwait).
      maps_tac. }
    apply (keeps_bind _ None); [|intros _].
    { case_match; [|apply keeps_ret]. apply keeps_modify. clear. intros w Hw. maps_tac. }
    clear. apply keeps_get. intros w Hw. unfold ObjMap.eraseDataOut.
    destruct (m_recon_map w !! t) as [gs|] eqn:Hr.
    + apply (keeps_seq None None None); [|intros _|done].
      * apply (put_keeps None _ w); [done|]. maps_tac. eapply gi_recon; [done|]. by apply lookup_delete_Some in H as [_ H].
      * apply remove_player_keeps. right. by eapply gi_recon.
    + apply (keeps_seq None None None); [|intros _; apply keeps_ret|done]. apply (put_keeps None _ w); [done|]. by destruct w.
Qed.

Lemma addToWait_keeps t a : (a, t) ∈ ann -> keeps None (addToWait t a) None.
Proof.
  intros Ha. apply keeps_get. intros w Hw. to_keeps (@None Z).
  apply (keeps_bind _ None); [destruct (m_onlines w !! t); [apply kickUser_keeps|apply keeps_ret]|intros _].
  apply (keeps_bind _ None); [|intros _; by apply keeps_emit]. apply keeps_modify. clear -Ha. intros w Hw. maps_tac.
Qed.

Lemma wait_timer_keeps t : keeps None (eventCallRemoveWait t) None.
Proof. apply keeps_modify. intros w Hw. maps_tac. Qed.

Lemma removeUsers_keeps plat gs : keeps None (removeUsers plat gs) None.
Proof.
  apply keeps_get. intros w Hw. to_keeps (@None Z). apply (keeps_bind _ None).
  - clear. generalize (map_walk (m_onlines w)). induction l as [|[t s] l IH]; cbn [removeUsers_loop]; [apply keeps_ret|].
    apply (keeps_bind _ None); [apply user_of_keeps|intros u]. destruct (m_gs_id u =? gs); [|done].
    apply (keeps_bind _ None); [apply setState_keeps|intros _]. destruct plat; [done|apply keeps_ub].
  - intros _. clear. apply keeps_get. intros w Hw. apply wp_bind. eapply erase_value_keeps; [|done].
    intros m' Hm. wp_steps. split; [|constructor]. maps_tac. eapply gi_recon; eauto.
Qed.

Lemma getGameClient_valid w gs g : getGameClient w gs = Some g -> gs <> INVALID_GAME_ID.
Proof. intros Hg ->. discriminate. Qed.

(** The account table without the entries of a transaction. *)
Lemma erase_accounts_wlp plat t w (k : gmap Z Z -> handler unit) :
  gate_inv None w ->
  (forall m', (forall a x, m' !! a = Some x -> m_onlineaccs w !! a = Some x) ->
     wlp (k m') (fun _ w' o => gate_inv None w' /\ Forall fine o) w) ->
  wlp (mbind' (lift (ObjMap.eraseValue plat (m_onlineaccs w) t)) k) (fun _ w' o => gate_inv None w' /\ Forall fine o) w.
Proof.
  intros Hw Hk. apply wp_bind. eapply erase_value_keeps; [|done]. intros m' Hm. eapply wp_mono; [by apply Hk|]. done.
Qed.

Lemma set_accs_inv w m' :
  gate_inv None w -> (forall a x, m' !! a = Some x -> m_onlineaccs w !! a = Some x) -> gate_inv None (set_accs w m').
Proof. intros Hw Hm. maps_tac. eapply gi_accs; eauto. Qed.

Lemma checkClose_keeps plat s : keeps None (checkClose plat s) None.
Proof.
  intros w Hw. unfold checkClose. apply wp_bind, user_of_wlp. intros u Hu.
  pose proof (gi_trans _ _ Hw _ _ Hu) as Ht. pose proof (gi_game _ _ Hw _ _ Hu) as Hg. to_keeps (@None Z).
  apply (keeps_bind _ None); [apply keeps_modify; clear; intros w Hw; maps_tac|intros _].
  clear w Hw Hu. apply keeps_get. intros w Hw. apply (keeps_seq None None None); [| |done].
  - destruct (getGameClient w (m_gs_id u)) as [g|] eqn:Hgc.
    + apply getGameClient_valid in Hgc. destruct (decide (m_state u = _connect_)).
      * apply (keeps_seq None None None); [|intros _; apply keeps_emit; by apply Hg|done].
        apply (put_keeps None _ w); [done|]. maps_tac. by apply Hg.
      * apply erase_accounts_wlp; [done|]. intros m' Hm.
        apply (keeps_seq None None None); [|intros _; by apply keeps_emit|done].
        apply (put_keeps None _ w); [done|]. by apply set_accs_inv.
    + apply erase_accounts_wlp; [done|]. intros m' Hm. apply (put_keeps None _ w); [done|]. by apply set_accs_inv.
  - intros _. apply keeps_modify. clear. intros w Hw. maps_tac.
Qed.

Lemma recon_timer_keeps plat t : keeps None (eventCallRemoveReconn plat t) None.
Proof.
  apply keeps_get. intros w Hw.
  assert (Hrest : forall gs, gs = INVALID_GAME_ID \/ knows t ->
    keeps None (m <- lift (ObjMap.eraseValue plat (m_onlineaccs w) t) ;;
      mmodify (fun w => set_accs w m) ;;;
      if negb (gs =? INVALID_GAME_ID) then
        match getGameClient w gs with Some g => removePlayer g t | None => mret' tt end
      else mret' tt) None).
  { intros gs Hgs w1 Hw1. apply wp_bind. eapply erase_value_keeps; [|exact Hw1]. intros m' Hm. to_keeps (@None Z).
    apply (keeps_bind _ None); [apply keeps_modify; clear w1 Hw1; intros w1 Hw1; maps_tac; exact (gi_accs _ _ Hw _ _ (Hm _ _ H))|intros _].
    destruct (Z.eqb_spec gs INVALID_GAME_ID) as [|Hne]; [apply keeps_ret|]. apply remove_player_keeps. naive_solver. }
  unfold ObjMap.eraseDataOut. destruct (m_recon_map w !! t) as [gs|] eqn:Hr.
  - apply (keeps_seq None None None); [|intros _; apply Hrest; right; by eapply gi_recon|done].
    apply (put_keeps None _ w); [done|]. maps_tac. eapply gi_recon; [done|]. by apply lookup_delete_Some in H as [_ H].
  - apply (keeps_seq None None None); [|intros _; apply Hrest; by left|done].
    apply (put_keeps None _ w); [done|]. by destruct w.
Qed.

Lemma idle_game_keeps h idle_max l best : keeps h (idle_game_loop idle_max l best) h.
Proof.
  revert best. induction l as [|i l IH]; intros best; cbn [idle_game_loop]; [apply keeps_ret|].
  apply keeps_get. intros w Hw. to_keeps h. destruct (m_activeGames w !! i) as [g|]; [|apply IH].
  apply (keeps_bind _ h); [apply game_of_keeps|intros x].
  destruct best as [b|]; [apply (keeps_bind _ h); [apply game_of_keeps|intros y]; case_match; [|apply IH]|];
    case_match; apply IH || apply keeps_ret.
Qed.

(** [checkConn] leaves session [s] for [setTrans] when it succeeds. *)
Definition conn_post (s t : Z) (ok : bool) (w' : world) (o : list effect) : Prop :=
  (if ok then knows t /\ gate_inv (Some s) w' else gate_inv None w') /\ Forall fine o.

Lemma conn_bind {A} h h' s t (m : handler A) (k : A -> handler bool) w :
  keeps h m h' -> (forall a w1, gate_inv h' w1 -> wlp (k a) (conn_post s t) w1) -> gate_inv h w ->
  wlp (mbind' m k) (conn_post s t) w.
Proof.
  intros Hm Hk Hw. apply wp_bind. eapply wp_mono; [by apply Hm|]. intros a w1 o1 [H1 F1].
  eapply wp_mono; [by apply Hk|]. intros ok w2 o2 [H2 F2]. split; [done|]. by apply Forall_app.
Qed.

Lemma keeps_mput h h' w1 : gate_inv h' w1 -> keeps h (mput w1) h'.
Proof. done. Qed.

Lemma conn_get s t (k : world -> handler bool) w :
  wlp (k w) (conn_post s t) w -> wlp (mbind' mget k) (conn_post s t) w.
Proof. intros Hk. wp_steps. eapply wp_mono; [exact Hk|]. done. Qed.

Lemma online_keeps s t h : knows t ->
  keeps h (mmodify (fun w => set_onlines w (ObjPtrMap.addData (m_onlines w) t s).1)) h.
Proof. intros Ht. apply keeps_modify. intros w Hw. maps_tac. Qed.

Lemma conn_ok s t w : knows t -> gate_inv (Some s) w -> wlp (mret' true) (conn_post s t) w.
Proof. intros Ht Hw. by split. Qed.

Lemma conn_fail s t w : gate_inv None w -> wlp (setState s _wait_close_ ;;; mret' false) (conn_post s t) w.
Proof. intros Hw. apply (conn_bind None None); [apply setState_keeps| |done]. intros _ w1 H1. by split. Qed.

Lemma checkConn_post idle_max t s w : gate_inv None w -> wlp (checkConn idle_max t s) (conn_post s t) w.
Proof.
  intros Hw. apply conn_get. unfold ObjMap.hasData, ObjMap.eraseDataOut, ObjMap.getData.
  destruct (m_wait_map w !! t) as [a|] eqn:Hwait.
  - pose proof (gi_wait _ _ Hw _ _ Hwait) as Ha. assert (Ht : knows t) by (by exists a).
    apply (conn_bind None None); [apply keeps_mput; maps_tac| |done].
    { eapply gi_wait; [done|]. by apply lookup_delete_Some in H as [_ H]. }
    intros _ w1 Hw1. apply (conn_bind None None); [apply idle_game_keeps| |done]. clear w Hw Hwait w1 Hw1.
    intros [g|] w Hw; [|by apply conn_fail].
    apply (conn_bind None None); [apply game_of_keeps| |done]. intros x w1 H1.
    apply (conn_bind None None); [by apply keeps_emit| |done]. intros _ w2 H2.
    apply (conn_bind None (Some s)); [apply setGSid_keeps; by left| |done]. intros _ w3 H3.
    apply (conn_bind (Some s) (Some s)); [apply setState_keeps| |done]. intros _ w4 H4.
    apply (conn_bind (Some s) (Some s)); [by apply online_keeps| |done]. intros _ w5 H5.
    apply (conn_bind (Some s) (Some s)); [|intros _ w6 H6; by apply conn_ok|done].
    apply keeps_modify. clear -Ha. intros w Hw. maps_tac.
  - destruct (m_recon_map w !! t) as [gs|] eqn:Hr; [|by apply conn_fail].
    assert (Ht : knows t) by (by eapply gi_recon).
    apply (conn_bind None None); [apply keeps_mput; maps_tac| |done].
    intros _ w1 Hw1. apply (conn_bind None (Some s)); [apply setGSid_keeps; by left| |done]. intros _ w2 H2.
    apply (conn_bind (Some s) (Some s)); [apply setState_keeps| |done]. intros _ w3 H3.
    apply (conn_bind (Some s) (Some s)); [by apply online_keeps| |done]. intros _ w4 H4. by apply conn_ok.
Qed.

Lemma parseLoginGame_keeps idle_max s t : keeps None (parseLoginGame idle_max s t) None.
Proof.
  apply (keeps_bind _ None); [apply user_of_keeps|intros u]. destruct (decide _); [apply keeps_ret|].
  intros w Hw. apply wp_bind. eapply wp_mono; [by apply checkConn_post|]. intros ok w1 o1 [H1 F1].
  destruct ok; [|split; [done|by rewrite app_nil_r]]. destruct H1 as [Ht H1].
  eapply wp_mono; [by apply setTrans_keeps|]. intros a w2 o2 [H2 F2]. split; [done|]. by apply Forall_app.
Qed.

Lemma user_msg_keeps s p : keeps None (user_parseGameMsg s p) None.
Proof.
  intros w Hw. unfold user_parseGameMsg. apply wp_bind, user_of_wlp. intros u Hu. wp_steps.
  destruct (getGameClient w (m_gs_id u)) as [g|] eqn:Hg; wp_steps; [|done]. split; [done|].
  repeat constructor. apply (gi_game _ _ Hw _ _ Hu); [by eapply getGameClient_valid|done].
Qed.

Lemma user_close_keeps plat s : keeps None (user_on_close plat s) None.
Proof.
  apply (keeps_bind _ None); [apply checkClose_keeps|intros _]. apply (keeps_bind _ None); [apply setState_keeps|intros _].
  intros w Hw. apply wp_bind, user_of_wlp. intros u Hu. unfold put_user. wp_steps. split; [|constructor].
  apply (put_user_inv None); [done|by left|done|auto].
Qed.

Lemma close_timer_keeps s : keeps None (close_timer s) None.
Proof.
  intros w Hw. apply wp_bind, user_of_wlp. intros u Hu. destruct (close_events u); [done|].
  unfold setClose, put_user. wp_steps. split; [|by repeat constructor].
  apply (put_user_inv None); [done|exact (gi_trans _ _ Hw _ _ Hu)|exact (gi_game _ _ Hw _ _ Hu)|auto].
Qed.

Lemma getAccount_announced h w t : gate_inv h w -> getAccount w t <> INVALID_ACCOUNT -> (getAccount w t, t) ∈ ann.
Proof.
  intros Hw. unfold getAccount, ObjMap.getKey.
  destruct (ObjMap.getKey_scan _ t) as [k|] eqn:Hk; [|done]. intros _. cbn.
  apply getKey_scan_Some, elem_of_map_walk in Hk. by eapply gi_accs.
Qed.

Lemma change_keeps this gid flag : keeps None (parseChangeGS this gid flag) None.
Proof.
  apply keeps_get. intros w Hw. unfold getUserSession, ObjPtrMap.getData.
  destruct (m_onlines w !! flag) as [s|]; [|done].
  destruct (getGameClient w gid) as [new|]; [|by to_keeps (@None Z); apply keeps_emit].
  apply wp_bind, user_of_wlp. intros u Hu. unfold removePlayer. wp_steps.
  pose proof (gi_trans _ _ Hw _ _ Hu) as Ht.
  destruct (Z.eqb_spec (getAccount w (m_tranid u)) INVALID_ACCOUNT) as [|Hne]; cbn [negb].
  - unfold setClose. wp_steps. split; [done|]. cbn [app]. by repeat (apply Forall_cons; split).
  - pose proof (getAccount_announced _ _ _ Hw Hne) as Ha. unfold setGSid, addNewPlayer. wp_steps.
    apply user_of_wlp. intros u' Hu'. rewrite Hu in Hu'. injection Hu' as <-. unfold put_user. wp_steps.
    split; [|cbn [app]; by repeat (apply Forall_cons; split)]. apply (put_user_inv None); [done|done| |auto]. intros _ _. by exists (getAccount w (m_tranid u)).
Qed.

Lemma handle_keeps plat idle_max e :
  (forall a t, e = LoginUser a t -> (a, t) ∈ ann) -> keeps None (handle plat idle_max e) None.
Proof.
  intros Hann. destruct e; cbn [handle].
  - apply keeps_get. intros w Hw. destruct (users w !! s); [done|]. to_keeps (@None Z). clear. apply keeps_modify. intros w Hw.
    apply (put_user_inv None); [done|by left|done|auto].
  - apply setState_keeps.
  - apply user_close_keeps.
  - apply parseLoginGame_keeps.
  - apply user_msg_keeps.
  - apply close_timer_keeps.
  - apply addToWait_keeps. by apply Hann.
  - apply kickUser_keeps.
  - apply keeps_get. intros w Hw. to_keeps (@None Z). apply (keeps_bind _ None); [by apply keeps_emit|intros _].
    apply keeps_modify. clear. intros w Hw. maps_tac.
  - apply keeps_get. intros w Hw. to_keeps (@None Z). case_match; [|apply keeps_ret].
    apply keeps_get. intros w1 H1. to_keeps (@None Z). by apply keeps_emit.
  - apply keeps_get. intros w Hw. case_decide; [|done]. to_keeps (@None Z).
    apply (keeps_bind _ None); [apply keeps_mput; maps_tac|intros _; apply wait_timer_keeps].
  - apply keeps_get. intros w Hw. case_decide; [|done]. to_keeps (@None Z).
    apply (keeps_bind _ None); [apply keeps_mput; maps_tac|intros _; apply recon_timer_keeps].
  - apply keeps_get. intros w Hw. to_keeps (@None Z). destruct (m_Games w !! g); [apply keeps_ret|]. apply keeps_mput. maps_tac.
  - by apply keeps_emit.
  - apply (keeps_bind _ None); [apply game_of_keeps|intros i]. apply (keeps_bind _ None).
    + apply keeps_modify. intros w Hw. maps_tac.
    + intros _. unfold addActiveGameClient. destruct (_ && _); [|apply keeps_ret]. apply keeps_modify. intros w Hw. maps_tac.
  - apply (keeps_bind _ None); [apply game_of_keeps|intros i]. apply keeps_modify. intros w Hw. maps_tac.
  - apply keeps_get. intros w Hw. to_keeps (@None Z). destruct (getUserSession w flag); [by apply keeps_emit|apply keeps_ret].
  - apply change_keeps.
  - apply (keeps_bind _ None); [apply game_of_keeps|intros i]. destruct (_ && _); [|apply keeps_ret].
    apply keeps_get. intros w Hw. to_keeps (@None Z). case_decide; [|apply keeps_ret].
    apply (keeps_bind _ None); [apply removeUsers_keeps|intros _]. apply keeps_modify. clear. intros w Hw. maps_tac.
Qed.

End announced.

(** More announcements leave everything as good. *)
Lemma gate_inv_more ann ann' h w : ann ⊆ ann' -> gate_inv ann h w -> gate_inv ann' h w.
Proof.
  intros Hs []. assert (Hk : forall t, knows ann t -> knows ann' t) by (intros t [a Ha]; exists a; by apply Hs).
  split; try solve [eauto].
  - intros s u Hu. destruct (gi_trans0 _ _ Hu); auto.
Qed.

Lemma fine_more ann ann' e : ann ⊆ ann' -> fine ann e -> fine ann' e.
Proof.
  intros Hs. assert (Hk : forall t, knows ann t -> knows ann' t) by (intros t [a Ha]; exists a; by apply Hs).
  unfold fine. destruct e as [|? []| | |]; auto. intros [?|?]; auto.
Qed.

(** A run of the gate: what it was told by the login server and what it did, in
    order. *)
Definition announce (ann : gset (Z * Z)) (e : event) : gset (Z * Z) :=
  match e with LoginUser a t => {[ (a, t) ]} ∪ ann | _ => ann end.

Inductive runs (plat : platform) (idle_max : Z) : list event -> world -> list effect -> Prop :=
| runs_init : runs plat idle_max [] init []
| runs_step l w tr e w' o :
    runs plat idle_max l w tr -> handle plat idle_max e w = Ret (tt, w', o) ->
    runs plat idle_max (l ++ [e]) w' (tr ++ o).

Lemma init_gate_inv : gate_inv ∅ None init.
Proof. split; cbn; intros ? ?; rewrite lookup_empty; done. Qed.

Lemma runs_inv plat idle_max l w tr :
  runs plat idle_max l w tr ->
  gate_inv (foldl announce ∅ l) None w /\ Forall (fine (foldl announce ∅ l)) tr.
Proof.
  induction 1 as [|l w tr e w' o _ [Hi Hf] Hh]; [split; [apply init_gate_inv|constructor]|].
  rewrite foldl_app. cbn [foldl]. set (ann := foldl announce ∅ l) in *.
  assert (Hs : ann ⊆ announce ann e) by (destruct e; cbn; set_solver).
  assert (He : forall a t, e = LoginUser a t -> (a, t) ∈ announce ann e) by (intros a t ->; cbn; set_solver).
  pose proof (wlp_run _ _ _ _ _ _ (handle_keeps (announce ann e) plat idle_max e He w (gate_inv_more _ _ _ _ Hs Hi)) Hh) as [H1 H2].
  split; [done|]. apply Forall_app. split; [|done]. eapply Forall_impl; [exact Hf|]. intros x. by apply fine_more.
Qed.

(** C13: Whatever clients send, in whatever order connections come and go, a game
    server hears only of players the login server has announced to this gate: it is
    told to add exactly the announced pairs of account and transaction, and every
    client message passed to it, and every player reported offline, carries an
    announced transaction.  So a client cannot speak for a transaction number it
    made up. *)
Theorem games_hear_of_announced_users plat idle_max l w tr g :
  runs plat idle_max l w tr ->
  (forall a t, ToGame g (MsgGT2GSAddUser a t) ∈ tr -> LoginUser a t ∈ l) /\
  (forall p t, ToGame g (UserMsg p t) ∈ tr -> exists a, LoginUser a t ∈ l) /\
  (forall t, ToGame g (MsgGT2GSOfflineUser t) ∈ tr -> exists a, LoginUser a t ∈ l) /\
  (forall t, ToGame g (MsgGT2GSRemoveUser t) ∈ tr -> t = INVALID_TRANS_ID \/ exists a, LoginUser a t ∈ l).
Proof.
  intros Hr. destruct (runs_inv _ _ _ _ _ Hr) as [_ Hf]. rewrite Forall_forall in Hf.
  assert (Hin : forall l ann a t, (a, t) ∈ foldl announce ann l -> (a, t) ∈ ann \/ LoginUser a t ∈ l).
  { clear. induction l as [|e l IH]; intros ann a t; cbn [foldl]; [auto|].
    intros [Ha|Ha]%IH; [|right; by apply elem_of_cons; right].
    destruct e; cbn in Ha; auto. apply elem_of_union in Ha as [Ha|Ha]; [|auto].
    apply elem_of_singleton in Ha as [= -> ->]. right. by apply elem_of_cons; left. }
  assert (Hk : forall a t, (a, t) ∈ foldl announce ∅ l -> LoginUser a t ∈ l).
  { intros a t [Ha|Ha]%Hin; [set_solver|done]. }
  split_and!.
  - intros a t Ha. by apply Hk, (Hf _ Ha).
  - intros p t Ha. destruct (Hf _ Ha) as [a Hat]. eauto.
  - intros t Ha. destruct (Hf _ Ha) as [a Hat]. eauto.
  - intros t Ha. destruct (Hf _ Ha) as [?|[a Hat]]; eauto.
Qed.

(** A run computed. *)
Fixpoint play (plat : platform) (idle_max : Z) (l : list event) (w : world) : option (world * list effect) :=
  match l with
  | [] => Some (w, [])
  | e :: l' =>
      match handle plat idle_max e w with
      | Ret (_, w1, o1) => match play plat idle_max l' w1 with Some (w2, o2) => Some (w2, o1 ++ o2) | None => None end
      | UB _ => None
      end
  end.

Lemma play_runs plat idle_max l l0 w0 tr0 w tr :
  runs plat idle_max l0 w0 tr0 -> play plat idle_max l w0 = Some (w, tr) -> runs plat idle_max (l0 ++ l) w (tr0 ++ tr).
Proof.
  revert l0 w0 tr0 tr. induction l as [|e l IH]; intros l0 w0 tr0 tr Hr; cbn [play].
  - intros [= <- <-]. by rewrite !app_nil_r.
  - destruct (handle plat idle_max e w0) as [[[[] w1] o1]|] eqn:Hh; [|done].
    destruct (play plat idle_max l w1) as [[w2 o2]|] eqn:Hp; [|done]. intros [= <- <-].
    rewrite (app_assoc tr0). change (e :: l) with ([e] ++ l). rewrite (app_assoc l0).
    apply (IH _ w1); [|done]. by econstructor.
Qed.

(** One player comes, plays and loses the connection. *)
Definition one_player : list event :=
  [ NewGame 9; GameRegister 9 1; LoginUser 77 5; NewUserObject 1; UserAccept 1; LoginGame 1 5; ClientMsg 1 42; UserClose 1 ].

Definition one_player_end : world * list effect := default (init, []) (play POSIX 1000 one_player init).

Lemma one_player_runs : runs POSIX 1000 one_player one_player_end.1 one_player_end.2.
Proof.
  apply (play_runs POSIX 1000 one_player [] init []); [constructor|]. vm_compute. reflexivity.
Qed.

Lemma one_player_effects :
  one_player_end.2 = [ToLogin (MsgGT2LNPrepar 5); ToGame 9 (MsgGT2GSAddUser 77 5); ToGame 9 (UserMsg 42 5);
                      ToGame 9 (MsgGT2GSOfflineUser 5)].
Proof. vm_compute. reflexivity. Qed.

Lemma games_hear_of_announced_users_witness :
  ToGame 9 (MsgGT2GSAddUser 77 5) ∈ one_player_end.2 /\ LoginUser 77 5 ∈ one_player.
Proof.
  assert (Hin : ToGame 9 (MsgGT2GSAddUser 77 5) ∈ one_player_end.2)
    by (rewrite one_player_effects; apply elem_of_cons; right; apply elem_of_cons; left; reflexivity).
  split; [exact Hin|].
  exact (proj1 (games_hear_of_announced_users POSIX 1000 one_player one_player_end.1 one_player_end.2 9 one_player_runs)
    77 5 Hin).
Defined.

(** ** Coming back *)

Lemma user_of_wp s u Q w : users w !! s = Some u -> Q u w [] -> wp (user_of s) Q w.
Proof. intros Hu HQ. unfold user_of. wp_steps. by rewrite Hu. Qed.

Lemma setState_wp s st u Q w :
  users w !! s = Some u -> Q tt (set_users w (<[s := state_set st u]> (users w))) [] -> wp (setState s st) Q w.
Proof. intros Hu HQ. unfold setState. apply wp_bind. eapply user_of_wp; [done|]. unfold put_user. by wp_steps. Qed.

(** The closing of a session that was playing. *)
Definition gone (w : world) (s t gid : Z) : world :=
  mk_world (delete t (m_onlines w)) (m_onlineaccs w) (m_wait_map w) (<[t := gid]> (m_recon_map w)) (m_activeGames w)
    (<[s := mk_user INVALID_TRANS_ID INVALID_GAME_ID _disable_ []]> (users w)) (m_Games w) (wait_timers w)
    (recon_timers w ++ [t]) (tell_event w).

Lemma close_playing plat w s t gid g ev :
  m_onlines w !! t = Some s -> users w !! s = Some (mk_user t gid _connect_ ev) ->
  getGameClient w gid = Some g -> m_recon_map w !! t = None ->
  user_on_close plat s w = Ret (tt, gone w s t gid, [ToGame g (MsgGT2GSOfflineUser t)]).
Proof.
  intros Ho Hu Hg Hr. unfold user_on_close, checkClose, user_reset, setState, user_of, put_user, mbind', mget, mmodify, mput.
  rewrite Hu. cbn. unfold ObjPtrMap.eraseData. rewrite Ho. cbn.
  change (getGameClient (set_onlines w _) gid) with (getGameClient w gid). rewrite Hg. cbn [decide].
  destruct (decide (_connect_ = _connect_)) as [_|]; [|done].
  unfold ObjMap.addData, offlinePlayer, memit. cbn. rewrite Hr. cbn. rewrite Hu. cbn. rewrite lookup_insert_eq. cbn.
  unfold gone. by rewrite insert_insert_eq.
Qed.

Lemma reconnect_run idle_max w s t gid u :
  users w !! s = Some u -> m_state u <> _connect_ -> m_wait_map w !! t = None -> m_recon_map w !! t = Some gid ->
  m_onlines w !! t = None -> is_u16 gid ->
  parseLoginGame idle_max s t w =
  Ret (tt, mk_world (<[t := s]> (m_onlines w)) (m_onlineaccs w) (m_wait_map w) (delete t (m_recon_map w)) (m_activeGames w)
    (<[s := mk_user t gid _connect_ []]> (users w)) (m_Games w) (wait_timers w) (recon_timers w) (tell_event w), []).
Proof.
  intros Hu Hs Hw Hr Ho Hg. unfold parseLoginGame, checkConn, setGSid, setState, setTrans, user_of, put_user, mbind', mget, mmodify, mput.
  rewrite Hu. cbn. destruct (decide (m_state u = _connect_)) as [|_]; [done|]. cbn.
  unfold ObjMap.hasData, ObjMap.getData, ObjMap.eraseData, ObjPtrMap.addData, mret'. rewrite Hw, Hr. cbn. rewrite Hu. cbn.
  rewrite lookup_insert_eq. cbn. rewrite Ho. cbn. rewrite !lookup_insert_eq. cbn. rewrite !insert_insert_eq.
  by rewrite u16_id.
Qed.

(** A reconnection that is not expected, or comes too late. *)
Lemma refused_run idle_max w s t u :
  users w !! s = Some u -> m_state u <> _connect_ -> m_wait_map w !! t = None -> m_recon_map w !! t = None ->
  parseLoginGame idle_max s t w = Ret (tt, set_users w (<[s := state_set _wait_close_ u]> (users w)), []).
Proof.
  intros Hu Hs Hw Hr. unfold parseLoginGame, checkConn, setState, user_of, put_user, mbind', mget, mmodify.
  rewrite Hu. cbn. destruct (decide (m_state u = _connect_)) as [|_]; [done|]. cbn.
  unfold ObjMap.hasData, ObjMap.getData, mret'. rewrite Hw, Hr. cbn. by rewrite Hu.
Qed.

(** The time to come back is over. *)
Lemma recon_timeout_run w t gid g :
  m_recon_map w !! t = Some gid -> gid <> INVALID_GAME_ID -> getGameClient w gid = Some g ->
  eventCallRemoveReconn WIN32 t w =
  Ret (tt, mk_world (m_onlines w) (ObjMap.without_value (m_onlineaccs w) t) (m_wait_map w) (delete t (m_recon_map w))
    (m_activeGames w) (users w) (m_Games w) (wait_timers w) (recon_timers w) (tell_event w), [ToGame g (MsgGT2GSRemoveUser t)]).
Proof.
  intros Hr Hgid Hg. unfold eventCallRemoveReconn, ObjMap.eraseDataOut, mbind', mget, mmodify, mput. rewrite Hr. cbn.
  rewrite eraseValue_win32_without. apply Z.eqb_neq in Hgid. rewrite Hgid. cbn.
  change (getGameClient _ gid) with (getGameClient w gid). by rewrite Hg.
Qed.

Lemma recon_event_run idle_max w t gid g :
  t ∈ recon_timers w -> m_recon_map w !! t = Some gid -> gid <> INVALID_GAME_ID -> getGameClient w gid = Some g ->
  handle WIN32 idle_max (ReconTimer t) w =
  Ret (tt, mk_world (m_onlines w) (ObjMap.without_value (m_onlineaccs w) t) (m_wait_map w) (delete t (m_recon_map w))
    (m_activeGames w) (users w) (m_Games w) (wait_timers w) (TcpServer.remove_first t (recon_timers w)) (tell_event w),
    [ToGame g (MsgGT2GSRemoveUser t)]).
Proof.
  intros Ht Hr Hgid Hg. cbn [handle]. unfold mbind' at 1, mget. destruct (decide (t ∈ recon_timers w)) as [_|]; [|done].
  set (w1 := set_recon w (m_recon_map w) (TcpServer.remove_first t (recon_timers w))).
  rewrite (mbind_run (mput w1) _ w tt w1 []) by done. by rewrite (recon_timeout_run w1 t gid g Hr Hgid Hg).
Qed.


Definition playing_world : world :=
  mk_world {[ 5 := 1 ]} {[ 77 := 5 ]} ∅ ∅ {[ 1 := 9 ]}
    {[ 1 := mk_user 5 1 _connect_ []; 2 := mk_user 0 0 _wait_account_ [20000] ]} {[ 9 := mk_info 1 1 ]} [] [] false.

Lemma playing_facts :
  m_onlines playing_world !! 5 = Some 1 /\ users playing_world !! 1 = Some (mk_user 5 1 _connect_ []) /\
  getGameClient playing_world 1 = Some 9 /\ m_recon_map playing_world !! 5 = None /\ m_wait_map playing_world !! 5 = None /\
  users playing_world !! 2 = Some (mk_user 0 0 _wait_account_ [20000]).
Proof. vm_compute. by split_and!. Qed.


(** ** The choice of a game server *)

Definition games_exist (w : world) : Prop := forall i g, m_activeGames w !! i = Some g -> is_Some (m_Games w !! g).

Lemma game_of_run w g x : m_Games w !! g = Some x -> game_of g w = Ret (x, w, []).
Proof. intros Hg. unfold game_of, mbind', mget. by rewrite Hg. Qed.

(** The players of a game server. *)
Definition players (w : world) (g : Z) : Z := match m_Games w !! g with Some x => onlines x | None => 0 end.

(** The result of the loop is [best] or a game server of the table that is not
    fuller; it is one with fewer than [idle_max] players, or none has fewer. *)
Definition game_picked (idle_max : Z) (w : world) (l : list Z) (best r : option Z) : Prop :=
  match r with
  | None => best = None /\ forall i, i ∈ l -> m_activeGames w !! i = None
  | Some g =>
      (Some g = best \/ exists i, i ∈ l /\ m_activeGames w !! i = Some g) /\
      (forall b, best = Some b -> players w g <= players w b) /\
      (idle_max <= players w g -> forall i h, i ∈ l -> m_activeGames w !! i = Some h -> players w g <= players w h)
  end.

(** An index that changes nothing. *)
Lemma picked_skip idle_max w i l best r :
  (forall h, m_activeGames w !! i = Some h -> exists b, best = Some b /\ players w b <= players w h) ->
  game_picked idle_max w l best r -> game_picked idle_max w (i :: l) best r.
Proof.
  intros Hi. destruct r as [g|]; cbn.
  - intros (H1 & H2 & H3). split_and!; [|done|].
    + destruct H1 as [?|(j & Hj & ?)]; [by left|]. right. exists j. split; [by apply elem_of_cons; right|done].
    + intros Hm j h [->|Hj]%elem_of_cons Hh; [|eauto]. destruct (Hi _ Hh) as (b & Hb & ?). specialize (H2 _ Hb). lia.
  - intros [-> Hr]. split; [done|]. intros j [->|Hj]%elem_of_cons; [|auto].
    destruct (m_activeGames w !! i) as [h|]; [|done]. by destruct (Hi h eq_refl) as (? & ? & _).
Qed.

(** An index whose game server is taken, for good or as the best so far. *)
Lemma picked_take idle_max w i l best g r :
  m_activeGames w !! i = Some g -> (forall b, best = Some b -> players w g <= players w b) ->
  (r = Some g /\ players w g < idle_max \/ game_picked idle_max w l (Some g) r) -> game_picked idle_max w (i :: l) best r.
Proof.
  intros Hi Hb [[-> Hlt]|Hr].
  - cbn. split_and!; [|done|lia]. right. exists i. split; [by apply elem_of_cons; left|done].
  - destruct r as [g'|]; [|by destruct Hr]. destruct Hr as (H1 & H2 & H3). specialize (H2 g eq_refl). split_and!.
    + right. destruct H1 as [[= ->]|(j & Hj & ?)]; [exists i|exists j]; (split; [apply elem_of_cons; by auto|done]).
    + intros b Heq. specialize (Hb b Heq). lia.
    + intros Hm j h [->|Hj]%elem_of_cons Hh; [|eauto]. rewrite Hi in Hh. injection Hh as <-. lia.
Qed.

Lemma idle_game_run idle_max w l best :
  games_exist w -> (match best with Some b => is_Some (m_Games w !! b) | None => True end) ->
  exists r, idle_game_loop idle_max l best w = Ret (r, w, []) /\ game_picked idle_max w l best r.
Proof.
  intros Hex. revert best. induction l as [|i l IH]; intros best Hb; cbn [idle_game_loop].
  - exists best. split; [done|]. destruct best as [b|]; cbn; [|set_solver]. split_and!; [by left|naive_solver|set_solver].
  - rewrite (mbind_pure mget _ w w) by done. destruct (m_activeGames w !! i) as [g|] eqn:Hi.
    2: { destruct (IH best Hb) as (r & -> & Hr). exists r. split; [done|]. apply picked_skip; [|done]. congruence. }
    destruct (Hex _ _ Hi) as [x Hx]. rewrite (mbind_pure _ _ _ _ (game_of_run w g x Hx)). cbn beta.
    assert (Hpg : players w g = onlines x) by (unfold players; by rewrite Hx).
    assert (Htake : (forall b, best = Some b -> players w g <= players w b) ->
      exists r, (if onlines x <? idle_max then mret' (Some g) else idle_game_loop idle_max l (Some g)) w = Ret (r, w, []) /\
      game_picked idle_max w (i :: l) best r).
    { intros Hle. destruct (Z.ltb_spec (onlines x) idle_max).
      - exists (Some g). split; [done|]. eapply picked_take; [done..|]. left. split; [done|lia].
      - destruct (IH (Some g)) as (r & -> & Hr); [by exists x|]. exists r. split; [done|]. eapply picked_take; eauto. }
    destruct best as [b|]; [|apply Htake; naive_solver]. destruct Hb as [y Hy].
    rewrite (mbind_pure _ _ _ _ (game_of_run w b y Hy)). cbn beta.
    assert (Hpb : players w b = onlines y) by (unfold players; by rewrite Hy).
    destruct (Z.ltb_spec (onlines x) (onlines y)) as [Hlt|Hge]; [apply Htake; intros ? [= <-]; lia|].
    destruct (IH (Some b)) as (r & -> & Hr); [by exists y|]. exists r. split; [done|]. apply picked_skip; [|done].
    intros h Hh. exists b. split; [done|]. rewrite Hi in Hh. injection Hh as <-. lia.
Qed.

(** [getIdleGameClient]: no game server exactly when none is active; else one with
    fewer than [idle_max] players, or the one with the fewest. *)
Lemma getIdleGameClient_run idle_max w :
  games_exist w ->
  exists r, getIdleGameClient idle_max w = Ret (r, w, []) /\
    match r with
    | None => forall i, 0 <= i < MAX_GAME_ID -> m_activeGames w !! i = None
    | Some g =>
        (exists i, 0 <= i < MAX_GAME_ID /\ m_activeGames w !! i = Some g) /\
        (players w g < idle_max \/ forall i h, 0 <= i < MAX_GAME_ID -> m_activeGames w !! i = Some h -> players w g <= players w h)
    end.
Proof.
  intros Hex. destruct (idle_game_run idle_max w game_indices None Hex I) as (r & Hr & Hs). exists r. split; [done|].
  assert (Hin : forall i, 0 <= i < MAX_GAME_ID <-> i ∈ game_indices) by (intros i; unfold game_indices; rewrite elem_of_seqZ; lia).
  destruct r as [g|].
  - destruct Hs as ([?|(i & Hi & Hg)] & _ & Hmin); [done|]. split; [exists i; by rewrite Hin|].
    destruct (Z.lt_ge_cases (players w g) idle_max); [by left|right]. intros j h Hj%Hin. by apply Hmin.
  - intros i Hi%Hin. by apply Hs.
Qed.

(** ** What goes wrong *)

(** The timer of a lost connection is not stopped when the player comes back: five
    minutes after the loss its account is forgotten while it plays. *)
Lemma stale_timer_forgets_account :
  exists w tr, play WIN32 1000
    (one_player ++ [NewUserObject 2; UserAccept 2; LoginGame 2 5; ReconTimer 5]) init = Some (w, tr) /\
    m_onlines w !! 5 = Some 2 /\ getAccount w 5 = INVALID_ACCOUNT /\ m_onlineaccs w = ∅.
Proof. eexists _, _. split; [vm_compute; reflexivity|]. split_and!; vm_compute; reflexivity. Qed.

(** A kicked player's connection closes in state [_connect_]: the player becomes one
    that may come back, and does, without the game server knowing it. *)
Lemma kicked_player_comes_back :
  exists w tr, play WIN32 1000
    [ NewGame 9; GameRegister 9 1; LoginUser 77 5; NewUserObject 1; UserAccept 1; LoginGame 1 5;
      LoginKick 77 5; UserClose 1; NewUserObject 2; UserAccept 2; LoginGame 2 5 ] init = Some (w, tr) /\
    tr = [ ToLogin (MsgGT2LNPrepar 5); ToGame 9 (MsgGT2GSAddUser 77 5); ToGame 9 (MsgGT2GSRemoveUser 5); CloseUser 1;
           ToGame 9 (MsgGT2GSOfflineUser 5) ] /\
    m_onlines w !! 5 = Some 2 /\ m_state <$> users w !! 2 = Some _connect_.
Proof. eexists _, _. split; [vm_compute; reflexivity|]. split_and!; vm_compute; reflexivity. Qed.

(** On other platforms than Windows a player who leaves in any state but
    [_connect_] runs into [eraseValue]'s erased iterator. *)
Lemma leaving_undefined_on_posix :
  handle POSIX 1000 (UserClose 1)
    (mk_world {[ 5 := 1 ]} {[ 77 := 5 ]} ∅ ∅ ∅ {[ 1 := mk_user 5 1 _wait_close_ [] ]} ∅ [] [] false) =
  UB "eraseValue: ++ on an erased std::map iterator".
Proof. vm_compute. reflexivity. Qed.
