(* ===== verification/GateTypes.v ===== *)
(** The machine types of the gate server ([gateserver/]).

    [Gate] keeps every variable as a [Z]; here is the typing that the C++
    declarations give them ([tran_id_type] is a [u32], [account_type] a [u64] in
    [common/message/server_define.h], a game server's number a [u16] in a session
    and a [u8] in [GateGameClient::GameInfo]), and that every event of the process
    keeps it, puts only values of the declared types into messages, and, for events
    on objects that exist, is defined unless it runs into [eraseValue] or
    [removeUsers] of a build without [WIN32]. *)

From Stdlib Require Import String.
From S2P Require Import Prelude CommonTemplate TcpServer GameWorld ServerFrame Gate.
From stdpp Require Import prelude gmap strings list.
#[local] Open Scope Z_scope.

Module GateTypes.
Import Version Gate.

Definition tran_id_type (x : Z) : Prop := is_u32 x.
Definition account_type (x : Z) : Prop := is_u64 x.

(** [class UserSession]; the events of a session have one of the two periods. *)
Record user_typed (u : UserSession) : Prop := {
  ut_tranid : is_u32 (m_tranid u);
  ut_gs_id : is_u16 (m_gs_id u);
  ut_events : Forall (fun p => p = _WAIT_ACCOUNT_DATA_TIME_ \/ p = _WAIT_CLOSE_TIME_) (close_events u)
}.

(** [struct GameInfo]. *)
Record info_typed (i : GameInfo) : Prop := { it_game_id : is_u8 (game_id i); it_onlines : is_u32 (onlines i) }.

(** [UserManager] and [GameManager]; [U] and [G] are session and game connection
    objects that exist: a pointer of a table is one of them. *)
Record typed (U G : gset Z) (w : world) : Prop := {
  ty_onlines : map_Forall (fun t s => tran_id_type t /\ s ∈ U) (m_onlines w);
  ty_accs : map_Forall (fun a t => account_type a /\ tran_id_type t) (m_onlineaccs w);
  ty_wait : map_Forall (fun t a => tran_id_type t /\ account_type a) (m_wait_map w);
  ty_recon : map_Forall (fun t g => tran_id_type t /\ is_u16 g) (m_recon_map w);
  ty_active : map_Forall (fun i g => 0 < i < MAX_GAME_ID /\ g ∈ G) (m_activeGames w);
  ty_users : map_Forall (fun _ => user_typed) (users w);
  ty_users_there : forall s, s ∈ U -> is_Some (users w !! s);
  ty_games : map_Forall (fun _ => info_typed) (m_Games w);
  ty_games_there : forall g, g ∈ G -> is_Some (m_Games w !! g);
  ty_wait_timers : Forall tran_id_type (wait_timers w);
  ty_recon_timers : Forall tran_id_type (recon_timers w)
}.

Definition well_typed (w : world) : Prop := typed (dom (users w)) (dom (m_Games w)) w.

(** The fields of the messages ([message/*.proto]). *)
Definition msg_typed (e : effect) : Prop :=
  match e with
  | ToLogin (MsgGT2LNPrepar a) => account_type a
  | ToLogin (MsgGT2LNOnlines n) => is_u32 n
  | ToLogin (MsgGTRegisterLG id _ _ port accs) =>
      is_u32 id /\ is_u32 port /\ Forall (fun p => account_type p.1 /\ tran_id_type p.2) accs
  | ToGame _ (MsgGT2GSAddUser a t) => account_type a /\ tran_id_type t
  | ToGame _ (MsgGT2GSRemoveUser t) | ToGame _ (MsgGT2GSOfflineUser t) | ToGame _ (UserMsg _ t) => tran_id_type t
  | ToGame _ (MsgServerRegister id _) => is_u32 id
  | ToClient _ _ _ | CloseUser _ | CloseGame _ => True
  end.

(** An event whose message is well typed and whose objects exist. *)
Definition event_typed (w : world) (e : event) : Prop :=
  let U := dom (users w) in
  let G := dom (m_Games w) in
  match e with
  | UserAccept s | UserClose s | ClientMsg s _ | CloseTimer s => s ∈ U
  | LoginGame s t => s ∈ U /\ tran_id_type t
  | LoginUser a t | LoginKick a t => account_type a /\ tran_id_type t
  | LoginConnected _ id _ port => is_u32 id /\ is_u32 port
  | GameConnected _ conf_id _ => is_u32 conf_id
  | GameRegister g id => g ∈ G /\ is_u32 id
  | GameOnlines g n => g ∈ G /\ is_u32 n
  | GameMsg _ flag => is_u32 flag
  | GameChange g id flag => g ∈ G /\ is_u32 id /\ is_u32 flag
  | GameClosed g => g ∈ G
  | NewUserObject _ | TellTimer | WaitTimer _ | ReconTimer _ | NewGame _ => True
  end.

(** What the process can get to through such events. *)
Inductive reachable (plat : platform) (idle_max : Z) : world -> Prop :=
| reachable_init : reachable plat idle_max init
| reachable_step w e w' o :
    reachable plat idle_max w -> event_typed w e -> handle plat idle_max e w = Ret (tt, w', o) ->
    reachable plat idle_max w'.

End GateTypes.

Import Version Gate GateTypes.

(** ** Typing of the maps' operations *)

Section maps.
Context {T : Type} (P : Z -> T -> Prop).
Implicit Types m : gmap Z T.

Lemma typed_add m k x : map_Forall P m -> P k x -> map_Forall P (ObjMap.addData m k x).1.
Proof. intros Hm Hx. unfold ObjMap.addData. destruct (m !! k); [done|]. by apply map_Forall_insert_2. Qed.

Lemma typed_ptr_add m k x : map_Forall P m -> P k x -> map_Forall P (ObjPtrMap.addData m k x).1.
Proof. intros Hm Hx. unfold ObjPtrMap.addData. destruct (m !! k); [done|]. by apply map_Forall_insert_2. Qed.

Lemma typed_erase m k : map_Forall P m -> map_Forall P (ObjMap.eraseData m k).1.
Proof. intros Hm. unfold ObjMap.eraseData. destruct (m !! k); [|done]. by apply map_Forall_delete. Qed.

Lemma typed_ptr_erase m k : map_Forall P m -> map_Forall P (ObjPtrMap.eraseData m k).1.
Proof. intros Hm. unfold ObjPtrMap.eraseData. destruct (m !! k); [|done]. by apply map_Forall_delete. Qed.

Lemma typed_erase_out m k v : map_Forall P m -> map_Forall P (ObjMap.eraseDataOut m k v).1.
Proof. intros Hm. unfold ObjMap.eraseDataOut. destruct (m !! k); [|done]. by apply map_Forall_delete. Qed.

Lemma typed_delete m k : map_Forall P m -> map_Forall P (delete k m).
Proof. apply map_Forall_delete. Qed.

Lemma insert_there m k x k' : is_Some (m !! k') -> is_Some (<[k := x]> m !! k').
Proof. rewrite lookup_insert_is_Some'. by right. Qed.

End maps.

Create HintDb gate_types.
#[export] Hint Resolve typed_add typed_ptr_add typed_erase typed_ptr_erase typed_erase_out typed_delete
  Forall_app_2 Forall_cons_2 Forall_nil_2 u16_range u8_range : gate_types.

(** ** Handlers that keep the types *)

Section soundness.
Context (plat : platform) (U G : gset Z).
Local Abbreviation typed := (typed U G).

(** From a typed state [m] ends in one, with a typed result and typed messages; it
    may be undefined only in a build without [WIN32]. *)
Definition sound {A} (P : A -> Prop) (m : handler A) : Prop :=
  forall w, typed w ->
  run_post (plat = POSIX) m (fun a w' o => P a /\ typed w' /\ Forall msg_typed o) w.

Lemma sound_bind {A B} (P : A -> Prop) (Q : B -> Prop) (m : handler A) (k : A -> handler B) :
  sound P m -> (forall a, P a -> sound Q (k a)) -> sound Q (mbind' m k).
Proof.
  intros Hm Hk w Hw. apply wp_bind. eapply wp_mono; [by apply Hm|]. intros a w1 o1 (Ha & H1 & F1).
  eapply wp_mono; [by apply (Hk a Ha)|]. intros b w2 o2 (Hb & H2 & F2). split_and!; [done..|]. by apply Forall_app.
Qed.

Lemma sound_get {B} (Q : B -> Prop) (k : world -> handler B) :
  (forall w, typed w -> sound Q (k w)) -> sound Q (mbind' mget k).
Proof. intros Hk. apply (sound_bind typed); [|done]. by intros w Hw. Qed.

Lemma sound_ret {A} (P : A -> Prop) a : P a -> sound P (mret' a).
Proof. by intros Ha w Hw. Qed.

Lemma sound_put w1 : typed w1 -> sound (fun _ => True) (mput w1).
Proof. by intros H1 w Hw. Qed.

Lemma sound_modify f : (forall w, typed w -> typed (f w)) -> sound (fun _ => True) (mmodify f).
Proof. intros Hf w Hw. split_and!; [done|by apply Hf|constructor]. Qed.

Lemma sound_emit e : msg_typed e -> sound (fun _ => True) (memit e).
Proof. intros He w Hw. split_and!; [done..|]. by repeat constructor. Qed.

Lemma sound_user_of s : s ∈ U -> sound user_typed (user_of s).
Proof.
  intros Hs w Hw. unfold user_of. wp_steps. destruct (ty_users_there _ _ _ Hw s Hs) as [u Hu]. rewrite Hu.
  split_and!; [by apply (ty_users _ _ _ Hw s)|done|constructor].
Qed.

Lemma sound_game_of g : g ∈ G -> sound info_typed (game_of g).
Proof.
  intros Hg w Hw. unfold game_of. wp_steps. destruct (ty_games_there _ _ _ Hw g Hg) as [i Hi]. rewrite Hi.
  split_and!; [by apply (ty_games _ _ _ Hw g)|done|constructor].
Qed.

(** [eraseValue] takes entries out, where it is defined. *)
Lemma sound_erase_value (P : Z -> Z -> Prop) m v :
  map_Forall P m -> sound (map_Forall P) (lift (ObjMap.eraseValue plat m v)).
Proof.
  intros Hm w Hw. destruct (ObjMap.eraseValue plat m v) as [m'|why] eqn:He; cbn.
  - split_and!; [|done|constructor]. intros k x Hk. apply Hm. by apply (eraseValue_Some plat m v m' k x He).
  - destruct plat; [done|]. reflexivity.
Qed.

(** The state changes. *)
Lemma put_user_typed w s u : typed w -> user_typed u -> typed (set_users w (<[s := u]> (users w))).
Proof.
  intros [] Hu. split; cbn; try done; [by apply map_Forall_insert_2|]. intros s' Hs'. by apply insert_there, ty_users_there0.
Qed.

Lemma put_game_typed w g i : typed w -> info_typed i -> typed (set_games w (<[g := i]> (m_Games w))).
Proof.
  intros [] Hi. split; cbn; try done; [by apply map_Forall_insert_2|]. intros g' Hg'. by apply insert_there, ty_games_there0.
Qed.

Lemma set_wait_typed w m t :
  typed w -> map_Forall (fun t a => tran_id_type t /\ account_type a) m -> Forall tran_id_type t -> typed (set_wait w m t).
Proof. intros [] Hm Ht. by split. Qed.

Lemma set_recon_typed w m t :
  typed w -> map_Forall (fun t g => tran_id_type t /\ is_u16 g) m -> Forall tran_id_type t -> typed (set_recon w m t).
Proof. intros [] Hm Ht. by split. Qed.

Lemma set_accs_typed w m :
  typed w -> map_Forall (fun a t => account_type a /\ tran_id_type t) m -> typed (set_accs w m).
Proof. intros [] Hm. by split. Qed.

Lemma set_onlines_typed w m :
  typed w -> map_Forall (fun t s => tran_id_type t /\ s ∈ U) m -> typed (set_onlines w m).
Proof. intros [] Hm. by split. Qed.

Lemma set_active_typed w m :
  typed w -> map_Forall (fun i g => 0 < i < MAX_GAME_ID /\ g ∈ G) m -> typed (set_active w m).
Proof. intros [] Hm. by split. Qed.

End soundness.

#[export] Hint Resolve put_user_typed put_game_typed set_wait_typed set_recon_typed set_accs_typed set_onlines_typed
  set_active_typed sound_ret sound_put sound_modify sound_emit sound_user_of sound_game_of sound_erase_value : gate_types.
#[export] Hint Resolve ty_onlines ty_accs ty_wait ty_recon ty_active ty_users ty_games ty_wait_timers ty_recon_timers
  ut_tranid ut_gs_id it_game_id it_onlines : gate_types.

(** Take a handler apart at its binds, reads and branches; close the typing goals. *)
Ltac sound_leaf :=
  solve [ apply sound_emit; cbn; eauto with gate_types
        | apply sound_modify; intros; eauto 8 with gate_types
        | apply sound_put; eauto 8 with gate_types
        | apply sound_ret; cbn; eauto with gate_types ].
Ltac sound_step :=
  match goal with
  | |- sound _ _ _ _ (mbind' mget _) => apply sound_get; intros
  | |- sound _ _ _ _ (mbind' _ _) => eapply sound_bind; [|intros]
  | |- sound _ _ _ _ (user_of _) => apply sound_user_of; eauto
  | |- sound _ _ _ _ (game_of _) => apply sound_game_of; eauto
  | |- sound _ _ _ _ (lift (ObjMap.eraseValue _ _ _)) => eapply sound_erase_value; eauto with gate_types
  | |- _ => sound_leaf
  end.
Ltac sound_steps := repeat (sound_step; cbv beta).

Section handlers.
Context (plat : platform) (idle_max : Z) (U G : gset Z).
Local Abbreviation sound := (sound plat U G).
Local Abbreviation typed := (typed U G).
Local Abbreviation done_ := (fun _ : unit => True).

(** A pointer of a table is an object's. *)
Lemma online_there w t s : typed w -> m_onlines w !! t = Some s -> s ∈ U /\ tran_id_type t.
Proof. intros Hw Hs. by destruct (ty_onlines _ _ _ Hw _ _ Hs). Qed.

Lemma game_there w gs g : typed w -> getGameClient w gs = Some g -> g ∈ G.
Proof.
  intros Hw. unfold getGameClient. destruct (_ && _); [|done]. intros Hg. by destruct (ty_active _ _ _ Hw _ _ Hg).
Qed.

Lemma put_user_sound s u : user_typed u -> sound done_ (put_user s u).
Proof. intros Hu. apply sound_modify. intros. by apply put_user_typed. Qed.

Lemma state_set_typed st u : user_typed u -> user_typed (state_set st u).
Proof.
  intros [Ht Hg He]. destruct st; split; cbn; try done.
  - apply Forall_app_2; [done|]. repeat constructor.
  - destruct (close_events u) as [|p ev]; cbn; apply Forall_cons; (split; [by right|]); [constructor|].
    apply Forall_fmap, Forall_true. by right.
Qed.

Lemma with_gs_typed u g : user_typed u -> is_u16 g -> user_typed (with_gs u g).
Proof. intros [] Hg. by split. Qed.

Lemma with_trans_typed u t : user_typed u -> is_u32 t -> user_typed (with_trans u t).
Proof. intros [] Ht. by split. Qed.

Lemma setState_sound s st : s ∈ U -> sound done_ (setState s st).
Proof. intros Hs. unfold setState. sound_steps. apply put_user_sound. by apply state_set_typed. Qed.

Lemma setGSid_sound s gs : s ∈ U -> sound done_ (setGSid s gs).
Proof. intros Hs. unfold setGSid. sound_steps. apply put_user_sound. by apply with_gs_typed, u16_range. Qed.

Lemma setTrans_sound s t : s ∈ U -> tran_id_type t -> sound done_ (setTrans s t).
Proof. intros Hs Ht. unfold setTrans. sound_steps. apply put_user_sound. by apply with_trans_typed. Qed.

Lemma tell_game_sound w gs (f : Z -> handler unit) :
  (forall g, sound done_ (f g)) -> sound done_ (match getGameClient w gs with Some g => f g | None => mret' tt end).
Proof. intros Hf. destruct (getGameClient w gs); [done|]. by apply sound_ret. Qed.

Lemma remove_player_sound w gs t :
  tran_id_type t -> sound done_ (match getGameClient w gs with Some g => removePlayer g t | None => mret' tt end).
Proof. intros Ht. apply tell_game_sound. intros g. by apply sound_emit. Qed.


Lemma kickUser_sound t a : tran_id_type t -> sound done_ (kickUser t a).
Proof.
  intros Ht. unfold kickUser. apply sound_get. intros w Hw. destruct (m_onlines w !! t) as [s|] eqn:Hs.
  - destruct (online_there w t s Hw Hs) as [HU _]. eapply sound_bind; [by apply sound_user_of|intros u Hu].
    eapply sound_bind; [by apply remove_player_sound|intros _ _]. sound_steps.
  - destruct (ObjMap.eraseDataOut (m_wait_map w) t INVALID_ACCOUNT) as [wait [b v]] eqn:Hwait.
    eapply sound_bind; [apply sound_put; apply set_wait_typed; [done| |eauto with gate_types]|intros _ _].
    { change wait with (wait, (b, v)).1. rewrite <- Hwait. eauto with gate_types. }
    eapply sound_bind; [destruct (negb _); sound_steps|intros _ _]. clear -Ht. apply sound_get. intros w Hw.
    destruct (ObjMap.eraseDataOut (m_recon_map w) t INVALID_GAME_ID) as [recon [found gs]] eqn:Hrecon.
    eapply sound_bind; [apply sound_put; apply set_recon_typed; [done| |eauto with gate_types]|intros _ _].
    { change recon with (recon, (found, gs)).1. rewrite <- Hrecon. eauto with gate_types. }
    destruct found; [by apply remove_player_sound|by apply sound_ret].
Qed.

Lemma addToWait_sound t a : tran_id_type t -> account_type a -> sound done_ (addToWait t a).
Proof.
  intros Ht Ha. unfold addToWait. apply sound_get. intros w Hw.
  eapply sound_bind; [destruct (m_onlines w !! t); [by apply kickUser_sound|by apply sound_ret]|intros _ _].
  eapply sound_bind; [apply sound_modify; clear -Ht Ha; intros w Hw|intros _ _; apply sound_emit].
  - apply set_wait_typed; [done|eauto with gate_types|]. apply Forall_app_2; [eauto with gate_types|by apply Forall_singleton].
  - revert Ht. unfold msg_typed, account_type, tran_id_type, is_u64, is_u32. lia.
Qed.

Lemma removeUsers_sound gs : sound done_ (removeUsers plat gs).
Proof.
  apply sound_get. intros w Hw. apply (sound_bind plat U G done_).
  - assert (HU : Forall (fun p => p.2 ∈ U) (map_walk (m_onlines w))).
    { apply Forall_forall. intros [t s] Hin%elem_of_map_walk. by apply (online_there w t s). }
    clear Hw. induction HU as [|[t s] l Hs _ IH]; cbn [removeUsers_loop]; [by apply sound_ret|].
    eapply sound_bind; [by apply sound_user_of|intros u Hu]. destruct (m_gs_id u =? gs); [|done].
    eapply sound_bind; [by apply setState_sound|intros _ _]. destruct plat eqn:Hp; [done|]. by intros w1 H1.
  - intros _ _. clear. sound_steps.
Qed.

Lemma checkClose_sound s : s ∈ U -> sound done_ (checkClose plat s).
Proof.
  intros Hs. unfold checkClose. eapply sound_bind; [by apply sound_user_of|intros u Hu].
  pose proof (ut_tranid _ Hu) as Ht. pose proof (ut_gs_id _ Hu) as Hg.
  eapply sound_bind; [sound_steps|intros _ _]. apply sound_get. intros w Hw. eapply sound_bind.
  - destruct (getGameClient w (m_gs_id u)); [destruct (decide _)|]; unfold offlinePlayer, removePlayer; sound_steps.
  - intros _ _. apply sound_modify. clear -Ht. intros w Hw. apply set_recon_typed; [done|eauto with gate_types|].
    apply Forall_app_2; [eauto with gate_types|by apply Forall_singleton].
Qed.

Lemma recon_timer_sound t : tran_id_type t -> sound done_ (eventCallRemoveReconn plat t).
Proof.
  intros Ht. unfold eventCallRemoveReconn. apply sound_get. intros w Hw.
  destruct (ObjMap.eraseDataOut (m_recon_map w) t INVALID_GAME_ID) as [recon [found gs]] eqn:Hrecon.
  eapply sound_bind; [apply sound_put; apply set_recon_typed; [done| |eauto with gate_types]|intros _ _].
  { change recon with (recon, (found, gs)).1. rewrite <- Hrecon. eauto with gate_types. }
  eapply sound_bind; [eapply sound_erase_value; eauto with gate_types|intros m Hm; cbv beta in Hm].
  eapply sound_bind; [sound_steps|intros _ _]. destruct (negb _); [by apply remove_player_sound|by apply sound_ret].
Qed.

Lemma idle_game_sound l best :
  (forall g, best = Some g -> g ∈ G) -> sound (fun r => forall g, r = Some g -> g ∈ G) (idle_game_loop idle_max l best).
Proof.
  revert best. induction l as [|i l IH]; intros best Hb; cbn [idle_game_loop]; [by apply sound_ret|].
  apply sound_get. intros w Hw. destruct (m_activeGames w !! i) as [g|] eqn:Hi; [|by apply IH].
  destruct (ty_active _ _ _ Hw _ _ Hi) as [_ Hg]. eapply sound_bind; [by apply sound_game_of|intros x _].
  assert (Htake : sound (fun r => forall g, r = Some g -> g ∈ G)
    (if onlines x <? idle_max then mret' (Some g) else idle_game_loop idle_max l (Some g))).
  { destruct (onlines x <? idle_max); [apply sound_ret|apply IH]; by intros ? [= <-]. }
  destruct best as [b|]; [|exact Htake]. eapply sound_bind; [by apply sound_game_of, Hb|intros y _].
  destruct (onlines x <? onlines y); [exact Htake|by apply IH].
Qed.

Lemma conn_online_sound t s :
  s ∈ U -> tran_id_type t -> sound done_ (mmodify (fun w => set_onlines w (ObjPtrMap.addData (m_onlines w) t s).1)).
Proof. intros Hs Ht. apply sound_modify. intros w Hw. eauto with gate_types. Qed.

Lemma conn_refused_sound s : s ∈ U -> sound (fun _ => True) (setState s _wait_close_ ;;; mret' false).
Proof. intros Hs. eapply sound_bind; [by apply setState_sound|intros _ _]. by apply sound_ret. Qed.

Lemma checkConn_sound t s : s ∈ U -> tran_id_type t -> sound (fun _ => True) (checkConn idle_max t s).
Proof.
  intros Hs Ht. unfold checkConn. apply sound_get. intros w Hw. unfold ObjMap.hasData, ObjMap.eraseDataOut, ObjMap.getData.
  destruct (m_wait_map w !! t) as [a|] eqn:Ha.
  - destruct (ty_wait _ _ _ Hw _ _ Ha) as [_ Hacc]. cbv beta iota.
    eapply sound_bind; [apply sound_put; eauto with gate_types|intros _ _].
    eapply sound_bind; [by apply idle_game_sound|intros [g|] Hg; [|by apply conn_refused_sound]].
    eapply sound_bind; [apply sound_game_of; by apply Hg|intros x Hx].
    eapply sound_bind; [by apply sound_emit|intros _ _]. eapply sound_bind; [by apply setGSid_sound|intros _ _].
    eapply sound_bind; [by apply setState_sound|intros _ _]. eapply sound_bind; [by apply conn_online_sound|intros _ _].
    eapply sound_bind; [apply sound_modify; intros; eauto with gate_types|intros _ _]. by apply sound_ret.
  - destruct (m_recon_map w !! t) as [gs|] eqn:Hr; cbv beta iota; [|by apply conn_refused_sound].
    eapply sound_bind; [apply sound_put; eauto with gate_types|intros _ _]. eapply sound_bind; [by apply setGSid_sound|intros _ _].
    eapply sound_bind; [by apply setState_sound|intros _ _]. eapply sound_bind; [by apply conn_online_sound|intros _ _].
    by apply sound_ret.
Qed.

Lemma parseLoginGame_sound s t : s ∈ U -> tran_id_type t -> sound done_ (parseLoginGame idle_max s t).
Proof.
  intros Hs Ht. unfold parseLoginGame. eapply sound_bind; [by apply sound_user_of|intros u Hu].
  destruct (decide _); [by apply sound_ret|]. eapply sound_bind; [by apply checkConn_sound|intros ok _].
  destruct ok; [by apply setTrans_sound|by apply sound_ret].
Qed.

Lemma user_msg_sound s p : s ∈ U -> sound done_ (user_parseGameMsg s p).
Proof.
  intros Hs. unfold user_parseGameMsg. eapply sound_bind; [by apply sound_user_of|intros u Hu]. apply sound_get. intros w Hw.
  apply (tell_game_sound w _ (fun g => memit (ToGame g (UserMsg p (m_tranid u))))). intros g. apply sound_emit. apply Hu.
Qed.

Lemma user_close_sound s : s ∈ U -> sound done_ (user_on_close plat s).
Proof.
  intros Hs. unfold user_on_close. eapply sound_bind; [by apply checkClose_sound|intros _ _].
  eapply sound_bind; [by apply setState_sound|intros _ _]. eapply sound_bind; [by apply sound_user_of|intros u Hu].
  apply put_user_sound. split; cbn; [done..|apply Hu].
Qed.

Lemma close_timer_sound s : s ∈ U -> sound done_ (close_timer s).
Proof.
  intros Hs. unfold close_timer. eapply sound_bind; [by apply sound_user_of|intros u [Ht Hg He]].
  destruct (close_events u) as [|p ev]; [by apply sound_ret|]. eapply sound_bind; [by apply sound_emit|intros _ _].
  apply put_user_sound. split; [done..|]. by apply Forall_cons in He as [_ He].
Qed.

Lemma getAccount_typed w t : typed w -> account_type (getAccount w t).
Proof.
  intros Hw. unfold getAccount, ObjMap.getKey. destruct (ObjMap.getKey_scan _ t) as [k|] eqn:Hk; [|done].
  apply getKey_scan_Some, elem_of_map_walk in Hk. by destruct (ty_accs _ _ _ Hw _ _ Hk).
Qed.

Lemma change_sound this gid flag : sound done_ (parseChangeGS this gid flag).
Proof.
  unfold parseChangeGS. apply sound_get. intros w Hw. unfold getUserSession, ObjPtrMap.getData.
  destruct (m_onlines w !! flag) as [s|] eqn:Hs; [|by apply sound_ret].
  destruct (online_there w flag s Hw Hs) as [HU _]. destruct (getGameClient w gid) as [new|]; [|by apply sound_emit].
  eapply sound_bind; [by apply sound_user_of|intros u Hu]. eapply sound_bind; [apply sound_emit; apply Hu|intros _ _].
  destruct (negb _); [|by apply sound_emit]. eapply sound_bind; [by apply setGSid_sound|intros _ _].
  apply sound_emit. split; [by apply getAccount_typed|apply Hu].
Qed.

Lemma game_register_sound g id : g ∈ G -> sound done_ (parseGameRegister g id).
Proof.
  intros Hg. unfold parseGameRegister. eapply sound_bind; [by apply sound_game_of|intros i Hi].
  eapply sound_bind; [apply sound_modify; intros w Hw|intros _ _].
  - apply put_game_typed; [done|]. split; [apply u8_range|apply Hi].
  - unfold addActiveGameClient. destruct (_ && _) eqn:Hb; [|by apply sound_ret].
    apply andb_prop in Hb as [H1%Z.ltb_lt H2%Z.ltb_lt]. apply sound_modify. intros w Hw.
    apply set_active_typed; [done|]. apply map_Forall_insert_2; [done|]. by eapply ty_active.
Qed.

Lemma game_onlines_sound g n : g ∈ G -> is_u32 n -> sound done_ (parseGameOnlines g n).
Proof.
  intros Hg Hn. unfold parseGameOnlines. eapply sound_bind; [by apply sound_game_of|intros i Hi].
  apply sound_modify. intros w Hw. apply put_game_typed; [done|]. split; [apply Hi|done].
Qed.

Lemma game_closed_sound g : g ∈ G -> sound done_ (removeActiveGameClient plat g).
Proof.
  intros Hg. unfold removeActiveGameClient. eapply sound_bind; [by apply sound_game_of|intros i Hi].
  destruct (_ && _); [|by apply sound_ret]. apply sound_get. intros w Hw. destruct (decide _); [|by apply sound_ret].
  eapply sound_bind; [apply removeUsers_sound|intros _ _]. apply sound_modify. clear. intros w Hw. eauto with gate_types.
Qed.

End handlers.

(** ** Every event *)

Lemma Forall_remove_first (P : Z -> Prop) t l : Forall P l -> Forall P (TcpServer.remove_first t l).
Proof.
  induction 1 as [|x l Hx Hl IH]; cbn [TcpServer.remove_first]; [constructor|]. destruct (x =? t); [done|by constructor].
Qed.
#[export] Hint Resolve Forall_remove_first : gate_types.

Lemma handle_sound plat idle_max w0 e :
  event_typed w0 e -> sound plat (dom (users w0)) (dom (m_Games w0)) (fun _ => True) (handle plat idle_max e).
Proof.
  intros He. destruct e; cbn [handle] in *; cbn [event_typed] in He.
  - apply sound_get. intros w Hw. destruct (users w !! s); [by apply sound_ret|]. apply put_user_sound. by split; [..|constructor].
  - by apply setState_sound.
  - by apply user_close_sound.
  - destruct He. by apply parseLoginGame_sound.
  - by apply user_msg_sound.
  - by apply close_timer_sound.
  - destruct He. by apply addToWait_sound.
  - destruct He. by apply kickUser_sound.
  - apply sound_get. intros w Hw. eapply sound_bind; [apply sound_emit|intros _ _; apply sound_modify; intros w1 []; by split].
    split_and!; [apply He..|]. apply Forall_forall. intros [a t] Hin%elem_of_map_walk. by apply (ty_accs _ _ _ Hw a t).
  - apply sound_get. intros w Hw. destruct (tell_event w); [|by apply sound_ret].
    apply sound_get. intros w1 H1. apply sound_emit, u32_range.
  - apply sound_get. intros w Hw. destruct (decide _); [|by apply sound_ret].
    eapply sound_bind; [apply sound_put; eauto 6 with gate_types|intros _ _]. apply sound_modify. intros. eauto with gate_types.
  - apply sound_get. intros w Hw. destruct (decide _) as [Ht|]; [|by apply sound_ret].
    eapply sound_bind; [apply sound_put; eauto 6 with gate_types|intros _ _]. apply recon_timer_sound.
    pose proof (ty_recon_timers _ _ _ Hw) as Hall. rewrite Forall_forall in Hall. by apply Hall.
  - apply sound_get. intros w Hw. destruct (m_Games w !! g); [by apply sound_ret|]. apply sound_put. by apply put_game_typed.
  - by apply sound_emit.
  - destruct He. by apply game_register_sound.
  - destruct He. by apply game_onlines_sound.
  - apply sound_get. intros w Hw. destruct (getUserSession w flag); [by apply sound_emit|by apply sound_ret].
  - by apply change_sound.
  - by apply game_closed_sound.
Qed.

(** Objects are never given back: the ones there were are there. *)
Lemma typed_now U G w : typed U G w -> well_typed w.
Proof.
  intros Hw. split; try apply Hw.
  - intros t s Hs. destruct (ty_onlines _ _ _ Hw _ _ Hs) as [Ht HU]. split; [done|]. by apply elem_of_dom, (ty_users_there _ _ _ Hw).
  - intros i g Hg. destruct (ty_active _ _ _ Hw _ _ Hg) as [Hi HG]. split; [done|]. by apply elem_of_dom, (ty_games_there _ _ _ Hw).
  - intros s. by apply elem_of_dom.
  - intros g. by apply elem_of_dom.
Qed.

Lemma init_well_typed : well_typed init.
Proof. by split. Qed.

Lemma reachable_well_typed plat idle_max w : reachable plat idle_max w -> well_typed w.
Proof.
  induction 1 as [|w e w' o _ Hw He Hh]; [apply init_well_typed|].
  pose proof (handle_sound plat idle_max w e He w Hw) as Hs. unfold run_post in Hs. rewrite Hh in Hs. destruct Hs as (_ & H1 & _).
  by eapply typed_now.
Qed.

(** C15: The gate server's variables keep their declared types through everything it
    does: in every state it can reach a transaction number is a [u32], an account a
    [u64], a session's game server a [u16], and every pointer of [m_onlines] and
    [m_activeGames] is an object's, at an index of the table.  Whatever comes next,
    with its fields in range and on an object that exists, every number the gate
    puts into a message is of the field's type, and the handler is defined on
    Windows: it dereferences no null pointer and indexes no table out of range.  In
    the other build the erased iterators are the one thing that can go wrong. *)
Theorem gate_keeps_types plat idle_max w e :
  reachable plat idle_max w -> event_typed w e ->
  well_typed w /\
  match handle plat idle_max e w with
  | Ret (_, w', o) => well_typed w' /\ Forall msg_typed o
  | UB _ => plat = POSIX
  end.
Proof.
  intros Hr He. pose proof (reachable_well_typed _ _ _ Hr) as Hw. split; [done|].
  pose proof (handle_sound plat idle_max w e He w Hw) as Hs. unfold run_post in Hs.
  destruct (handle plat idle_max e w) as [[[a w'] o]|why]; [|done]. destruct Hs as (_ & H1 & Ho).
  split; [by eapply typed_now|done].
Qed.

Lemma reachable_by_new_game : reachable WIN32 1000 (set_games init {[ 9 := mk_info 0 0 ]}).
Proof. apply (reachable_step _ _ init (NewGame 9) _ []); [constructor|done|vm_compute; reflexivity]. Qed.

(** A game server that says its number is 257: the [u8] wraps. *)
Lemma gate_keeps_types_witness :
  exists w', handle WIN32 1000 (GameRegister 9 257) (set_games init {[ 9 := mk_info 0 0 ]}) = Ret (tt, w', []) /\
    m_activeGames w' = {[ 1 := 9 ]} /\ well_typed w'.
Proof.
  assert (He : event_typed (set_games init {[ 9 := mk_info 0 0 ]}) (GameRegister 9 257)).
  { split; [|vm_compute; split; [intros ?; discriminate|reflexivity]]. apply elem_of_dom. exists (mk_info 0 0). reflexivity. }
  destruct (gate_keeps_types WIN32 1000 _ _ reachable_by_new_game He) as [_ Ht].
  eexists. split; [vm_compute; reflexivity|]. split; [vm_compute; reflexivity|]. exact (proj1 Ht).
Defined.
