(* ===== verification/LoginFlow.v ===== *)
(** A login from end to end: the login server ([Login]), a gate server ([Gate]) and
    a game server ([GameServer]) joined by what each sends and the next receives. *)

From Stdlib Require Import Ascii String.
From S2P Require Import Prelude CommonTemplate Crypt Utilities GameData GameWorld GameServer ServerFrame Login Gate.
From stdpp Require Import prelude gmap strings list.
#[local] Open Scope Z_scope.

Module LoginFlow.

(** *** The wires

    [gl] is the login server's name for its connection to the gate, [gm] the gate's
    name for its connection to the game server, [gt] the game server's name for the
    same connection. *)

(** [GateLoginClient::initPBModule] *)
Definition gate_hears (gl : Z) (e : Login.effect) : list Gate.event :=
  match e with
  | Login.ToGate g (Login.MsgLN2GTUserLogin a t) => if g =? gl then [Gate.LoginUser a t] else []
  | Login.ToGate g (Login.MsgLN2GTKickUser a t) => if g =? gl then [Gate.LoginKick a t] else []
  | _ => []
  end.

(** [GateSession::initPBModule] of the login server. *)
Definition login_hears (gl : Z) (e : Gate.effect) : list Login.event :=
  match e with
  | Gate.ToLogin (Gate.MsgGT2LNPrepar t) => [Login.GatePrepar gl t]
  | Gate.ToLogin (Gate.MsgGT2LNOnlines n) => [Login.GateOnlines gl n]
  | Gate.ToLogin (Gate.MsgGTRegisterLG id v ip port accounts) => [Login.GateRegister gl id v ip port accounts]
  | _ => []
  end.

(** [GateSession::initPBModule] of the game server. *)
Definition game_hears (gm gt : Z) (e : Gate.effect) : list GameServer.event :=
  match e with
  | Gate.ToGame g (Gate.MsgGT2GSAddUser a t) => if g =? gm then [GameServer.AddUser gt t a] else []
  | Gate.ToGame g (Gate.MsgGT2GSRemoveUser t) => if g =? gm then [GameServer.RemoveUser t] else []
  | Gate.ToGame g (Gate.MsgGT2GSOfflineUser t) => if g =? gm then [GameServer.OfflineUser t] else []
  | _ => []
  end.

Definition wire {A B} (hears : A -> list B) (o : list A) : list B := mjoin (hears <$> o).

End LoginFlow.

Import Messages GameWorld LoginFlow.

(** ** The login server's part *)

#[local] Opaque Login.gate_indices.

Lemma login_request_run ndebug own now w s name pwd a r u g x :
  Login.users w !! s = Some u -> Login.is_valid u = true -> gates_exist w ->
  Login.m_Accts w !! a = None -> is_u32 a -> a <> 0 -> idle w = Some g -> Login.gates w !! g = Some x ->
  let t := Login.makeTransId now (name +:+ pwd +:+ Login.remote_address u) in
  Login.m_WaitSessions w !! t = None ->
  exists w', Login.play_effects ndebug own now
      [Login.LoginRequest s name pwd; Login.DbAnswer (length (Login.tasks w)) (Some [(a, r)])] w =
    Ret (tt, w', [Login.ToGate g (Login.MsgLN2GTUserLogin a t)]) /\
    Login.m_WaitSessions w' !! t = Some s /\ is_Some (Login.users w' !! s) /\
    Login.m_Accts w' !! a = Some (Login.mk_account (Login.gate_id x) a t) /\
    exists x', Login.gates w' !! g = Some x' /\ Login.out_ip x' = Login.out_ip x /\ Login.out_port x' = Login.out_port x.
Proof.
  intros Hu Hv Hex Ha Hr32 Hne Hidle Hx t Ht.
  set (c := Login.new_CheckAcct name pwd Login._login_check_ s).
  set (u1 := Login.with_state u Login._checking_data_ (Login.setState_events Login._checking_data_ (Login.close_events u))).
  set (w1 := Login.set_users w (<[s := u1]> (Login.users w))).
  set (c' := Login.batchQuery [(a, r)] c).
  assert (Hreq : Login.handle ndebug own now (Login.LoginRequest s name pwd) w =
    Ret (tt, Login.set_tasks w1 (Login.tasks w ++ [(c, Login.checkAccountCallCb)]), [])).
  { cbn [Login.handle]. unfold Login.checkAccount. by rewrite (mbind_run _ _ _ _ _ _ (setState_run w s _ u Hu)). }
  assert (Hans : Login.handle ndebug own now (Login.DbAnswer (length (Login.tasks w)) (Some [(a, r)]))
    (Login.set_tasks w1 (Login.tasks w ++ [(c, Login.checkAccountCallCb)])) =
    Ret (tt, (login_outcome now w1 c' true u1).1, (login_outcome now w1 c' true u1).2)).
  { cbn [Login.handle]. unfold Login.db_answer. unfold mbind' at 1, mget. cbn [Login.tasks Login.set_tasks].
    rewrite list_lookup_middle by done. rewrite take_app_length, drop_ge by (rewrite length_app; cbn; lia). rewrite app_nil_r.
    erewrite (mbind_run (mput _) _ _ tt w1 []) by done. cbv beta iota zeta. fold c'.
    rewrite (checkAccountCall_run now w1 c' true u1); [done| |done]. cbn. apply lookup_insert_eq. }
  unfold Login.play_effects. cbn [mfor]. rewrite (mbind_run _ _ _ _ _ _ Hreq), (mbind_run _ _ _ _ _ _ Hans).
  unfold login_outcome, c'. cbn [Login.is_valid u1 Login.with_state negb Login.acct Login.batchQuery Login.ower Login.str Login.pwd c Login.new_CheckAcct].
  rewrite Hv, u32_id by done. cbn [negb]. destruct (Z.eqb_spec a Login.INVALID_ACCOUNT) as [He|_]; [done|].
  rewrite (idle_same w w1) by done. rewrite Hidle. cbn [Login.gates w1 Login.set_users]. rewrite Hx. cbn [fst snd].
  unfold kick_of. cbn [Login.m_Accts w1 Login.set_users]. rewrite Ha.
  change (Login.makeTransId now (name +:+ pwd +:+ Login.remote_address u1)) with t. clearbody t. cbn [app].
  eexists. split; [reflexivity|]. unfold given, ObjPtrMap.addData. cbn. rewrite Ht. cbn. rewrite !lookup_insert_eq.
  split_and!; try done. eexists. split; [done|]. by split.
Qed.

Lemma prepared_run ndebug own now w g t s x u :
  Login.gates w !! g = Some x -> is_u32 t -> Login.m_WaitSessions w !! t = Some s -> Login.users w !! s = Some u ->
  exists w', Login.play_effects ndebug own now [Login.GatePrepar g t] w =
    Ret (tt, w', [Login.ToUser s (Login.LoginResponse (Login.out_ip x) (Login.out_port x) t)]) /\
    Login.m_WaitSessions w' !! t = None /\ Login.m_Accts w' = Login.m_Accts w.
Proof.
  intros Hx Ht Hs Hu. unfold Login.play_effects. cbn [mfor Login.handle]. unfold Login.parseGateUserPrepar.
  rewrite mbind_assoc. rewrite (mbind_pure _ _ _ _ (gate_of_run w g x Hx)). unfold Login.receiveUserPrepar.
  rewrite mbind_assoc, (mbind_pure mget _ w w) by done. unfold Login.getWaiteSession. rewrite u32_id, Hs by done.
  unfold mbind' at 1 2, memit. rewrite (mbind_run _ _ _ _ _ _ (setState_run w s _ u Hu)).
  eexists. split; [reflexivity|]. unfold ObjPtrMap.eraseData. cbn. rewrite u32_id, Hs by done. cbn. split; [apply lookup_delete_eq|done].
Qed.

(** ** The gate's part *)

(** The table of game servers as the registrations leave it. *)
Definition games_sound (w : Gate.world) : Prop :=
  forall i g, Gate.m_activeGames w !! i = Some g ->
    0 < i < Gate.MAX_GAME_ID /\ exists x, Gate.m_Games w !! g = Some x /\ Gate.game_id x = i.

Lemma announced_run plat idle_max w a t :
  Gate.m_onlines w !! t = None -> Gate.m_wait_map w !! t = None ->
  Gate.run plat idle_max [Gate.LoginUser a t] w =
  Ret (tt, Gate.set_wait w (<[t := a]> (Gate.m_wait_map w)) (Gate.wait_timers w ++ [t]), [Gate.ToLogin (Gate.MsgGT2LNPrepar t)]).
Proof.
  intros Ho Hw. unfold Gate.run. cbn [mfor Gate.handle]. unfold Gate.parseLoginUser, Gate.addToWait, mbind', mget, mmodify, memit, mret'.
  rewrite Ho. unfold ObjMap.addData. cbn. by rewrite Hw.
Qed.

Lemma waited_run plat idle_max w k t a u :
  games_sound w -> Gate.users w !! k = Some u -> Gate.m_state u <> Gate._connect_ ->
  Gate.m_wait_map w !! t = Some a -> Gate.m_onlines w !! t = None ->
  (exists i, 0 <= i < Gate.MAX_GAME_ID /\ is_Some (Gate.m_activeGames w !! i)) ->
  exists gm i w', Gate.getGameClient w i = Some gm /\
    Gate.run plat idle_max [Gate.LoginGame k t] w = Ret (tt, w', [Gate.ToGame gm (Gate.MsgGT2GSAddUser a t)]) /\
    Gate.m_onlines w' !! t = Some k /\ Gate.users w' !! k = Some (Gate.mk_user t i Gate._connect_ []) /\
    Gate.m_activeGames w' = Gate.m_activeGames w.
Proof.
  intros Hgs Hu Hst Hw Ho [i0 [Hi0 Hact]].
  assert (Hex : games_exist w) by (intros i g Hi; destruct (Hgs _ _ Hi) as (_ & x & Hx & _); eauto).
  set (w1 := Gate.set_wait w (delete t (Gate.m_wait_map w)) (Gate.wait_timers w)).
  destruct (getIdleGameClient_run idle_max w1 Hex) as ([gm|] & Hrun & Hr).
  2: { change (is_Some (Gate.m_activeGames w1 !! i0)) in Hact. rewrite (Hr i0 Hi0) in Hact. by destruct Hact. }
  destruct Hr as [(i & Hi & Hgm) _]. destruct (Hgs _ _ Hgm) as (Hpos & x & Hx & Hid).
  assert (H16 : is_u16 i) by (unfold is_u16, Gate.MAX_GAME_ID in *; lia).
  exists gm, i. eexists. split; [|split].
  - unfold Gate.getGameClient. rewrite u16_id by done. unfold Gate.INVALID_GAME_ID, GameWorld.INVALID_GAME_ID, Gate.MAX_GAME_ID in *.
    destruct (Z.ltb_spec 0 i), (Z.ltb_spec i 0xff); try lia. done.
  - unfold Gate.run. cbn [mfor Gate.handle]. unfold Gate.parseLoginGame. rewrite mbind_assoc.
    rewrite (mbind_pure (Gate.user_of k) _ w u) by (unfold Gate.user_of, mbind', mget; by rewrite Hu).
    cbn beta. destruct (decide (Gate.m_state u = Gate._connect_)) as [|_]; [done|]. unfold Gate.checkConn.
    rewrite !mbind_assoc, (mbind_pure mget _ w w) by done. unfold ObjMap.hasData, ObjMap.eraseDataOut. rewrite Hw.
    fold w1. rewrite !mbind_assoc, (mbind_run (mput w1) _ w tt w1 []) by done.
    rewrite !mbind_assoc, (mbind_pure _ _ _ _ Hrun). rewrite !mbind_assoc, (mbind_pure _ _ _ _ (game_of_run w1 gm x Hx)).
    unfold Gate.addNewPlayer, Gate.setGSid, Gate.setState, Gate.setTrans, Gate.user_of, Gate.put_user, mbind', mget, mmodify, memit, mret'.
    cbn. rewrite Hu. cbn. rewrite lookup_insert_eq. cbn. rewrite lookup_insert_eq. cbn. rewrite Hid, u16_id by done. reflexivity.
  - cbn. unfold ObjPtrMap.addData. cbn. rewrite Ho. cbn. by rewrite !lookup_insert_eq.
Qed.

(** A player of a session passes messages both ways. *)
Lemma relays_run plat idle_max w k t i gm u p q :
  Gate.m_onlines w !! t = Some k -> Gate.users w !! k = Some u -> Gate.m_tranid u = t -> Gate.m_gs_id u = i ->
  Gate.getGameClient w i = Some gm ->
  Gate.run plat idle_max [Gate.ClientMsg k p; Gate.GameMsg q t] w =
  Ret (tt, w, [Gate.ToGame gm (Gate.UserMsg p t); Gate.ToClient k q t]).
Proof.
  intros Ho Hu Ht Hi Hg. unfold Gate.run. cbn [mfor Gate.handle]. unfold Gate.user_parseGameMsg, Gate.game_parseGameMsg.
  rewrite mbind_assoc, (mbind_pure (Gate.user_of k) _ w u) by (unfold Gate.user_of, mbind', mget; by rewrite Hu).
  unfold mbind', mget, memit, mret', Gate.getUserSession, ObjPtrMap.getData. by rewrite Hi, Hg, Ht, Ho.
Qed.

(** ** The game server's part *)

Lemma added_run localtime now w gt t a :
  m_Onlines w !! t = None -> _heros w !! a = None ->
  exists w' sid, mfor [GameServer.AddUser gt t a] (GameServer.handle localtime now) w = Ret (tt, w', [SendDB (MsgReqHeroDataGS2DB a) t]) /\
    m_Onlines w' !! t = Some sid /\ sessions w' !! sid = Some (mk_session t a (GameServer.gate_id_of w gt) true None).
Proof.
  intros Ho Ha. cbn [mfor GameServer.handle]. unfold GameServer.parseAddUser. rewrite mbind_assoc, (mbind_pure mget _ w w) by done.
  unfold GameServer.addUser, GameServer.getUser, GameServer.new_Session, GameServer.GetHero, mbind', mget, mput, memit, mmodify, mret'.
  rewrite Ho. cbn. rewrite Ha. cbn. eexists _, _. split; [reflexivity|]. cbn. by rewrite !lookup_insert_eq.
Qed.

(** ** The whole login *)

(** A player who asks to log in gets to a game server.  Take a login server,
    a gate and a game server in any state in which the account is nowhere, the
    transaction number is fresh, the gate is the least loaded one and has an
    active game server, and pass on what each sends.  When the database has
    accepted name and password the login server announces account and transaction
    to the gate; the gate's answer makes it send the client that gate's address and
    the transaction; the client's login at the gate with this number is announced
    to a game server, where account and transaction get a session that asks for
    the hero; from then on the gate passes messages both ways between this client
    and that game server under this transaction. *)
Theorem login_reaches_game ndebug own now plat idle_max localtime
    (ln : Login.world) (gate : Gate.world) (gs : GameWorld.world)
    s u name pwd a r gl x k v gt p q :
  let t := Login.makeTransId now (name +:+ pwd +:+ Login.remote_address u) in
  Login.users ln !! s = Some u -> Login.is_valid u = true -> gates_exist ln -> Login.m_Accts ln !! a = None ->
  is_u32 a -> a <> 0 -> Login.getIdleGate ln = Ret (Some gl, ln, []) -> Login.gates ln !! gl = Some x ->
  Login.m_WaitSessions ln !! t = None ->
  games_sound gate -> (exists i, 0 <= i < Gate.MAX_GAME_ID /\ is_Some (Gate.m_activeGames gate !! i)) ->
  Gate.m_onlines gate !! t = None -> Gate.m_wait_map gate !! t = None ->
  Gate.users gate !! k = Some v -> Gate.m_state v <> Gate._connect_ ->
  m_Onlines gs !! t = None -> _heros gs !! a = None ->
  exists ln1 ln2 gate1 gate2 gs' gm sid o1 o2 o3,
    Login.play_effects ndebug own now
      [Login.LoginRequest s name pwd; Login.DbAnswer (length (Login.tasks ln)) (Some [(a, r)])] ln = Ret (tt, ln1, o1) /\
    Gate.run plat idle_max (wire (gate_hears gl) o1) gate = Ret (tt, gate1, o2) /\
    Login.play_effects ndebug own now (wire (login_hears gl) o2) ln1 =
      Ret (tt, ln2, [Login.ToUser s (Login.LoginResponse (Login.out_ip x) (Login.out_port x) t)]) /\
    Gate.run plat idle_max [Gate.LoginGame k t] gate1 = Ret (tt, gate2, o3) /\
    mfor (wire (game_hears gm gt) o3) (GameServer.handle localtime now) gs =
      Ret (tt, gs', [SendDB (MsgReqHeroDataGS2DB a) t]) /\
    m_Onlines gs' !! t = Some sid /\ sessions gs' !! sid = Some (mk_session t a (GameServer.gate_id_of gs gt) true None) /\
    Login.m_Accts ln2 !! a = Some (Login.mk_account (Login.gate_id x) a t) /\ Login.m_WaitSessions ln2 !! t = None /\
    Gate.run plat idle_max [Gate.ClientMsg k p; Gate.GameMsg q t] gate2 =
      Ret (tt, gate2, [Gate.ToGame gm (Gate.UserMsg p t); Gate.ToClient k q t]).
Proof.
  intros t Hu Hv Hex Ha Ha32 Hne Hidle Hx Hwt Hgs Hact Ho Hw Hk Hst Hgo Hgh.
  rewrite (getIdleGate_run ln Hex) in Hidle. fold (idle ln) in Hidle. assert (Hid : idle ln = Some gl) by congruence. clear Hidle; rename Hid into Hidle.
  assert (Ht : is_u32 t) by apply u32_range.
  destruct (login_request_run ndebug own now ln s name pwd a r u gl x Hu Hv Hex Ha Ha32 Hne Hidle Hx Hwt)
    as (ln1 & Hr1 & Hs & [u1 Hu1] & Hacc & x1 & Hx1 & Hip & Hport).
  fold t in Hr1, Hs, Hacc. clearbody t.
  destruct (prepared_run ndebug own now ln1 gl t s x1 u1 Hx1 Ht Hs Hu1) as (ln2 & Hr3 & Hs2 & Hacc2).
  pose proof (announced_run plat idle_max gate a t Ho Hw) as Hr2. set (gate1 := Gate.set_wait _ _ _) in Hr2.
  destruct (waited_run plat idle_max gate1 k t a v Hgs Hk Hst (lookup_insert_eq _ _ _) Ho Hact)
    as (gm & i & gate2 & Hgm & Hr4 & Ho2 & Hk2 & Hag).
  destruct (added_run localtime now gs gt t a Hgo Hgh) as (gs' & sid & Hr5 & Hon & Hse).
  eexists ln1, ln2, gate1, gate2, gs', gm, sid, _, _, _. split; [exact Hr1|].
  unfold wire. cbn [fmap list_fmap gate_hears]. rewrite Z.eqb_refl. split; [exact Hr2|].
  cbn. rewrite <- Hip, <- Hport. split; [exact Hr3|]. split; [exact Hr4|]. cbn. rewrite Z.eqb_refl. split; [exact Hr5|].
  split_and!; [done|done|by rewrite Hacc2|done|].
  apply (relays_run plat idle_max gate2 k t i gm (Gate.mk_user t i Gate._connect_ []) p q); try done.
  unfold Gate.getGameClient in *. by rewrite Hag.
Qed.

(** *** A login of account 77 *)

Definition ann_user : Login.UserLoginSession := Login.mk_user 0 Login._wait_data_ true "1.2.3.4" [30000].
Definition ann_login : Login.world :=
  Login.mk_world ∅ {[ 1 := 10 ]} ∅ {[ 1 := ann_user ]} {[ 10 := Login.mk_gate 1 0 "10.0.0.1" 22000 [] ]} [].
Definition ann_client : Gate.UserSession := Gate.mk_user 0 0 Gate._wait_account_ [20000].
Definition ann_gate : Gate.world :=
  Gate.mk_world ∅ ∅ ∅ ∅ {[ 1 := 9 ]} {[ 5 := ann_client ]} {[ 9 := Gate.mk_info 1 0 ]} [] [] false.

Lemma ann_gates_exist : gates_exist ann_login.
Proof. intros i g. cbn. rewrite lookup_singleton_Some. intros [_ <-]. eexists. apply lookup_singleton_eq. Qed.

Lemma ann_games_sound : games_sound ann_gate.
Proof.
  intros i g. cbn. rewrite lookup_singleton_Some. intros [<- <-]. split; [done|]. eexists. split; [apply lookup_singleton_eq|done].
Qed.

Lemma ann_idle : Login.getIdleGate ann_login = Ret (Some 10, ann_login, []).
Proof. vm_compute. reflexivity. Qed.

Lemma ann_game_active : exists i, 0 <= i < Gate.MAX_GAME_ID /\ is_Some (Gate.m_activeGames ann_gate !! i).
Proof. exists 1. split; [done|]. eexists. apply lookup_singleton_eq. Qed.

Lemma login_reaches_game_witness :
  let t := Login.makeTransId 1000 "annsecret1.2.3.4" in
  exists ln1 o1, Login.play_effects false Version.construct 1000
      [Login.LoginRequest 1 "ann" "secret"; Login.DbAnswer 0 (Some [(77, 0)])] ann_login = Ret (tt, ln1, o1) /\
    exists gate1 o2, Gate.run POSIX 1000 (wire (gate_hears 10) o1) ann_gate = Ret (tt, gate1, o2) /\
    exists ln2, Login.play_effects false Version.construct 1000 (wire (login_hears 10) o2) ln1 =
      Ret (tt, ln2, [Login.ToUser 1 (Login.LoginResponse "10.0.0.1" 22000 t)]).
Proof.
  destruct (login_reaches_game false Version.construct 1000 POSIX 1000 (fun _ => Utilities.Utilities.mk_tm 0 0 0 1 0 70 4 0)
      ann_login ann_gate gate_world 1 ann_user "ann" "secret" 77 0 10 (Login.mk_gate 1 0 "10.0.0.1" 22000 [])
      5 ann_client 50 600 700 (lookup_singleton_eq _ _) eq_refl ann_gates_exist (lookup_empty _) ltac:(done) ltac:(done)
      ann_idle (lookup_singleton_eq _ _) (lookup_empty _) ann_games_sound ann_game_active (lookup_empty _) (lookup_empty _)
      (lookup_singleton_eq _ _) ltac:(discriminate) (lookup_empty _) (lookup_empty _))
    as (ln1 & ln2 & gate1 & _ & _ & _ & _ & o1 & o2 & _ & H1 & H2 & H3 & _).
  exists ln1, o1. split; [exact H1|]. exists gate1, o2. split; [exact H2|]. exists ln2. exact H3.
Defined.
