(* ===== verification/Startup.v ===== *)
(** How the four servers start and end: [server.cpp] and [main.cpp] of
    [gameserver/], [databaseserver/], [gateserver/] and [login/], the readers of
    configuration in [common/server_frame.cpp] and [common/json_help.cpp], and
    [Database::addBlockTask] and [shutDown] of [common/database.h/.cpp].

    The surroundings are an [env]: the JSON files, the host names, the rows MySQL
    answers a query with, whether a port can be listened on.  A C++ exception ends a
    part of the start early: [Thrown]. *)

From Stdlib Require Import Ascii String.
From S2P Require Import Prelude TcpServer Text GameData GameWorld Database ServerFrame DreamHero.
From stdpp Require Import prelude gmap strings list.
#[local] Open Scope Z_scope.

Module Startup.
Import Text Messages GameConfig.

(** *** Configuration ([common/net_type.h], [common/database.h]) *)

Record net_info : Type := mk_net {
  _id : Z; _ip : string; _port : Z; _time_out : Z; _max_connect : Z; _thread_count : Z
}.
Definition net_info_default : net_info := mk_net 0 "10.1.1.115" 10104 0 2000 0.

Record service_config : Type := mk_service {
  id : Z; limit_player : Z; thread_count : Z; proc_interval : Z; speed_ : bool; msg_pool_size : Z
}.
Definition service_config_default : service_config := mk_service 0 0 0 0 true 0.

Record DataBaseConfig : Type := mk_dbconf {
  db_id : Z; _db : string; _adrs : string; _user : string; _pwd : string; db_port : Z; _thread_ : Z
}.
Definition DataBaseConfig_default : DataBaseConfig := mk_dbconf 0 "db" "127.0.0.1" "" "" 0 0.

(** The categories of [net_config] and [database_config]. *)
Definition _LOGIN_LISTEN_USER_ : Z := 0.
Definition _LOGIN_LISTEN_GATE_ : Z := 1.
Definition _GATE_LISTEN_USER_ : Z := 2.
Definition _GAME_LISTEN_GATE_ : Z := 3.
Definition _DB_LISNEN_GAME_ : Z := 4.
Definition _FU_CHARACTER_DATABASE_ : Z := 0.
Definition _FU_WORLD_DATABASE_ : Z := 1.

Definition SERVER_CONFIG : string := "conf/server.json".
Definition CENTER_DATABASE_CONFIG : string := "../server_conf/database.json".

(** *** The surroundings *)

(** What the accessors of a [Json::Value] answer; [asUInt] as on a number in its range. *)
Record json_value : Type := mk_json { isIntegral : bool; asUInt : Z; isString : bool; asString : string }.

(** A row of a result by column name; [None]: mysql++ throws, the column is not
    there.  A field converts to an integer of a width, or throws, and to text. *)
Record field : Type := mk_field { is_null : bool; to_uint : Z -> option Z; to_text : string }.
Definition row : Type := string -> option field.

(** An open connection: the rows of a query with its parameters; [None]: it throws.
    [world] are the rows of the four queries of [GameConfig::Load], converted. *)
Record connection : Type := mk_connection {
  query : string -> list Z -> option (list row);
  world : option (list (Z * Z * Z) * list HeroEquipConfig * list (Z * string) * list level_row)
}.

Inductive server_name : Set := GSGateServer | DBGameServer | GTUserServer | LGUserServer | LGGateServer.
#[export] Instance server_name_eq_dec : EqDecision server_name.
Proof. solve_decision. Defined.

Inductive db_name : Set := CenterDB | CharDB | WorldDB.
#[export] Instance db_name_eq_dec : EqDecision db_name.
Proof. solve_decision. Defined.

(** [file]: what [JsonHelper::loadJson] parses a file to; [gethostbyname]: the first
    address of a host, as four [char]s; [connect]: [mysqlpp::Connection::connect];
    [listens]: whether [tcp_server::create] can listen with these settings. *)
Record env : Type := mk_env {
  file : string -> option (string -> json_value);
  gethostbyname : string -> option (Z * Z * Z * Z);
  connect : DataBaseConfig -> option connection;
  listens : server_name -> net_info -> bool
}.

(** *** Readers *)

Definition getUInt_Value (key : string) (root : string -> json_value) : Z :=
  if isIntegral (root key) then asUInt (root key) else 0.

Definition getString_Value (key : string) (root : string -> json_value) : string :=
  if isString (root key) then asString (root key) else "".

(** ["%u.%u.%u.%u"] of the bytes, each masked with [0x00ff]. *)
Definition dotted (h : Z * Z * Z * Z) : string :=
  let '(a, b, c, d) := h in
  print_u (Z.land a 0xff) +:+ "." +:+ print_u (Z.land b 0xff) +:+ "." +:+ print_u (Z.land c 0xff) +:+ "." +:+
  print_u (Z.land d 0xff).

Definition getIpByname (e : env) (address ip : string) : bool * string :=
  match gethostbyname e address with
  | Some h => (true, dotted h)
  | None => (false, ip)
  end.

Definition loadDBConfig (e : env) (conf : DataBaseConfig) (str : string) : bool * DataBaseConfig :=
  match file e str with
  | None => (false, conf)
  | Some root =>
      let adrs := getString_Value "ip" root in
      let '(ok, ip) := getIpByname e adrs adrs in
      (ok, mk_dbconf (db_id conf) (getString_Value "db" root) ip (getString_Value "user" root)
             (getString_Value "password" root) (u32 (getUInt_Value "port" root)) (u32 (getUInt_Value "thread_count" root)))
  end.

Definition loadServiceConfig (e : env) (conf : service_config) (str : string) : bool * service_config :=
  match file e str with
  | None => (false, conf)
  | Some root =>
      (true, mk_service (u8 (getUInt_Value "serviceid" root)) (u32 (getUInt_Value "limit" root))
               (u16 (getUInt_Value "thread_count" root)) (u16 (getUInt_Value "proc_interval" root))
               (negb (getUInt_Value "max_speed" root =? 0)) (u32 (getUInt_Value "msg_pool_size" root)))
  end.

Definition loadNetConfig (e : env) (conf : net_info) (strfile : string) : bool * net_info :=
  match file e strfile with
  | None => (false, mk_net (_id conf) "127.0.0.1" 22000 3000 2000 1)
  | Some root =>
      let adrs := getString_Value "ip" root in
      (true, mk_net (_id conf) (getIpByname e adrs adrs).2 (u16 (getUInt_Value "port" root))
               (u32 (getUInt_Value "time_out" root)) (u32 (getUInt_Value "max_connect" root))
               (u16 (getUInt_Value "thread_count" root)))
  end.

(** *** The process *)

(** The listening sockets, the databases, the game's tables, [m_service_conf]. *)
Record process : Type := mk_process {
  servers : server_name -> TcpServer.Listener.listener;
  databases : db_name -> Database.database;
  sGameConfig : GameConfig;
  m_service_conf : service_config
}.

Inductive action : Type :=
| InitNetService (c : service_config)
| Listening (n : server_name) (c : net_info)
| ConnectTo (what : string) (ip : string) (port : Z)
| AddGameClient (c : net_info)
| Turn (nDiff : Z)
| FreeNetService.

Inductive result (A : Type) : Type := Done (a : A) | Thrown.
Arguments Done {A} a.
Arguments Thrown {A}.

Definition boot (A : Type) : Type := M process action (result A).

Definition done {A} (a : A) : boot A := mret' (Done a).
Definition thrown {A} : boot A := mret' Thrown.
Definition andthen {A B} (m : boot A) (k : A -> boot B) : boot B :=
  mbind' m (fun r => match r with Done a => k a | Thrown => mret' Thrown end).
Notation "x <-? m ;; k" := (andthen m (fun x => k)) (at level 100, m at next level, right associativity).

Definition get : boot process := fun p => Ret (Done p, p, []).
Definition put (p : process) : boot unit := fun _ => Ret (Done tt, p, []).
Definition act (a : action) : boot unit := fun p => Ret (Done tt, p, [a]).
Definition of_option {A} (o : option A) : boot A := match o with Some a => done a | None => thrown end.

(** [if (!b) return false;] and what follows. *)
Definition check (b : bool) (k : boot bool) : boot bool := if b then k else done false.

Definition set_server (p : process) n l : process :=
  mk_process (fun m => if decide (m = n) then l else servers p m) (databases p) (sGameConfig p) (m_service_conf p).
Definition set_database (p : process) n d : process :=
  mk_process (servers p) (fun m => if decide (m = n) then d else databases p m) (sGameConfig p) (m_service_conf p).
Definition set_config (p : process) c : process := mk_process (servers p) (databases p) c (m_service_conf p).
Definition set_service (p : process) c : process := mk_process (servers p) (databases p) (sGameConfig p) c.

(** A process whose objects are constructed; [g] is a constructed [GameConfig]. *)
Definition fresh (g : GameConfig) : process :=
  mk_process (fun _ => TcpServer.Listener.construct) (fun _ => Database.mk_db Database._init_obj_ ∅ [] []) g service_config_default.

Section env.
Context (e : env).

Definition create (n : server_name) (c : net_info) : boot bool :=
  p <-? get ;;
  match TcpServer.Listener.create (listens e n c) (servers p n) with
  | UB why => mub why
  | Ret (ok, l) => _ <-? put (set_server p n l) ;; _ <-? (if ok then act (Listening n c) else done tt) ;; done ok
  end.

Definition initDatabase (n : db_name) (c : DataBaseConfig) : boot bool :=
  p <-? get ;; _ <-? put (set_database p n (Database.initDatabase (databases p n) (Z.to_nat (_thread_ c)))) ;; done true.

(** [addBlockTask]: every exception of the query is caught. *)
Definition addBlockTask (c : DataBaseConfig) (method : connection -> boot bool) : boot bool :=
  match connect e c with
  | None => done false
  | Some db => mbind' (method db) (fun r => match r with Done b => done b | Thrown => done false end)
  end.

(** A field as an integer of a width, and as text. *)
Definition uint (bits : Z) (r : row) (column : string) : boot Z :=
  f <-? of_option (r column) ;; of_option (to_uint f bits).
Definition text (r : row) (column : string) : boot string :=
  f <-? of_option (r column) ;; done (to_text f).

(** The fields of a [net_config] row, in the order they are assigned. *)
Definition net_row (r : row) : boot (Z * Z * Z * Z * Z) :=
  i <-? uint 8 r "ServerId" ;; po <-? uint 16 r "Port" ;; mc <-? uint 32 r "MaxConnect" ;;
  tc <-? uint 16 r "ThreadCount" ;; ot <-? uint 32 r "OutTime" ;; done (i, po, mc, tc, ot).

(** [getNetConfig]: the first row. *)
Definition getNetConfig (c : net_info) (rows : list row) : boot (bool * net_info) :=
  match rows with
  | [] => done (false, c)
  | r :: _ =>
      x <-? net_row r ;;
      let '(i, po, mc, tc, ot) := x in
      a <-? text r "Ip" ;;
      let '(ok, ip) := getIpByname e a (_ip c) in
      done (ok, mk_net i ip po ot mc tc)
  end.

Definition getDatabaseConfig (c : DataBaseConfig) (rows : list row) : boot (bool * DataBaseConfig) :=
  match rows with
  | [] => done (false, c)
  | r :: _ =>
      i <-? uint 8 r "Id" ;; db <-? text r "DBName" ;; adrs <-? text r "DBIp" ;; user <-? text r "User" ;;
      pwd <-? text r "Password" ;; po <-? uint 32 r "Port" ;; th <-? uint 32 r "Thread" ;;
      done (true, mk_dbconf i db adrs user pwd po th)
  end.

Definition select_net : string := "SELECT * FROM `net_config` WHERE `Category` = %0".
Definition select_net_category_id : string := "SELECT * FROM `net_config` WHERE `Category` = %0 AND `ServerId` = %1".
Definition select_net_id_category : string := "SELECT * FROM `net_config` WHERE `ServerId` = %0 AND `Category` = %1".
Definition select_database : string := "SELECT * FROM `database_config` WHERE `Category` = %0".
Definition select_max_equip : string := "select MAX(`equip_id`) from `character_equip`;".

Definition run_query (db : connection) (sql : string) (parms : list Z) : boot (list row) := of_option (query db sql parms).

(** *** [GameServer] *)

Definition Game_initDataFromWorldDB (db : connection) : boot bool :=
  x <-? of_option (world db) ;;
  let '(info, equips, names, levels) := x in
  p <-? get ;; _ <-? put (set_config p (Load (sGameConfig p) info equips names levels)) ;; done true.

Definition Game_initDataFromCharacterDB (db : connection) : boot bool :=
  rows <-? run_query db select_max_equip [] ;;
  generate_id <-?
    (match rows with
     | [] => done 0
     | r :: _ => f <-? of_option (r "MAX(`equip_id`)"%string) ;; if is_null f then done 0 else of_option (to_uint f 64)
     end) ;;
  p <-? get ;; _ <-? put (set_config p (set_generate_equip_id (sGameConfig p) generate_id)) ;; done true.

(** The part of [GameServer::initDataFromDatabase] about the network, and the one
    about the databases. *)
Definition Game_initNet (db : connection) (k : boot bool) : boot bool :=
  p <-? get ;;
  rows <-? run_query db select_net_category_id [_GAME_LISTEN_GATE_; id (m_service_conf p)] ;;
  x <-? getNetConfig net_info_default rows ;;
  check x.1
    (b <-? create GSGateServer x.2 ;;
     check b
       (rows <-? run_query db select_net [_DB_LISNEN_GAME_] ;;
        y <-? getNetConfig x.2 rows ;;
        check y.1 (_ <-? act (ConnectTo "database server" (_ip y.2) (_port y.2)) ;; k))).

Definition Game_initDatabases (db : connection) : boot bool :=
  rows <-? run_query db select_database [_FU_WORLD_DATABASE_] ;;
  w <-? getDatabaseConfig DataBaseConfig_default rows ;;
  check w.1
    (b <-? initDatabase WorldDB w.2 ;;
     check b
       (b <-? addBlockTask w.2 Game_initDataFromWorldDB ;;
        check b
          (rows <-? run_query db select_database [_FU_CHARACTER_DATABASE_] ;;
           c <-? getDatabaseConfig DataBaseConfig_default rows ;;
           check c.1
             (b <-? addBlockTask c.2 Game_initDataFromCharacterDB ;;
              check b (_ <-? initDatabase CharDB c.2 ;; done true))))).

Definition Game_initDataFromDatabase (db : connection) : boot bool := Game_initNet db (Game_initDatabases db).

Definition Game_init : boot bool :=
  let '(ok, dbconfig) := loadDBConfig e DataBaseConfig_default CENTER_DATABASE_CONFIG in
  check ok
    (b <-? addBlockTask dbconfig Game_initDataFromDatabase ;;
     check b (b <-? initDatabase CenterDB dbconfig ;; check b (done true))).

(** *** [DBServer] *)

(** [initDataFromCharDB] and [initDataFromWorldDB] do nothing. *)
Definition DB_initDataFromCharDB (db : connection) : boot bool := done true.
Definition DB_initDataFromWorldDB (db : connection) : boot bool := done true.

Definition DB_initDataFromDatabase (db : connection) : boot bool :=
  rows <-? run_query db select_net [_DB_LISNEN_GAME_] ;;
  x <-? getNetConfig net_info_default rows ;;
  check x.1
    (b <-? create DBGameServer x.2 ;;
     check b
       (rows <-? run_query db select_database [_FU_CHARACTER_DATABASE_] ;;
        c <-? getDatabaseConfig DataBaseConfig_default rows ;;
        check c.1
          (b <-? addBlockTask c.2 DB_initDataFromCharDB ;;
           check b
             (_ <-? initDatabase CharDB c.2 ;;
              rows <-? run_query db select_database [_FU_WORLD_DATABASE_] ;;
              w <-? getDatabaseConfig DataBaseConfig_default rows ;;
              check w.1
                (b <-? addBlockTask w.2 DB_initDataFromWorldDB ;;
                 check b (_ <-? initDatabase WorldDB w.2 ;; done true)))))).

Definition DB_init : boot bool :=
  let '(ok, dbconfig) := loadDBConfig e DataBaseConfig_default CENTER_DATABASE_CONFIG in
  check ok (b <-? addBlockTask dbconfig DB_initDataFromDatabase ;; check b (done true)).

(** *** [GateServer] *)

(** The loop over the game servers' rows; [addClientByConfig] starts the connect. *)
Fixpoint Gate_games (rows : list row) : boot bool :=
  match rows with
  | [] => done true
  | r :: rows' =>
      x <-? net_row r ;;
      let '(i, po, mc, tc, ot) := x in
      ip <-? text r "Ip" ;;
      _ <-? act (AddGameClient (mk_net i ip po ot mc tc)) ;;
      Gate_games rows'
  end.

Definition Gate_initDataFromDatabase (db : connection) : boot bool :=
  rows <-? run_query db select_net [_LOGIN_LISTEN_GATE_] ;;
  x <-? getNetConfig net_info_default rows ;;
  check x.1
    (_ <-? act (ConnectTo "login server" (_ip x.2) (_port x.2)) ;;
     p <-? get ;;
     rows <-? run_query db select_net_id_category [id (m_service_conf p); _GATE_LISTEN_USER_] ;;
     y <-? getNetConfig x.2 rows ;;
     check y.1
       (b <-? create GTUserServer y.2 ;;
        check b (rows <-? run_query db select_net [_GAME_LISTEN_GATE_] ;; Gate_games rows))).

Definition Gate_init : boot bool :=
  let '(ok, dbconfig) := loadDBConfig e DataBaseConfig_default CENTER_DATABASE_CONFIG in
  check ok (b <-? addBlockTask dbconfig Gate_initDataFromDatabase ;; check b (done true)).

(** *** [LoginServer] *)

Definition Login_initDataFromDatabase (db : connection) : boot bool :=
  rows <-? run_query db select_net [_LOGIN_LISTEN_USER_] ;;
  x <-? getNetConfig net_info_default rows ;;
  check x.1
    (b <-? create LGUserServer x.2 ;;
     check b
       (rows <-? run_query db select_net [_LOGIN_LISTEN_GATE_] ;;
        y <-? getNetConfig x.2 rows ;;
        check y.1 (b <-? create LGGateServer y.2 ;; check b (done true)))).

Definition Login_init : boot bool :=
  let '(ok, dbconfig) := loadDBConfig e DataBaseConfig_default CENTER_DATABASE_CONFIG in
  check ok
    (b <-? addBlockTask dbconfig Login_initDataFromDatabase ;;
     check b (b <-? initDatabase CenterDB dbconfig ;; check b (done true))).

(** *** [init], [shutdown] and [main] of the [main.cpp] files *)

Inductive server : Set := GameServer | DBServer | GateServer | LoginServer.

(** [net_global::init_net_service]: [io_service_pool] throws at a size of 0, which
    nothing catches. *)
Definition init_net_service (c : service_config) : boot unit :=
  if thread_count c =? 0 then thrown else act (InitNetService c).

(** The game and the gate server are given the service's configuration. *)
Definition main_init (s : server) : boot bool :=
  let '(ok, conf) := loadServiceConfig e service_config_default SERVER_CONFIG in
  check ok
    (_ <-? init_net_service conf ;;
     match s with
     | GameServer => p <-? get ;; _ <-? put (set_service p conf) ;; Game_init
     | DBServer => DB_init
     | GateServer => p <-? get ;; _ <-? put (set_service p conf) ;; Gate_init
     | LoginServer => Login_init
     end).

Definition stop (n : server_name) : boot unit :=
  p <-? get ;;
  match TcpServer.Listener.stop (servers p n) with UB why => mub why | Ret l => put (set_server p n l) end.

(** [Database::shutDown]: the threads' objects are deleted, whether they run or
    not; a thread that was not told to stop goes on using its own. *)
Definition Database_shutDown (n : db_name) : boot unit :=
  p <-? get ;;
  let d := databases p n in
  if forallb Database._stop (Database._dbthread_list d) then
    put (set_database p n (Database.mk_db (Database._obj_state d) ∅ [] (Database._results d)))
  else mub "Database::shutDown: a running thread uses its deleted db_thread".

(** [shutDown] of the four; the connections a server closes ([gGSDBClient],
    [gGTGameMgr], [gGTLoginClient]) have no state here. *)
Definition Game_shutDown : boot unit := stop GSGateServer.
Definition DB_shutDown : boot unit := _ <-? Database_shutDown CharDB ;; stop DBGameServer.
Definition Gate_shutDown : boot unit := stop GTUserServer.
Definition Login_shutDown : boot unit := _ <-? stop LGUserServer ;; _ <-? stop LGGateServer ;; Database_shutDown CenterDB.

Definition shutDown (s : server) : boot unit :=
  match s with
  | GameServer => Game_shutDown | DBServer => DB_shutDown | GateServer => Gate_shutDown | LoginServer => Login_shutDown
  end.

Definition main_shutdown (s : server) : boot unit := _ <-? shutDown s ;; act FreeNetService.

(** [checkStop]: whether the main loop ends.  [saved] is the game server's
    [is_save_all_heroes_ok]. *)
Definition Game_checkStop (saved : bool) : boot bool := if saved then _ <-? Game_shutDown ;; done true else done false.

Definition DB_checkStop : boot bool :=
  p <-? get ;;
  if decide (Database._obj_state (databases p CharDB) = Database._stop_obj_) then _ <-? DB_shutDown ;; done true
  else done false.

Definition Gate_checkStop : boot bool := _ <-? Gate_shutDown ;; done false.
Definition Login_checkStop : boot bool := done true.

End env.

End Startup.

Import Startup GameConfig.

(** ** Runs of a start *)

Lemma andthen_inv {A B} (m : boot A) (k : A -> boot B) p b p' tr :
  andthen m k p = Ret (Done b, p', tr) ->
  exists a p1 o1 o2, m p = Ret (Done a, p1, o1) /\ k a p1 = Ret (Done b, p', o2) /\ tr = o1 ++ o2.
Proof.
  intros (r & p1 & o1 & o2 & Hm & Hk & ->)%bind_inv. destruct r as [a|]; [|discriminate]. by exists a, p1, o1, o2.
Qed.

(** A step that only computes, or fails. *)
Lemma of_option_inv {A B} (o : option A) (k : A -> boot B) p b p' tr :
  andthen (of_option o) k p = Ret (Done b, p', tr) -> exists a, o = Some a /\ k a p = Ret (Done b, p', tr).
Proof.
  intros (a & p1 & o1 & o2 & Ho & Hk & ->)%andthen_inv. destruct o as [a'|]; [|discriminate].
  injection Ho as -> <- <-. by exists a.
Qed.

Lemma get_inv {B} (k : process -> boot B) p b p' tr : andthen get k p = Ret (Done b, p', tr) -> k p p = Ret (Done b, p', tr).
Proof. intros (a & p1 & o1 & o2 & [= <- <- <-] & Hk & ->)%andthen_inv. done. Qed.

Lemma put_inv {B} q (k : unit -> boot B) p b p' tr : andthen (put q) k p = Ret (Done b, p', tr) -> k tt q = Ret (Done b, p', tr).
Proof. intros (a & p1 & o1 & o2 & [= <- <- <-] & Hk & ->)%andthen_inv. done. Qed.

Lemma act_inv {B} a (k : unit -> boot B) p b p' tr :
  andthen (act a) k p = Ret (Done b, p', tr) -> exists tr', k tt p = Ret (Done b, p', tr') /\ tr = a :: tr'.
Proof. intros (u & p1 & o1 & o2 & [= <- <- <-] & Hk & ->)%andthen_inv. by exists o2. Qed.

Lemma check_inv b k p p' tr : check b k p = Ret (Done true, p', tr) -> b = true /\ k p = Ret (Done true, p', tr).
Proof. destruct b; [done|discriminate]. Qed.

(** A part that computes a value without touching the process. *)
Definition silent {A} (m : boot A) : Prop := forall p, exists r, m p = Ret (r, p, []).

Lemma silent_andthen {A B} (m : boot A) (k : A -> boot B) : silent m -> (forall a, silent (k a)) -> silent (andthen m k).
Proof.
  intros Hm Hk p. destruct (Hm p) as [[a|] Ha]; unfold andthen, mbind'; rewrite Ha; [|by eexists].
  destruct (Hk a p) as [r ->]. by eexists.
Qed.

Lemma silent_of_option {A} (o : option A) : silent (of_option o).
Proof. intros p. destruct o; by eexists. Qed.

Lemma silent_done {A} (a : A) : silent (done a).
Proof. by eexists. Qed.

Create HintDb silent.
#[export] Hint Resolve silent_andthen silent_of_option silent_done : silent.

Lemma uint_silent bits r c : silent (uint bits r c).
Proof. unfold uint. auto with silent. Qed.
Lemma text_silent r c : silent (text r c).
Proof. unfold text. auto with silent. Qed.
#[export] Hint Resolve uint_silent text_silent : silent.

Lemma net_row_silent r : silent (net_row r).
Proof. unfold net_row. repeat (apply silent_andthen; [auto with silent|intros ?]). apply silent_done. Qed.
#[export] Hint Resolve net_row_silent : silent.

Lemma getNetConfig_silent e c rows : silent (getNetConfig e c rows).
Proof.
  destruct rows as [|r rows]; [apply silent_done|]. apply silent_andthen; [auto with silent|intros [[[[i po] mc] tc] ot]].
  apply silent_andthen; [auto with silent|intros a]. destruct (getIpByname e a (_ip c)). apply silent_done.
Qed.

Lemma getDatabaseConfig_silent c rows : silent (getDatabaseConfig c rows).
Proof.
  destruct rows as [|r rows]; [apply silent_done|].
  repeat (apply silent_andthen; [auto with silent|intros ?]). apply silent_done.
Qed.
#[export] Hint Resolve getNetConfig_silent getDatabaseConfig_silent : silent.

Lemma silent_inv {A B} (m : boot A) (k : A -> boot B) p b p' tr :
  silent m -> andthen m k p = Ret (Done b, p', tr) ->
  exists a, m p = Ret (Done a, p, []) /\ k a p = Ret (Done b, p', tr).
Proof.
  intros Hm (a & p1 & o1 & o2 & Ha & Hk & ->)%andthen_inv. destruct (Hm p) as [r Hr]. rewrite Hr in Ha.
  injection Ha as -> <- <-. by exists a.
Qed.

Section parts.
Context (e : env).

Definition listening : TcpServer.Listener.listener :=
  TcpServer.Listener.mk_listener TcpServer.Listener.Alive TcpServer.Listener.Alive TcpServer.Listener.Alive.

Lemma create_inv n c k p p' tr :
  servers p n = TcpServer.Listener.construct ->
  andthen (create e n c) (fun b => check b k) p = Ret (Done true, p', tr) ->
  listens e n c = true /\ exists tr', k (set_server p n listening) = Ret (Done true, p', tr') /\ tr = Listening n c :: tr'.
Proof.
  intros Hn (b & p1 & o1 & o2 & Hc & [Hb Hk]%check_inv & ->)%andthen_inv. unfold create in Hc. apply get_inv in Hc.
  rewrite Hn in Hc. destruct (listens e n c) eqn:Hl; cbn in Hc; injection Hc as Hb' <- <-; [|congruence].
  split; [done|]. by exists o2.
Qed.

Definition started (p : process) (n : db_name) (c : DataBaseConfig) : process :=
  set_database p n (Database.initDatabase (databases p n) (Z.to_nat (_thread_ c))).

Lemma initDatabase_then {B} n c (k : bool -> boot B) p :
  andthen (initDatabase n c) k p = k true (started p n c).
Proof. unfold andthen. by rewrite (mbind_silent (initDatabase n c) _ p (Done true) (started p n c)). Qed.

Lemma addBlockTask_inv c m k p p' tr :
  andthen (addBlockTask e c m) (fun b => check b k) p = Ret (Done true, p', tr) ->
  exists db p1 o1 o2, connect e c = Some db /\ m db p = Ret (Done true, p1, o1) /\ k p1 = Ret (Done true, p', o2) /\
    tr = o1 ++ o2.
Proof.
  intros (b & p1 & o1 & o2 & Ha & [-> Hk]%check_inv & ->)%andthen_inv. unfold addBlockTask in Ha.
  destruct (connect e c) as [db|]; [|discriminate]. apply bind_inv in Ha as (r & p2 & o3 & o4 & Hm & Hr & ->).
  destruct r as [b|]; [|discriminate]. injection Hr as -> <- <-. exists db, p2, o3, o2. by rewrite app_nil_r.
Qed.

(** The number in the answer to [select_max_equip]. *)
Definition max_equip (rows : list row) : option Z :=
  match rows with
  | [] => Some 0
  | r :: _ => f ← r "MAX(`equip_id`)"%string; if is_null f then Some 0 else to_uint f 64
  end.

Lemma initDataFromCharacterDB_inv db p p' tr :
  Game_initDataFromCharacterDB db p = Ret (Done true, p', tr) ->
  exists rows n, query db select_max_equip [] = Some rows /\ max_equip rows = Some n /\
    p' = set_config p (set_generate_equip_id (sGameConfig p) n) /\ tr = [].
Proof.
  intros (rows & Hq & H)%of_option_inv. exists rows.
  assert (Hn : exists n, max_equip rows = Some n /\
    (p0 <-? get ;; _ <-? put (set_config p0 (set_generate_equip_id (sGameConfig p0) n)) ;; done true) p = Ret (Done true, p', tr)).
  { apply silent_inv in H as (n & Hn & H).
    2: { destruct rows as [|r rows]; [auto with silent|]. apply silent_andthen; [auto with silent|intros f].
         destruct (is_null f); auto with silent. }
    exists n. split; [|done]. destruct rows as [|r rows]; cbn in *; [by injection Hn as <-|].
    apply of_option_inv in Hn as (f & -> & Hn). cbn. destruct (is_null f); [by injection Hn as <-|].
    destruct (to_uint f 64); [by injection Hn as <-|discriminate]. }
  destruct Hn as (n & Hn & H1%get_inv). apply put_inv in H1. injection H1 as <- <-. by exists n.
Qed.

Lemma initDataFromWorldDB_inv db p p' tr :
  Game_initDataFromWorldDB db p = Ret (Done true, p', tr) ->
  exists info equips names levels, world db = Some (info, equips, names, levels) /\
    p' = set_config p (Load (sGameConfig p) info equips names levels) /\ tr = [].
Proof.
  intros ([[[info equips] names] levels] & Hw & H%get_inv)%of_option_inv. apply put_inv in H. injection H as <- <-.
  by exists info, equips, names, levels.
Qed.

Lemma Game_initNet_inv db k p p' tr :
  servers p GSGateServer = TcpServer.Listener.construct ->
  Game_initNet e db k p = Ret (Done true, p', tr) ->
  exists rows net rows' dbnet tr',
    query db select_net_category_id [_GAME_LISTEN_GATE_; id (m_service_conf p)] = Some rows /\
    getNetConfig e net_info_default rows p = Ret (Done (true, net), p, []) /\
    query db select_net [_DB_LISNEN_GAME_] = Some rows' /\
    getNetConfig e net rows' (set_server p GSGateServer listening) = Ret (Done (true, dbnet), set_server p GSGateServer listening, []) /\
    listens e GSGateServer net = true /\
    k (set_server p GSGateServer listening) = Ret (Done true, p', tr') /\
    tr = Listening GSGateServer net :: ConnectTo "database server" (_ip dbnet) (_port dbnet) :: tr'.
Proof.
  intros Hn H. unfold Game_initNet in H. apply get_inv, of_option_inv in H as (rows & Hq & H).
  apply silent_inv in H as ([ok net] & Hnet & [Hok H]%check_inv); [|auto with silent]. cbn in Hok. subst ok.
  apply create_inv in H as (Hl & tr1 & (rows' & Hq' & H)%of_option_inv & ->); [|done].
  apply silent_inv in H as ([ok dbnet] & Hdb & [Hok H]%check_inv); [|auto with silent]. cbn in Hok. subst ok.
  apply act_inv in H as (tr2 & H & ->). by exists rows, net, rows', dbnet, tr2.
Qed.

Lemma Game_initDatabases_inv db p p' tr :
  Game_initDatabases e db p = Ret (Done true, p', tr) ->
  exists wconf wdb info equips names levels cconf cdb rows n,
    connect e wconf = Some wdb /\ world wdb = Some (info, equips, names, levels) /\
    connect e cconf = Some cdb /\ query cdb select_max_equip [] = Some rows /\ max_equip rows = Some n /\
    p' = started (set_config (started p WorldDB wconf)
                   (set_generate_equip_id (Load (sGameConfig p) info equips names levels) n)) CharDB cconf /\ tr = [].
Proof.
  intros (rows1 & Hq1 & H)%of_option_inv.
  apply silent_inv in H as ([ok wconf] & Hw & [Hok H]%check_inv); [|auto with silent]. cbn [fst snd] in *.
  rewrite initDatabase_then in H. apply check_inv in H as [_ H].
  apply addBlockTask_inv in H as (wdb & p1 & o1 & o2 & Hwc & Hwi & H & ->).
  apply initDataFromWorldDB_inv in Hwi as (info & equips & names & levels & Hwd & -> & ->).
  apply of_option_inv in H as (rows2 & Hq2 & H).
  apply silent_inv in H as ([ok2 cconf] & Hc & [Hok2 H]%check_inv); [|auto with silent]. cbn [fst snd] in *.
  apply addBlockTask_inv in H as (cdb & p2 & o3 & o4 & Hcc & Hci & H & ->).
  apply initDataFromCharacterDB_inv in Hci as (rows & n & Hqm & Hn & -> & ->).
  rewrite initDatabase_then in H. injection H as <- <-.
  exists wconf, wdb, info, equips, names, levels, cconf, cdb, rows, n. by split_and!.
Qed.

End parts.

(** A game server whose [init] succeeds is ready: it listens for gates with the
    settings of its own row of [net_config] and nothing else, it is connecting to the
    database server's address, its three databases run, and its tables are those of
    the world database, with the equip numbers set to go on from the highest one of
    the character database. *)
Theorem game_server_ready e p p' tr :
  Game_init e p = Ret (Done true, p', tr) -> servers p GSGateServer = TcpServer.Listener.construct ->
  (exists center db rows net dbnet,
     loadDBConfig e DataBaseConfig_default CENTER_DATABASE_CONFIG = (true, center) /\ connect e center = Some db /\
     query db select_net_category_id [_GAME_LISTEN_GATE_; id (m_service_conf p)] = Some rows /\
     getNetConfig e net_info_default rows p = Ret (Done (true, net), p, []) /\ listens e GSGateServer net = true /\
     tr = [Listening GSGateServer net; ConnectTo "database server" (_ip dbnet) (_port dbnet)]) /\
  servers p' GSGateServer = listening /\ (forall n, n <> GSGateServer -> servers p' n = servers p n) /\
  (forall n, Database._obj_state (databases p' n) = Database._run_obj_) /\
  (exists wconf wdb info equips names levels cconf cdb rows n,
     connect e wconf = Some wdb /\ world wdb = Some (info, equips, names, levels) /\ connect e cconf = Some cdb /\
     query cdb select_max_equip [] = Some rows /\ max_equip rows = Some n /\
     sGameConfig p' = set_generate_equip_id (Load (sGameConfig p) info equips names levels) n).
Proof.
  intros H Hn. unfold Game_init in H. destruct (loadDBConfig _ _ _) as [ok center] eqn:Hload. apply check_inv in H as [-> H].
  apply addBlockTask_inv in H as (db & p1 & o1 & o2 & Hc & Hd & H & ->).
  apply Game_initNet_inv in Hd as (rows & net & rows' & dbnet & tr' & Hq & Hnet & _ & _ & Hl & Hd & ->); [|done].
  apply Game_initDatabases_inv in Hd as (wconf & wdb & info & equips & names & levels & cconf & cdb & mrows & n & Hw & Hwd & Hcc & Hm & Hmax & -> & ->).
  rewrite initDatabase_then in H. injection H as <- <-. split_and!.
  - exists center, db, rows, net, dbnet. by rewrite app_nil_r.
  - reflexivity.
  - intros m Hm'. cbn. by destruct (decide (m = GSGateServer)).
  - intros []; reflexivity.
  - exists wconf, wdb, info, equips, names, levels, cconf, cdb, mrows, n. by split_and!.
Qed.

(** *** A start that succeeds *)

Definition num (x : Z) : field :=
  mk_field false (fun bits => if (0 <=? x) && (x <? 2 ^ bits) then Some x else None) (Text.print_d x).
Definition str (s : string) : field := mk_field false (fun _ => None) s.
Definition null : field := mk_field true (fun _ => None) "".

Definition demo_net_row (server_id port : Z) : row := fun c =>
  if String.eqb c "ServerId" then Some (num server_id) else if String.eqb c "Port" then Some (num port)
  else if String.eqb c "MaxConnect" then Some (num 2000) else if String.eqb c "ThreadCount" then Some (num 2)
  else if String.eqb c "OutTime" then Some (num 3000) else if String.eqb c "Ip" then Some (str "localhost") else None.

Definition demo_db_row : row := fun c =>
  if String.eqb c "Id" then Some (num 1) else if String.eqb c "Port" then Some (num 3306)
  else if String.eqb c "Thread" then Some (num 2)
  else if existsb (String.eqb c) ["DBName"; "DBIp"; "User"; "Password"]%string then Some (str "x") else None.

Definition demo_query (max_id : field) (sql : string) (parms : list Z) : option (list row) :=
  if String.eqb sql select_max_equip then Some [fun c => if String.eqb c "MAX(`equip_id`)" then Some max_id else None]
  else if String.eqb sql select_database then Some [demo_db_row]
  else Some [demo_net_row 1 22001].

Definition demo_file : string -> json_value := fun key =>
  if existsb (String.eqb key) ["ip"; "db"; "user"; "password"]%string then mk_json false 0 true "localhost"
  else mk_json true 1 false "".

Definition demo_env (max_id : field) : env :=
  mk_env (fun _ => Some demo_file) (fun _ => Some (127, 0, 0, 1))
    (fun _ => Some (mk_connection (demo_query max_id) (Some ([(100, 10, 1)], [mk_equip_config 3 1 1; mk_equip_config 4 1 1], [], []))))
    (fun _ _ => true).

Definition demo_process : process := fresh (construct 0 0 0).

(** The process after a successful run. *)
Definition after {A} (m : boot A) (p : process) : process * list action :=
  match m p with Ret (_, p', tr) => (p', tr) | UB _ => (p, []) end.

Lemma after_run {A} (m : boot A) p a p' tr :
  m p = Ret (Done a, p', tr) -> m p = Ret (Done a, (after m p).1, (after m p).2).
Proof. unfold after. by intros ->. Qed.

Lemma demo_start : exists p' tr, Game_init (demo_env (num 41)) demo_process = Ret (Done true, p', tr).
Proof. eexists _, _. vm_compute. reflexivity. Qed.

Lemma demo_start_run :
  Game_init (demo_env (num 41)) demo_process =
  Ret (Done true, (after (Game_init (demo_env (num 41))) demo_process).1, (after (Game_init (demo_env (num 41))) demo_process).2).
Proof. destruct demo_start as (p' & tr & H). exact (after_run _ _ _ _ _ H). Qed.

Lemma game_server_ready_witness :
  let p' := (after (Game_init (demo_env (num 41))) demo_process).1 in
  servers p' GSGateServer = listening /\ _generate_id (sGameConfig p') = 41.
Proof.
  destruct (game_server_ready _ _ _ _ demo_start_run eq_refl) as (_ & Hs & _).
  split; [exact Hs|vm_compute; reflexivity].
Defined.

(** ** The numbers of new equips *)

Lemma give_equips_keys l c m c' m' k :
  DreamHero.give_equips l c m = (c', m') -> 0 <= _generate_id c -> _generate_id c + Z.of_nat (length l) < 2 ^ 64 ->
  is_Some (m' !! k) -> is_Some (m !! k) \/ _generate_id c < k <= _generate_id c + Z.of_nat (length l).
Proof.
  revert c m. induction l as [|e l IH]; intros c m; cbn [DreamHero.give_equips generateEquipID].
  - intros [= <- <-]. by left.
  - intros H H0 Hb Hk. cbn [length] in *. assert (Hu : u64 (_generate_id c + 1) = _generate_id c + 1) by (apply u64_id; mach).
    rewrite Hu in H. apply IH in H; [|cbn; lia..|done]. cbn [_generate_id] in H. destruct H as [H|H]; [|right; lia].
    apply lookup_insert_is_Some in H as [<-|[_ H]]; [right; lia|by left].
Qed.

Lemma LoadFromConfig_keys c acc c' h k :
  DreamHero.LoadFromConfig c (DreamHero.construct acc) = (c', h) -> 0 <= _generate_id c ->
  _generate_id c + Z.of_nat (length (c_equips (_hero_config c))) < 2 ^ 64 -> is_Some (GameWorld._hero_equips h !! k) ->
  _generate_id c < k <= _generate_id c + Z.of_nat (length (c_equips (_hero_config c))).
Proof.
  unfold DreamHero.LoadFromConfig. intros H H0 Hb Hk. cbn [GameWorld._hero_equips DreamHero.construct] in H.
  destruct (DreamHero.give_equips _ _ _) as [c1 m] eqn:Hg. injection H as <- <-. cbn in Hk.
  apply (give_equips_keys _ _ _ _ _ k) in Hg as [Hg|Hg]; [by rewrite lookup_empty in Hg; destruct Hg|done..].
Qed.

(** Heroes created one after the other. *)
Fixpoint create_all (c : GameConfig) (accs : list Z) : GameConfig * list GameWorld.DreamHero :=
  match accs with
  | [] => (c, [])
  | a :: accs' =>
      let '(c1, h) := DreamHero.LoadFromConfig c (DreamHero.construct a) in
      let '(c2, hs) := create_all c1 accs' in (c2, h :: hs)
  end.

Lemma create_all_spec c accs c' hs :
  create_all c accs = (c', hs) -> 0 <= _generate_id c ->
  _generate_id c + Z.of_nat (length accs * length (c_equips (_hero_config c))) < 2 ^ 64 ->
  _generate_id c <= _generate_id c' /\
  (forall i h k, hs !! i = Some h -> is_Some (GameWorld._hero_equips h !! k) -> _generate_id c < k) /\
  (forall i j h1 h2 k, hs !! i = Some h1 -> hs !! j = Some h2 -> is_Some (GameWorld._hero_equips h1 !! k) ->
     is_Some (GameWorld._hero_equips h2 !! k) -> i = j).
Proof.
  revert c c' hs. induction accs as [|a accs IH]; intros c c' hs; cbn [create_all].
  - intros [= <- <-] _ _. split; [lia|]. by split.
  - destruct (DreamHero.LoadFromConfig c (DreamHero.construct a)) as [c1 h] eqn:Hl.
    destruct (create_all c1 accs) as [c2 hs'] eqn:Hc. intros [= <- <-] H0 Hb. cbn [length] in Hb.
    pose proof (fun k => LoadFromConfig_keys _ _ _ _ k Hl H0) as Hk.
    destruct (LoadFromConfig_new_hero _ _ _ _ Hl H0 ltac:(lia)) as (_ & _ & _ & _ & _ & _ & Hg & Hcfg).
    apply IH in Hc as (H2 & Hlow & Hone); [|lia|rewrite Hcfg; lia]. split; [lia|]. split.
    + intros [|i] h' k; cbn; [intros [= <-] Hi; apply Hk in Hi; lia|]. intros Hi Hh. specialize (Hlow i h' k Hi Hh). lia.
    + intros [|i] [|j] h1 h2 k; cbn; [done|..].
      * intros [= <-] Hj Hi1 Hi2. apply Hk in Hi1; [|lia]. specialize (Hlow j h2 k Hj Hi2). lia.
      * intros Hi [= <-] Hi1 Hi2. apply Hk in Hi2; [|lia]. specialize (Hlow i h1 k Hi Hi1). lia.
      * intros Hi Hj Hi1 Hi2. f_equal. by eapply Hone.
Qed.

(** What [MAX] answers over a table with the numbers [ids]: one row, NULL when the
    table is empty, else the highest. *)
Definition answers_max (ids : gset Z) (rows : list row) : Prop :=
  exists r f, rows = [r] /\ r "MAX(`equip_id`)"%string = Some f /\
    if decide (ids = ∅) then is_null f = true
    else is_null f = false /\ exists n, to_uint f 64 = Some n /\ n ∈ ids /\ forall x, x ∈ ids -> x <= n.

Lemma answers_max_equip ids rows n :
  answers_max ids rows -> max_equip rows = Some n -> (forall x, x ∈ ids -> 0 <= x) -> 0 <= n /\ forall x, x ∈ ids -> x <= n.
Proof.
  intros (r & f & -> & Hr & Hf) Hn Hids. cbn in Hn. rewrite Hr in Hn. cbn in Hn. destruct (decide (ids = ∅)) as [->|Hne].
  - rewrite Hf in Hn. injection Hn as <-. split; [lia|]. set_solver.
  - destruct Hf as (Hf & m & Hm & Hin & Hmax). rewrite Hf, Hm in Hn. injection Hn as <-. split; [by apply Hids|done].
Qed.

(** C21: The equips given to new heroes after a start never take the number of an equip
    in the character database, and no two new heroes get the same number: the start
    sets the counter to the highest number of the table, or 0 for an empty one, and
    every equip moves it on.  (As long as the counter does not wrap at 2^64.) *)
Theorem new_equips_are_new e p p' tr ids accs c' hs :
  Game_init e p = Ret (Done true, p', tr) -> servers p GSGateServer = TcpServer.Listener.construct ->
  (forall conf db rows, connect e conf = Some db -> query db select_max_equip [] = Some rows -> answers_max ids rows) ->
  (forall x, x ∈ ids -> 0 <= x) ->
  create_all (sGameConfig p') accs = (c', hs) ->
  _generate_id (sGameConfig p') + Z.of_nat (length accs * length (c_equips (_hero_config (sGameConfig p')))) < 2 ^ 64 ->
  (forall i h k, hs !! i = Some h -> is_Some (GameWorld._hero_equips h !! k) -> k ∉ ids) /\
  (forall i j h1 h2 k, hs !! i = Some h1 -> hs !! j = Some h2 -> is_Some (GameWorld._hero_equips h1 !! k) ->
     is_Some (GameWorld._hero_equips h2 !! k) -> i = j).
Proof.
  intros H Hn Hmax Hids Hc Hb.
  assert (Hgen : exists rows, answers_max ids rows /\ max_equip rows = Some (_generate_id (sGameConfig p'))).
  { unfold Game_init in H. destruct (loadDBConfig _ _ _) as [ok center]. apply check_inv in H as [-> H].
    apply addBlockTask_inv in H as (db & p1 & o1 & o2 & _ & Hd & H & ->). rewrite initDatabase_then in H. injection H as <- <-.
    apply Game_initNet_inv in Hd as (? & ? & ? & ? & ? & _ & _ & _ & _ & _ & Hd & _); [|done].
    apply Game_initDatabases_inv in Hd as (? & ? & ? & ? & ? & ? & cconf & cdb & rows & n & _ & _ & Hcc & Hm & Hn' & -> & _).
    exists rows. split; [by eapply Hmax|exact Hn']. }
  destruct Hgen as (rows & Hrows & Hg). destruct (answers_max_equip _ _ _ Hrows Hg Hids) as [H0 Hle].
  apply create_all_spec in Hc as (_ & Hlow & Hone); [|done..]. split; [|done].
  intros i h k Hi Hk Hin. specialize (Hlow i h k Hi Hk). specialize (Hle k Hin). lia.
Qed.

Definition demo_ready : process := (after (Game_init (demo_env (num 41))) demo_process).1.
Definition demo_heroes : GameConfig * list GameWorld.DreamHero := create_all (sGameConfig demo_ready) [7; 8].

Lemma demo_answers conf db rows :
  connect (demo_env (num 41)) conf = Some db -> query db select_max_equip [] = Some rows -> answers_max {[ 3; 41 ]} rows.
Proof.
  intros [= <-] [= <-]. eexists _, (num 41). split_and!; [reflexivity..|]. rewrite decide_False by set_solver.
  split; [done|]. exists 41. split_and!; [reflexivity|set_solver|]. intros x [->%elem_of_singleton| ->%elem_of_singleton]%elem_of_union; lia.
Qed.

Lemma new_equips_are_new_witness :
  (fun h => (map_to_list (GameWorld._hero_equips h)).*1) <$> demo_heroes.2 = [[43; 42]; [45; 44]] /\
  forall i h k, demo_heroes.2 !! i = Some h -> is_Some (GameWorld._hero_equips h !! k) -> k <> 41 /\ k <> 3.
Proof.
  split; [vm_compute; reflexivity|]. intros i h k Hi Hk.
  assert (Hb : _generate_id (sGameConfig demo_ready) +
    Z.of_nat (length [7; 8] * length (c_equips (_hero_config (sGameConfig demo_ready)))) < 2 ^ 64) by (vm_compute; reflexivity).
  pose proof (proj1 (new_equips_are_new (demo_env (num 41)) demo_process demo_ready _ {[ 3; 41 ]} [7; 8] demo_heroes.1 demo_heroes.2
    demo_start_run eq_refl demo_answers ltac:(set_solver by lia) (surjective_pairing _) Hb) i h k Hi Hk) as Hnot.
  set_solver.
Defined.

(** ** Every start comes to an end *)

(** Sockets that have not been used yet. *)
Definition unused (L : list server_name) (p : process) : Prop := forall n, n ∈ L -> servers p n = TcpServer.Listener.construct.

(** From a process whose sockets [L] are unused, [m] has no undefined behaviour and
    leaves [L'] unused. *)
Definition boots {A} (L L' : list server_name) (m : boot A) : Prop :=
  forall p, unused L p -> exists r p' o, m p = Ret (r, p', o) /\ unused L' p'.

Lemma boots_weaken {A} L L' L1 (m : boot A) : boots L L' m -> L1 ⊆ L' -> boots L L1 m.
Proof. intros Hm Hs p Hp. destruct (Hm p Hp) as (r & p' & o & H & Hu). exists r, p', o. split; [done|]. intros n Hn. by apply Hu, Hs. Qed.

Lemma boots_andthen {A B} L L1 L2 (m : boot A) (k : A -> boot B) :
  boots L L1 m -> (forall a, boots L1 L2 (k a)) -> L2 ⊆ L1 -> boots L L2 (andthen m k).
Proof.
  intros Hm Hk Hs p Hp. destruct (Hm p Hp) as ([a|] & p1 & o1 & H1 & Hu1); unfold andthen, mbind'; rewrite H1.
  - destruct (Hk a p1 Hu1) as (r & p2 & o2 & H2 & Hu2). rewrite H2. by exists r, p2, (o1 ++ o2).
  - exists Thrown, p1, (o1 ++ []). split; [done|]. intros n Hn. by apply Hu1, Hs.
Qed.

(** The sockets stay as they are. *)
Lemma boots_then {A B} L L' (m : boot A) (k : A -> boot B) :
  boots L L m -> (forall a, boots L L' (k a)) -> L' ⊆ L -> boots L L' (andthen m k).
Proof. by apply boots_andthen. Qed.

Lemma boots_silent {A} L (m : boot A) : silent m -> boots L L m.
Proof. intros Hm p Hp. destruct (Hm p) as [r Hr]. by exists r, p, []. Qed.

Lemma boots_done {A} L L' (a : A) : L' ⊆ L -> boots L L' (done a).
Proof. intros Hs. eapply boots_weaken; [apply boots_silent, silent_done|done]. Qed.

Lemma boots_thrown {A} L L' : L' ⊆ L -> boots (A:=A) L L' thrown.
Proof. intros Hs p Hp. exists Thrown, p, []. split; [done|]. intros n Hn. by apply Hp, Hs. Qed.

Lemma boots_check L L' b k : (b = true -> boots L L' k) -> L' ⊆ L -> boots L L' (check b k).
Proof. intros Hk Hs. destruct b; [by apply Hk|by apply boots_done]. Qed.

Lemma boots_act L a : boots L L (act a).
Proof. intros p Hp. by exists (Done tt), p, [a]. Qed.

Lemma boots_get {B} L L' (k : process -> boot B) : (forall q, unused L q -> boots L L' (k q)) -> boots L L' (andthen get k).
Proof.
  intros Hk p Hp. destruct (Hk p Hp p Hp) as (r & p' & o & H & Hu). exists r, p', o. split; [|done].
  unfold andthen, mbind', get. by rewrite H.
Qed.

Lemma boots_put L q : unused L q -> boots L L (put q).
Proof. intros Hq p _. by exists (Done tt), q, []. Qed.

Lemma boots_initDatabase L n c : boots L L (initDatabase n c).
Proof. intros p Hp. by exists (Done true), (started p n c), []. Qed.

Lemma boots_query L db sql parms : boots L L (run_query db sql parms).
Proof. apply boots_silent. unfold run_query. auto with silent. Qed.

Section starts.
Context (e : env).

Lemma boots_create L n c : n ∉ L -> boots (n :: L) L (create e n c).
Proof.
  intros Hn p Hp. unfold create. assert (Hc : servers p n = TcpServer.Listener.construct) by (apply Hp; set_solver).
  unfold andthen at 1, mbind' at 1, get. rewrite Hc. destruct (listens e n c); cbn.
  - eexists (Done true), _, _. split; [reflexivity|]. intros m Hm. cbn. destruct (decide (m = n)) as [->|]; [done|].
    apply Hp. set_solver.
  - eexists (Done false), _, _. split; [reflexivity|]. intros m Hm. cbn. destruct (decide (m = n)) as [->|]; [done|].
    apply Hp. set_solver.
Qed.

Lemma boots_block L L' c m : (forall db, boots L L' (m db)) -> L' ⊆ L -> boots L L' (addBlockTask e c m).
Proof.
  intros Hm Hs. unfold addBlockTask. destruct (connect e c) as [db|]; [|by apply boots_done]. intros p Hp.
  destruct (Hm db p Hp) as ([b|] & p' & o & H & Hu); unfold mbind'; rewrite H; eexists _, p', _; by split.
Qed.

(** Take a start apart at its steps. *)
Ltac boots_step :=
  match goal with
  | |- boots _ _ (andthen get _) => apply boots_get; intros ? ?
  | |- boots (?n :: ?L) _ (andthen (create _ ?n _) _) => apply (boots_andthen _ L); [apply boots_create; set_solver|intros ?|set_solver]
  | |- boots _ ?L' (andthen (addBlockTask _ _ _) _) =>
      apply (boots_andthen _ L'); [apply boots_block; [intros ?|set_solver]|intros ?|set_solver]
  | |- boots _ _ (andthen (run_query _ _ _) _) => apply boots_then; [apply boots_query|intros ?|set_solver]
  | |- boots _ _ (andthen (initDatabase _ _) _) => apply boots_then; [apply boots_initDatabase|intros ?|set_solver]
  | |- boots _ _ (andthen (act _) _) => apply boots_then; [apply boots_act|intros ?|set_solver]
  | |- boots _ _ (andthen (put _) _) => apply boots_then; [apply boots_put; done|intros ?|set_solver]
  | |- boots _ _ (andthen _ _) => apply boots_then; [apply boots_silent; solve [auto with silent]|intros ?|set_solver]
  | |- boots _ _ (check _ _) => apply boots_check; [intros _|set_solver]
  | |- boots _ _ (done _) => apply boots_done; set_solver
  | |- boots _ _ thrown => apply boots_thrown; set_solver
  end.
Ltac boots_steps := repeat boots_step.

Lemma initDataFromCharacterDB_boots L db : boots L L (Game_initDataFromCharacterDB db).
Proof.
  unfold Game_initDataFromCharacterDB. boots_step. apply boots_then; [|intros n; boots_steps|set_solver].
  destruct a as [|r rows]; [boots_steps|]. apply boots_silent, silent_andthen; [auto with silent|intros f].
  destruct (is_null f); auto with silent.
Qed.

Lemma initDataFromWorldDB_boots L db : boots L L (Game_initDataFromWorldDB db).
Proof. unfold Game_initDataFromWorldDB. apply boots_then; [apply boots_silent; auto with silent|intros [[[? ?] ?] ?]; boots_steps|set_solver]. Qed.

Lemma Gate_games_boots L rows : boots L L (Gate_games rows).
Proof.
  induction rows as [|r rows IH]; cbn [Gate_games]; [boots_steps|].
  apply boots_then; [apply boots_silent; auto with silent|intros [[[[? ?] ?] ?] ?]; boots_steps; done|set_solver].
Qed.

Lemma Game_init_boots : boots [GSGateServer] [] (Game_init e).
Proof.
  unfold Game_init. destruct (loadDBConfig _ _ _) as [ok conf].
  unfold Game_initDataFromDatabase, Game_initNet, Game_initDatabases. boots_steps.
  - apply initDataFromWorldDB_boots.
  - apply initDataFromCharacterDB_boots.
Qed.

Lemma DB_init_boots : boots [DBGameServer] [] (DB_init e).
Proof.
  unfold DB_init. destruct (loadDBConfig _ _ _) as [ok conf].
  unfold DB_initDataFromDatabase, DB_initDataFromCharDB, DB_initDataFromWorldDB. boots_steps.
Qed.

Lemma Gate_init_boots : boots [GTUserServer] [] (Gate_init e).
Proof.
  unfold Gate_init. destruct (loadDBConfig _ _ _) as [ok conf]. unfold Gate_initDataFromDatabase. boots_steps.
  apply Gate_games_boots.
Qed.

Lemma Login_init_boots : boots [LGUserServer; LGGateServer] [] (Login_init e).
Proof.
  unfold Login_init. destruct (loadDBConfig _ _ _) as [ok conf]. unfold Login_initDataFromDatabase. boots_steps.
Qed.

End starts.

Lemma boots_run {A} L L' (m : boot A) p : boots L L' m -> unused L p -> exists r p' tr, m p = Ret (r, p', tr).
Proof. intros Hm Hp. destruct (Hm p Hp) as (r & p' & o & H & _). eauto. Qed.

(** A start that lets no exception out. *)
Definition catches {A} (m : boot A) : Prop := forall p p' o, m p <> Ret (Thrown, p', o).

Lemma catches_andthen {A B} (m : boot A) (k : A -> boot B) : catches m -> (forall a, catches (k a)) -> catches (andthen m k).
Proof.
  intros Hm Hk p p' o (r & p1 & o1 & o2 & H1 & H2 & _)%bind_inv. destruct r; [by apply Hk in H2|by apply Hm in H1].
Qed.

Lemma catches_done {A} (a : A) : catches (done a).
Proof. done. Qed.

Lemma catches_check b k : catches k -> catches (check b k).
Proof. by destruct b. Qed.

Lemma catches_block e c m : catches (addBlockTask e c m).
Proof.
  unfold addBlockTask. destruct (connect e c); [|done]. intros p p' o (r & p1 & o1 & o2 & _ & H2 & _)%bind_inv. by destruct r.
Qed.

Lemma catches_initDatabase n c : catches (initDatabase n c).
Proof. by intros p p' o. Qed.

#[local] Hint Resolve catches_andthen catches_done catches_check catches_block catches_initDatabase : silent.

Lemma init_catches e s :
  catches (match s with GameServer => Game_init e | DBServer => DB_init e | GateServer => Gate_init e | LoginServer => Login_init e end).
Proof.
  destruct s; unfold Game_init, DB_init, Gate_init, Login_init; destruct (loadDBConfig _ _ _); auto 8 with silent.
Qed.

(** The start of a server after [init_net_service], and the sockets it listens on. *)
Definition server_init (e : env) (s : server) (c : service_config) : boot bool :=
  match s with
  | GameServer => p <-? get ;; _ <-? put (set_service p c) ;; Game_init e
  | DBServer => DB_init e
  | GateServer => p <-? get ;; _ <-? put (set_service p c) ;; Gate_init e
  | LoginServer => Login_init e
  end.

Definition sockets (s : server) : list server_name :=
  match s with
  | GameServer => [GSGateServer] | DBServer => [DBGameServer] | GateServer => [GTUserServer]
  | LoginServer => [LGUserServer; LGGateServer]
  end.

Lemma server_init_boots e s c : boots (sockets s) [] (server_init e s c).
Proof.
  destruct s; cbn [sockets server_init].
  - apply boots_get. intros q Hq. apply boots_then; [by apply boots_put|intros _; apply Game_init_boots|set_solver].
  - apply DB_init_boots.
  - apply boots_get. intros q Hq. apply boots_then; [by apply boots_put|intros _; apply Gate_init_boots|set_solver].
  - apply Login_init_boots.
Qed.

Lemma server_init_catches e s c : catches (server_init e s c).
Proof.
  destruct s; cbn [server_init]; try apply (init_catches e DBServer); try apply (init_catches e LoginServer);
    (apply catches_andthen; [done|intros p; apply catches_andthen; [done|intros _]]).
  - apply (init_catches e GameServer).
  - apply (init_catches e GateServer).
Qed.


(** ** Every end of the main loop is undefined *)

Lemma stop_twice n p p1 tr : stop n p = Ret (Done tt, p1, tr) -> exists why, stop n p1 = UB why.
Proof.
  intros H. unfold stop in *. apply get_inv in H. unfold andthen, mbind', get. cbn.
  destruct (TcpServer.Listener.stop (servers p n)) as [l|] eqn:Hs; [|discriminate]. injection H as <- <-. cbn.
  rewrite decide_True by done. destruct (second_stop_undefined _ _ Hs) as [why ->]. by exists why.
Qed.

Lemma andthen_ub {A B} (m : boot A) (k : A -> boot B) p why : m p = UB why -> andthen m k p = UB why.
Proof. intros H. unfold andthen, mbind'. by rewrite H. Qed.

(** The game and the database server shut down in [checkStop] and again after the
    loop: the second time their acceptor is a deleted object. *)
Lemma game_server_exit saved p p1 tr :
  Game_checkStop saved p = Ret (Done true, p1, tr) -> exists why, main_shutdown GameServer p1 = UB why.
Proof.
  unfold Game_checkStop, Game_shutDown. destruct saved; [|discriminate]. intros ([] & p2 & o1 & o2 & H & [= <- <-] & ->)%andthen_inv.
  destruct (stop_twice _ _ _ _ H) as [why Hw]. exists why. by apply andthen_ub.
Qed.

Lemma stop_same n p q why : servers p n = servers q n -> stop n p = UB why -> stop n q = UB why.
Proof.
  unfold stop, andthen, mbind', get. cbn. intros ->. by destruct (TcpServer.Listener.stop (servers q n)).
Qed.

Lemma db_server_exit p p1 tr :
  DB_checkStop p = Ret (Done true, p1, tr) -> exists why, main_shutdown DBServer p1 = UB why.
Proof.
  intros H. unfold DB_checkStop, DB_shutDown in H. apply get_inv in H. destruct (decide _); [|discriminate].
  apply andthen_inv in H as ([] & p2 & o1 & o2 & H & [= <- <-] & ->).   apply andthen_inv in H as ([] & p3 & o3 & o4 & _ & H & _). destruct (stop_twice _ _ _ _ H) as [why Hw].
  unfold main_shutdown, shutDown, DB_shutDown. destruct (Database_shutDown CharDB p2) as [[[r q] o]|why'] eqn:Hd.
  2: { exists why'. by apply andthen_ub, andthen_ub. }
  assert (Hrq : r = Done tt /\ servers q = servers p2).
  { unfold Database_shutDown, andthen, mbind', get in Hd. cbn in Hd.
    destruct (forallb _ _); [|discriminate]. cbn in Hd. injection Hd as <- <- _. by split. }
  destruct Hrq as [-> Hq]. exists why. apply andthen_ub. unfold andthen, mbind'. rewrite Hd.
  by rewrite (stop_same _ p2 q why (f_equal (fun f => f DBGameServer) (eq_sym Hq)) Hw).
Qed.

(** The login server deletes its database threads while they run. *)
Lemma login_server_exit p :
  (exists th, th ∈ Database._dbthread_list (databases p CenterDB) /\ Database._stop th = false) ->
  exists why, main_shutdown LoginServer p = UB why.
Proof.
  intros (th & Hin & Hs). unfold main_shutdown, shutDown, Login_shutDown.
  assert (Hdb : forall q, databases q = databases p -> exists why, Database_shutDown CenterDB q = UB why).
  { intros q Hq. unfold Database_shutDown, andthen, mbind', get. cbn. rewrite Hq.
    destruct (forallb _ _) eqn:Hf; [|by eexists]. rewrite forallb_forall in Hf. apply list_elem_of_In in Hin.
    apply Hf in Hin. congruence. }
  assert (Hstop : forall n q k, databases q = databases p ->
    (forall q', databases q' = databases p -> exists why, k q' = UB why) ->
    exists why, andthen (stop n) (fun _ => k : boot unit) q = UB why).
  { intros n q k Hq Hk. unfold andthen, stop, mbind', get. cbn. unfold mbind'.
    destruct (TcpServer.Listener.stop (servers q n)) as [l|]; [|by eexists]. cbn.
    destruct (Hk (set_server q n l) Hq) as [why ->]. by eexists. }
  destruct (Hstop LGUserServer p (_ <-? stop LGGateServer ;; Database_shutDown CenterDB) eq_refl) as [why Hw].
  { intros q Hq. by apply Hstop. }
  exists why. by apply andthen_ub.
Qed.

(** Its threads run from the start on. *)
Lemma login_server_threads p c p' tr :
  initDatabase CenterDB c p = Ret (Done true, p', tr) -> 0 < _thread_ c ->
  exists th, th ∈ Database._dbthread_list (databases p' CenterDB) /\ Database._stop th = false.
Proof.
  intros [= <- _] Hc. exists (Database.mk_thread 0 None false false). split; [|done]. cbn.
  apply elem_of_app. right. apply elem_of_replicate. split; [done|]. rewrite Z.eqb_refl. lia.
Qed.

