(* ===== verification/ObjectPool.v ===== *)
(** [common/object_pool.h] and [common/memory.h]: the pools the servers take
    accounts, bans and sessions from.  [Memory::createObject] and
    [releaseObject] work on one static [ObjectPool] per class, which counts the
    objects of a [boost::object_pool].

    [boost::object_pool] is an interface, [BoostPool]; what its documentation
    promises are the laws of [BoostPoolOk].  [FreeList] is an implementation of
    them for the examples. *)

From Stdlib Require Import Ascii String.
From S2P Require Import Prelude.
From stdpp Require Import prelude gmap strings list fin_sets.
#[local] Open Scope Z_scope.

(** ** [boost::object_pool] *)

Class BoostPool (P : Type) : Type := {
  make : Z -> Z -> P;              (* the constructor *)
  malloc : P -> Z * P;             (* the block, 0 when there is no memory *)
  free : P -> Z -> P;              (* what [destroy] does after the destructor *)
  live : P -> gset Z;              (* the blocks handed out *)
  get_max_size : P -> Z;
  get_next_size : P -> Z;
  get_requested_size : P -> Z;
  total_size : P -> Z
}.

Class BoostPoolOk (P : Type) `{BoostPool P} : Prop := {
  live_make n m : live (make n m) = ∅;
  malloc_null p : (malloc p).1 = 0 -> live (malloc p).2 = live p;
  malloc_block p : (malloc p).1 <> 0 -> (malloc p).1 ∉ live p /\ live (malloc p).2 = live p ∪ {[ (malloc p).1 ]};
  live_free p a : a ∈ live p -> live (free p a) = live p ∖ {[ a ]};
  live_null p : 0 ∉ live p
}.

Module Memory.
Section memory.
(** [T] is the class: what its objects hold. *)
Context {T P : Type} `{BoostPool P}.

Record ObjectPool : Type := mk_pool { base : P; _obj_count : Z }.

Definition new_ObjectPool (arg_next_size arg_max_size : Z) : ObjectPool := mk_pool (make arg_next_size arg_max_size) 0.

(** The static pool of the class and the objects in memory. *)
Record memory : Type := mk_memory { pool : option ObjectPool; objs : gmap Z T }.

Definition start : memory := mk_memory None ∅.

Inductive effect : Type :=
| LogException (what : string)
| LogMemory (line : string) (a b : Z)
| NotFindClass.

Abbreviation Mem := (M memory effect).

(** What a constructor call leads to. *)
Inductive construction : Type := Made (v : T) | Threw (what : string).

(** A call that returns a pointer or leaves by an exception. *)
Inductive returned : Type := Ptr (p : Z) | Thrown (what : string).

(** *** [ObjectPool] *)

Definition newObject (q : ObjectPool) : Z * ObjectPool :=
  let '(p, b) := malloc (base q) in
  (p, mk_pool b (if p =? 0 then _obj_count q else u32 (_obj_count q + 1))).

(** [destroy] of a block the pool has not handed out is undefined. *)
Definition deleteObject (ndebug : bool) (q : ObjectPool) (p : Z) : outcome ObjectPool :=
  if p =? 0 then Ret q
  else if decide (p ∈ live (base q)) then
    if negb ndebug && (_obj_count q =? 0) then UB "assert(_obj_count > 0)"
    else Ret (mk_pool (free (base q) p) (u32 (_obj_count q - 1)))
  else UB "destroy of a foreign pointer".

(** *** [Memory] *)

Section for_class.
(** The build, [getStaticNextSize], [getStaticMaxSize] and [sizeof(Class)]. *)
Context (ndebug : bool) (next_size max_size class_size : Z) (class_name : string).

Definition set_pool (q : ObjectPool) : Mem unit := mmodify (fun m => mk_memory (Some q) (objs m)).
Definition set_obj (p : Z) (v : T) : Mem unit := mmodify (fun m => mk_memory (pool m) (<[p := v]> (objs m))).

(** [None] is a null pool. *)
Definition getObjectPool : Mem (option ObjectPool) :=
  m <- mget ;;
  match pool m with
  | Some q => mret' (Some q)
  | None =>
      if next_size <=? 0 then
        if ndebug then mret' None else mub "assert(next size > 0)"
      else
        let q := new_ObjectPool next_size max_size in
        set_pool q ;;; mret' (Some q)
  end.

(** [::new Class(...)]: an address that is in use nowhere. *)
Definition global_new (again : construction) : Mem returned :=
  m <- mget ;;
  match again with
  | Threw what => mret' (Thrown what)
  | Made v =>
      let used := {[ 0 ]} ∪ dom (objs m) ∪ match pool m with Some q => live (base q) | None => ∅ end in
      let p : Z := fresh used in
      set_obj p v ;;; mret' (Ptr p)
  end.

(** [createObject]; [first] is the constructor's run in the pool's block and
    [again] the one after an exception, for which [LEAVE_FUN] logs and the
    function goes on.  No [operator delete] matches the placement [new], so the
    block of a constructor that throws stays taken. *)
Definition createObject (first again : construction) : Mem returned :=
  pkPool <- getObjectPool ;;
  match pkPool with
  | Some q =>
      let '(p, q') := newObject q in
      set_pool q' ;;;
      if p =? 0 then mret' (Ptr 0)
      else
        match first with
        | Made v => set_obj p v ;;; mret' (Ptr p)
        | Threw what => memit (LogException what) ;;; global_new again
        end
  | None => memit (LogException class_name) ;;; global_new again
  end.

(** [releaseObject]; [delete] of a null pointer does nothing. *)
Definition releaseObject (p : Z) : Mem unit :=
  pkPool <- getObjectPool ;;
  match pkPool with
  | Some q =>
      match deleteObject ndebug q p with
      | UB why => mub why
      | Ret q' => mmodify (fun m => mk_memory (Some q') (delete p (objs m)))
      end
  | None =>
      memit (LogException class_name) ;;;
      m <- mget ;;
      if p =? 0 then mret' tt
      else match objs m !! p with
           | Some _ => mmodify (fun m => mk_memory (pool m) (delete p (objs m)))
           | None => mub "delete of a foreign pointer"
           end
  end.

(** The lines of [ObjectPool::log], with the two numbers each prints. *)
Definition log (q : ObjectPool) : Mem unit :=
  memit (LogMemory "OnceCount, MaxCount" next_size (get_max_size (base q))) ;;;
  memit (LogMemory "ChunSize, ClassSize" (get_requested_size (base q)) class_size) ;;;
  memit (LogMemory "UsedCount, AllocCount" (_obj_count q) (u32 (get_next_size (base q) - next_size))) ;;;
  memit (LogMemory "UsedMomry, AllocMemory" (get_requested_size (base q) * _obj_count q) (total_size (base q))).

Definition flushObjectMemory : Mem unit :=
  pkPool <- getObjectPool ;;
  match pkPool with
  | Some q => log q
  | None => memit NotFindClass
  end.

(** What a server does with the class. *)
Inductive op : Type :=
| Create (v : T)
| Release (p : Z)
| Flush.

(** Constructors that do not throw; the result of [Release] and [Flush] is 0. *)
Definition perform (o : op) : Mem Z :=
  match o with
  | Create v => r <- createObject (Made v) (Made v) ;; mret' (match r with Ptr p => p | Thrown _ => 0 end)
  | Release p => releaseObject p ;;; mret' 0
  | Flush => flushObjectMemory ;;; mret' 0
  end.

End for_class.

(** ** The specification: an allocator

    The objects a server holds, by their pointers. *)

Abbreviation held := (gmap Z T).

(** A server gives back null or what it holds. *)
Definition may (s : held) (o : op) : Prop :=
  match o with Release p => p = 0 \/ is_Some (s !! p) | _ => True end.

Inductive alloc_step (s : held) : op -> Z -> held -> Prop :=
| alloc_full v : alloc_step s (Create v) 0 s
| alloc_new v p : p <> 0 -> s !! p = None -> alloc_step s (Create v) p (<[p := v]> s)
| alloc_release p : alloc_step s (Release p) 0 (delete p s)
| alloc_flush : alloc_step s Flush 0 s.

End memory.
Arguments ObjectPool : clear implicits.
Arguments memory : clear implicits.
Arguments op : clear implicits.
End Memory.

Import Memory.

(** ** The pools implement the allocator *)

Section refinement.
Context {T P : Type} `{BoostPoolOk P}.
Context (ndebug : bool) (next_size max_size class_size : Z) (class_name : string) (Hnext : 0 < next_size).

(** The server holds the objects in memory, the pool's blocks are exactly these
    and [_obj_count] is their number. *)
Definition implements (m : memory T P) (s : gmap Z T) : Prop :=
  objs m = s /\
  match pool m with
  | Some q => live (base q) = dom s /\ _obj_count q = Z.of_nat (size s)
  | None => s = ∅
  end.

(** The static pool exists after the first use. *)
Lemma getObjectPool_run (m : memory T P) s :
  implements m s ->
  exists q, getObjectPool ndebug next_size max_size m = Ret (Some q, mk_memory (Some q) (objs m), []) /\
    live (base q) = dom s /\ _obj_count q = Z.of_nat (size s).
Proof.
  intros [Ho Hp]. unfold getObjectPool. rewrite (mbind_pure mget _ m m) by done.
  destruct m as [[q|] ob]; cbn in *.
  - exists q. by destruct Hp.
  - destruct (Z.leb_spec next_size 0); [lia|]. eexists. split; [reflexivity|]. cbn. rewrite Hp.
    by rewrite live_make, dom_empty_L, map_size_empty.
Qed.

Lemma perform_refines m s o :
  implements m s -> may s o -> Z.of_nat (size s) < 2 ^ 32 - 1 ->
  exists r m' e s', perform ndebug next_size max_size class_size class_name o m = Ret (r, m', e) /\
    alloc_step s o r s' /\ implements m' s'.
Proof.
  intros Hm Hmay Hsize. destruct (getObjectPool_run m s Hm) as (q & Hq & Hl & Hc). destruct Hm as [Ho _].
  assert (Hnull : s !! 0 = None) by (apply not_elem_of_dom; rewrite <- Hl; apply live_null).
  destruct o as [v|p|]; cbn [perform].
  - unfold createObject, newObject. rewrite mbind_assoc, (mbind_silent _ _ _ _ _ Hq).
    pose proof (malloc_null (base q)) as Hn. pose proof (malloc_block (base q)) as Hb.
    destruct (malloc (base q)) as [p b]. cbn in Hn, Hb. destruct (Z.eqb_spec p 0) as [->|Hp].
    + eexists _, _, _, s. split; [reflexivity|]. split; [constructor|]. split; [done|]. cbn. by rewrite Hn.
    + destruct (Hb Hp) as [Hfresh Hb']. rewrite Hl in Hfresh. apply not_elem_of_dom in Hfresh.
      eexists _, _, _, (<[p := v]> s). split; [reflexivity|]. split; [by constructor|]. split; [by rewrite <- Ho|]. cbn.
      rewrite Hb', Hl, dom_insert_L, map_size_insert_None, Hc by done. split; [set_solver|]. rewrite u32_id; mach.
  - unfold releaseObject. rewrite mbind_assoc, (mbind_silent _ _ _ _ _ Hq). unfold deleteObject.
    destruct (Z.eqb_spec p 0) as [->|Hp].
    + assert (Hd : delete 0 s = s) by (by apply delete_id).
      eexists _, _, _, s. split; [reflexivity|]. split; [rewrite <- Hd at 2; constructor|].
      split; cbn; [by rewrite Ho, Hd|done].
    + destruct Hmay as [|[v Hv]]; [done|].
      assert (Hin : p ∈ live (base q)) by (rewrite Hl; by apply elem_of_dom_2 with v).
      rewrite decide_True by done. assert (Hpos : size s <> 0%nat) by (intros He%map_size_empty_inv; by rewrite He in Hv).
      destruct (Z.eqb_spec (_obj_count q) 0); [lia|]. rewrite andb_false_r.
      eexists _, _, _, (delete p s). split; [reflexivity|]. split; [constructor|]. split; [by rewrite <- Ho|]. cbn.
      rewrite live_free, Hl, dom_delete_L by done. split; [done|]. rewrite map_size_delete_Some by eauto. rewrite u32_id; mach.
  - unfold flushObjectMemory. rewrite mbind_assoc, (mbind_silent _ _ _ _ _ Hq).
    eexists _, _, _, s. split; [reflexivity|]. split; [constructor|]. by split.
Qed.

(** Servers that use the class: each step is allowed by what they hold. *)
Inductive used : memory T P -> gmap Z T -> Prop :=
| used_start : used start ∅
| used_step m s o r m' e s' :
    used m s -> may s o -> Z.of_nat (size s) < 2 ^ 32 - 1 ->
    perform ndebug next_size max_size class_size class_name o m = Ret (r, m', e) -> alloc_step s o r s' -> used m' s'.

Lemma alloc_step_fun (s : gmap Z T) o r s1 s2 : alloc_step s o r s1 -> alloc_step s o r s2 -> s1 = s2.
Proof. intros H1 H2. by inversion H1; subst; inversion H2; subst. Qed.

Lemma used_implements m s : used m s -> implements m s.
Proof.
  induction 1 as [|m s o r m' e s' Hu IH Hmay Hs Hr Ha]; [by split|].
  destruct (perform_refines m s o IH Hmay Hs) as (r1 & m1 & e1 & s1 & Hr1 & Ha1 & Hi1).
  rewrite Hr in Hr1. injection Hr1 as -> -> ->. by rewrite (alloc_step_fun _ _ _ _ _ Ha Ha1).
Qed.


(** A second release of a pointer is undefined: the servers must not do it. *)
Lemma double_release_undefined m s p :
  implements m s -> p <> 0 -> s !! p = None ->
  perform ndebug next_size max_size class_size class_name (Release p) m = UB "destroy of a foreign pointer".
Proof.
  intros Hm Hp Hs. destruct (getObjectPool_run m s Hm) as (q & Hq & Hl & _).
  cbn [perform]. unfold releaseObject. rewrite mbind_assoc, (mbind_silent _ _ _ _ _ Hq). unfold deleteObject.
  destruct (Z.eqb_spec p 0); [done|]. rewrite decide_False; [done|]. rewrite Hl. by apply not_elem_of_dom.
Qed.

(** A constructor that throws costs the pool a block for good and is run again
    outside of it; releasing that object is undefined. *)
Lemma throwing_constructor_leaks m s v what :
  implements m s -> (malloc (base (default (new_ObjectPool next_size max_size) (pool m)))).1 <> 0 ->
  exists p m' q, createObject ndebug next_size max_size class_name (Threw what) (Made v) m =
      Ret (Ptr p, m', [LogException what]) /\
    pool m' = Some q /\ _obj_count q = u32 (Z.of_nat (size s) + 1) /\ objs m' = <[p := v]> s /\
    perform ndebug next_size max_size class_size class_name (Release p) m' = UB "destroy of a foreign pointer".
Proof.
  intros Hm Hb. destruct (getObjectPool_run m s Hm) as (q & Hq & Hl & Hc). destruct Hm as [Ho Hp].
  assert (Hq' : default (new_ObjectPool next_size max_size) (pool m) = q).
  { unfold getObjectPool, mbind', mget in Hq. destruct (pool m); cbn in *; [congruence|].
    destruct (next_size <=? 0); [by destruct ndebug|]. cbn in Hq. congruence. }
  rewrite Hq' in Hb. unfold createObject, newObject. rewrite (mbind_silent _ _ _ _ _ Hq).
  destruct (malloc (base q)) as [a b] eqn:Hma. cbn in Hb. destruct (Z.eqb_spec a 0); [done|].
  unfold global_new, set_pool, set_obj, mbind', mmodify, mget, memit, mret'. cbn.
  set (used0 := {[0]} ∪ dom (objs m) ∪ live b). pose proof (is_fresh used0) as Hf. set (p := fresh used0) in *.
  eexists p, _, _. split; [reflexivity|]. cbn. split_and!; [done|by rewrite Hc|by rewrite Ho|].
  unfold releaseObject, getObjectPool, mbind', mget, mret'. cbn. unfold deleteObject. cbn.
  destruct (Z.eqb_spec p 0); [set_solver|]. rewrite decide_False by set_solver. done.
Qed.

End refinement.

(** ** A pool *)

(** [capacity] blocks at most, lowest address first. *)
Module FreeList.
Record pool : Type := mk { capacity : nat; next : Z; max : Z; taken : gset Z }.

Definition first_free (n : nat) (s : gset Z) : option Z :=
  head (filter (fun a => a ∉ s) (seqZ 1 (Z.of_nat n))).

Definition take (p : pool) : Z * pool :=
  match first_free (capacity p) (taken p) with
  | Some a => (a, mk (capacity p) (next p) (max p) (taken p ∪ {[ a ]}))
  | None => (0, p)
  end.
End FreeList.

(** Two blocks; [total_size] and the like are of no account here. *)
#[export] Instance free_list : BoostPool FreeList.pool := {
  make n m := FreeList.mk 2 n m ∅;
  malloc := FreeList.take;
  free p a := FreeList.mk (FreeList.capacity p) (FreeList.next p) (FreeList.max p) (FreeList.taken p ∖ {[ a ]});
  live p := FreeList.taken p ∖ {[ 0 ]};
  get_max_size := FreeList.max;
  get_next_size := FreeList.next;
  get_requested_size _ := 64;
  total_size p := 64 * Z.of_nat (FreeList.capacity p)
}.

Lemma first_free_spec n s a : FreeList.first_free n s = Some a -> a ∉ s /\ a <> 0.
Proof.
  unfold FreeList.first_free. intros Ha. apply head_Some_elem_of in Ha.
  apply list_elem_of_filter in Ha as [Hn Hs]. apply elem_of_seqZ in Hs. split; [done|lia].
Qed.

#[export] Instance free_list_ok : BoostPoolOk FreeList.pool.
Proof.
  constructor; cbn.
  - intros _ _. set_solver.
  - intros p. unfold FreeList.take. destruct (FreeList.first_free _ _) as [a|] eqn:Ha; [|done]. cbn. intros ->.
    by apply first_free_spec in Ha as [_ ?].
  - intros p. unfold FreeList.take. destruct (FreeList.first_free _ _) as [a|] eqn:Ha; [|done]. cbn. intros _.
    apply first_free_spec in Ha as [Hs Hn]. set_solver.
  - intros p a _. set_solver.
  - intros p. set_solver.
Qed.

(** Two accounts are made, the third gets null; after a release its place is
    given again. *)
Definition account_ops : list (op string) :=
  [Create "a"; Create "b"; Create "c"; Release 1; Create "d"; Flush].

Definition perform_account (o : op string) : M (memory string FreeList.pool) effect Z :=
  perform false 2000 0 64 "Account" o.

Definition perform_all (l : list (op string)) : M (memory string FreeList.pool) effect (list Z) :=
  foldr (fun o k => r <- perform_account o ;; rs <- k ;; mret' (r :: rs)) (mret' []) l.

Example accounts_made :
  (match perform_all account_ops start with
   | Ret (rs, m, e) => (rs, map_to_list (objs m), option_map _obj_count (pool m), length e)
   | UB _ => ([], [], None, O)
   end) = ([1; 2; 0; 0; 1; 0], [(2, "b"); (1, "d")], Some 2, 4%nat).
Proof. vm_compute. reflexivity. Qed.

