(* ===== verification/Ownership.v ===== *)
(** Holders of shared things in the library: the buffers a thread borrows
    ([common/mt_buffer.h]: [mt_buffer], [mt_auto_ptr], [mt_buffer_mgr]) and the
    owning pointers of [common/utilities.h] ([smart_ptr], [auto_array_ptr],
    [safe_delete]).

    A program is a list of operations on named holders; operations of different
    threads interleave, each of them being under the mutex where it matters. *)

From S2P Require Import Prelude.
From stdpp Require Import prelude gmap strings list.
#[local] Open Scope Z_scope.

Module MtBuffer.

(** [mt_buffer]: [m_mutex] is the manager's once the buffer has been looked at. *)
Record mt_buffer : Type := mk_buffer { m_using : bool; m_mutex : bool }.

Definition construct : mt_buffer := mk_buffer false false.

(** [acquire], called with the mutex held. *)
Definition acquire (b : mt_buffer) : bool * mt_buffer :=
  if negb (m_using b) then (true, mk_buffer true true) else (false, mk_buffer (m_using b) true).

Definition release (b : mt_buffer) : mt_buffer :=
  if m_mutex b then mk_buffer false (m_mutex b) else b.

(** The loop of [get_free_buffer] under the mutex: the index of the buffer. *)
Fixpoint scan (l : list mt_buffer) : option nat * list mt_buffer :=
  match l with
  | [] => (None, [])
  | b :: l' =>
      let (ok, b') := acquire b in
      if ok then (Some O, b' :: l')
      else let (r, l'') := scan l' in (S <$> r, b' :: l'')
  end.

(** [mt_buffer_mgr] and the [mt_auto_ptr]s of the program. *)
Record state : Type := mk_state { m_buffers : list mt_buffer; handles : gmap Z (option nat) }.

Definition start (count : nat) : state := mk_state (replicate count construct) ∅.

Inductive op : Type :=
| Get (h : Z)             (* mt_auto_ptr h (mgr.get_free_buffer ()): one round of its loop *)
| Destroy (h : Z)
| Copy (h from : Z)       (* the copy constructor the compiler generates *)
| Assign (h : Z).         (* h = mgr.get_free_buffer () *)

(** One round of [while (true)]: without a free buffer the thread waits and the
    handle does not exist yet. *)
Definition get (s : state) (h : Z) : state :=
  match scan (m_buffers s) with
  | (Some i, l) => mk_state l (<[h := Some i]> (handles s))
  | (None, l) => mk_state l (handles s)
  end.

(** [~mt_auto_ptr]. *)
Definition destroy (s : state) (h : Z) : state :=
  match handles s !! h with
  | Some (Some i) => mk_state (alter release i (m_buffers s)) (delete h (handles s))
  | _ => mk_state (m_buffers s) (delete h (handles s))
  end.

Definition handle (s : state) (o : op) : state :=
  match o with
  | Get h => match handles s !! h with None => get s h | Some _ => s end
  | Destroy h => destroy s h
  | Copy h from =>
      match handles s !! h, handles s !! from with
      | None, Some p => mk_state (m_buffers s) (<[h := p]> (handles s))
      | _, _ => s
      end
  | Assign h => match handles s !! h with Some _ => get s h | None => s end
  end.

Definition run (s : state) (l : list op) : state := fold_left handle l s.

Definition in_use (s : state) (i : nat) : bool :=
  match m_buffers s !! i with Some b => m_using b | None => false end.

Definition holds (s : state) (h : Z) (i : nat) : Prop := handles s !! h = Some (Some i).

(** Handles are made and destroyed, never copied or assigned. *)
Definition scoped (o : op) : Prop := match o with Get _ | Destroy _ => True | _ => False end.

End MtBuffer.
Import MtBuffer.

(** ** Borrowed buffers *)

(** A scan leaves who is in use alone, and tells the mutex to whom it looks at. *)
Definition looked (l l' : list mt_buffer) : Prop :=
  length l' = length l /\ forall j b, l' !! j = Some b -> m_mutex b = true \/ l !! j = Some b.

Lemma scan_spec l :
  match scan l with
  | (Some i, l') => looked l l' /\ (m_using <$> l !! i) = Some false /\ (m_using <$> l' !! i) = Some true /\
      (m_mutex <$> l' !! i) = Some true /\ forall j, j <> i -> m_using <$> l' !! j = m_using <$> l !! j
  | (None, l') => looked l l' /\ (forall b, b ∈ l -> m_using b = true) /\ forall j, m_using <$> l' !! j = m_using <$> l !! j
  end.
Proof.
  induction l as [|b l IH]; cbn [scan].
  { split_and!; [split; [done|auto]|by intros b ?%elem_of_nil|done]. }
  assert (Hcons : forall l' b', looked l l' -> m_mutex b' = true -> looked (b :: l) (b' :: l')).
  { intros l' b' [H1 H2] H3. split; [cbn; lia|]. intros [|j] c; cbn; [intros [= <-]; by left|apply H2]. }
  unfold acquire. destruct (m_using b) eqn:Hu; cbn [negb].
  - destruct (scan l) as [[i|] l'] eqn:Hs; cbn [fmap option_fmap option_map].
    + destruct IH as (H1 & H2 & H3 & H4 & H5). cbn. split_and!; try done; [by apply Hcons|].
      intros [|j] Hj; cbn; [by rewrite Hu|]. apply H5. lia.
    + destruct IH as (H1 & H2 & H3). cbn. split_and!; [by apply Hcons| |].
      * intros b' [->|Hb]%elem_of_cons; auto.
      * intros [|j]; cbn; [by rewrite Hu|auto].
  - cbn. rewrite Hu. split_and!; try done; [|by intros [|j]].
    apply Hcons; [|done]. split; [done|auto].
Qed.

(** Every buffer in use has its one handle and knows the mutex. *)
Record exclusive (s : state) : Prop := {
  e_one : forall h1 h2 i, holds s h1 i -> holds s h2 i -> h1 = h2;
  e_held : forall i, in_use s i = true <-> exists h, holds s h i;
  e_mutex : forall i b, m_buffers s !! i = Some b -> m_using b = true -> m_mutex b = true
}.

Lemma in_use_fmap s i : in_use s i = default false (m_using <$> m_buffers s !! i).
Proof. unfold in_use. by destruct (m_buffers s !! i). Qed.

Lemma start_exclusive count : exclusive (MtBuffer.start count).
Proof.
  constructor; unfold holds; cbn.
  - intros h1 h2 i H. by rewrite lookup_empty in H.
  - intros i. rewrite in_use_fmap. cbn. split; [|intros [h H]; by rewrite lookup_empty in H].
    destruct (replicate count construct !! i) eqn:Hi; [|done]. apply lookup_replicate in Hi as [-> _]. discriminate.
  - intros i b Hi. apply lookup_replicate in Hi as [-> _]. discriminate.
Qed.

Lemma get_exclusive s h : handles s !! h = None -> exclusive s -> exclusive (get s h).
Proof.
  intros Hh [H1 H2 H3]. unfold get. pose proof (scan_spec (m_buffers s)) as Hs.
  destruct (scan (m_buffers s)) as [[i|] l'].
  - destruct Hs as ([_ Hm] & Hi & Hi' & Hmi & Hj).
    assert (Hfree : forall k, handles s !! k <> Some (Some i)).
    { intros k Hk. assert (in_use s i = true) as Hu by (apply H2; by exists k).
      rewrite in_use_fmap, Hi in Hu. done. }
    constructor; unfold holds; cbn.
    + intros h1 h2 j. destruct (decide (h1 = h)) as [->|]; destruct (decide (h2 = h)) as [->|];
        rewrite ?lookup_insert_eq, ?lookup_insert_ne by done; try done.
      * intros [= <-] Hk. by destruct (Hfree h2).
      * intros Hk [= <-]. by destruct (Hfree h1).
      * apply H1.
    + intros j. rewrite in_use_fmap. cbn. destruct (decide (j = i)) as [->|Hne].
      * rewrite Hi'. split; [|done]. intros _. exists h. by rewrite lookup_insert_eq.
      * rewrite (Hj j Hne), <- in_use_fmap, H2. split; intros [k Hk]; exists k.
        -- rewrite lookup_insert_ne; [done|]. intros ->. unfold holds in Hk. congruence.
        -- destruct (decide (k = h)) as [->|]; [rewrite lookup_insert_eq in Hk; congruence|].
           by rewrite lookup_insert_ne in Hk.
    + intros j b Hb Hu. destruct (Hm j b Hb) as [?|Ho]; [done|by eapply H3].
  - destruct Hs as ([_ Hm] & _ & Hj). constructor; unfold holds; cbn; [exact H1| |].
    + intros j. rewrite in_use_fmap. cbn. rewrite Hj, <- in_use_fmap. apply H2.
    + intros j b Hb Hu. destruct (Hm j b Hb) as [?|Ho]; [done|by eapply H3].
Qed.

Lemma destroy_exclusive s h : exclusive s -> exclusive (destroy s h).
Proof.
  intros [H1 H2 H3]. unfold destroy. destruct (handles s !! h) as [[i|]|] eqn:Hh.
  - assert (Hu : in_use s i = true) by (apply H2; by exists h).
    assert (Hb : exists b, m_buffers s !! i = Some b /\ m_using b = true /\ m_mutex b = true).
    { unfold in_use in Hu. destruct (m_buffers s !! i) as [b|] eqn:Hb; [|done]. exists b. split_and!; [done|done|by eapply H3]. }
    destruct Hb as (b & Hb & _ & Hm). constructor; unfold holds; cbn.
    + intros h1 h2 j Ha%lookup_delete_Some Hc%lookup_delete_Some. naive_solver.
    + intros j. rewrite in_use_fmap. cbn. destruct (decide (j = i)) as [->|Hne].
      * rewrite list_lookup_alter_eq, Hb. cbn. unfold release. rewrite Hm. cbn. split; [done|].
        intros [k [Hk Hk']%lookup_delete_Some]. destruct Hk. by apply (H1 h k i).
      * rewrite list_lookup_alter_ne, <- in_use_fmap, H2 by done. split; intros [k Hk]; exists k.
        -- apply lookup_delete_Some. split; [|done]. intros ->. unfold holds in Hk. congruence.
        -- by apply lookup_delete_Some in Hk as [_ Hk].
    + intros j c Hc Hcu. destruct (decide (j = i)) as [->|Hne].
      * rewrite list_lookup_alter_eq, Hb in Hc. cbn in Hc. injection Hc as <-. unfold release in Hcu. by rewrite Hm in Hcu.
      * rewrite list_lookup_alter_ne in Hc by done. by eapply H3.
  - constructor; unfold holds; cbn; [| |exact H3].
    + intros h1 h2 j Ha%lookup_delete_Some Hc%lookup_delete_Some. naive_solver.
    + intros j. change (in_use (mk_state (m_buffers s) (delete h (handles s))) j) with (in_use s j). rewrite H2.
      unfold holds. cbn. split; intros [k Hk]; exists k; rewrite lookup_delete_Some in *; [|tauto].
      split; [|done]. intros ->. congruence.
  - rewrite delete_id by done. by destruct s.
Qed.

Lemma run_exclusive l s : Forall scoped l -> exclusive s -> exclusive (MtBuffer.run s l).
Proof.
  intros Hl. revert s. induction Hl as [|o l Ho _ IH]; intros s Hs; [done|]. cbn. apply IH.
  destruct o as [h|h| |]; try done; cbn.
  - destruct (handles s !! h) eqn:Hh; [done|]. by apply get_exclusive.
  - by apply destroy_exclusive.
Qed.

(** A borrowed buffer has one holder.  However the threads of a program that
    makes and destroys its handles (and does not copy or assign them) interleave,
    two handles never hold the same buffer, a buffer is marked as used exactly
    while a handle holds it, so that [get_free_buffer] waits only while as many
    handles are alive as there are buffers. *)
Theorem borrowed_buffers_are_exclusive count l :
  Forall scoped l ->
  let s := MtBuffer.run (MtBuffer.start count) l in
  (forall h1 h2 i, holds s h1 i -> holds s h2 i -> h1 = h2) /\
  (forall i, in_use s i = true <-> exists h, holds s h i) /\
  (forall h, handles s !! h = None -> handles (get s h) !! h = None ->
     forall i, (i < length (m_buffers s))%nat -> exists h', holds s h' i).
Proof.
  intros Hl s. pose proof (run_exclusive l _ Hl (start_exclusive count)) as He. fold s in He. split_and!.
  - apply (e_one _ He).
  - apply (e_held _ He).
  - intros h Hh Hg i Hi. apply (e_held _ He). unfold get in Hg. pose proof (scan_spec (m_buffers s)) as Hs.
    destruct (scan (m_buffers s)) as [[j|] l']; cbn in Hg; [by rewrite lookup_insert_eq in Hg|].
    destruct Hs as (_ & Hall & _). destruct (lookup_lt_is_Some_2 _ _ Hi) as [b Hb].
    unfold in_use. rewrite Hb. apply Hall. by apply list_elem_of_lookup_2 in Hb.
Qed.

Lemma borrowed_buffers_are_exclusive_witness :
  let s := MtBuffer.run (MtBuffer.start 2) [Get 1; Get 2; Get 3; Destroy 1; Get 4] in
  holds s 4 0 /\ handles s !! 3 = None /\ (forall h, holds s h 0 -> h = 4).
Proof.
  split_and!; [reflexivity|reflexivity|]. intros h Hh.
  exact (proj1 (borrowed_buffers_are_exclusive 2 [Get 1; Get 2; Get 3; Destroy 1; Get 4] ltac:(repeat constructor)) h 4 0%nat Hh eq_refl).
Defined.

(** A copy of a handle gives the buffer back with the first of the two: the next
    thread gets a buffer that the other still uses. *)
Lemma copied_handle_shares :
  let s := MtBuffer.run (MtBuffer.start 1) [Get 1; Copy 2 1; Destroy 1; Get 3] in holds s 2 0 /\ holds s 3 0.
Proof. by split. Qed.

(** Assigning to a handle does not give back what it held: the buffer stays in
    use with no handle to release it. *)
Lemma assigned_handle_leaks :
  let s := MtBuffer.run (MtBuffer.start 2) [Get 1; Assign 1; Destroy 1] in
  in_use s 0 = true /\ handles s = ∅.
Proof. by split. Qed.

(** ** Owning pointers *)

Module SmartPtr.

(** [smart_ptr]: [m_ptr] is the number of an object, [None] for a null pointer. *)
Record smart_ptr : Type := mk_ptr { m_owner : bool; m_ptr : option Z }.

(** The smart pointers of a program, the objects deleted and the next [new]. *)
Record heap : Type := mk_heap { vars : gmap Z smart_ptr; deleted : gset Z; fresh : Z }.

Inductive effect : Type := Delete (p : Z).

Abbreviation Hp := (M heap effect).

Definition start : heap := mk_heap ∅ ∅ 0.

Inductive op : Type :=
| Construct (v : Z)          (* smart_ptr v (new T) *)
| CopyConstruct (v w : Z)    (* smart_ptr v (w) *)
| AssignNew (v : Z)          (* v = new T *)
| AssignPtr (v w : Z)        (* v = w *)
| Deref (v : Z)              (* v-> and *v *)
| Destroy (v : Z).

Definition set_var (v : Z) (x : smart_ptr) : Hp unit :=
  mmodify (fun h => mk_heap (<[v := x]> (vars h)) (deleted h) (fresh h)).

Definition new : Hp Z :=
  h <- mget ;; mput (mk_heap (vars h) (deleted h) (fresh h + 1)) ;;; mret' (fresh h).

Definition delete_object (p : Z) : Hp unit :=
  h <- mget ;;
  if decide (p ∈ deleted h) then mub "delete: twice"
  else memit (Delete p) ;;; mput (mk_heap (vars h) ({[p]} ∪ deleted h) (fresh h)).

Definition get_var (v : Z) : Hp smart_ptr :=
  h <- mget ;; match vars h !! v with Some x => mret' x | None => mub "no such variable" end.

(** [sp.m_owner = false]: the member is [mutable]. *)
Definition copy_construct (v w : Z) : Hp unit :=
  x <- get_var w ;;
  set_var v (mk_ptr true (m_ptr x)) ;;;
  set_var w (mk_ptr false (m_ptr x)).

(** The assignments forget what the pointer owned. *)
Definition assign_new (v : Z) : Hp unit :=
  _ <- get_var v ;; p <- new ;; set_var v (mk_ptr true (Some p)).

(** This one has no [return]. *)
Definition assign_ptr (v w : Z) : Hp unit :=
  _ <- get_var v ;;
  x <- get_var w ;;
  set_var w (mk_ptr false (m_ptr x)) ;;;
  set_var v (mk_ptr true (m_ptr x)) ;;;
  mub "operator =: end of a function that returns a reference".

Definition destroy (v : Z) : Hp unit :=
  x <- get_var v ;;
  match m_ptr x with
  | Some p => mwhen (m_owner x) (delete_object p)
  | None => mret' tt
  end ;;;
  mmodify (fun h => mk_heap (delete v (vars h)) (deleted h) (fresh h)).

Definition deref (v : Z) : Hp unit :=
  x <- get_var v ;;
  h <- mget ;;
  match m_ptr x with
  | None => mub "null pointer"
  | Some p => if decide (p ∈ deleted h) then mub "deleted object" else mret' tt
  end.

Definition handle (o : op) : Hp unit :=
  match o with
  | Construct v => p <- new ;; set_var v (mk_ptr true (Some p))
  | CopyConstruct v w => copy_construct v w
  | AssignNew v => assign_new v
  | AssignPtr v w => assign_ptr v w
  | Deref v => deref v
  | Destroy v => destroy v
  end.

Definition run (l : list op) : Hp unit := mfor l handle.

Definition owns (h : heap) (v p : Z) : Prop := vars h !! v = Some (mk_ptr true (Some p)).

Definition is_owner (h : heap) (v : Z) : bool :=
  match vars h !! v with Some (mk_ptr true (Some _)) => true | _ => false end.

Definition defined (h : heap) (v : Z) : bool := match vars h !! v with Some _ => true | None => false end.

(** Names are declared once at a time; a copy is taken of an owner, and an owner is
    what is used. *)
Definition careful (o : op) (h : heap) : bool :=
  match o with
  | Construct v => negb (defined h v)
  | CopyConstruct v w => negb (defined h v) && is_owner h w
  | AssignNew v => defined h v && negb (is_owner h v)
  | AssignPtr _ _ => false
  | Deref v => is_owner h v
  | Destroy v => defined h v
  end.

Definition run_careful (l : list op) : Hp unit :=
  mfor l (fun o => h <- mget ;; if careful o h then handle o else mret' tt).

(** [auto_array_ptr], for which the compiler generates a copy: no owner is kept. *)
Definition auto_array_destroy (p : Z) : Hp unit := delete_object p.

(** [safe_delete (p)]. *)
Definition safe_delete (p : option Z) : Hp (option Z) :=
  match p with Some q => delete_object q ;;; mret' None | None => mret' None end.

End SmartPtr.

Import SmartPtr.

(** Every object not deleted has one owner. *)
Record owned (h : heap) (tr : list SmartPtr.effect) : Prop := {
  o_one : forall v w p, owns h v p -> owns h w p -> v = w;
  o_all : forall p, 0 <= p < fresh h -> p ∈ deleted h \/ exists v, owns h v p;
  o_live : forall v p, owns h v p -> 0 <= p < fresh h /\ p ∉ deleted h;
  o_deleted : forall p, p ∈ deleted h <-> Delete p ∈ tr;
  o_fresh : forall p, p ∈ deleted h -> 0 <= p < fresh h;
  o_once : NoDup tr;
  o_nonneg : 0 <= fresh h
}.

Lemma is_owner_spec h v : is_owner h v = true <-> exists p, owns h v p.
Proof. unfold is_owner, owns. destruct (vars h !! v) as [[[] [p|]]|]; naive_solver. Qed.

(** A variable that owns nothing gets a new object. *)
Lemma own_new h tr v :
  is_owner h v = false -> owned h tr ->
  owned (mk_heap (<[v := mk_ptr true (Some (fresh h))]> (vars h)) (deleted h) (fresh h + 1)) tr.
Proof.
  intros Hv []. assert (Hno : forall p, ~ owns h v p).
  { intros p Hp. assert (is_owner h v = true) by (apply is_owner_spec; eauto). congruence. }
  assert (Ho : forall w p, owns (mk_heap (<[v := mk_ptr true (Some (fresh h))]> (vars h)) (deleted h) (fresh h + 1)) w p <->
    (w = v /\ p = fresh h) \/ (w <> v /\ owns h w p)).
  { intros w p. unfold owns. cbn. destruct (decide (w = v)) as [->|].
    - rewrite lookup_insert_eq. naive_solver.
    - rewrite lookup_insert_ne by done. naive_solver. }
  constructor; cbn; auto; try lia.
  - intros w1 w2 p [[-> ->]|[_ H1]]%Ho [[-> H2]|[_ H2]]%Ho; try done; [| |by eapply o_one0].
    + destruct (o_live0 _ _ H2). lia.
    + subst p. destruct (o_live0 _ _ H1). lia.
  - intros p Hp. destruct (decide (p = fresh h)) as [->|]; [right; exists v; apply Ho; auto|].
    destruct (o_all0 p ltac:(lia)) as [?|[w Hw]]; [by left|]. right. exists w. apply Ho. right. split; [|done].
    intros ->. by apply (Hno p).
  - intros w p [[-> ->]|[_ H1]]%Ho; [|destruct (o_live0 _ _ H1); split; [lia|done]].
    split; [lia|]. intros Hd%o_fresh0. lia.
  - intros p Hp. specialize (o_fresh0 p Hp). lia.
Qed.

(** Ownership goes to a variable that did not exist. *)
Lemma own_copy h tr v w p :
  vars h !! v = None -> owns h w p -> owned h tr ->
  owned (mk_heap (<[w := mk_ptr false (Some p)]> (<[v := mk_ptr true (Some p)]> (vars h))) (deleted h) (fresh h)) tr.
Proof.
  intros Hv Hw []. assert (Hne : v <> w) by (intros ->; unfold owns in Hw; congruence).
  assert (Ho : forall u q, owns (mk_heap (<[w := mk_ptr false (Some p)]> (<[v := mk_ptr true (Some p)]> (vars h))) (deleted h) (fresh h)) u q <->
    (u = v /\ q = p) \/ (u <> v /\ u <> w /\ owns h u q)).
  { intros u q. unfold owns. cbn. destruct (decide (u = w)) as [->|].
    - rewrite lookup_insert_eq. naive_solver.
    - rewrite lookup_insert_ne by done. destruct (decide (u = v)) as [->|].
      + rewrite lookup_insert_eq. naive_solver.
      + rewrite lookup_insert_ne by done. naive_solver. }
  constructor; cbn; auto.
  - intros u1 u2 q [[-> ->]|(_ & Hn & H1)]%Ho [[-> H2]|(_ & Hn2 & H2)]%Ho; try done; [| |by eapply o_one0].
    + destruct Hn2. by eapply o_one0.
    + subst q. destruct Hn. by eapply o_one0.
  - intros q Hq. destruct (o_all0 q Hq) as [?|[u Hu]]; [by left|]. right. destruct (decide (u = w)) as [->|].
    + exists v. apply Ho. left. unfold owns in *. by split; [|congruence].
    + exists u. apply Ho. right. split_and!; [|done|done]. intros ->. unfold owns in Hu. congruence.
  - intros u q [[-> ->]|(_ & _ & H1)]%Ho; eauto.
Qed.

(** A variable goes, and with it the object it owns. *)
Lemma own_destroy h tr v p :
  owns h v p -> owned h tr ->
  owned (mk_heap (delete v (vars h)) ({[p]} ∪ deleted h) (fresh h)) (tr ++ [Delete p]).
Proof.
  intros Hv []. destruct (o_live0 _ _ Hv) as [Hp Hd].
  assert (Ho : forall u q, owns (mk_heap (delete v (vars h)) ({[p]} ∪ deleted h) (fresh h)) u q <-> u <> v /\ owns h u q).
  { intros u q. unfold owns. cbn. rewrite lookup_delete_Some. naive_solver. }
  constructor; cbn; auto.
  - intros u1 u2 q [_ H1]%Ho [_ H2]%Ho. by eapply o_one0.
  - intros q Hq. destruct (o_all0 q Hq) as [?|[u Hu]]; [left; set_solver|]. destruct (decide (u = v)) as [->|].
    + left. unfold owns in *. assert (q = p) as -> by congruence. set_solver.
    + right. exists u. by apply Ho.
  - intros u q [Hn H1]%Ho. destruct (o_live0 _ _ H1). split; [done|]. intros [->%elem_of_singleton|?]%elem_of_union; [|done].
    destruct Hn. by eapply o_one0.
  - intros q. rewrite elem_of_union, elem_of_singleton, elem_of_app, list_elem_of_singleton, o_deleted0. naive_solver.
  - intros q [->%elem_of_singleton|?]%elem_of_union; auto.
  - apply NoDup_app. split_and!; [done| |apply NoDup_singleton].
    intros e He ->%list_elem_of_singleton. by apply Hd, o_deleted0.
Qed.

(** ... or it owned nothing. *)
Lemma own_forget h tr v :
  is_owner h v = false -> owned h tr -> owned (mk_heap (delete v (vars h)) (deleted h) (fresh h)) tr.
Proof.
  intros Hv []. assert (Ho : forall u q, owns (mk_heap (delete v (vars h)) (deleted h) (fresh h)) u q <-> owns h u q).
  { intros u q. unfold owns. cbn. rewrite lookup_delete_Some. split; [naive_solver|]. intros Hu. split; [|done]. intros ->.
    assert (is_owner h u = true) by (apply is_owner_spec; eauto). congruence. }
  constructor; cbn; auto.
  - intros u1 u2 q H1%Ho H2%Ho. by eapply o_one0.
  - intros q Hq. destruct (o_all0 q Hq) as [?|[u Hu]]; [by left|right; exists u; by apply Ho].
  - intros u q H1%Ho. eauto.
Qed.

Lemma careful_wp o h tr :
  careful o h = true -> owned h tr -> wp (SmartPtr.handle o) (fun _ h' e => owned h' (tr ++ e)) h.
Proof.
  intros Hc Ho. assert (Hget : forall v x (k : smart_ptr -> Hp unit) Q, vars h !! v = Some x ->
    wp (k x) Q h -> wp (mbind' (get_var v) k) Q h).
  { intros v x k Q Hx HQ. unfold run_post, mbind', get_var, mbind', mget in *. rewrite Hx. cbn.
    by destruct (k x h) as [[[[] ?] ?]|]. }
  destruct o as [v|v w|v|v w|v|v]; cbn [SmartPtr.handle careful] in *.
  - unfold new, set_var. wp_steps. rewrite app_nil_r. cbn [vars deleted fresh]. apply own_new; [|done].
    unfold is_owner, defined in *. by destruct (vars h !! v).
  - apply andb_true_iff in Hc as [Hv [p Hp]%is_owner_spec]. unfold copy_construct. eapply Hget; [exact Hp|].
    unfold set_var. wp_steps. rewrite app_nil_r. cbn [vars deleted fresh]. apply own_copy; [|done|done].
    unfold defined in Hv. by destruct (vars h !! v).
  - apply andb_true_iff in Hc as [Hv Hn%negb_true_iff]. unfold defined in Hv. destruct (vars h !! v) as [x|] eqn:Hx; [|done].
    unfold assign_new. eapply Hget; [exact Hx|]. unfold new, set_var. wp_steps. rewrite app_nil_r. cbn [vars deleted fresh]. by apply own_new.
  - done.
  - apply is_owner_spec in Hc as [p Hp]. unfold deref. eapply Hget; [exact Hp|]. wp_steps. cbn.
    rewrite decide_False by apply (o_live _ _ Ho _ _ Hp). wp_steps. by rewrite app_nil_r.
  - unfold defined in Hc. destruct (vars h !! v) as [[b p]|] eqn:Hx; [|done]. unfold destroy. eapply Hget; [exact Hx|].
    destruct (is_owner h v) eqn:Hi.
    + apply is_owner_spec in Hi as [q Hq]. unfold owns in Hq. rewrite Hx in Hq. injection Hq as -> ->. cbn [m_ptr SmartPtr.m_owner mwhen].
      unfold delete_object. wp_steps. rewrite decide_False by (apply (o_live _ _ Ho v q Hx)). wp_steps. cbn [vars deleted fresh]. by apply own_destroy.
    + assert (Hn : match p with Some q => mwhen b (delete_object q) | None => mret' tt end = mret' tt).
      { unfold is_owner in Hi. rewrite Hx in Hi. by destruct p, b. }
      cbn [m_ptr SmartPtr.m_owner]. rewrite Hn. wp_steps. rewrite app_nil_r. by apply own_forget.
Qed.

(** [smart_ptr] deletes every object once.  In a program that copies only owners
    (and does not use the assignment between smart pointers, which returns nothing)
    no object is deleted twice or used after its deletion, each object created has
    been deleted or has exactly one owner that will delete it, and none is lost. *)
Theorem smart_ptr_deletes_once l :
  exists h o, run_careful l SmartPtr.start = Ret (tt, h, o) /\ NoDup o /\
    forall p, 0 <= p < fresh h ->
      (Delete p ∈ o /\ forall v, ~ owns h v p) \/ (Delete p ∉ o /\ exists v, owns h v p /\ forall w, owns h w p -> w = v).
Proof.
  assert (H0 : owned SmartPtr.start []).
  { constructor; cbn; try done; try (intros; lia); try set_solver; try apply NoDup_nil_2; unfold owns; cbn;
      intros; rewrite ?lookup_empty in *; done. }
  pose proof (wp_for False owned l (fun o => h <- mget ;; if careful o h then SmartPtr.handle o else mret' tt) SmartPtr.start [] H0) as Hw.
  destruct (wp_run (run_careful l) (fun _ h e => owned h e) SmartPtr.start) as ([] & h & o & Hr & Ho).
  { apply Hw. intros o h tr _ Hh. wp_steps. destruct (careful o h) eqn:Hc; [by apply careful_wp|]. wp_steps. by rewrite app_nil_r. }
  exists h, o. split; [done|]. split; [apply (o_once _ _ Ho)|]. intros p Hp.
  destruct (decide (p ∈ deleted h)) as [Hd|Hd].
  - left. split; [by apply (o_deleted _ _ Ho)|]. intros v Hv. by apply (o_live _ _ Ho v p Hv).
  - right. destruct (o_all _ _ Ho p Hp) as [?|[v Hv]]; [done|]. split; [by intros ?%(o_deleted _ _ Ho)|].
    exists v. split; [done|]. intros w Hw'. by eapply (o_one _ _ Ho).
Qed.

(** A copy of a pointer that has given its object away owns it again: the object is
    deleted twice. *)
Lemma second_copy_deletes_twice :
  SmartPtr.run [Construct 1; CopyConstruct 2 1; CopyConstruct 3 1; SmartPtr.Destroy 3; SmartPtr.Destroy 2] SmartPtr.start
  = UB "delete: twice".
Proof. reflexivity. Qed.

(** The pointer that gave its object away still points to it when it is gone. *)
Lemma former_owner_dangles :
  SmartPtr.run [Construct 1; CopyConstruct 2 1; SmartPtr.Destroy 2; Deref 1] SmartPtr.start = UB "deleted object".
Proof. reflexivity. Qed.

(** An assignment to an owner loses its object. *)
Lemma assignment_leaks :
  match SmartPtr.run [Construct 1; AssignNew 1; SmartPtr.Destroy 1] SmartPtr.start with
  | Ret (_, h, o) => o = [Delete 1] /\ fresh h = 2 /\ vars h = ∅
  | UB _ => False
  end.
Proof. vm_compute. by split_and!. Qed.
