(* ===== verification/UpdateObject.v ===== *)
(** [common/update_object.h]: an object's values as an array of 32-bit words, read
    and written at several widths, with a mask of the words that have changed.

    [mask_update.h] and [common_helper.h] are not in the repository: the mask is an
    interface ([UpdateMask]) and the functions of [CheckFlag] are arguments. *)

From S2P Require Import Prelude.
From stdpp Require Import prelude gmap strings list.
#[local] Open Scope Z_scope.

(** What the object relies on of [UpdateMask]: a set of bits. *)
Class UpdateMask (mask : Type) : Type := {
  no_bits : Z -> mask;
  setBit : Z -> mask -> mask;
  setAll : mask -> mask;
  getBit : Z -> mask -> bool
}.

Class UpdateMaskLaws (mask : Type) `{UpdateMask mask} : Prop := {
  getBit_setBit : forall i m, getBit i (setBit i m) = true;
  getBit_setBit_mono : forall i j m, getBit j m = true -> getBit j (setBit i m) = true;
  getBit_setAll : forall i m, getBit i (setAll m) = true
}.

Module UpdateObject.

(** [U16_FILE_INDEX], [U8_FILE_INDEX]. *)
Inductive u16_field : Set := _FILED_UINT16_0 | _FILED_UINT16_1.
Inductive u8_field : Set := _FILED_UINT8_0 | _FILED_UINT8_1 | _FILED_UINT8_2 | _FILED_UINT8_3.

Section object.
Context {mask : Type} `{UpdateMask mask}.

(** [CheckFlag::addFlag], [addFlags], [removeFlag], [removeFlags], [hasFlag]. *)
Record CheckFlag : Type := {
  addFlag : Z -> Z -> Z;
  addFlags : Z -> Z -> Z;
  removeFlag : Z -> Z -> Z;
  removeFlags : Z -> Z -> Z;
  hasFlag : Z -> Z -> bool
}.
Context (cf : CheckFlag).

(** [_UValues] has [_UVCount] words. *)
Record object : Type := mk_object { _UValues : list Z; _UpdateMask : mask }.

Abbreviation U := (M object unit).

(** The constructor clears the values it is given. *)
Definition construct (nValusCount : Z) : object :=
  mk_object (replicate (Z.to_nat nValusCount) 0) (no_bits nValusCount).

Definition _UVCount (o : object) : Z := Z.of_nat (length (_UValues o)).

(** [_UValues[index]]; a failed [assert] ends the process, and is an access out of
    range where asserts are compiled out. *)
Definition word (index : Z) : U Z :=
  o <- mget ;;
  match _UValues o !! Z.to_nat index with
  | Some v => if (0 <=? index) then mret' v else mub "assert (index < _UVCount)"
  | None => mub "assert (index < _UVCount)"
  end.

Definition put_word (index v : Z) : U unit :=
  mmodify (fun o => mk_object (<[Z.to_nat index := v]> (_UValues o)) (_UpdateMask o)).

Definition mark (index : Z) : U unit :=
  mmodify (fun o => mk_object (_UValues o) (setBit index (_UpdateMask o))).

Definition getU32Value (index : Z) : U Z := word index.

Definition setU32Value (index v : Z) : U unit :=
  old <- word index ;;
  if old =? v then mret' tt else put_word index v ;;; mark index.

Definition getS32Value (index : Z) : U Z := v <- word index ;; mret' (s32 v).

(** The word read and written as an [s32]. *)
Definition setS32Value (index v : Z) : U unit :=
  old <- word index ;;
  if s32 old =? v then mret' tt else put_word index (u32 v) ;;; mark index.

(** The new value stays in the local [nLastValue]; [&nLastValue + sizeof (u16)] is
    two words past it. *)
Definition setU16Value (index v : Z) (filed : u16_field) : U unit :=
  old <- word index ;;
  match filed with
  | _FILED_UINT16_0 =>
      let nLastValue := Z.lor (Z.land old 0xffff0000) (u16 v) in
      if nLastValue =? old then mret' tt else mark index
  | _FILED_UINT16_1 => mub "memcpy past nLastValue"
  end.

Definition getU16Value (index : Z) (filed : u16_field) : U Z :=
  v <- word index ;;
  mret' (match filed with
         | _FILED_UINT16_1 => Z.land v 0xffff
         | _FILED_UINT16_0 => Z.land (Z.shiftr v 16) 0xffff
         end).

Definition setU8Value (index v : Z) (filed : u8_field) : U unit :=
  old <- word index ;;
  let n32v := u8 v in
  let w :=
    match filed with
    | _FILED_UINT8_0 => u32 (u32 (Z.shiftl n32v 24) + Z.land old 0x0fff)
    | _FILED_UINT8_1 => u32 (u32 (Z.shiftl n32v 16) + Z.land old 0xf0ff)
    | _FILED_UINT8_2 => u32 (u32 (Z.shiftl n32v 8) + Z.land old 0xff0f)
    | _FILED_UINT8_3 => u32 (n32v + Z.land old 0xfff0)
    end in
  put_word index w ;;;
  if old =? w then mret' tt else mark index.

Definition getU8Value (index : Z) (filed : u8_field) : U Z :=
  v <- word index ;;
  mret' (match filed with
         | _FILED_UINT8_0 => Z.land (Z.shiftr (Z.land v 0xf000) 24) 0xff
         | _FILED_UINT8_1 => Z.land (Z.shiftr (Z.land v 0x0f00) 16) 0xff
         | _FILED_UINT8_2 => Z.land (Z.shiftr (Z.land v 0x00f0) 8) 0xff
         | _FILED_UINT8_3 => Z.land (Z.land v 0x000f) 0xff
         end).

(** Its own assert asks for two words; the sum is of 64-bit numbers. *)
Definition getU64Value (index : Z) : U Z :=
  hi <- word (index + 1) ;;
  lo <- word index ;;
  mret' (u64 (lo + u64 (Z.shiftl hi 32))).

Definition setU64Value (index v : Z) : U unit :=
  old <- getU64Value index ;;
  if old =? v then mret' tt
  else
    put_word index (Z.land v 0xffffffff) ;;;
    put_word (index + 1) (Z.land (Z.shiftr v 32) 0xffffffff) ;;;
    mark index ;;; mark (index + 1).

(** The four functions that change flags: the word, then its bit, always. *)
Definition change_flags (f : Z -> Z -> Z) (index flag : Z) : U unit :=
  v <- word index ;; put_word index (f v flag) ;;; mark index.

Definition setU32Flag (index flag : Z) : U unit := change_flags (addFlag cf) index flag.
Definition setU32Flags (index flag : Z) : U unit := change_flags (addFlags cf) index flag.
Definition removeU32Flag (index flag : Z) : U unit := change_flags (removeFlag cf) index flag.
Definition removeU32Flags (index flag : Z) : U unit := change_flags (removeFlags cf) index flag.
Definition hasU32Flag (index flag : Z) : U bool := v <- word index ;; mret' (hasFlag cf v flag).

Definition setUpdateMaskAll : U unit := mmodify (fun o => mk_object (_UValues o) (setAll (_UpdateMask o))).

Inductive op : Type :=
| SetU32 (index v : Z)
| SetS32 (index v : Z)
| SetU16 (index v : Z) (f : u16_field)
| SetU8 (index v : Z) (f : u8_field)
| SetU64 (index v : Z)
| SetFlag (index flag : Z)
| SetFlags (index flag : Z)
| RemoveFlag (index flag : Z)
| RemoveFlags (index flag : Z)
| MaskAll.

Definition handle (x : op) : U unit :=
  match x with
  | SetU32 i v => setU32Value i v
  | SetS32 i v => setS32Value i v
  | SetU16 i v f => setU16Value i v f
  | SetU8 i v f => setU8Value i v f
  | SetU64 i v => setU64Value i v
  | SetFlag i f => setU32Flag i f
  | SetFlags i f => setU32Flags i f
  | RemoveFlag i f => removeU32Flag i f
  | RemoveFlags i f => removeU32Flags i f
  | MaskAll => setUpdateMaskAll
  end.

Definition run (l : list op) : U unit := mfor l handle.

(** The operations that stay inside the array and the local variables. *)
Definition inside (count : Z) (x : op) : bool :=
  match x with
  | SetU32 i _ | SetS32 i _ | SetU8 i _ _ | SetFlag i _ | SetFlags i _ | RemoveFlag i _ | RemoveFlags i _
  | SetU16 i _ _FILED_UINT16_0 => (0 <=? i) && (i <? count)
  | SetU16 _ _ _FILED_UINT16_1 => false
  | SetU64 i _ => (0 <=? i) && (i + 1 <? count)
  | MaskAll => true
  end.

(** A replica brought up to date with the words that are marked. *)
Definition apply_updates (o : object) (replica : list Z) : list Z :=
  zip_with (fun i '(new, old) => if getBit (Z.of_nat i) (_UpdateMask o) then new else old)
    (seq 0 (length (_UValues o))) (zip (_UValues o) replica).

End object.
Arguments object : clear implicits.
Arguments CheckFlag : clear implicits.

End UpdateObject.
Import UpdateObject.

(** ** Lemmas *)

Lemma word_wp {mask : Type} (index : Z) (o : object mask) (Q : Z -> object mask -> list unit -> Prop) :
  0 <= index < _UVCount o ->
  (forall v, _UValues o !! Z.to_nat index = Some v -> Q v o []) -> wp (word index) Q o.
Proof.
  unfold _UVCount. intros Hi HQ. unfold word. wp_steps.
  destruct (_UValues o !! Z.to_nat index) as [v|] eqn:Hv.
  - rewrite (proj2 (Z.leb_le 0 index)) by lia. wp_steps. by apply HQ.
  - apply lookup_ge_None in Hv. lia.
Qed.

(** The steps of an operation: a word in range, then the branches. *)
Ltac update_steps :=
  unfold setU32Value, setS32Value, setU16Value, setU8Value, setU64Value, getU64Value, setU32Flag, setU32Flags,
    removeU32Flag, removeU32Flags, change_flags, setUpdateMaskAll, put_word, mark;
  repeat (progress wp_steps ||
    lazymatch goal with
    | |- run_post _ (word _) _ _ => apply word_wp; [unfold _UVCount in *; cbn in *; rewrite ?length_insert; lia|intros ? ?]
    | |- run_post _ (if ?b then _ else _) _ _ => destruct b eqn:?
    end); cbn [app _UValues _UpdateMask].

Section laws.
Context {mask : Type} `{UpdateMaskLaws mask} (cf : CheckFlag).

(** From [o] to [o']: what is not marked has not changed, marks stay. *)
Record tracked (o o' : object mask) : Prop := {
  k_length : _UVCount o' = _UVCount o;
  k_marks : forall i, getBit i (_UpdateMask o) = true -> getBit i (_UpdateMask o') = true;
  k_values : forall i, getBit (Z.of_nat i) (_UpdateMask o') = false -> _UValues o' !! i = _UValues o !! i
}.

Lemma tracked_refl o : tracked o o.
Proof. by constructor. Qed.

Lemma tracked_trans o1 o2 o3 : tracked o1 o2 -> tracked o2 o3 -> tracked o1 o3.
Proof.
  intros [a1 a2 a3] [b1 b2 b3]. constructor; [congruence|auto|].
  intros i Hi. rewrite (b3 i Hi). apply a3. destruct (getBit _ (_UpdateMask o2)) eqn:Hg; [|done].
  apply b2 in Hg. congruence.
Qed.

Lemma tracked_mark o i : tracked o (mk_object (_UValues o) (setBit i (_UpdateMask o))).
Proof. constructor; cbn; [done|intros j; apply getBit_setBit_mono|done]. Qed.

(** A word written and marked. *)
Lemma tracked_put o i v :
  0 <= i -> tracked o (mk_object (<[Z.to_nat i := v]> (_UValues o)) (setBit i (_UpdateMask o))).
Proof.
  intros Hi. constructor; cbn; [unfold _UVCount; cbn; by rewrite length_insert|intros j; apply getBit_setBit_mono|].
  intros j Hj. rewrite list_lookup_insert_ne; [done|]. intros <-.
  rewrite Z2Nat.id, getBit_setBit in Hj by done. done.
Qed.

(** A word written with the value it had. *)
Lemma tracked_same o i v :
  _UValues o !! Z.to_nat i = Some v -> tracked o (mk_object (<[Z.to_nat i := v]> (_UValues o)) (_UpdateMask o)).
Proof. intros Hv. rewrite list_insert_id by done. destruct o. apply tracked_refl. Qed.

Lemma update_handle_wp x (o : object mask) :
  inside (_UVCount o) x = true -> wp (UpdateObject.handle cf x) (fun _ o' _ => tracked o o') o.
Proof.
  intros Hin.
  destruct x as [i v|i v|i v f|i v f|i v|i f|i f|i f|i f|]; cbn [inside UpdateObject.handle] in *;
    try (destruct f; [|done]); try (apply andb_true_iff in Hin as [H1%Z.leb_le H2%Z.ltb_lt]);
    update_steps; try apply tracked_refl; try apply tracked_mark; try (by apply tracked_put).
  - apply Z.eqb_eq in Heqb. rewrite <- Heqb. by apply tracked_same.
  - eapply tracked_trans; [by apply tracked_put|]. eapply (tracked_put (mk_object _ _)). lia.
  - constructor; cbn [_UValues _UpdateMask]; [done|intros; apply getBit_setAll|done].
Qed.

(** A replica holds what the object holds where nothing is marked. *)
Definition replica_of (o : object mask) (r : list Z) : Prop :=
  Z.of_nat (length r) = _UVCount o /\
  forall i, getBit (Z.of_nat i) (_UpdateMask o) = false -> r !! i = _UValues o !! i.

Lemma tracked_replica o o' r : tracked o o' -> replica_of o r -> replica_of o' r.
Proof.
  intros [Hl Hm Hv] [Hr Hi]. split; [congruence|]. intros i Hg. rewrite (Hv i Hg). apply Hi.
  destruct (getBit _ (_UpdateMask o)) eqn:E; [|done]. apply Hm in E. congruence.
Qed.

Lemma apply_replica o r : replica_of o r -> apply_updates o r = _UValues o.
Proof.
  intros [Hl Hv]. apply list_eq. intros i. unfold apply_updates.
  rewrite lookup_zip_with, lookup_zip_with. destruct (decide (i < length (_UValues o))%nat) as [Hlt|Hge].
  - unfold _UVCount in Hl. rewrite lookup_seq_lt by done. destruct (lookup_lt_is_Some_2 (_UValues o) i) as [v Hi]; [done|].
    destruct (lookup_lt_is_Some_2 r i) as [w Hw]; [lia|]. rewrite Hi, Hw. cbn.
    destruct (getBit (Z.of_nat i) (_UpdateMask o)) eqn:Hg; [done|]. rewrite <- Hi, <- Hw. by apply Hv.
  - rewrite lookup_seq_ge by lia. cbn. symmetry. apply lookup_ge_None. lia.
Qed.

Lemma update_run_wp l (o : object mask) :
  forallb (inside (_UVCount o)) l = true -> wp (UpdateObject.run cf l) (fun _ o' _ => tracked o o') o.
Proof.
  intros Hl. eapply (wp_for False (fun o' _ => tracked o o') l _ o []); [apply tracked_refl|].
  intros x o1 tr Hx Ht. eapply wp_mono.
  - apply update_handle_wp. rewrite (k_length _ _ Ht).
    rewrite forallb_forall in Hl. by apply Hl, list_elem_of_In.
  - intros u o2 tr2 H2. by eapply tracked_trans.
Qed.

End laws.

(** ** Properties *)


(** A mask of bits. *)
#[local] Instance bit_mask : UpdateMask (Z -> bool) := {
  no_bits _ := fun _ => false;
  setBit i m := fun j => (i =? j) || m j;
  setAll _ := fun _ => true;
  getBit i m := m i
}.

#[local] Instance bit_mask_laws : UpdateMaskLaws (Z -> bool).
Proof.
  constructor; cbn; intros; [by rewrite Z.eqb_refl| |done]. apply orb_true_iff. auto.
Qed.

Definition bit_flags : CheckFlag :=
  {| addFlag := Z.lor; addFlags := Z.lor; removeFlag := Z.ldiff; removeFlags := Z.ldiff;
     hasFlag v f := negb (Z.land v f =? 0) |}.


(** *** What is written is read back, at 32 and 64 bits *)

(** A 64-bit number from its halves. *)
Lemma halves_of v :
  is_u64 v -> u64 (Z.land v 0xffffffff + u64 (Z.shiftl (Z.land (Z.shiftr v 32) 0xffffffff) 32)) = v.
Proof.
  unfold is_u64. intros Hv. rewrite !land_0xffffffff, Z.shiftr_div_pow2, Z.shiftl_mul_pow2 by lia.
  assert (0 <= v / 2 ^ 32 < 2 ^ 32) by (split; [apply Z.div_pos; lia|apply Z.div_lt_upper_bound; lia]).
  rewrite (Z.mod_small (v / 2 ^ 32)) by lia. pose proof (Z.div_mod v (2 ^ 32) ltac:(lia)).
  pose proof (Z.mod_pos_bound v (2 ^ 32) ltac:(lia)).
  rewrite (u64_id (v / 2 ^ 32 * 2 ^ 32)) by (unfold is_u64; lia). rewrite u64_id; unfold is_u64; lia.
Qed.

Section readback.
Context {mask : Type} `{UpdateMask mask}.

(** What a reader finds in a word just written. *)
Ltac read_back :=
  repeat match goal with
  | Hr : <[?i := ?v]> ?l !! ?i = Some ?w |- _ =>
      rewrite list_lookup_insert_eq in Hr by (try rewrite length_insert; unfold _UVCount in *; lia); injection Hr as <-
  | Hr : <[?i := ?v]> ?l !! ?j = Some ?w |- _ => rewrite list_lookup_insert_ne in Hr by lia
  | H1 : ?l !! ?i = Some ?v, H2 : ?l !! ?i = Some ?w |- _ => assert (v = w) by congruence; subst w; clear H2
  | Hb : (?a =? ?b) = true |- _ => apply Z.eqb_eq in Hb
  end.

Lemma u32_set_get (o : object mask) (i v : Z) :
  0 <= i < _UVCount o -> wp (setU32Value i v ;;; getU32Value i) (fun r _ _ => r = v) o.
Proof. intros Hi. unfold getU32Value. update_steps; cbn in *; by read_back. Qed.

Lemma s32_set_get (o : object mask) (i v : Z) :
  0 <= i < _UVCount o -> is_s32 v -> wp (setS32Value i v ;;; getS32Value i) (fun r _ _ => r = v) o.
Proof.
  intros Hi Hv. unfold getS32Value. update_steps; cbn in *; read_back; try done.
  unfold s32, u32. rewrite Z.add_mod_idemp_l by lia. by apply s32_id.
Qed.

Lemma u64_set_get (o : object mask) (i v : Z) :
  0 <= i -> i + 1 < _UVCount o -> is_u64 v -> wp (setU64Value i v ;;; getU64Value i) (fun r _ _ => r = v) o.
Proof.
  intros Hi Hc Hv. update_steps; cbn in *; read_back; try done. by apply halves_of.
Qed.
End readback.

(** *** The half words and the bytes of a word *)

Section halves.
Context {mask : Type} `{UpdateMask mask}.

(** The low half is marked as changed and never stored; the high half is written past
    the local variable. *)
Lemma setU16Value_stores_nothing (o : object mask) (i v : Z) :
  0 <= i < _UVCount o ->
  wp (setU16Value i v _FILED_UINT16_0) (fun _ o' _ => _UValues o' = _UValues o) o.
Proof. intros Hi. by update_steps. Qed.

Lemma setU16Value_high_undefined (o : object mask) (i v : Z) :
  exists why, setU16Value i v _FILED_UINT16_1 o = UB why.
Proof.
  unfold setU16Value, word, mbind', mget. destruct (_UValues o !! Z.to_nat i); [destruct (0 <=? i)|]; cbn; eauto.
Qed.

(** Three of the four byte readers shift out everything their mask has kept. *)
Lemma getU8Value_zero (o : object mask) (i : Z) (f : u8_field) :
  f <> _FILED_UINT8_3 -> 0 <= i < _UVCount o -> wp (getU8Value i f) (fun r _ _ => r = 0) o.
Proof.
  intros Hf Hi. unfold getU8Value. update_steps.
  destruct f; [| | |done]; rewrite Z.shiftr_land; cbn; by rewrite Z.land_0_r.
Qed.

End halves.

(** The third byte reads back as 0; the fourth, written after the first, erases it. *)
Lemma setU8Value_not_read_back :
  exists o', (setU8Value 0 5 _FILED_UINT8_2 ;;; getU8Value 0 _FILED_UINT8_2) (construct (mask := Z -> bool) 1) =
             Ret (0, o', []) /\ _UValues o' = [0x500].
Proof. eexists. split; reflexivity. Qed.

Lemma setU8Value_erases :
  exists o', (setU8Value 0 1 _FILED_UINT8_0 ;;; setU8Value 0 2 _FILED_UINT8_3) (construct (mask := Z -> bool) 1) =
             Ret (tt, o', []) /\ _UValues o' = [2].
Proof. eexists. split; reflexivity. Qed.
