(* ===== verification/Location.v ===== *)
(** [gameserver/LocationVector.h]: a position (x, y, z) and an orientation in single
    precision.

    A [float] is an IEEE 754 binary32 number of the Standard Library's executable
    [SpecFloat], every operation rounding to nearest even as the compilers' SSE code
    does (no fused or extended intermediate results).  [atan2] is an argument. *)

From S2P Require Import Prelude.
From Stdlib Require Import Floats.SpecFloat.
From stdpp Require Import prelude.
#[local] Open Scope Z_scope.

Module Location.

(** *** Single precision *)

Definition prec : Z := 24.
Definition emax : Z := 128.

Abbreviation float := spec_float.

Definition fadd (a b : float) : float := SFadd prec emax a b.
Definition fsub (a b : float) : float := SFsub prec emax a b.
Definition fmul (a b : float) : float := SFmul prec emax a b.
Definition fdiv (a b : float) : float := SFdiv prec emax a b.
Definition sqrtf (a : float) : float := SFsqrt prec emax a.
Definition feq (a b : float) : bool := SFeqb a b.

(** The [float] of an integer. *)
Definition of_Z (n : Z) : float := binary_normalize prec emax n 0 false.

(** *** [LocationVector] *)

Record LocationVector : Type := mk_location { x : float; y : float; z : float; o : float }.

Definition construct3 (X Y Z : float) : LocationVector := mk_location X Y Z (of_Z 0).
Definition construct0 : LocationVector := mk_location (of_Z 0) (of_Z 0) (of_Z 0) (of_Z 0).

Definition Center (this target : LocationVector) : LocationVector :=
  mk_location (fadd (x this) (fdiv (fsub (x target) (x this)) (of_Z 2)))
    (fadd (y this) (fdiv (fsub (y target) (y this)) (of_Z 2)))
    (fadd (z this) (fdiv (fsub (z target) (z this)) (of_Z 2))) (o this).

(** The sums are left to right. *)
Definition DistanceSq3 (this : LocationVector) (X Y Z : float) : float :=
  let delta_x := fsub X (x this) in
  let delta_y := fsub Y (y this) in
  let delta_z := fsub Z (z this) in
  fadd (fadd (fmul delta_x delta_x) (fmul delta_y delta_y)) (fmul delta_z delta_z).

Definition DistanceSq (this comp : LocationVector) : float := DistanceSq3 this (x comp) (y comp) (z comp).
Definition Distance3 (this : LocationVector) (X Y Z : float) : float := sqrtf (DistanceSq3 this X Y Z).
Definition Distance (this comp : LocationVector) : float := sqrtf (DistanceSq this comp).

Definition Distance2DSq2 (this : LocationVector) (X Y : float) : float :=
  let delta_x := fsub X (x this) in
  let delta_y := fsub Y (y this) in
  fadd (fmul delta_x delta_x) (fmul delta_y delta_y).

Definition Distance2DSq (this comp : LocationVector) : float := Distance2DSq2 this (x comp) (y comp).
Definition Distance2D2 (this : LocationVector) (X Y : float) : float := sqrtf (Distance2DSq2 this X Y).
Definition Distance2D (this comp : LocationVector) : float := sqrtf (Distance2DSq this comp).

Section angles.
Context (atan2 : float -> float -> float).

Definition CalcAngTo (this dest : LocationVector) : float :=
  let dx := fsub (x dest) (x this) in
  let dy := fsub (y dest) (y this) in
  if negb (feq dy (of_Z 0)) then atan2 dy dx else of_Z 0.

Definition CalcAngFrom (this src : LocationVector) : float :=
  let dx := fsub (x this) (x src) in
  let dy := fsub (y this) (y src) in
  if negb (feq dy (of_Z 0)) then atan2 dy dx else of_Z 0.

End angles.

Definition ChangeCoords4 (this : LocationVector) (X Y Z O : float) : LocationVector := mk_location X Y Z O.
Definition ChangeCoords3 (this : LocationVector) (X Y Z : float) : LocationVector := mk_location X Y Z (o this).

Definition add_assign (this add : LocationVector) : LocationVector :=
  mk_location (fadd (x this) (x add)) (fadd (y this) (y add)) (fadd (z this) (z add)) (fadd (o this) (o add)).

Definition sub_assign (this sub : LocationVector) : LocationVector :=
  mk_location (fsub (x this) (x sub)) (fsub (y this) (y sub)) (fsub (z this) (z sub)) (fsub (o this) (o sub)).

Definition assign (this eq : LocationVector) : LocationVector := mk_location (x eq) (y eq) (z eq) (o eq).

(** The orientation is not compared. *)
Definition equal (this eq : LocationVector) : bool := feq (x eq) (x this) && feq (y eq) (y this) && feq (z eq) (z this).

End Location.
Import Location.

(** ** Lemmas *)

(** Opposite numbers, two zeros of any sign or two NaNs. *)
Definition opposite (a b : float) : Prop :=
  match a, b with
  | S754_zero _, S754_zero _ | S754_nan, S754_nan => True
  | S754_infinity s, S754_infinity t => t = negb s
  | S754_finite s m e, S754_finite t m' e' => t = negb s /\ m = m' /\ e = e'
  | _, _ => False
  end.

Lemma binary_round_aux_opp s m e l :
  opposite (binary_round_aux prec emax s m e l) (binary_round_aux prec emax (negb s) m e l).
Proof.
  unfold binary_round_aux. destruct (shr_fexp prec emax m e l) as [r1 e1].
  destruct (shr_fexp prec emax _ e1 loc_Exact) as [r2 e2].
  destruct (shr_m r2) as [|q|q]; cbn; [done| |done]. by destruct (Z.leb e2 (emax - prec)).
Qed.

Lemma binary_normalize_opp m e : opposite (binary_normalize prec emax m e false) (binary_normalize prec emax (- m) e false).
Proof.
  destruct m as [|p|p]; [done|change (- Z.pos p) with (Z.neg p)|change (- Z.neg p) with (Z.pos p)];
    unfold binary_normalize, binary_round; destruct (shl_align p e _) as [q f].
  - apply (binary_round_aux_opp false).
  - apply (binary_round_aux_opp true).
Qed.

Lemma opposite_sub a b : opposite (fsub a b) (fsub b a).
Proof.
  destruct a as [s|s| |s m e], b as [t|t| |t n f]; unfold fsub, SFsub; try (destruct s, t; done); try done.
  rewrite (Z.min_comm f e). set (p := cond_Zopp s _). set (q := cond_Zopp t _).
  replace (Z.sub q p) with (Z.opp (Z.sub p q)) by lia. apply binary_normalize_opp.
Qed.

(** The square of a difference does not depend on the order. *)
Lemma square_opposite a b : opposite a b -> fmul a a = fmul b b.
Proof.
  unfold fmul. destruct a as [s|s| |s m e], b as [t|t| |t n f]; cbn; try done.
  - intros _. by destruct s, t.
  - intros ->. by destruct s.
  - intros (-> & <- & <-). by destruct s.
Qed.

Lemma square_sub a b : fmul (fsub a b) (fsub a b) = fmul (fsub b a) (fsub b a).
Proof. apply square_opposite, opposite_sub. Qed.

(** No sign: a zero, a number or an infinity that is not negative, or NaN. *)
Definition unsigned (a : float) : Prop :=
  match a with S754_zero s | S754_infinity s | S754_finite s _ _ => s = false | S754_nan => True end.

Lemma binary_round_aux_unsigned m e l : unsigned (binary_round_aux prec emax false m e l).
Proof.
  unfold binary_round_aux. destruct (shr_fexp prec emax m e l) as [r1 e1].
  destruct (shr_fexp prec emax _ e1 loc_Exact) as [r2 e2].
  destruct (shr_m r2) as [|q|q]; cbn; [done| |done]. by destruct (Z.leb e2 (emax - prec)).
Qed.

Lemma binary_normalize_unsigned p e : unsigned (binary_normalize prec emax (Z.pos p) e false).
Proof.
  unfold binary_normalize, binary_round. destruct (shl_align p e _) as [q f]. apply binary_round_aux_unsigned.
Qed.

Lemma unsigned_square a : unsigned (fmul a a).
Proof.
  unfold fmul. destruct a as [s|s| |s m e]; cbn [SFmul]; rewrite ?xorb_nilpotent; try done.
  apply binary_round_aux_unsigned.
Qed.

Lemma unsigned_add a b : unsigned a -> unsigned b -> unsigned (fadd a b).
Proof.
  unfold fadd. destruct a as [s|s| |s m e], b as [t|t| |t n f]; cbn [unsigned]; intros Ha Hb; subst; try done.
  unfold SFadd, cond_Zopp. rewrite <- Pos2Z.inj_add. apply binary_normalize_unsigned.
Qed.

Lemma unsigned_sqrt a : unsigned a -> unsigned (sqrtf a).
Proof.
  unfold sqrtf. destruct a as [s|s| |s m e]; cbn [unsigned]; intros Ha; subst; try done. cbn [SFsqrt].
  destruct (SFsqrt_core_binary prec emax (Z.pos m) e) as [[q f] l]. apply binary_round_aux_unsigned.
Qed.

Lemma sub_self a : match a with S754_zero _ | S754_finite _ _ _ => fsub a a = S754_zero false | _ => fsub a a = S754_nan end.
Proof.
  destruct a as [s|s| |s m e]; try (by destruct s); [done|]. unfold fsub, SFsub. set (p := cond_Zopp s _). by replace (Z.sub p p) with 0 by lia.
Qed.

(** A coordinate that is a number. *)
Definition finite (a : float) : Prop := match a with S754_zero _ | S754_finite _ _ _ => True | _ => False end.

Lemma square_self a : finite a -> fmul (fsub a a) (fsub a a) = S754_zero false.
Proof. intros Ha. pose proof (sub_self a) as Hs. by destruct a; try done; rewrite Hs. Qed.

(** ** Properties *)

(** The distance is a symmetric function that is never negative, to the last bit: one
    way and back give the same [float] (or both NaN), in space and in the plane, and a
    position with finite coordinates is at distance 0 from itself. *)
Theorem distance_is_symmetric (a b : LocationVector) :
  DistanceSq a b = DistanceSq b a /\ Distance a b = Distance b a /\
  Distance2DSq a b = Distance2DSq b a /\ Distance2D a b = Distance2D b a /\
  unsigned (Distance a b) /\ unsigned (Distance2D a b) /\
  (finite (x a) -> finite (y a) -> finite (z a) -> Distance a a = S754_zero false).
Proof.
  assert (H3 : DistanceSq a b = DistanceSq b a).
  { unfold DistanceSq, DistanceSq3.
    by rewrite (square_sub (x b)), (square_sub (y b)), (square_sub (z b)). }
  assert (H2 : Distance2DSq a b = Distance2DSq b a).
  { unfold Distance2DSq, Distance2DSq2. by rewrite (square_sub (x b)), (square_sub (y b)). }
  split_and!; try done.
  - unfold Distance. by rewrite H3.
  - unfold Distance2D. by rewrite H2.
  - apply unsigned_sqrt, unsigned_add, unsigned_square. apply unsigned_add; apply unsigned_square.
  - apply unsigned_sqrt, unsigned_add; apply unsigned_square.
  - intros Hx Hy Hz. unfold Distance, DistanceSq, DistanceSq3. by rewrite !square_self.
Qed.

(** Looking back: the angle from [b] to [a] is [b]'s angle to [a]. *)
Lemma angle_from_is_angle_to atan2 (a b : LocationVector) : CalcAngFrom atan2 a b = CalcAngTo atan2 b a.
Proof. done. Qed.

(** A point at the same height has angle 0 on either side: the test of [dy] hides the
    half turn to a point behind. *)
Lemma no_angle_behind atan2 (a b : LocationVector) :
  feq (fsub (y b) (y a)) (of_Z 0) = true -> CalcAngTo atan2 a b = of_Z 0.
Proof. intros Hy. unfold CalcAngTo. by rewrite Hy. Qed.

Example ahead_and_behind atan2 :
  CalcAngTo atan2 construct0 (construct3 (of_Z 1) (of_Z 0) (of_Z 0)) =
  CalcAngTo atan2 construct0 (construct3 (of_Z (-1)) (of_Z 0) (of_Z 0)).
Proof. reflexivity. Qed.

(** The middle of two far points overflows, although both are numbers. *)
Example centre_overflows :
  let far := SFmax_float prec emax in
  x (Center (construct3 (SFopp far) (of_Z 0) (of_Z 0)) (construct3 far (of_Z 0) (of_Z 0))) = S754_infinity false.
Proof. vm_compute. reflexivity. Qed.

(** What is added cannot always be taken away again. *)
Example move_and_back :
  let a := construct3 (of_Z 1) (of_Z 0) (of_Z 0) in
  let far := construct3 (of_Z (2 ^ 30)) (of_Z 0) (of_Z 0) in
  x (sub_assign (add_assign a far) far) = of_Z 0.
Proof. vm_compute. reflexivity. Qed.

(** Positions that differ in where they look are equal; one with a NaN is not equal to
    itself. *)
Lemma equal_ignores_orientation a O : finite (x a) -> finite (y a) -> finite (z a) -> equal a (ChangeCoords4 a (x a) (y a) (z a) O) = true.
Proof.
  assert (Hf : forall c, finite c -> feq c c = true).
  { intros c Hc. unfold feq, SFeqb. destruct c as [s|s| |s m e]; try done. cbn.
    rewrite Z.compare_refl. change (Pos.compare_cont Eq m m) with (Pos.compare m m). rewrite Pos.compare_refl. by destruct s. }
  intros Hx Hy Hz. unfold equal. cbn. by rewrite !Hf.
Qed.
