(* ===== verification/VirtualClient.v ===== *)
(** [virtualclient/client.h/.cpp], [client_manager.h/.cpp], the list boxes of
    [virtualclientDlg.cpp] and [VirtualConfig.cpp]: the test client, which logs a
    range of accounts in at the login server, follows the answer to a gate and
    keeps its clients in the lists of those on line and off line.

    A [Client *] is a number, 0 is null; objects are never deleted.  What
    [tcp_client] does for a client is its [link]: [connect] starts a connect
    unless one is under way or there is a connection ([TcpClient.reconnect]), and
    its call-backs are the [net_event]s of [Client::update]. *)

From Stdlib Require Import Ascii String.
From S2P Require Import Prelude Text TcpClient Login LoginFlow.
From stdpp Require Import prelude gmap strings list.
#[local] Open Scope Z_scope.

Module VirtualClient.
Import Text.

Inductive client_state : Set :=
| _client_init_ | _client_wait_login_ | _client_conn_login_
| _client_wait_gate_ | _client_connet_gate_ | _client_close_.

Inductive enClientType : Set := offline_client | online_client.

(** [net_info], the fields the client uses; [_port] is 16 bits wide. *)
Record net_info : Type := mk_info { _ip : string; _port : Z }.

Inductive link : Set := Closed | Connecting | Connected.

#[global] Instance client_state_eq_dec : EqDecision client_state.
Proof. solve_decision. Defined.
#[global] Instance enClientType_eq_dec : EqDecision enClientType.
Proof. solve_decision. Defined.
#[global] Instance link_eq_dec : EqDecision link.
Proof. solve_decision. Defined.

Record Client : Type := mk_client {
  m_testIndex : Z;
  m_client_state : client_state;
  m_transid : Z;
  m_info : net_info;
  _acc : string;
  m_ready_connect_gate : bool;
  m_MoveStateEnable : bool;
  sock : link
}.

(** The process: [ClientTest], its objects, and the dialog's two list boxes. *)
Record world : Type := mk_world {
  objects : gmap Z Client;
  m_maxCount : Z;
  m_curCount : Z;
  m_onceCount : Z;
  m_onceTime : Z;
  m_Online : Z;
  m_TransCount : Z;
  m_accountBegin : Z;
  _client_init : bool;
  m_Clients : list Z;
  m_WaitReconnet : list Z;
  m_Reconns : gset Z;
  _offline_clients : gmap string Z;
  _online_clients : gmap string Z;
  t_info : net_info;
  curtime : Z;
  _list_offline : list string;
  _list_online : list string
}.

Inductive client_msg : Type :=
| LoginRequest (name pwd : string)
| LoginGame (user_account : Z).

Inductive effect : Type :=
| Connect (p : Z) (info : net_info)
| CloseSocket (p : Z)
| Send (p : Z) (m : client_msg)
| AddTimer (ms : Z)
| LogOnlines (onlines trans waiting : Z).

Abbreviation V := (M world effect).

Definition construct : world :=
  mk_world ∅ 0 0 0 1000 0 0 1 false [] [] ∅ ∅ ∅ (mk_info "10.1.1.115" 10104) 0 [] [].

(** *** Updates of one field *)

Definition set_objects (w : world) o := mk_world o (m_maxCount w) (m_curCount w) (m_onceCount w) (m_onceTime w)
  (m_Online w) (m_TransCount w) (m_accountBegin w) (_client_init w) (m_Clients w) (m_WaitReconnet w) (m_Reconns w)
  (_offline_clients w) (_online_clients w) (t_info w) (curtime w) (_list_offline w) (_list_online w).
Definition set_counts (w : world) mx cur on tr := mk_world (objects w) mx cur (m_onceCount w) (m_onceTime w)
  on tr (m_accountBegin w) (_client_init w) (m_Clients w) (m_WaitReconnet w) (m_Reconns w)
  (_offline_clients w) (_online_clients w) (t_info w) (curtime w) (_list_offline w) (_list_online w).
Definition set_config (w : world) oc ot i := mk_world (objects w) (m_maxCount w) (m_curCount w) oc ot
  (m_Online w) (m_TransCount w) (m_accountBegin w) (_client_init w) (m_Clients w) (m_WaitReconnet w) (m_Reconns w)
  (_offline_clients w) (_online_clients w) i (curtime w) (_list_offline w) (_list_online w).
Definition set_start (w : world) begin init := mk_world (objects w) (m_maxCount w) (m_curCount w) (m_onceCount w)
  (m_onceTime w) (m_Online w) (m_TransCount w) begin init (m_Clients w) (m_WaitReconnet w) (m_Reconns w)
  (_offline_clients w) (_online_clients w) (t_info w) (curtime w) (_list_offline w) (_list_online w).
Definition set_queues (w : world) cl wt rc := mk_world (objects w) (m_maxCount w) (m_curCount w) (m_onceCount w)
  (m_onceTime w) (m_Online w) (m_TransCount w) (m_accountBegin w) (_client_init w) cl wt rc
  (_offline_clients w) (_online_clients w) (t_info w) (curtime w) (_list_offline w) (_list_online w).
Definition set_lists (w : world) off on loff lon := mk_world (objects w) (m_maxCount w) (m_curCount w) (m_onceCount w)
  (m_onceTime w) (m_Online w) (m_TransCount w) (m_accountBegin w) (_client_init w) (m_Clients w) (m_WaitReconnet w)
  (m_Reconns w) off on (t_info w) (curtime w) loff lon.
Definition set_curtime (w : world) t := mk_world (objects w) (m_maxCount w) (m_curCount w) (m_onceCount w)
  (m_onceTime w) (m_Online w) (m_TransCount w) (m_accountBegin w) (_client_init w) (m_Clients w) (m_WaitReconnet w)
  (m_Reconns w) (_offline_clients w) (_online_clients w) (t_info w) t (_list_offline w) (_list_online w).

Definition client_of (p : Z) : V Client :=
  w <- mget ;; match objects w !! p with Some c => mret' c | None => mub "Client: no object" end.
Definition put_client (p : Z) (c : Client) : V unit := mmodify (fun w => set_objects w (<[p := c]> (objects w))).

Definition with_state (c : Client) s := mk_client (m_testIndex c) s (m_transid c) (m_info c) (_acc c)
  (m_ready_connect_gate c) (m_MoveStateEnable c) (sock c).
Definition with_login (c : Client) t i r := mk_client (m_testIndex c) (m_client_state c) t i (_acc c)
  r (m_MoveStateEnable c) (sock c).
Definition with_sock (c : Client) k := mk_client (m_testIndex c) (m_client_state c) (m_transid c) (m_info c) (_acc c)
  (m_ready_connect_gate c) (m_MoveStateEnable c) k.

(** *** [CvirtualclientDlg] *)

(** Deletes the first string equal to [s]. *)
Fixpoint delete_string (l : list string) (s : string) : list string :=
  match l with
  | [] => []
  | t :: l' => if decide (t = s) then l' else t :: delete_string l' s
  end.

Definition modify_box (l : list string) (s : string) (add : bool) : list string :=
  if add then l ++ [s] else delete_string l s.

Definition ClientListModify (sztemp : string) (en : enClientType) (add : bool) : V unit :=
  mmodify (fun w =>
    match en with
    | offline_client => set_lists w (_offline_clients w) (_online_clients w) (modify_box (_list_offline w) sztemp add) (_list_online w)
    | online_client => set_lists w (_offline_clients w) (_online_clients w) (_list_offline w) (modify_box (_list_online w) sztemp add)
    end).

(** *** [ClientTest]: the tables *)

Definition addToReconn (p : Z) : V unit :=
  mmodify (fun w => set_queues w (m_Clients w) (m_WaitReconnet w ++ [p]) (m_Reconns w)).

Definition removeFromReconn (p : Z) : V unit :=
  mmodify (fun w => set_queues w (m_Clients w) (m_WaitReconnet w) (m_Reconns w ∖ {[ p ]})).

Definition erase_offline (acc : string) : V unit :=
  w <- mget ;;
  match _offline_clients w !! acc with
  | Some _ =>
      mput (set_lists w (delete acc (_offline_clients w)) (_online_clients w) (_list_offline w) (_list_online w)) ;;;
      ClientListModify acc offline_client false
  | None => mret' tt
  end.

Definition erase_online (acc : string) : V unit :=
  w <- mget ;;
  match _online_clients w !! acc with
  | Some _ =>
      mput (set_lists w (_offline_clients w) (delete acc (_online_clients w)) (_list_offline w) (_list_online w)) ;;;
      ClientListModify acc online_client false
  | None => mret' tt
  end.

Definition addOnlineClient (p : Z) : V unit :=
  c <- client_of p ;;
  let acc := _acc c in
  erase_offline acc ;;;
  w <- mget ;;
  match _online_clients w !! acc with
  | None =>
      mput (set_lists w (_offline_clients w) (<[acc := p]> (_online_clients w)) (_list_offline w) (_list_online w)) ;;;
      ClientListModify acc online_client true
  | Some _ => mret' tt
  end.

Definition addOfflineClient (p : Z) : V unit :=
  c <- client_of p ;;
  let acc := _acc c in
  erase_online acc ;;;
  w <- mget ;;
  match _offline_clients w !! acc with
  | None =>
      mput (set_lists w (<[acc := p]> (_offline_clients w)) (_online_clients w) (_list_offline w) (_list_online w)) ;;;
      ClientListModify acc offline_client true
  | Some _ => mret' tt
  end.

(** *** [Client] *)

(** [VirtualConfig::_virtual_account] *)
Definition _virtual_account : string := "virtual_count".

(** [new Client(index, info)] at a fresh address. *)
Definition new_Client (index : Z) (info : net_info) : V Z :=
  w <- mget ;;
  let p := Z.of_nat (S (size (objects w))) in
  match sprintf 128 (_virtual_account +:+ "_" +:+ print_u index) with
  | UB why => mub why
  | Ret acc =>
      put_client p (mk_client index _client_init_ 0 info acc false false Closed) ;;;
      addOfflineClient p ;;;
      mret' p
  end.

(** [tcp_client::connect] to [m_info]. *)
Definition connect (p : Z) : V unit :=
  c <- client_of p ;;
  memit (Connect p (m_info c)) ;;;
  put_client p (with_sock c (if decide (sock c = Closed) then Connecting else sock c)).

Definition reConnect (p : Z) : V unit := connect p.

(** [parseLoginResult]: the failures carry another result than [Success]. *)
Definition parseLoginResult (p : Z) (msg : Login.user_msg) : V unit :=
  match msg with
  | Login.LoginResponse gate_ip gate_port user_account =>
      c <- client_of p ;;
      put_client p (with_login c (u32 user_account) (mk_info gate_ip (u16 gate_port)) true) ;;;
      memit (CloseSocket p)
  | _ => mret' tt
  end.

(** [on_connect] without [tcp_client]'s [begin_read_message]. *)
Definition on_connect (p : Z) : V unit :=
  removeFromReconn p ;;;
  c <- client_of p ;;
  match m_client_state c with
  | _client_init_ | _client_wait_login_ =>
      put_client p (with_state c _client_conn_login_) ;;;
      memit (Send p (LoginRequest (_acc c) "123456"))
  | _client_wait_gate_ =>
      put_client p (with_state c _client_connet_gate_) ;;;
      memit (Send p (LoginGame (m_transid c)))
  | _ => mret' tt
  end.

(** The [switch] of [on_close]. *)
Definition close_switch (p : Z) : V unit :=
  c <- client_of p ;;
  match m_client_state c with
  | _client_conn_login_ =>
      if m_ready_connect_gate c then put_client p (with_state c _client_wait_gate_) ;;; connect p else mret' tt
  | _ => mret' tt
  end.

Definition on_close (p : Z) : V unit := addOfflineClient p ;;; close_switch p ;;; addOfflineClient p.

Definition on_connect_failed (p : Z) : V unit :=
  c <- client_of p ;;
  if decide (m_client_state c = _client_connet_gate_) then addToReconn p else mret' tt.

Definition parseMsgHeroInit (p : Z) : V unit := addOnlineClient p.

(** What the network and the servers bring a client; the other registered
    handlers do nothing. *)
Inductive net_event : Type :=
| Opened
| Failed
| Lost
| FromLogin (m : Login.user_msg)
| HeroInit
| OtherMessage.

Definition set_sock (p : Z) (k : link) : V unit := c <- client_of p ;; put_client p (with_sock c k).

(** One call-back or message of [run_no_wait].  A connect is answered once;
    messages received before a loss may be handled after it. *)
Definition poll (p : Z) (e : net_event) : V unit :=
  c <- client_of p ;;
  match e with
  | Opened => if decide (sock c = Connecting) then set_sock p Connected ;;; on_connect p else mret' tt
  | Failed => if decide (sock c = Connecting) then set_sock p Closed ;;; on_connect_failed p else mret' tt
  | Lost => (if decide (sock c = Connected) then set_sock p Closed else mret' tt) ;;; on_close p
  | FromLogin m => parseLoginResult p m
  | HeroInit => parseMsgHeroInit p
  | OtherMessage => mret' tt
  end.

Definition IsOK (c : Client) : bool := m_MoveStateEnable c.
Definition IsGetTrans (c : Client) : bool := 0 <? m_transid c.

(** *** [ClientTest] *)

(** The loop of [reConnetClient]; a null client at the front is never popped. *)
Fixpoint reconnect_loop (fuel : nat) : V unit :=
  match fuel with
  | O => mub "reConnetClient: endless loop"
  | S fuel' =>
      w <- mget ;;
      match m_WaitReconnet w with
      | [] => mret' tt
      | p :: _ =>
          if Z.of_nat (size (m_Reconns w)) <? m_onceCount w then
            (if p =? 0 then mret' tt
             else
               reConnect p ;;;
               mmodify (fun w => set_queues w (m_Clients w) (tail (m_WaitReconnet w)) (m_Reconns w ∪ {[ p ]}))) ;;;
            reconnect_loop fuel'
          else mret' tt
      end
  end.

Definition reConnetClient : V unit :=
  mmodify (fun w => set_counts w (m_maxCount w) (u32 (m_curCount w + 1)) (m_Online w) (m_TransCount w)) ;;;
  w <- mget ;;
  reconnect_loop (S (length (m_WaitReconnet w))).

(** A turn of [addRobot]'s loop. *)
Definition add_one (i : Z) : V unit :=
  w <- mget ;;
  p <- new_Client (u32 (i + m_accountBegin w)) (t_info w) ;;
  mmodify (fun w => set_queues w (m_Clients w ++ [p]) (m_WaitReconnet w) (m_Reconns w)) ;;;
  addToReconn p.

Definition addRobot : V unit := w <- mget ;; mfor (seqZ 0 (m_maxCount w)) add_one.

(** [conf/robot.json]: [once_count], [port], [once_time], [ip]. *)
Record robot_config : Type := mk_config { once_count : Z; port : Z; once_time : Z; ip : string }.

Definition init (accountBegin accountEnd : Z) (conf : option robot_config) : V bool :=
  w <- mget ;;
  if negb (_client_init w) then
    mmodify (fun w => set_start w (u32 accountBegin) (_client_init w)) ;;;
    let count := accountEnd - accountBegin in
    if (count <? - 2 ^ 31) || (2 ^ 31 <=? count) then mub "init: int overflow"
    else
      mmodify (fun w => set_counts w (Z.max count 0) (m_curCount w) (m_Online w) (m_TransCount w)) ;;;
      match conf with
      | None => mret' false
      | Some cf =>
          mmodify (fun w => set_config w (u32 (once_count cf))
                     (if u32 (once_time cf) <? 10 then 100 else u32 (once_time cf)) (mk_info (ip cf) (u16 (port cf)))) ;;;
          addRobot ;;;
          w <- mget ;;
          memit (AddTimer (m_onceTime w)) ;;;
          mmodify (fun w => set_start w (m_accountBegin w) true) ;;;
          mret' true
      end
  else mret' true.

(** The loop of [runOnce]: the call-backs and messages of each client, and the
    counters. *)
Definition update_client (polled : Z -> list net_event) (p : Z) : V unit :=
  if p =? 0 then mret' tt
  else
    mfor (polled p) (poll p) ;;;
    c <- client_of p ;;
    mmodify (fun w => set_counts w (m_maxCount w) (m_curCount w)
               (if IsOK c then u32 (m_Online w + 1) else m_Online w)
               (if IsGetTrans c then u32 (m_TransCount w + 1) else m_TransCount w)).

(** [runOnce nDiff]; [fired] is how often [m_EventHold.update] runs the timer. *)
Definition runOnce (polled : Z -> list net_event) (fired : nat) (nDiff : Z) : V unit :=
  mmodify (fun w => set_counts w (m_maxCount w) (m_curCount w) 0 0) ;;;
  w <- mget ;;
  (if _client_init w then mfor (m_Clients w) (update_client polled) else mret' tt) ;;;
  mfor (seq 0 fired) (fun _ => reConnetClient) ;;;
  w <- mget ;;
  let t := u32 (curtime w + nDiff) in
  if (10000 <? t) && (0 <? m_Online w) then
    memit (LogOnlines (m_Online w) (m_TransCount w) (Z.of_nat (length (m_WaitReconnet w)))) ;;;
    mput (set_curtime w 0)
  else mput (set_curtime w t).

(** The process: the dialog's button and the turns of its thread. *)
Inductive event : Type :=
| Generate (accountBegin accountEnd : Z) (conf : option robot_config)
| Turn (polled : Z -> list net_event) (fired : nat) (nDiff : Z).

Definition handle (ev : event) : V unit :=
  match ev with
  | Generate b e conf => init b e conf ;;; mret' tt
  | Turn polled fired nDiff => runOnce polled fired nDiff
  end.

Definition run (l : list event) : V unit := mfor l handle.

(** [VirtualConfig::GenerateAccount]: [str_temp] is never cleared. *)
Fixpoint generate_accounts (ids : list Z) (str_temp : string) : list string :=
  match ids with
  | [] => []
  | i :: ids' => let s := str_temp +:+ "_" +:+ print_d i in s :: generate_accounts ids' s
  end.

Definition GenerateAccount (account_begin account_end : Z) : list string :=
  generate_accounts (seqZ account_begin (account_end - account_begin)) "".

End VirtualClient.

Import Text VirtualClient.

(** ** The tables of clients on line and off line *)

Definition keys (m : gmap string Z) : list string := (map_to_list m).*1.

(** [A] names the clients.  The tables and the boxes agree; every client but the
    exempt ones [ex] is in exactly one of them. *)
Record tables_but (ex : Z -> Prop) (A : gmap Z string) (off on : gmap string Z) (loff lon : list string) : Prop := {
  off_names : forall a q, off !! a = Some q -> A !! q = Some a;
  on_names : forall a q, on !! a = Some q -> A !! q = Some a;
  one_table : forall q a, ~ ex q -> A !! q = Some a ->
    (off !! a = Some q /\ on !! a = None) \/ (off !! a = None /\ on !! a = Some q);
  off_shown : loff ≡ₚ keys off;
  on_shown : lon ≡ₚ keys on
}.

Definition tables := tables_but (fun _ => False).

Definition names_differ (A : gmap Z string) : Prop :=
  forall p q a, A !! p = Some a -> A !! q = Some a -> p = q.

Definition accs (w : world) : gmap Z string := _acc <$> objects w.

Lemma delete_string_perm l s : s ∈ l -> l ≡ₚ s :: delete_string l s.
Proof.
  induction l as [|t l IH]; cbn; [by rewrite elem_of_nil|]. rewrite elem_of_cons. intros Hs.
  destruct (decide (t = s)) as [->|Hne]; [done|]. rewrite (IH ltac:(naive_solver)) at 1. constructor.
Qed.

Lemma elem_of_keys m a : a ∈ keys m <-> is_Some (m !! a).
Proof.
  unfold keys. rewrite list_elem_of_fmap. split.
  - intros [[b q] [-> Hb]]. apply elem_of_map_to_list in Hb. eauto.
  - intros [q Hq]. exists (a, q). split; [done|by apply elem_of_map_to_list].
Qed.

Lemma keys_insert m a q : m !! a = None -> keys (<[a := q]> m) ≡ₚ a :: keys m.
Proof. intros H. unfold keys. by rewrite (map_to_list_insert m a q H). Qed.

Lemma keys_delete m a : is_Some (m !! a) -> a :: keys (delete a m) ≡ₚ keys m.
Proof. intros [q Hq]. unfold keys. by rewrite <- (map_to_list_delete m a q Hq). Qed.

Lemma tables_sym ex A off on loff lon : tables_but ex A off on loff lon -> tables_but ex A on off lon loff.
Proof. intros []. constructor; try done. intros q a He Ha. destruct (one_table0 q a He Ha) as [[]|[]]; auto. Qed.

Lemma tables_weaken (ex ex' : Z -> Prop) A off on loff lon :
  (forall q, ex q -> ex' q) -> tables_but ex A off on loff lon -> tables_but ex' A off on loff lon.
Proof. intros Hi []. constructor; try done. intros q a He. apply one_table0. auto. Qed.

Lemma erase_tables p a A off on loff lon :
  names_differ A -> A !! p = Some a -> tables_but (fun q => q = p) A off on loff lon ->
  tables_but (fun q => q = p) A off (delete a on) loff
    (match on !! a with Some _ => delete_string lon a | None => lon end).
Proof.
  intros Hinj Ha []. constructor; try done.
  - intros b q. rewrite lookup_delete_Some. intros [_ H]. by apply on_names0.
  - intros q b Hne Hb. assert (a <> b) by (intros ->; by eapply Hne, Hinj).
    rewrite lookup_delete_ne by done. by apply one_table0.
  - destruct (on !! a) eqn:Hon; [|by rewrite delete_id].
    assert (Hin : a ∈ lon) by (rewrite on_shown0; apply elem_of_keys; eauto).
    apply (Permutation_cons_inv (a := a)). rewrite <- (delete_string_perm lon a Hin), on_shown0.
    symmetry. by apply keys_delete.
Qed.

Lemma insert_tables p a A off on loff lon :
  names_differ A -> A !! p = Some a -> on !! a = None -> tables_but (fun q => q = p) A off on loff lon ->
  tables A (match off !! a with None => <[a := p]> off | Some _ => off end) on
    (match off !! a with None => loff ++ [a] | Some _ => loff end) lon.
Proof.
  intros Hinj Ha Hon []. destruct (off !! a) as [q|] eqn:Hoff.
  - assert (q = p) as -> by (eapply Hinj; eauto). constructor; try done.
    intros q b _ Hb. destruct (decide (q = p)) as [->|Hne]; [left|by apply one_table0]. by simplify_eq.
  - constructor; try done.
    + intros b q. rewrite lookup_insert_Some. intros [[<- <-]|[_ H]]; [done|by apply off_names0].
    + intros q b _ Hb. destruct (decide (q = p)) as [->|Hne].
      { simplify_eq. left. by rewrite lookup_insert_eq. }
      assert (a <> b) by (intros ->; by eapply Hne, Hinj). rewrite lookup_insert_ne by done. by apply one_table0.
    + rewrite (keys_insert off a p Hoff), off_shown0. by rewrite Permutation_app_comm.
Qed.

(** *** What the table operations do *)

Lemma client_of_run p w c : objects w !! p = Some c -> client_of p w = Ret (c, w, []).
Proof. intros Hc. unfold client_of, mbind', mget. by rewrite Hc. Qed.

Lemma erase_online_run acc w : erase_online acc w =
  Ret (tt, set_lists w (_offline_clients w) (delete acc (_online_clients w)) (_list_offline w)
    (match _online_clients w !! acc with Some _ => delete_string (_list_online w) acc | None => _list_online w end), []).
Proof.
  unfold erase_online, mbind', mget. destruct (_online_clients w !! acc) eqn:Ha; [done|].
  cbn. rewrite delete_id by done. by destruct w.
Qed.

Lemma erase_offline_run acc w : erase_offline acc w =
  Ret (tt, set_lists w (delete acc (_offline_clients w)) (_online_clients w)
    (match _offline_clients w !! acc with Some _ => delete_string (_list_offline w) acc | None => _list_offline w end)
    (_list_online w), []).
Proof.
  unfold erase_offline, mbind', mget. destruct (_offline_clients w !! acc) eqn:Ha; [done|].
  cbn. rewrite delete_id by done. by destruct w.
Qed.

(** Both operations change the tables only and put them in order. *)
Lemma addOfflineClient_run p c w :
  objects w !! p = Some c -> names_differ (accs w) ->
  tables_but (fun q => q = p) (accs w) (_offline_clients w) (_online_clients w) (_list_offline w) (_list_online w) ->
  exists off on loff lon, addOfflineClient p w = Ret (tt, set_lists w off on loff lon, []) /\
    tables (accs w) off on loff lon /\ off !! _acc c = Some p.
Proof.
  intros Hc Hinj Ht. assert (Ha : accs w !! p = Some (_acc c)) by (unfold accs; by rewrite lookup_fmap, Hc).
  pose proof (erase_tables p _ _ _ _ _ _ Hinj Ha Ht) as Ht1.
  pose proof (insert_tables p _ _ _ _ _ _ Hinj Ha (lookup_delete_eq _ _) Ht1) as Ht2.
  eexists _, _, _, _. split; [|split; [exact Ht2|]].
  - unfold addOfflineClient. rewrite (mbind_pure _ _ _ _ (client_of_run p w c Hc)).
    rewrite (mbind_silent _ _ _ _ _ (erase_online_run (_acc c) w)).
    unfold mbind', mget, mput, ClientListModify, mmodify. cbn.
    destruct (_offline_clients w !! _acc c); [by destruct w|done].
  - destruct (_offline_clients w !! _acc c) as [q|] eqn:Hq; [|by rewrite lookup_insert_eq].
    rewrite Hq. f_equal. eapply Hinj; [|exact Ha]. by eapply (off_names _ _ _ _ _ _ Ht).
Qed.

Lemma addOnlineClient_run p c w :
  objects w !! p = Some c -> names_differ (accs w) ->
  tables_but (fun q => q = p) (accs w) (_offline_clients w) (_online_clients w) (_list_offline w) (_list_online w) ->
  exists off on loff lon, addOnlineClient p w = Ret (tt, set_lists w off on loff lon, []) /\
    tables (accs w) off on loff lon /\ on !! _acc c = Some p.
Proof.
  intros Hc Hinj Ht%tables_sym. assert (Ha : accs w !! p = Some (_acc c)) by (unfold accs; by rewrite lookup_fmap, Hc).
  pose proof (erase_tables p _ _ _ _ _ _ Hinj Ha Ht) as Ht1.
  pose proof (tables_sym _ _ _ _ _ _ (insert_tables p _ _ _ _ _ _ Hinj Ha (lookup_delete_eq _ _) Ht1)) as Ht2.
  eexists _, _, _, _. split; [|split; [exact Ht2|]].
  - unfold addOnlineClient. rewrite (mbind_pure _ _ _ _ (client_of_run p w c Hc)).
    rewrite (mbind_silent _ _ _ _ _ (erase_offline_run (_acc c) w)).
    unfold mbind', mget, mput, ClientListModify, mmodify. cbn.
    destruct (_online_clients w !! _acc c); [by destruct w|done].
  - destruct (_online_clients w !! _acc c) as [q|] eqn:Hq; [|by rewrite lookup_insert_eq].
    rewrite Hq. f_equal. eapply Hinj; [|exact Ha]. by eapply (off_names _ _ _ _ _ _ Ht).
Qed.

(** ** The course of a client *)

Definition sends (p : Z) (tr : list effect) : list client_msg :=
  omap (fun e => match e with Send q m => if decide (q = p) then Some m else None | _ => None end) tr.
Definition connects (p : Z) (tr : list effect) : list net_info :=
  omap (fun e => match e with Connect q i => if decide (q = p) then Some i else None | _ => None end) tr.

Definition name_of (index : Z) : string := _virtual_account +:+ "_" +:+ print_u index.

(** State, connection, place ([m_WaitReconnet], [m_Reconns]), messages sent and
    connects asked for of the client of account [a]. *)
Inductive phase (a : string) : client_state -> link -> bool -> bool -> list client_msg -> list net_info -> Prop :=
| ph_waiting : phase a _client_init_ Closed true false [] []
| ph_started k i : k <> Connected -> phase a _client_init_ k false true [] [i]
| ph_login k i : k <> Connecting ->
    phase a _client_conn_login_ k false false [LoginRequest a "123456"] [i]
| ph_to_gate k i j : k <> Connected ->
    phase a _client_wait_gate_ k false false [LoginRequest a "123456"] [i; j]
| ph_gate k i j t : k <> Connecting ->
    phase a _client_connet_gate_ k false false [LoginRequest a "123456"; LoginGame t] [i; j].

Record sound (w : world) (tr : list effect) : Prop := {
  so_ids : forall p c, objects w !! p = Some c ->
    0 < p <= Z.of_nat (size (objects w)) /\ _acc c = name_of (u32 (p - 1 + m_accountBegin w));
  so_size : Z.of_nat (size (objects w)) <= 2 ^ 31;
  so_phase : forall p c, objects w !! p = Some c ->
    phase (_acc c) (m_client_state c) (sock c) (bool_decide (p ∈ m_WaitReconnet w)) (bool_decide (p ∈ m_Reconns w))
      (sends p tr) (connects p tr);
  so_fresh : forall p, objects w !! p = None -> sends p tr = [] /\ connects p tr = [] /\ p ∉ m_Reconns w;
  so_clients : forall p, p ∈ m_Clients w <-> is_Some (objects w !! p);
  so_order : exists started, m_Clients w = started ++ m_WaitReconnet w;
  so_nodup : NoDup (m_Clients w);
  so_once : Z.of_nat (size (m_Reconns w)) <= m_onceCount w;
  so_tables : tables (accs w) (_offline_clients w) (_online_clients w) (_list_offline w) (_list_online w);
  so_new : _client_init w = false -> objects w = ∅ /\ m_Clients w = []
}.

Lemma u32_inj_range b x y : 0 <= x <= 2 ^ 31 -> 0 <= y <= 2 ^ 31 -> u32 (x + b) = u32 (y + b) -> x = y.
Proof. unfold u32. intros Hx Hy H. dlia. Qed.

Lemma name_of_inj i j : 0 <= i -> 0 <= j -> name_of i = name_of j -> i = j.
Proof.
  unfold name_of. intros Hi Hj H. apply (inj (String.append _)) in H. apply (inj (String.append _)) in H.
  pose proof (scan_print_u i Hi) as H1. pose proof (scan_print_u j Hj) as H2. congruence.
Qed.

Lemma ids_names (m : gmap Z Client) b :
  (forall p c, m !! p = Some c -> 0 < p <= 2 ^ 31 /\ _acc c = name_of (u32 (p - 1 + b))) -> names_differ (_acc <$> m).
Proof.
  intros Hid p q a. rewrite !lookup_fmap, !fmap_Some. intros (c & Hc & ->) (d & Hd & Hn).
  destruct (Hid _ _ Hc) as [Hp Ha], (Hid _ _ Hd) as [Hq Hb].
  rewrite Ha, Hb in Hn. apply name_of_inj in Hn; [|apply u32_range..].
  apply u32_inj_range in Hn; lia.
Qed.

Lemma sound_names w tr : sound w tr -> names_differ (accs w).
Proof.
  intros Hs. apply (ids_names _ (m_accountBegin w)). intros p c Hc. pose proof (so_size _ _ Hs).
  destruct (so_ids _ _ Hs p c Hc). split; [lia|done].
Qed.

Lemma sends_app p t1 t2 : sends p (t1 ++ t2) = sends p t1 ++ sends p t2.
Proof. apply omap_app. Qed.
Lemma connects_app p t1 t2 : connects p (t1 ++ t2) = connects p t1 ++ connects p t2.
Proof. apply omap_app. Qed.

(** Effects of client [p] alone. *)
Definition of_client (p : Z) (o : list effect) : Prop := forall q, q <> p -> sends q o = [] /\ connects q o = [].

(** One client, its place among the connecting ones and the tables change. *)
Definition with_client (w : world) p c (R : gset Z) off on loff lon : world :=
  set_lists (set_queues (set_objects w (<[p := c]> (objects w))) (m_Clients w) (m_WaitReconnet w) R) off on loff lon.

Lemma accs_insert w p c c' :
  objects w !! p = Some c -> _acc c' = _acc c -> accs (set_objects w (<[p := c']> (objects w))) = accs w.
Proof.
  intros Hc Ha. unfold accs. cbn. rewrite fmap_insert, Ha. apply insert_id. by rewrite lookup_fmap, Hc.
Qed.

Lemma sound_client w tr p c c' R o off on loff lon :
  sound w tr -> objects w !! p = Some c -> _acc c' = _acc c ->
  R = m_Reconns w \/ R = m_Reconns w ∖ {[ p ]} -> of_client p o ->
  phase (_acc c) (m_client_state c') (sock c') (bool_decide (p ∈ m_WaitReconnet w)) (bool_decide (p ∈ R))
    (sends p (tr ++ o)) (connects p (tr ++ o)) ->
  tables (accs w) off on loff lon ->
  sound (with_client w p c' R off on loff lon) (tr ++ o).
Proof.
  intros [] Hc Ha HR Ho Hph Htab.
  assert (Hsub : R ⊆ m_Reconns w) by set_solver.
  assert (Hsize : size (<[p := c']> (objects w)) = size (objects w)) by (rewrite map_size_insert, Hc; done).
  assert (HRne : forall q, q <> p -> q ∈ R <-> q ∈ m_Reconns w) by set_solver.
  constructor; cbn; rewrite ?Hsize; try done.
  - intros q d. rewrite lookup_insert_Some. intros [[<- <-]|[_ Hd]]; [rewrite Ha|]; by apply so_ids0.
  - intros q d. rewrite lookup_insert_Some. intros [[<- <-]|[Hne Hd]]; [by rewrite Ha|].
    rewrite sends_app, connects_app. destruct (Ho q) as [-> ->]; [done|]. rewrite !app_nil_r.
    rewrite (bool_decide_ext (q ∈ R) (q ∈ m_Reconns w)) by (apply HRne; done). by apply so_phase0.
  - intros q. rewrite lookup_insert_None. intros [Hn Hne]. destruct (so_fresh0 q Hn) as (H1 & H2 & H3).
    destruct (Ho q) as [Ho1 Ho2]; [done|]. rewrite sends_app, connects_app, H1, H2, Ho1, Ho2. split_and!; [done|done|set_solver].
  - intros q. rewrite so_clients0. destruct (decide (q = p)) as [->|Hne].
    + rewrite lookup_insert_eq, Hc. by split; eexists.
    + by rewrite lookup_insert_ne.
  - transitivity (Z.of_nat (size (m_Reconns w))); [|done]. apply Nat2Z.inj_le. by apply subseteq_size.
  - pose proof (accs_insert w p c c' Hc Ha) as He. unfold accs in *. cbn in He |- *. by rewrite He.
  - intros Hi. destruct (so_new0 Hi) as [H1 H2]. by rewrite H1, lookup_empty in Hc.
Qed.

(** *** A client's call-backs and messages *)

Lemma put_client_run p c w : put_client p c w = Ret (tt, set_objects w (<[p := c]> (objects w)), []).
Proof. done. Qed.

(** What a call-back or a message does: it changes client [p] only. *)
Definition touches (p : Z) (c : Client) (w w' : world) (tr o : list effect) : Prop :=
  exists c' R off on loff lon, w' = with_client w p c' R off on loff lon /\ _acc c' = _acc c /\
    (R = m_Reconns w \/ (sock c = Connecting /\ R = m_Reconns w ∖ {[ p ]})) /\ of_client p o /\
    (sock c' = Connecting -> sock c = Connecting \/ connects p o <> []) /\
    phase (_acc c) (m_client_state c') (sock c') (bool_decide (p ∈ m_WaitReconnet w)) (bool_decide (p ∈ R))
      (sends p (tr ++ o)) (connects p (tr ++ o)) /\
    tables (accs w) off on loff lon.

Lemma touches_sound p c w w' tr o :
  sound w tr -> objects w !! p = Some c -> touches p c w w' tr o -> sound w' (tr ++ o).
Proof.
  intros Hs Hc (c' & R & off & on & loff & lon & -> & ? & HR & ? & _ & ? & ?).
  eapply sound_client; try done. destruct HR as [|[_ ?]]; auto.
Qed.

Lemma of_client_own p e : (match e with Connect q _ | Send q _ | CloseSocket q => q = p | _ => True end) -> of_client p [e].
Proof. intros He q Hq. destruct e; subst; cbn; rewrite ?decide_False by congruence; done. Qed.

Lemma of_client_nil p : of_client p [].
Proof. done. Qed.
#[local] Hint Resolve of_client_own of_client_nil : core.

Lemma with_client_same w p c : with_client w p c (m_Reconns w) (_offline_clients w) (_online_clients w)
  (_list_offline w) (_list_online w) = set_objects w (<[p := c]> (objects w)).
Proof. done. Qed.

Lemma opened_touches p c w tr :
  sound w tr -> objects w !! p = Some c -> sock c = Connecting ->
  exists w' o, (set_sock p Connected ;;; on_connect p) w = Ret (tt, w', o) /\ touches p c w w' tr o.
Proof.
  intros Hs Hc Hk. pose proof (so_phase _ _ Hs p c Hc) as Hph. pose proof (so_tables _ _ Hs) as Htab.
  unfold set_sock, on_connect, removeFromReconn, client_of, mbind', mget, mmodify, memit, mret', put_client. cbn.
  rewrite Hc. cbn. rewrite lookup_insert_eq. cbn. rewrite Hk in Hph.
  inversion Hph as [Hst|k i Hne Hst Hkk Hw HR Hse Hco|k i Hne|k i j Hne Hst Hkk Hw HR Hse Hco|k i j t Hne]; try done; subst k.
  - eexists _, _. split; [reflexivity|]. exists (with_state (with_sock c Connected) _client_conn_login_), (m_Reconns w ∖ {[ p ]}).
    eexists _, _, _, _. split; [by unfold with_client; cbn; rewrite insert_insert_eq|]. split_and!; [done|by right|by apply of_client_own|done| |exact Htab].
    rewrite sends_app, connects_app, <- Hse, <- Hco. cbn. rewrite decide_True by done.
    rewrite <- Hw, (bool_decide_eq_false_2 (p ∈ _ ∖ _)) by set_solver. by constructor.
  - eexists _, _. split; [reflexivity|]. exists (with_state (with_sock c Connected) _client_connet_gate_), (m_Reconns w ∖ {[ p ]}).
    eexists _, _, _, _. split; [by unfold with_client; cbn; rewrite insert_insert_eq|]. split_and!; [done|by right|by apply of_client_own|done| |exact Htab].
    rewrite sends_app, connects_app, <- Hse, <- Hco. cbn. rewrite decide_True by done.
    rewrite <- Hw, (bool_decide_eq_false_2 (p ∈ _ ∖ _)) by set_solver. by constructor.
Qed.

Lemma failed_touches p c w tr :
  sound w tr -> objects w !! p = Some c -> sock c = Connecting ->
  exists w', (set_sock p Closed ;;; on_connect_failed p) w = Ret (tt, w', []) /\ touches p c w w' tr [].
Proof.
  intros Hs Hc Hk. pose proof (so_phase _ _ Hs p c Hc) as Hph. pose proof (so_tables _ _ Hs) as Htab.
  unfold set_sock, on_connect_failed, client_of, mbind', mget, mmodify, memit, mret', put_client. cbn.
  rewrite Hc. cbn. rewrite lookup_insert_eq. cbn. rewrite Hk in Hph.
  assert (m_client_state c <> _client_connet_gate_) by (intros He; rewrite He in Hph; by inversion Hph).
  rewrite decide_False by done. eexists. split; [reflexivity|]. rewrite <- with_client_same.
  eexists _, _, _, _, _, _. split; [reflexivity|]. split_and!; [done|by left|done|done| |exact Htab].
  rewrite app_nil_r. cbn. inversion Hph; subst; by constructor.
Qed.

(** The table operations within a run; [w] has the tables in order. *)
Lemma offline_again p c w :
  objects w !! p = Some c -> names_differ (accs w) ->
  tables (accs w) (_offline_clients w) (_online_clients w) (_list_offline w) (_list_online w) ->
  exists off on loff lon, addOfflineClient p w = Ret (tt, set_lists w off on loff lon, []) /\
    tables (accs w) off on loff lon /\ off !! _acc c = Some p.
Proof. intros Hc Hn Ht. apply (addOfflineClient_run p c w Hc Hn). by eapply tables_weaken; [|exact Ht]. Qed.

(** The [switch] of [on_close], on a client whose connection is gone. *)
Lemma close_switch_run p c w a wt rc ss cn :
  objects w !! p = Some c -> phase a (m_client_state c) (sock c) wt rc ss cn -> sock c <> Connected ->
  exists c' o, close_switch p w = Ret (tt, set_objects w (<[p := c']> (objects w)), o) /\ _acc c' = _acc c /\
    of_client p o /\ (sock c' = Connecting -> sock c = Connecting \/ connects p o <> []) /\
    phase a (m_client_state c') (sock c') wt rc (ss ++ sends p o) (cn ++ connects p o).
Proof.
  intros Hc Hph Hk. unfold close_switch. rewrite (mbind_pure _ _ _ _ (client_of_run p w c Hc)).
  assert (Hquiet : exists c' o, mret' tt w = Ret (tt, set_objects w (<[p := c']> (objects w)), o) /\ _acc c' = _acc c /\
    of_client p o /\ (sock c' = Connecting -> sock c = Connecting \/ connects p o <> []) /\
    phase a (m_client_state c') (sock c') wt rc (ss ++ sends p o) (cn ++ connects p o)).
  { exists c, []. rewrite insert_id, !app_nil_r by done. split_and!; try done; [by destruct w|by left]. }
  destruct (m_client_state c) eqn:Hst; try exact Hquiet.
  destruct (m_ready_connect_gate c); [|exact Hquiet]. inversion Hph as [|k i|k i Hk' E1 E2 E3 E4 E5 E6| |]; subst.
  unfold connect, put_client, client_of, mbind', mget, mmodify, memit, mret'. cbn. rewrite lookup_insert_eq. cbn.
  exists (with_sock (with_state c _client_wait_gate_) (if decide (sock c = Closed) then Connecting else sock c)), [Connect p (m_info c)].
  cbn. destruct (decide (p = p)); [|done].
  split_and!; [by rewrite insert_insert_eq|done|by apply of_client_own|by right|].
  destruct (sock c); cbn; try done. by constructor.
Qed.

(** The part of [poll] that records the loss. *)
Definition lose_sock (c : Client) : Client := with_sock c (if decide (sock c = Connected) then Closed else sock c).

Lemma lose_sock_run p c w :
  objects w !! p = Some c ->
  (if decide (sock c = Connected) then set_sock p Closed else mret' tt) w =
  Ret (tt, set_objects w (<[p := lose_sock c]> (objects w)), []).
Proof.
  intros Hc. unfold lose_sock. destruct (decide (sock c = Connected)).
  - unfold set_sock. by rewrite (mbind_pure _ _ _ _ (client_of_run p w c Hc)).
  - assert (with_sock c (sock c) = c) as -> by (by destruct c). rewrite insert_id by done. by destruct w.
Qed.

Lemma lose_sock_phase a c wt rc ss cn :
  phase a (m_client_state c) (sock c) wt rc ss cn ->
  phase a (m_client_state (lose_sock c)) (sock (lose_sock c)) wt rc ss cn /\ sock (lose_sock c) <> Connected.
Proof.
  destruct c as [? st ? ? ? ? ? k]. unfold lose_sock. cbn. intros Hph.
  destruct k; cbn; (split; [|done]); inversion Hph; subst; by constructor.
Qed.

Lemma lost_touches p c w tr :
  sound w tr -> objects w !! p = Some c ->
  exists w' o, poll p Lost w = Ret (tt, w', o) /\ touches p c w w' tr o /\ _offline_clients w' !! _acc c = Some p.
Proof.
  intros Hs Hc. pose proof (so_tables _ _ Hs) as Htab. pose proof (sound_names _ _ Hs) as Hn.
  destruct (lose_sock_phase _ _ _ _ _ _ (so_phase _ _ Hs p c Hc)) as [Hph Hk].
  set (c1 := lose_sock c) in *. set (w1 := set_objects w (<[p := c1]> (objects w))).
  assert (Hc1 : objects w1 !! p = Some c1) by apply lookup_insert_eq.
  assert (Hw1 : accs w1 = accs w) by (by eapply accs_insert).
  unfold poll. rewrite (mbind_pure _ _ _ _ (client_of_run p w c Hc)), (mbind_silent _ _ _ _ _ (lose_sock_run p c w Hc)).
  unfold on_close. fold c1 w1.
  destruct (offline_again p c1 w1 Hc1) as (off & on & loff & lon & Hr & Ht1 & _); [by rewrite Hw1|by rewrite Hw1|].
  rewrite (mbind_silent _ _ _ _ _ Hr). set (w2 := set_lists w1 off on loff lon) in *.
  destruct (close_switch_run p c1 w2 _ _ _ _ _ Hc1 Hph Hk) as (c3 & o & Hr3 & Ha3 & Ho3 & Hk3 & Hph3).
  set (w3 := set_objects w2 (<[p := c3]> (objects w2))) in *.
  assert (Hc3 : objects w3 !! p = Some c3) by apply lookup_insert_eq.
  assert (Hw3 : accs w3 = accs w) by (rewrite <- Hw1; change (accs w1) with (accs w2); by eapply accs_insert).
  destruct (offline_again p c3 w3 Hc3) as (off' & on' & loff' & lon' & Hr' & Ht' & Hoff').
  { by rewrite Hw3. } { rewrite Hw3, <- Hw1. exact Ht1. }
  rewrite (mbind_run _ _ _ _ _ _ Hr3), Hr'. eexists _, _. split; [reflexivity|]. rewrite app_nil_r. split.
  - exists c3, (m_Reconns w), off', on', loff', lon'. split; [unfold with_client, w3, w2, w1; cbn; by rewrite insert_insert_eq|].
    split_and!; [by rewrite Ha3|by left|done| |by rewrite sends_app, connects_app|by rewrite <- Hw3].
    intros H. apply Hk3 in H as [H|H]; [left|by right]. unfold c1, lose_sock in H. cbn in H. by destruct (sock c).
  - change (_acc c) with (_acc c1). by rewrite <- Ha3.
Qed.

Lemma poll_touches p c e w tr :
  sound w tr -> objects w !! p = Some c ->
  exists w' o, poll p e w = Ret (tt, w', o) /\ touches p c w w' tr o.
Proof.
  intros Hs Hc. pose proof (so_phase _ _ Hs p c Hc) as Hph. pose proof (so_tables _ _ Hs) as Htab.
  assert (Hidle : exists w' o, mret' tt w = Ret (tt, w', o) /\ touches p c w w' tr o).
  { eexists _, []. split; [done|]. exists c, (m_Reconns w). eexists _, _, _, _. split.
    - rewrite with_client_same, insert_id by done. by destruct w.
    - rewrite app_nil_r. split_and!; try done; by left. }
  assert (Hlost : exists w' o, poll p Lost w = Ret (tt, w', o) /\ touches p c w w' tr o).
  { destruct (lost_touches p c w tr Hs Hc) as (w' & o & Hr & Ht & _). eauto. }
  destruct e; try exact Hlost; unfold poll; rewrite (mbind_pure _ _ _ _ (client_of_run p w c Hc)); try exact Hidle.
  - destruct (decide (sock c = Connecting)); [by apply opened_touches|done].
  - destruct (decide (sock c = Connecting)); [|done].
    destruct (failed_touches p c w tr Hs Hc) as (w' & Hr & Ht); [done|eauto].
  - destruct m; try exact Hidle. unfold parseLoginResult. rewrite (mbind_pure _ _ _ _ (client_of_run p w c Hc)).
    eexists _, _. split; [reflexivity|]. rewrite <- with_client_same.
    eexists _, _, _, _, _, _. split; [reflexivity|]. split_and!; [done|by left|by apply of_client_own|by left| |done].
    by rewrite sends_app, connects_app, !app_nil_r.
  - unfold parseMsgHeroInit. destruct (addOnlineClient_run p c w Hc) as (off & on & loff & lon & Hr & Ht & _).
    { by eapply sound_names. } { by eapply tables_weaken; [|exact Htab]. }
    rewrite Hr. eexists _, _. split; [reflexivity|]. exists c, (m_Reconns w), off, on, loff, lon. split.
    { unfold with_client. rewrite insert_id by done. by destruct w. }
    rewrite app_nil_r. split_and!; try done; by left.
Qed.

Lemma poll_wp p e w tr :
  sound w tr -> is_Some (objects w !! p) ->
  wp (poll p e) (fun _ w' o => sound w' (tr ++ o) /\ is_Some (objects w' !! p) /\ m_Clients w' = m_Clients w) w.
Proof.
  intros Hs [c Hc]. destruct (poll_touches p c e w tr Hs Hc) as (w' & o & Hr & Ht).
  unfold run_post. rewrite Hr. split; [by eapply touches_sound|].
  destruct Ht as (c' & R & off & on & loff & lon & -> & _). cbn. rewrite lookup_insert_eq. eauto.
Qed.

(** *** The timer, the turns and the start *)

(** What [sound] does not speak of may change. *)
Lemma sound_same w w' tr :
  objects w' = objects w -> m_accountBegin w' = m_accountBegin w -> m_WaitReconnet w' = m_WaitReconnet w ->
  m_Reconns w' = m_Reconns w -> m_Clients w' = m_Clients w -> m_onceCount w' = m_onceCount w ->
  _offline_clients w' = _offline_clients w -> _online_clients w' = _online_clients w ->
  _list_offline w' = _list_offline w -> _list_online w' = _list_online w -> _client_init w' = _client_init w ->
  sound w tr -> sound w' tr.
Proof.
  intros H1 H2 H3 H4 H5 H6 H7 H8 H9 H10 H11 []. assert (accs w' = accs w) as Ha by (unfold accs; by rewrite H1).
  constructor; rewrite ?Ha, ?H1, ?H2, ?H3, ?H4, ?H5, ?H6, ?H7, ?H8, ?H9, ?H10, ?H11; done.
Qed.

Lemma sends_quiet w tr e : (forall p, sends p [e] = [] /\ connects p [e] = []) -> sound w tr -> sound w (tr ++ [e]).
Proof.
  intros He []. constructor; try done; intros p; rewrite sends_app, connects_app;
    destruct (He p) as [-> ->]; rewrite !app_nil_r; auto.
Qed.

(** The front client of the queue is connected. *)
Definition started (w : world) (p : Z) (c : Client) (l : list Z) : world :=
  set_queues (set_objects w (<[p := with_sock c Connecting]> (objects w))) (m_Clients w) l (m_Reconns w ∪ {[ p ]}).

Lemma waiting_client w tr p l :
  sound w tr -> m_WaitReconnet w = p :: l ->
  exists c, objects w !! p = Some c /\ 0 < p /\ sock c = Closed /\ m_client_state c = _client_init_ /\
    p ∉ m_Reconns w /\ p ∉ l /\ sends p tr = [] /\ connects p tr = [].
Proof.
  intros Hs Hw. destruct (so_order _ _ Hs) as [st Hord].
  assert (Hin : p ∈ m_Clients w) by (rewrite Hord, Hw; set_solver).
  apply (so_clients _ _ Hs) in Hin as [c Hc]. exists c. destruct (so_ids _ _ Hs p c Hc) as [Hp _].
  pose proof (so_phase _ _ Hs p c Hc) as Hph. rewrite (bool_decide_eq_true_2 (p ∈ m_WaitReconnet w)) in Hph by (rewrite Hw; set_solver).
  pose proof (so_nodup _ _ Hs) as Hnd. rewrite Hord, Hw in Hnd. apply NoDup_app in Hnd as (_ & _ & Hnd%NoDup_cons).
  destruct Hnd as [Hpl _]. inversion Hph as [Hst Hk Hwt HR Hse Hco| | | |].
  symmetry in HR. apply bool_decide_eq_false_1 in HR. split_and!; done || lia.
Qed.

Lemma start_sound w tr p l c :
  sound w tr -> m_WaitReconnet w = p :: l -> objects w !! p = Some c -> Z.of_nat (size (m_Reconns w)) < m_onceCount w ->
  sound (started w p c l) (tr ++ [Connect p (m_info c)]) /\ size (m_Reconns (started w p c l)) = S (size (m_Reconns w)).
Proof.
  intros Hs Hw Hc Hlt. destruct (waiting_client w tr p l Hs Hw) as (c0 & Hc0 & Hp & Hk & Hst & HR & Hl & Hse & Hco).
  assert (c0 = c) as -> by congruence. clear Hc0.
  assert (Hsz : size (m_Reconns w ∪ {[p]}) = S (size (m_Reconns w))).
  { rewrite size_union by set_solver. rewrite size_singleton. lia. }
  split; [|done]. destruct Hs. assert (Hd : is_Some (objects w !! p)) by eauto.
  assert (Hsize : size (<[p := with_sock c Connecting]> (objects w)) = size (objects w)) by (rewrite map_size_insert, Hc; done).
  constructor; cbn; rewrite ?Hsize; try done.
  - intros q d. rewrite lookup_insert_Some. intros [[<- <-]|[_ Hq]]; [by apply (so_ids0 _ c)|by apply so_ids0].
  - intros q d. rewrite lookup_insert_Some, sends_app, connects_app. intros [[<- <-]|[Hne Hq]].
    + rewrite Hse, Hco. cbn. rewrite decide_True, Hst by done.
      rewrite bool_decide_eq_false_2, bool_decide_eq_true_2 by set_solver. by constructor.
    + cbn. rewrite decide_False, !app_nil_r by done.
      rewrite (bool_decide_ext (q ∈ l) (q ∈ m_WaitReconnet w)) by (rewrite Hw; set_solver).
      rewrite (bool_decide_ext (q ∈ _ ∪ _) (q ∈ m_Reconns w)) by set_solver. by apply so_phase0.
  - intros q. rewrite lookup_insert_None. intros [Hn Hne]. destruct (so_fresh0 q Hn) as (H1 & H2 & H3).
    rewrite sends_app, connects_app. cbn. rewrite decide_False, H1, H2 by done. split_and!; [done|done|set_solver].
  - intros q. rewrite so_clients0. destruct (decide (q = p)) as [->|Hne]; [rewrite lookup_insert_eq; by split; eexists|].
    by rewrite lookup_insert_ne.
  - destruct so_order0 as [st Hord]. exists (st ++ [p]). rewrite <- app_assoc. cbn. by rewrite <- Hw.
  - rewrite Hsz. lia.
  - pose proof (accs_insert w p c (with_sock c Connecting) Hc eq_refl) as He. unfold accs in *. cbn in He |- *. by rewrite He.
  - intros Hi. destruct (so_new0 Hi) as [H1 H2]. by rewrite H1, lookup_empty in Hc.
Qed.

(** What [reConnetClient] leaves: the first clients of the queue, as many as
    there are places, are being connected; nothing else changed. *)
Record reconnected (now : list Z) (w w' : world) (o : list effect) : Prop := {
  rc_wait : m_WaitReconnet w = now ++ m_WaitReconnet w';
  rc_conns : m_Reconns w' = m_Reconns w ∪ list_to_set now;
  rc_effects : o = (fun p => Connect p (default (t_info w) (m_info <$> objects w !! p))) <$> now;
  rc_started : forall p, p ∈ now -> exists c, objects w !! p = Some c /\ objects w' !! p = Some (with_sock c Connecting);
  rc_others : forall p, p ∉ now -> objects w' !! p = objects w !! p;
  rc_clients : m_Clients w' = m_Clients w /\ t_info w' = t_info w /\ m_onceCount w' = m_onceCount w /\ _client_init w' = _client_init w
}.

Lemma reconnect_loop_run fuel w tr :
  sound w tr -> (length (m_WaitReconnet w) < fuel)%nat ->
  exists w' o now, reconnect_loop fuel w = Ret (tt, w', o) /\ sound w' (tr ++ o) /\ reconnected now w w' o /\
    length now = Nat.min (length (m_WaitReconnet w)) (Z.to_nat (m_onceCount w - Z.of_nat (size (m_Reconns w)))).
Proof.
  assert (Hnone : forall w, reconnected [] w w []) by (intros w0; constructor; cbn; try done; set_solver).
  revert w tr. induction fuel as [|fuel IH]; intros w tr Hs Hf; [lia|]. cbn [reconnect_loop].
  rewrite (mbind_pure mget _ w w) by done. destruct (m_WaitReconnet w) as [|p l] eqn:Hw.
  { exists w, [], []. rewrite app_nil_r. by split_and!. }
  destruct (Z.ltb_spec (Z.of_nat (size (m_Reconns w))) (m_onceCount w)) as [Hlt|Hge].
  2: { exists w, [], []. rewrite app_nil_r. split_and!; try done. rewrite Z2Nat.nonpos by lia. by rewrite Nat.min_0_r. }
  destruct (waiting_client w tr p l Hs Hw) as (c & Hc & Hp & Hk & _ & _ & Hpl & _).
  destruct (start_sound w tr p l c Hs Hw Hc Hlt) as [Hs1 Hsz].
  destruct (IH (started w p c l) _ Hs1) as (w' & o & now & Hr & Hs' & Hrc & Hlen); [cbn in *; lia|].
  assert (Hstep : (if p =? 0 then mret' tt else reConnect p ;;;
      mmodify (fun w => set_queues w (m_Clients w) (tail (m_WaitReconnet w)) (m_Reconns w ∪ {[ p ]}))) w =
    Ret (tt, started w p c l, [Connect p (m_info c)])).
  { destruct (Z.eqb_spec p 0); [lia|]. unfold reConnect, connect. rewrite !mbind_assoc, (mbind_pure _ _ _ _ (client_of_run p w c Hc)).
    unfold mbind', memit, put_client, mmodify. cbn. rewrite Hk, Hw. cbn. reflexivity. }
  rewrite (mbind_run _ _ _ _ _ _ Hstep), Hr. exists w', ([Connect p (m_info c)] ++ o), (p :: now).
  destruct Hrc as [R1 R2 R3 R4 R5 R6]. cbn in R1, R2, R3, R4, R5, R6, Hlen, Hsz.
  assert (Hnow : p ∉ now) by (intros Hin; apply Hpl; rewrite R1; set_solver).
  split_and!; [done|by rewrite app_assoc| |rewrite Hsz in Hlen; cbn [length]; lia].
  constructor; cbn.
  - by rewrite Hw, R1.
  - rewrite R2. set_solver.
  - rewrite Hc. cbn. f_equal. rewrite R3. apply list_fmap_ext. intros i q Hq. rewrite lookup_insert_ne; [done|].
    intros ->. by apply Hnow, (list_elem_of_lookup_2 _ i).
  - intros q [->|Hq]%elem_of_cons.
    + exists c. split; [done|]. by rewrite R5, lookup_insert_eq by done.
    + destruct (R4 q Hq) as (d & Hd & Hd'). rewrite lookup_insert_ne in Hd by (by intros ->). eauto.
  - intros q [Hne Hq]%not_elem_of_cons. rewrite R5, lookup_insert_ne by done. done.
  - done.
Qed.

Lemma reConnetClient_run w tr :
  sound w tr ->
  exists w' o now, reConnetClient w = Ret (tt, w', o) /\ sound w' (tr ++ o) /\ reconnected now w w' o /\
    length now = Nat.min (length (m_WaitReconnet w)) (Z.to_nat (m_onceCount w - Z.of_nat (size (m_Reconns w)))).
Proof.
  intros Hs. unfold reConnetClient.
  set (w0 := set_counts w (m_maxCount w) (u32 (m_curCount w + 1)) (m_Online w) (m_TransCount w)).
  assert (Hs0 : sound w0 tr) by (by eapply sound_same; [..|exact Hs]).
  destruct (reconnect_loop_run (S (length (m_WaitReconnet w0))) w0 tr Hs0) as (w' & o & now & Hr & Hs' & [] & Hlen); [lia|].
  exists w', o, now. rewrite (mbind_silent _ _ w tt w0) by done. rewrite (mbind_pure mget _ w0 w0) by done.
  by split_and!.
Qed.

(** *** The start *)

Lemma new_name_fits i : is_u32 i -> sprintf 128 (_virtual_account +:+ "_" +:+ print_u i) = Ret (name_of i).
Proof.
  intros Hi. unfold sprintf, name_of. pose proof (length_print_u i ltac:(unfold is_u32, is_u64 in *; lia)) as Hl.
  generalize dependent (print_u i). intros t Hl.
  assert (String.length (_virtual_account +:+ "_" +:+ t) = (14 + String.length t)%nat) as -> by reflexivity.
  destruct (Z.ltb_spec (Z.of_nat (14 + String.length t)) 128); [done|lia].
Qed.

Definition ready (w : world) : world := set_start w (m_accountBegin w) true.

Lemma add_one_sound k w tr :
  sound (ready w) tr -> k = Z.of_nat (size (objects w)) -> k < 2 ^ 31 ->
  exists w', add_one k w = Ret (tt, w', []) /\ sound (ready w') tr /\ Z.of_nat (size (objects w')) = k + 1 /\
    m_onceTime w' = m_onceTime w.
Proof.
  intros Hs Hk Hlt. unfold add_one, new_Client. rewrite (mbind_pure mget _ w w) by done.
  rewrite mbind_assoc, (mbind_pure mget _ w w) by done. rewrite new_name_fits by apply u32_range.
  set (p := Z.of_nat (S (size (objects w)))). set (c := mk_client _ _ _ _ _ _ _ _).
  destruct Hs. cbn in *.
  assert (Hp : objects w !! p = None).
  { destruct (objects w !! p) as [d|] eqn:Hd; [|done]. destruct (so_ids0 p d Hd). lia. }
  set (w1 := set_objects w (<[p := c]> (objects w))).
  assert (Hc : objects w1 !! p = Some c) by apply lookup_insert_eq.
  assert (Hsz : size (objects w1) = S (size (objects w))) by (cbn; by rewrite map_size_insert, Hp).
  assert (Hids : forall q d, objects w1 !! q = Some d ->
    0 < q <= Z.of_nat (size (objects w1)) /\ _acc d = name_of (u32 (q - 1 + m_accountBegin w))).
  { intros q d. rewrite Hsz. cbn. rewrite lookup_insert_Some. intros [[<- <-]|[_ Hd]].
    - split; [lia|]. cbn. do 3 f_equal. lia.
    - destruct (so_ids0 q d Hd). split; [lia|done]. }
  assert (Hn : names_differ (accs w1)).
  { apply (ids_names _ (m_accountBegin w)). intros q d Hq. destruct (Hids q d Hq). split; [lia|done]. }
  assert (Haccs : accs w1 = <[p := _acc c]> (accs w)) by (unfold accs; cbn; by rewrite fmap_insert).
  assert (Hap : accs w !! p = None) by (unfold accs; by rewrite lookup_fmap, Hp).
  destruct (addOfflineClient_run p c w1 Hc Hn) as (off & on & loff & lon & Hr & Ht & _).
  { rewrite Haccs. destruct so_tables0. constructor; try done.
    - intros a q Ha. rewrite lookup_insert_ne; [by apply off_names0|]. intros ->. by apply off_names0 in Ha; unfold accs in *; simplify_eq/=.
    - intros a q Ha. rewrite lookup_insert_ne; [by apply on_names0|]. intros ->. by apply on_names0 in Ha; unfold accs in *; simplify_eq/=.
    - intros q a Hq. rewrite lookup_insert_ne by done. intros Hqa. apply (one_table0 q a); [tauto|exact Hqa]. }
  rewrite mbind_assoc, (mbind_silent _ _ _ _ _ (put_client_run p c w)). fold w1. rewrite mbind_assoc, (mbind_silent _ _ _ _ _ Hr).
  eexists. split; [reflexivity|]. cbn in Hsz, Hids. split_and!; [|cbn; rewrite Hsz; lia|done].
  destruct (so_fresh0 p Hp) as (Hse & Hco & HR). destruct so_order0 as [st Hord].
  assert (Hpc : p ∉ m_Clients w) by (rewrite so_clients0, Hp; by intros []).
  constructor; cbn; rewrite ?Hsz; try done.
  - by rewrite Hsz in Hids.
  - lia.
  - intros q d. rewrite lookup_insert_Some. intros [[<- <-]|[Hne Hd]].
    + rewrite Hse, Hco, bool_decide_eq_true_2, bool_decide_eq_false_2 by set_solver. constructor.
    + rewrite (bool_decide_ext (q ∈ _ ++ _) (q ∈ m_WaitReconnet w)) by set_solver. by apply so_phase0.
  - intros q. rewrite lookup_insert_None. intros [Hq _]. by apply so_fresh0.
  - intros q. rewrite elem_of_app, list_elem_of_singleton, so_clients0. destruct (decide (q = p)) as [->|Hne].
    + rewrite lookup_insert_eq. split; [eauto|by right].
    + rewrite lookup_insert_ne by done. naive_solver.
  - exists st. by rewrite Hord, app_assoc.
  - apply NoDup_app. split_and!; [done| |apply NoDup_singleton]. set_solver.
Qed.

Lemma addRobot_sound w tr :
  sound (ready w) tr -> objects w = ∅ -> m_maxCount w < 2 ^ 31 ->
  exists w', addRobot w = Ret (tt, w', []) /\ sound (ready w') tr.
Proof.
  intros Hs He Hmax. unfold addRobot. rewrite (mbind_pure mget _ w w) by done.
  assert (Hgen : forall n k w, sound (ready w) tr -> k = Z.of_nat (size (objects w)) -> k + Z.of_nat n <= 2 ^ 31 ->
    exists w', mfor (seqZ k (Z.of_nat n)) add_one w = Ret (tt, w', []) /\ sound (ready w') tr).
  { induction n as [|n IH]; intros k v Hv Hk Hle; [eexists; by split|].
    rewrite seqZ_cons by lia. cbn [mfor].
    destruct (add_one_sound k v tr Hv Hk) as (v1 & Hr & Hv1 & Hk1 & _); [lia|].
    rewrite (mbind_silent _ _ _ _ _ Hr), <- (Z.add_1_r k). replace (Z.pred (Z.of_nat (S n))) with (Z.of_nat n) by lia.
    apply IH; [done|done|lia]. }
  destruct (Z.le_gt_cases 0 (m_maxCount w)) as [H0|H0].
  - destruct (Hgen (Z.to_nat (m_maxCount w)) 0 w Hs) as (w' & Hr & Hs'); [by rewrite He, map_size_empty|lia|].
    rewrite Z2Nat.id in Hr by done. eauto.
  - rewrite seqZ_nil by lia. eexists. by split.
Qed.

(** The range the dialog asks for has an [int]'s length. *)
Definition range_ok (e : event) : Prop :=
  match e with Generate b e' _ => - 2 ^ 31 <= e' - b < 2 ^ 31 | Turn _ _ _ => True end.

Lemma init_wp b e conf w tr :
  sound w tr -> - 2 ^ 31 <= e - b < 2 ^ 31 ->
  wp (init b e conf) (fun _ w' o => sound w' (tr ++ o)) w.
Proof.
  intros Hs Hr. unfold init. wp_steps. destruct (_client_init w) eqn:Hi; cbn [negb]; wp_steps; [by rewrite app_nil_r|].
  destruct (so_new _ _ Hs Hi) as [Ho Hcl].
  assert (Hwt : m_WaitReconnet w = [] /\ m_Reconns w = ∅).
  { split; [destruct (so_order _ _ Hs) as [st Hst]; rewrite Hcl in Hst; by destruct st|].
    apply set_eq. intros p. split; [|set_solver]. intros Hp. destruct (so_fresh _ _ Hs p) as (_ & _ & HR); [by rewrite Ho, lookup_empty|done]. }
  destruct Hwt as [Hwt HR].
  assert (Hbase : forall w', objects w' = objects w -> m_WaitReconnet w' = m_WaitReconnet w ->
    m_Reconns w' = m_Reconns w -> m_Clients w' = m_Clients w -> 0 <= m_onceCount w' ->
    _offline_clients w' = _offline_clients w -> _online_clients w' = _online_clients w ->
    _list_offline w' = _list_offline w -> _list_online w' = _list_online w -> sound w' tr).
  { intros w' H1 H2 H3 H4 H5 H6 H7 H8 H9. assert (accs w' = accs w) as Ha by (unfold accs; by rewrite H1).
    destruct Hs. constructor; rewrite ?Ha, ?H1, ?H2, ?H3, ?H4, ?H6, ?H7, ?H8, ?H9; try done.
    - intros p c. by rewrite Ho, lookup_empty.
    - rewrite HR, size_empty. lia. }
  destruct (Z.ltb_spec (e - b) (- 2 ^ 31)); [lia|]. destruct (Z.leb_spec (2 ^ 31) (e - b)); [lia|]. cbn [orb]. wp_steps.
  destruct conf as [cf|]; wp_steps.
  2: { rewrite app_nil_r. apply Hbase; try done. cbn. pose proof (so_once _ _ Hs). lia. }
  set (w1 := set_config _ _ _ _).
  destruct (addRobot_sound w1 tr) as (w2 & Hrun & Hs2); [apply Hbase; try done; cbn; apply u32_range|done|cbn; lia|].
  unfold run_post at 1. rewrite Hrun. wp_steps. cbn [app].
  apply sends_quiet; [done|]. eapply sound_same; [..|exact Hs2]; done.
Qed.

Lemma update_client_wp polled p w tr :
  sound w tr -> is_Some (objects w !! p) ->
  wp (update_client polled p) (fun _ w' o => sound w' (tr ++ o) /\ m_Clients w' = m_Clients w) w.
Proof.
  intros Hs Hp. unfold update_client. destruct (p =? 0); [wp_steps; by rewrite app_nil_r|]. wp_steps.
  eapply wp_mono.
  { apply (wp_for False (fun w' tr' => sound w' tr' /\ is_Some (objects w' !! p) /\ m_Clients w' = m_Clients w)
      (polled p) (poll p) w tr); [done|].
    intros e w1 tr1 _ (Hs1 & Hp1 & Hc1). eapply wp_mono; [by apply poll_wp|]. intros _ w2 o (Hs2 & Hp2 & Hc2).
    by rewrite Hc2. }
  intros u w1 o1 (Hs1 & [c Hc] & Hcl). apply wp_bind. unfold run_post at 1. rewrite (client_of_run p w1 c Hc). wp_steps.
  rewrite app_nil_r. split; [|done]. by eapply sound_same; [..|exact Hs1].
Qed.

Lemma reConnetClient_wp w tr :
  sound w tr -> wp reConnetClient (fun _ w' o => sound w' (tr ++ o)) w.
Proof. intros Hs. destruct (reConnetClient_run w tr Hs) as (w' & o & now & Hr & Hs' & _). unfold run_post. by rewrite Hr. Qed.

Lemma runOnce_wp polled fired nDiff w tr :
  sound w tr -> wp (runOnce polled fired nDiff) (fun _ w' o => sound w' (tr ++ o)) w.
Proof.
  intros Hs. unfold runOnce. wp_steps. set (w0 := set_counts _ _ _ _ _).
  assert (Hs0 : sound w0 tr) by (by eapply sound_same; [..|exact Hs]).
  eapply (wp_mono False _ (fun _ w' o => sound w' (tr ++ o))).
  { destruct (_client_init w0); [|wp_steps; by rewrite app_nil_r].
    eapply wp_mono; [apply (wp_for False (fun w' tr' => sound w' tr' /\ m_Clients w' = m_Clients w0) _ _ w0 tr); [done|]|].
    - intros p w1 tr1 Hp [Hs1 Hc1]. eapply wp_mono; [apply update_client_wp; [exact Hs1|]|].
      + apply (so_clients _ _ Hs1). by rewrite Hc1.
      + intros _ w2 o [Hs2 Hc2]. by rewrite Hc2.
    - by intros _ w1 o [H1 _]. }
  intros _ w1 o1 Hs1. wp_steps.
  eapply wp_mono; [apply (wp_for False sound _ (fun _ => reConnetClient) w1 (tr ++ o1) Hs1)|].
  { intros _ w2 tr2 _ Hs2. by apply reConnetClient_wp. }
  intros u w2 o2 Hs2. cbn beta in Hs2. wp_steps.
  destruct (_ && _); wp_steps; rewrite ?app_nil_r, ?app_assoc, ?app_nil_r; cbn [app].
  - apply sends_quiet; [done|]. by eapply sound_same; [..|exact Hs2].
  - by eapply sound_same; [..|exact Hs2].
Qed.

Lemma construct_sound : sound construct [].
Proof.
  constructor; cbn; try done.
  - intros p. rewrite elem_of_nil, lookup_empty. by split; [|intros []].
  - by exists [].
  - constructor.
Qed.

Lemma run_sound l :
  Forall range_ok l -> wp (run l) (fun _ w' o => sound w' o) construct.
Proof.
  intros Hl. eapply (wp_mono False _ (fun _ w' o => sound w' ([] ++ o))); [|done].
  unfold run. apply (wp_for False sound); [exact construct_sound|].
  intros e w tr He Hs. rewrite Forall_forall in Hl. specialize (Hl e He). destruct e as [b e conf|polled fired nDiff]; cbn [handle].
  - wp_steps. eapply wp_mono; [by apply init_wp|]. intros r w1 o H1. wp_steps. by rewrite app_nil_r.
  - by apply runOnce_wp.
Qed.

(** ** Places that are never given back *)

(** The clients of [D] hold places among the connecting ones and have no
    connection under way. *)
Definition dead (D : gset Z) (w : world) : Prop :=
  D ⊆ m_Reconns w /\ forall p, p ∈ D -> exists c, objects w !! p = Some c /\ sock c = Closed.

Lemma poll_dead p c e w tr D :
  sound w tr -> objects w !! p = Some c -> dead D w ->
  exists w' o, poll p e w = Ret (tt, w', o) /\ sound w' (tr ++ o) /\ dead D w' /\ is_Some (objects w' !! p) /\
    m_WaitReconnet w' = m_WaitReconnet w /\ m_Clients w' = m_Clients w /\ m_onceCount w' = m_onceCount w /\
    _client_init w' = _client_init w.
Proof.
  intros Hs Hc [HD Hcl]. destruct (poll_touches p c e w tr Hs Hc) as (w' & o & Hr & Ht).
  exists w', o. split; [done|]. split; [by eapply touches_sound|].
  destruct Ht as (c' & R & off & on & loff & lon & -> & Ha & HR & Ho & Hk & Hph & Htab). cbn.
  split; [|rewrite lookup_insert_eq; split_and!; eauto].
  assert (Hpd : p ∈ D -> R = m_Reconns w /\ sock c' = Closed).
  { intros Hp. destruct (Hcl p Hp) as (d & Hd & Hkd). assert (d = c) as -> by congruence.
    destruct HR as [->|[Hx _]]; [|congruence]. split; [done|]. pose proof (so_phase _ _ Hs p c Hc) as Hph0.
    rewrite (bool_decide_eq_true_2 (p ∈ m_Reconns w)) in Hph, Hph0 by set_solver.
    inversion Hph0 as [|k i Hk0 E1 E2 E3 E4 E5 E6| | |]; subst.
    inversion Hph as [|k j Hk1 F1 F2 F3 F4 F5 F6| | |]; subst. rewrite connects_app, <- E6 in F6. destruct (sock c') eqn:Hc'; try done.
    destruct Hk as [Hk|Hk]; [done|congruence|]. by destruct (connects p o). }
  split; [destruct HR as [->|[_ ->]]; [done|]; cbn|].
  - intros q Hq. apply elem_of_difference. split; [set_solver|]. intros ->%elem_of_singleton.
    destruct (Hpd Hq) as [HR' _]. cbn in *. set_solver.
  - intros q Hq. cbn. destruct (decide (q = p)) as [->|Hne].
    + rewrite lookup_insert_eq. destruct (Hpd Hq). eauto.
    + rewrite lookup_insert_ne by done. auto.
Qed.

(** The same kept by everything the process does; the queue moves only when there
    are places besides those of [D]. *)
Definition kept (D : gset Z) (w w' : world) : Prop :=
  dead D w' /\ m_onceCount w' = m_onceCount w /\ _client_init w' = true /\ m_Clients w' = m_Clients w /\
  (m_onceCount w <= Z.of_nat (size D) -> m_WaitReconnet w' = m_WaitReconnet w).

Lemma reConnetClient_kept D w0 w tr :
  sound w tr -> kept D w0 w ->
  wp reConnetClient (fun _ w' o => sound w' (tr ++ o) /\ kept D w0 w') w.
Proof.
  intros Hs ([HD Hcl] & Honce & Hi & Hcs & Hw).
  destruct (reConnetClient_run w tr Hs) as (w' & o & now & Hr & Hs' & [R1 R2 R3 R4 R5 (R6 & R7 & R8 & R9)] & Hlen).
  unfold run_post. rewrite Hr. split; [done|]. unfold kept. rewrite R6, R8, R9. split_and!; [split|..]; try done.
  - rewrite R2. set_solver.
  - intros p Hp. destruct (Hcl p Hp) as (c & Hc & Hk). exists c. split; [|done]. rewrite R5; [done|]. intros Hin.
    assert (Hwait : p ∈ m_WaitReconnet w) by (rewrite R1; set_solver).
    pose proof (so_phase _ _ Hs p c Hc) as Hph. rewrite bool_decide_eq_true_2 in Hph by done.
    rewrite bool_decide_eq_true_2 in Hph by set_solver. by inversion Hph.
  - intros Hle. rewrite <- Hw by done. pose proof (subseteq_size _ _ HD) as Hsz.
    rewrite Z2Nat.nonpos, Nat.min_0_r in Hlen by lia. destruct now; [by rewrite R1|done].
Qed.

Lemma update_client_kept D polled p w0 w tr :
  sound w tr -> kept D w0 w -> is_Some (objects w !! p) ->
  wp (update_client polled p) (fun _ w' o => sound w' (tr ++ o) /\ kept D w0 w') w.
Proof.
  intros Hs Hkp Hp. unfold update_client. destruct (p =? 0); [wp_steps; by rewrite app_nil_r|]. wp_steps.
  eapply wp_mono.
  { apply (wp_for False (fun w' tr' => sound w' tr' /\ kept D w0 w' /\ is_Some (objects w' !! p)) (polled p) (poll p) w tr); [done|].
    intros e w1 tr1 _ (Hs1 & (Hd & H1 & H2 & H3 & H4) & [c Hc]).
    destruct (poll_dead p c e w1 tr1 D Hs1 Hc Hd) as (w2 & o & Hr & Hs2 & Hd2 & Hp2 & E1 & E2 & E3 & E4).
    unfold run_post. rewrite Hr. unfold kept. rewrite E1, E2, E3, E4. done. }
  intros u w1 o1 (Hs1 & Hkp1 & [c Hc]). apply wp_bind. unfold run_post at 1. rewrite (client_of_run p w1 c Hc). wp_steps.
  rewrite app_nil_r. split; [|done]. by eapply sound_same; [..|exact Hs1].
Qed.

Lemma handle_kept D e w0 w tr :
  range_ok e -> sound w tr -> kept D w0 w -> wp (handle e) (fun _ w' o => sound w' (tr ++ o) /\ kept D w0 w') w.
Proof.
  intros He Hs Hkp. destruct e as [b e conf|polled fired nDiff]; cbn [handle].
  - unfold init. wp_steps. destruct Hkp as (? & ? & Hi & ?). rewrite Hi. cbn [negb]. wp_steps. by rewrite !app_nil_r.
  - unfold runOnce. wp_steps. set (w1 := set_counts _ _ _ _ _).
    assert (Hs1 : sound w1 tr) by (by eapply sound_same; [..|exact Hs]).
    assert (Hk1 : kept D w0 w1) by done.
    eapply (wp_mono False _ (fun _ w' o => sound w' (tr ++ o) /\ kept D w0 w')).
    { destruct (_client_init w1); [|wp_steps; by rewrite app_nil_r].
      apply (wp_for False (fun w' tr' => sound w' tr' /\ kept D w0 w') _ _ w1 tr); [done|].
      intros p w2 tr2 Hp [Hs2 Hk2]. apply update_client_kept; [done..|]. apply (so_clients _ _ Hs2).
      destruct Hk2 as (_ & _ & _ & -> & _). destruct Hk1 as (_ & _ & _ & Hcl & _). by rewrite <- Hcl. }
    intros u w2 o2 [Hs2 Hk2]. wp_steps.
    eapply wp_mono; [apply (wp_for False (fun w' tr' => sound w' tr' /\ kept D w0 w') _ (fun _ => reConnetClient) w2 (tr ++ o2)); [done|]|].
    { intros _ w3 tr3 _ [Hs3 Hk3]. by apply reConnetClient_kept. }
    intros u' w3 o3 [Hs3 Hk3]. wp_steps.
    destruct (_ && _); wp_steps; rewrite ?app_nil_r, ?app_assoc, ?app_nil_r; cbn [app]; (split; [|done]).
    + apply sends_quiet; [done|]. by eapply sound_same; [..|exact Hs3].
    + by eapply sound_same; [..|exact Hs3].
Qed.

(** ** The way of one client through the servers *)

Lemma poll_sound p e w tr w' o :
  sound w tr -> is_Some (objects w !! p) -> poll p e w = Ret (tt, w', o) -> sound w' (tr ++ o).
Proof. intros Hs Hp Hr. pose proof (poll_wp p e w tr Hs Hp) as H. unfold run_post in H. rewrite Hr in H. by destruct H. Qed.

Lemma opened_login_run p c w :
  objects w !! p = Some c -> sock c = Connecting -> m_client_state c = _client_init_ ->
  exists w', poll p Opened w = Ret (tt, w', [Send p (LoginRequest (_acc c) "123456")]) /\
    objects w' !! p = Some (with_state (with_sock c Connected) _client_conn_login_).
Proof.
  intros Hc Hk Hst. unfold poll. rewrite (mbind_pure _ _ _ _ (client_of_run p w c Hc)), decide_True by done.
  unfold set_sock, on_connect, removeFromReconn, client_of, mbind', mget, mmodify, memit, mret', put_client. cbn.
  rewrite Hc. cbn. rewrite lookup_insert_eq. cbn. rewrite Hst. eexists. split; [reflexivity|]. cbn. apply lookup_insert_eq.
Qed.

Lemma opened_gate_run p c w :
  objects w !! p = Some c -> sock c = Connecting -> m_client_state c = _client_wait_gate_ ->
  exists w', poll p Opened w = Ret (tt, w', [Send p (LoginGame (m_transid c))]) /\
    objects w' !! p = Some (with_state (with_sock c Connected) _client_connet_gate_).
Proof.
  intros Hc Hk Hst. unfold poll. rewrite (mbind_pure _ _ _ _ (client_of_run p w c Hc)), decide_True by done.
  unfold set_sock, on_connect, removeFromReconn, client_of, mbind', mget, mmodify, memit, mret', put_client. cbn.
  rewrite Hc. cbn. rewrite lookup_insert_eq. cbn. rewrite Hst. eexists. split; [reflexivity|]. cbn. apply lookup_insert_eq.
Qed.

Lemma answered_run p c w gate_ip gate_port t :
  objects w !! p = Some c -> is_u32 t -> is_u16 gate_port ->
  exists w', poll p (FromLogin (Login.LoginResponse gate_ip gate_port t)) w = Ret (tt, w', [CloseSocket p]) /\
    objects w' !! p = Some (with_login c t (mk_info gate_ip gate_port) true).
Proof.
  intros Hc Ht Hp. unfold poll, parseLoginResult. rewrite !(mbind_pure _ _ _ _ (client_of_run p w c Hc)).
  rewrite u32_id, u16_id by done. eexists. split; [reflexivity|]. apply lookup_insert_eq.
Qed.

Lemma lost_ready_run p c w tr :
  sound w tr -> objects w !! p = Some c -> m_client_state c = _client_conn_login_ -> m_ready_connect_gate c = true ->
  sock c = Connected ->
  exists w', poll p Lost w = Ret (tt, w', [Connect p (m_info c)]) /\
    objects w' !! p = Some (with_sock (with_state (lose_sock c) _client_wait_gate_) Connecting).
Proof.
  intros Hs Hc Hst Hrd Hk. pose proof (so_tables _ _ Hs) as Htab. pose proof (sound_names _ _ Hs) as Hn.
  unfold poll. rewrite (mbind_pure _ _ _ _ (client_of_run p w c Hc)), (mbind_silent _ _ _ _ _ (lose_sock_run p c w Hc)).
  unfold on_close. set (c1 := lose_sock c). set (w1 := set_objects w (<[p := c1]> (objects w))).
  assert (Hc1 : objects w1 !! p = Some c1) by apply lookup_insert_eq.
  assert (Hw1 : accs w1 = accs w) by (by eapply accs_insert).
  destruct (offline_again p c1 w1 Hc1) as (off & on & loff & lon & Hr & Ht1 & _); [by rewrite Hw1|by rewrite Hw1|].
  rewrite (mbind_silent _ _ _ _ _ Hr). set (w2 := set_lists w1 off on loff lon) in *.
  set (c3 := with_sock (with_state c1 _client_wait_gate_) Connecting). set (w3 := set_objects w2 (<[p := c3]> (objects w2))).
  assert (Hr3 : close_switch p w2 = Ret (tt, w3, [Connect p (m_info c)])).
  { unfold close_switch. rewrite (mbind_pure _ _ _ _ (client_of_run p w2 c1 Hc1)). unfold c1, lose_sock. cbn. rewrite Hst, Hrd.
    unfold connect, put_client, client_of, mbind', mget, mmodify, memit, mret'. cbn. rewrite lookup_insert_eq. cbn.
    unfold w3, c3, c1, lose_sock. cbn. rewrite Hk, !insert_insert_eq. reflexivity. }
  assert (Hc3 : objects w3 !! p = Some c3) by apply lookup_insert_eq.
  assert (Hw3 : accs w3 = accs w) by (rewrite <- Hw1; change (accs w1) with (accs w2); by eapply accs_insert).
  destruct (offline_again p c3 w3 Hc3) as (off' & on' & loff' & lon' & Hr' & _ & _).
  { by rewrite Hw3. } { rewrite Hw3, <- Hw1. exact Ht1. }
  rewrite (mbind_run _ _ _ _ _ _ Hr3), Hr'. eexists. split; [reflexivity|exact Hc3].
Qed.

Lemma hero_init_run p c w tr :
  sound w tr -> objects w !! p = Some c ->
  exists w', poll p HeroInit w = Ret (tt, w', []) /\ _online_clients w' !! _acc c = Some p /\
    _offline_clients w' !! _acc c = None.
Proof.
  intros Hs Hc. unfold poll, parseMsgHeroInit. rewrite (mbind_pure _ _ _ _ (client_of_run p w c Hc)).
  destruct (addOnlineClient_run p c w Hc) as (off & on & loff & lon & Hr & Ht & Hon).
  { by eapply sound_names. } { by eapply tables_weaken; [|exact (so_tables _ _ Hs)]. }
  rewrite Hr. eexists. split; [done|]. split; [done|]. cbn.
  assert (Ha : accs w !! p = Some (_acc c)) by (unfold accs; by rewrite lookup_fmap, Hc).
  destruct (one_table _ _ _ _ _ _ Ht p (_acc c)) as [[_ H]|[H _]]; [tauto|done|congruence|done].
Qed.

(** From the connect to the login server up to the request to the gate. *)
Lemma robot_run p c w tr gate_ip gate_port t :
  sound w tr -> objects w !! p = Some c -> sock c = Connecting -> m_client_state c = _client_init_ ->
  is_u32 t -> is_u16 gate_port ->
  exists w1 w2 w3 w4,
    poll p Opened w = Ret (tt, w1, [Send p (LoginRequest (_acc c) "123456")]) /\
    poll p (FromLogin (Login.LoginResponse gate_ip gate_port t)) w1 = Ret (tt, w2, [CloseSocket p]) /\
    poll p Lost w2 = Ret (tt, w3, [Connect p (mk_info gate_ip gate_port)]) /\
    poll p Opened w3 = Ret (tt, w4, [Send p (LoginGame t)]) /\
    exists tr' c', sound w4 tr' /\ objects w4 !! p = Some c' /\ _acc c' = _acc c.
Proof.
  intros Hs Hc Hk Hst Ht Hport.
  destruct (opened_login_run p c w Hc Hk Hst) as (w1 & R1 & C1).
  pose proof (poll_sound _ _ _ _ _ _ Hs ltac:(eauto) R1) as S1.
  destruct (answered_run p _ w1 gate_ip gate_port t C1 Ht Hport) as (w2 & R2 & C2).
  pose proof (poll_sound _ _ _ _ _ _ S1 ltac:(eauto) R2) as S2.
  destruct (lost_ready_run p _ w2 _ S2 C2) as (w3 & R3 & C3); [done..|].
  pose proof (poll_sound _ _ _ _ _ _ S2 ltac:(eauto) R3) as S3.
  destruct (opened_gate_run p _ w3 C3) as (w4 & R4 & C4); [done..|].
  pose proof (poll_sound _ _ _ _ _ _ S3 ltac:(eauto) R4) as S4.
  exists w1, w2, w3, w4. split_and!; [done..|]. eauto.
Qed.

(** ** What holds of every run *)

Definition reachable (w : world) (o : list effect) : Prop :=
  exists l, Forall range_ok l /\ run l construct = Ret (tt, w, o).

Lemma reachable_sound w o : reachable w o -> sound w o.
Proof. intros (l & Hl & Hr). pose proof (run_sound l Hl) as H. unfold run_post in H. by rewrite Hr in H. Qed.


(** In every reachable state each client is in exactly one of the tables of those
    on line and off line, under its own account name, and the dialog's two list
    boxes show exactly the names of the two tables. *)
Theorem clients_listed_once w o :
  reachable w o ->
  (forall p c, objects w !! p = Some c ->
    (_offline_clients w !! _acc c = Some p /\ _online_clients w !! _acc c = None) \/
    (_offline_clients w !! _acc c = None /\ _online_clients w !! _acc c = Some p)) /\
  (forall a p, _offline_clients w !! a = Some p \/ _online_clients w !! a = Some p ->
    exists c, objects w !! p = Some c /\ _acc c = a) /\
  _list_offline w ≡ₚ keys (_offline_clients w) /\ _list_online w ≡ₚ keys (_online_clients w).
Proof.
  intros Hs%reachable_sound. destruct (so_tables _ _ Hs) as [Hoff Hon Hone H1 H2]. split_and!; [| |done|done].
  - intros p c Hc. apply Hone; [tauto|]. unfold accs. by rewrite lookup_fmap, Hc.
  - intros a p [H|H]; [apply Hoff in H|apply Hon in H]; unfold accs in H; rewrite lookup_fmap in H;
      apply fmap_Some in H as (c & Hc & ->); eauto.
Qed.

(** When its timer fires in a reachable state, the test client connects the first
    clients of its queue, as many as there are free places ([m_onceCount] less the
    clients connecting), in order and each to its address; it never connects more
    than [m_onceCount] at a time, and touches no other client. *)
Theorem reConnetClient_starts w o :
  reachable w o ->
  exists w' now, reConnetClient w = Ret (tt, w', (fun p => Connect p (default (t_info w) (m_info <$> objects w !! p))) <$> now) /\
    length now = Nat.min (length (m_WaitReconnet w)) (Z.to_nat (m_onceCount w - Z.of_nat (size (m_Reconns w)))) /\
    m_WaitReconnet w = now ++ m_WaitReconnet w' /\ m_Reconns w' = m_Reconns w ∪ list_to_set now /\
    Z.of_nat (size (m_Reconns w')) <= m_onceCount w' /\
    (forall p, p ∈ now -> exists c, objects w !! p = Some c /\ objects w' !! p = Some (with_sock c Connecting)) /\
    (forall p, p ∉ now -> objects w' !! p = objects w !! p).
Proof.
  intros Hs%reachable_sound. destruct (reConnetClient_run w o Hs) as (w' & o' & now & Hr & Hs' & [] & Hlen).
  exists w', now. rewrite Hr, rc_effects0. split_and!; try done. apply Hs'.
Qed.

(** A place taken by a client whose connect failed is never given back: clients
    that hold a place without a connect under way keep it through everything that
    happens later, and once they fill all [m_onceCount] places the queue stands
    still for ever, whatever the network and the servers do. *)
Theorem dead_places_block w o D l :
  reachable w o -> _client_init w = true -> dead D w -> Forall range_ok l ->
  exists w' o', run l w = Ret (tt, w', o') /\ dead D w' /\
    (m_onceCount w <= Z.of_nat (size D) -> m_WaitReconnet w' = m_WaitReconnet w).
Proof.
  intros Hs%reachable_sound Hi Hd Hl. assert (H0 : kept D w w) by done.
  assert (wp (run l) (fun _ w' o' => sound w' (o ++ o') /\ kept D w w') w) as Hwp.
  { apply (wp_for False (fun w' tr' => sound w' tr' /\ kept D w w') l handle w o); [done|].
    intros e w1 tr1 He [Hs1 Hk1]. rewrite Forall_forall in Hl. apply handle_kept; auto. }
  destruct (wp_run _ _ _ Hwp) as ([] & w' & o' & Hr & _ & Hd' & _ & _ & _ & Hq). eauto 10.
Qed.

(** *** Three clients, two places *)

Definition demo_conf : robot_config := mk_config 2 22000 50 "10.0.0.9".
Definition quiet : Z -> list net_event := fun _ => [].

(** Clients 1 and 2 are refused by the login server, 3 waits. *)
Definition refused : list event := [Generate 0 3 (Some demo_conf); Turn quiet 1 100; Turn (fun _ => [Failed]) 1 100].

Definition refused_world : world :=
  match run refused construct with Ret (_, w, _) => w | UB _ => construct end.
Definition refused_effects : list effect :=
  match run refused construct with Ret (_, _, o) => o | UB _ => [] end.

Lemma refused_ok : Forall range_ok refused.
Proof. repeat (constructor; [by (cbn; lia) || done|]). constructor. Qed.

Lemma client_refused_run : run refused construct = Ret (tt, refused_world, refused_effects).
Proof. vm_compute. reflexivity. Qed.

Lemma refused_reachable : reachable refused_world refused_effects.
Proof. exists refused. split; [exact refused_ok|exact client_refused_run]. Qed.

Lemma refused_dead : dead {[1; 2]} refused_world.
Proof.
  split; [by apply (bool_decide_unpack _); vm_compute|].
  intros p [->%elem_of_singleton| ->%elem_of_singleton]%elem_of_union; eexists; (split; [vm_compute; reflexivity|done]).
Qed.


Lemma clients_listed_once_witness :
  _list_offline refused_world ≡ₚ keys (_offline_clients refused_world) /\
  _list_offline refused_world = ["virtual_count_0"; "virtual_count_1"; "virtual_count_2"].
Proof.
  split; [|vm_compute; reflexivity].
  destruct (clients_listed_once refused_world refused_effects refused_reachable) as (_ & _ & H & _). exact H.
Defined.

Lemma reConnetClient_starts_witness :
  exists w' now, length now = 0%nat /\ m_WaitReconnet refused_world = now ++ m_WaitReconnet w'.
Proof.
  destruct (reConnetClient_starts refused_world refused_effects refused_reachable) as (w' & now & _ & Hl & Hw & _).
  exists w', now. split; [rewrite Hl; vm_compute; reflexivity|exact Hw].
Defined.

Lemma dead_places_block_witness :
  exists w' o', run [Turn (fun _ => [Opened; Lost]) 1000 5000] refused_world = Ret (tt, w', o') /\ m_WaitReconnet w' = [3].
Proof.
  destruct (dead_places_block refused_world refused_effects {[1; 2]} [Turn (fun _ => [Opened; Lost]) 1000 5000]
    refused_reachable ltac:(vm_compute; reflexivity) refused_dead ltac:(constructor; [done|constructor])) as (w' & o' & Hr & _ & Hw).
  exists w', o'. split; [exact Hr|]. rewrite Hw; vm_compute; [reflexivity|discriminate].
Defined.

(** A connect to the gate that fails is given up: [on_connect_failed] asks for the
    state that [on_connect] sets after the connect has succeeded. *)
Lemma failed_gate_connect_given_up w o p c :
  reachable w o -> objects w !! p = Some c -> m_client_state c = _client_wait_gate_ -> sock c = Connecting ->
  exists w', poll p Failed w = Ret (tt, w', []) /\ m_WaitReconnet w' = m_WaitReconnet w /\
    objects w' !! p = Some (with_sock c Closed) /\ p ∉ m_WaitReconnet w'.
Proof.
  intros Hs%reachable_sound Hc Hst Hk. unfold poll. rewrite (mbind_pure _ _ _ _ (client_of_run p w c Hc)), decide_True by done.
  unfold set_sock, on_connect_failed, client_of, mbind', mget, mmodify, mret', put_client. cbn.
  rewrite Hc. cbn. rewrite lookup_insert_eq. cbn. rewrite Hst. cbn. eexists. split; [reflexivity|]. cbn.
  rewrite lookup_insert_eq. split_and!; [done|done|]. pose proof (so_phase _ _ Hs p c Hc) as Hph. rewrite Hst in Hph.
  inversion Hph as [| | |k i j Hne E1 E2 E3 E4|]. symmetry in E3. by apply bool_decide_eq_false_1 in E3.
Qed.

(** The names [GenerateAccount] builds run on: each contains the ones before it. *)
Example generated_names_run_on : GenerateAccount 3 6 = ["_3"; "_3_4"; "_3_4_5"].
Proof. vm_compute. reflexivity. Qed.
