(* ===== verification/SystemFlow.v ===== *)
(** The five processes together: a test client ([VirtualClient]), the login server
    ([Login]), a gate ([Gate]), a game server ([GameServer]) and the database
    server ([DbQuest]), joined by what each sends and the next receives. *)

From Stdlib Require Import Ascii String.
From S2P Require Import Prelude CommonTemplate Text GameData GameWorld DreamHero HeroSave GameServer DbQuest ServerFrame Login Gate LoginFlow VirtualClient.
From stdpp Require Import prelude gmap strings list.
#[local] Open Scope Z_scope.

Module SystemFlow.
Import Messages.

(** *** The wires of the test client

    [p] is the client, [s] the login server's name for its first connection, [k]
    the gate's for its second. *)

(** [UserLoginSession::initPBModule] *)
Definition login_gets (p s : Z) (e : VirtualClient.effect) : list Login.event :=
  match e with
  | VirtualClient.Send q (VirtualClient.LoginRequest name pwd) => if q =? p then [Login.LoginRequest s name pwd] else []
  | _ => []
  end.

(** [UserSession::initPBModule] *)
Definition gate_gets (p k : Z) (e : VirtualClient.effect) : list Gate.event :=
  match e with
  | VirtualClient.Send q (VirtualClient.LoginGame t) => if q =? p then [Gate.LoginGame k t] else []
  | _ => []
  end.

(** [Client::initPBModule], the login server's answer. *)
Definition client_hears (s : Z) (e : Login.effect) : list VirtualClient.net_event :=
  match e with
  | Login.ToUser s' m => if s' =? s then [VirtualClient.FromLogin m] else []
  | _ => []
  end.

(** *** The wires of the game server

    [gm] is the gate's name for the game server, [gt] the game server's for the
    gate, [dg] the database server's for the game server. *)

(** [GameSession::initPBModule] of the database server. *)
Definition db_hears (dg : Z) (e : GameWorld.effect) : list DbQuest.event :=
  match e with
  | GameWorld.SendDB (MsgReqHeroDataGS2DB a) t => [DbQuest.Request dg t (DbQuest.MsgReqHeroData a)]
  | GameWorld.SendDB (MsgSaveDataGS2DB sql) t => [DbQuest.Request dg t (DbQuest.MsgSaveData sql)]
  | GameWorld.SendDB MsgSaveAllHeroesGS2DB t => [DbQuest.Request dg t DbQuest.MsgSaveAllHeroes]
  | GameWorld.SendDB (MsgVerifyToyGS2DB k (Some a)) t => [DbQuest.Request dg t (DbQuest.MsgVerifyToy k a)]
  | _ => []
  end.

(** [GameDBClient::initPBModule] *)
Definition game_gets (dg : Z) (e : DbQuest.effect) : list GameServer.event :=
  match e with
  | DbQuest.SendGame g t m =>
      if g =? dg then
        match m with
        | DbQuest.NeedCreateHeroDB2GS => [GameServer.DbNeedCreate t]
        | DbQuest.HeroDataDB2GS i => [GameServer.DbHeroInfo t i]
        | DbQuest.SaveAllHeroesDB2GS => [GameServer.DbSaveAllHeroes]
        | DbQuest.VerifyToyDB2GS toy a => [GameServer.DbVerifyToy t toy a]
        end
      else []
  | _ => []
  end.

(** The gate passes a message on without looking at it: [code] is its
    serialisation. *)
Section payload.
Context (code : s2c -> Z) (parse : Z -> VirtualClient.net_event).

Definition gate_passes (gt : Z) (e : GameWorld.effect) : list Gate.event :=
  match e with
  | GameWorld.SendClient g t m => if g =? gt then [Gate.GameMsg (code m) t] else []
  | _ => []
  end.

Definition client_gets (k : Z) (e : Gate.effect) : list VirtualClient.net_event :=
  match e with
  | Gate.ToClient s q _ => if s =? k then [parse q] else []
  | _ => []
  end.

End payload.

(** What the handlers registered in [Client::initPBModule] do with a message. *)
Definition reaction (m : s2c) : VirtualClient.net_event :=
  match m with S2CMsgHeroInit _ => VirtualClient.HeroInit | _ => VirtualClient.OtherMessage end.

End SystemFlow.

Import Messages GameWorld GameServer LoginFlow SystemFlow.

#[local] Opaque Login.gate_indices.

(** ** What passes over the wires *)

Lemma wire_map {A B C} (f : B -> list C) (g : A -> B) (h : A -> C) (l : list A) :
  (forall a, f (g a) = [h a]) -> wire f (map g l) = map h l.
Proof.
  intros H. unfold wire. induction l as [|a l IH]; [done|].
  change (f (g a) ++ mjoin (f <$> map g l) = h a :: map h l). by rewrite H, IH.
Qed.

(** A player's messages come down through the gate. *)
Lemma relay_down_run plat idle_max w k t (qs : list Z) :
  Gate.m_onlines w !! t = Some k ->
  Gate.run plat idle_max (map (fun q => Gate.GameMsg q t) qs) w =
  Ret (tt, w, map (fun q => Gate.ToClient k q t) qs).
Proof.
  intros Ho. unfold Gate.run. induction qs as [|q qs IH]; [done|]. cbn [map mfor Gate.handle].
  unfold Gate.game_parseGameMsg, mbind' at 1 2, mget, Gate.getUserSession, ObjPtrMap.getData, memit. rewrite Ho. cbn. by rewrite IH.
Qed.

(** The database server's part, for an account that has no row. *)
Lemma no_hero_run localtime now db dg n a t ct :
  DbQuest.game_id_of db dg = n -> 0 < n < 0xff -> DbQuest.m_Games db !! n = Some dg -> is_u32 a ->
  exists cb sql,
    mfor [DbQuest.Request dg t (DbQuest.MsgReqHeroData a)] DbQuest.handle db =
      Ret (tt, db, [DbQuest.AddSQueryTask cb sql DbQuest._QUERY_HERO_INFO_]) /\
    mfor [DbQuest.Result localtime now ct cb (Some [])] DbQuest.handle db =
      Ret (tt, db, [DbQuest.SendGame dg t DbQuest.NeedCreateHeroDB2GS]).
Proof.
  intros Hid Hn Hg Ha. eexists (DbQuest.DoQueryHeroInfo (DbQuest.mk_tg a t n DbQuest.empty_info)), _. split.
  - cbn [mfor DbQuest.handle]. unfold DbQuest.parseRequest.
    rewrite mbind_assoc, (mbind_pure mget _ db db), Hid by done. unfold DbQuest.queryHeroInfo.
    rewrite query_text_fits by ((unfold is_u32, is_u64 in *; lia) || (vm_compute; lia)). reflexivity.
  - cbn [mfor DbQuest.handle DbQuest.execute]. unfold DbQuest.dbDoQueryHeroInfo, DbQuest.sendMessage.
    cbn [DbQuest.tranid DbQuest.gsid]. unfold DbQuest.INVALID_GATE_ID, DbQuest.MAX_GATE_ID.
    destruct (Z.ltb_spec 0 n); [|lia]. destruct (Z.ltb_spec n 0xff); [|lia]. cbn [andb].
    rewrite mbind_assoc, (mbind_pure mget _ db db), Hg by done. reflexivity.
Qed.

(** ** From the first connect to the game *)

(** The client stays at its events while messages it does not react to arrive. *)
Lemma reactions_run p c w tr (l : list s2c) :
  VirtualClient.sound w tr -> VirtualClient.objects w !! p = Some c ->
  Forall (fun m => reaction m = VirtualClient.OtherMessage) l ->
  mfor (map reaction l) (VirtualClient.poll p) w = Ret (tt, w, []).
Proof.
  intros Hs Hc. induction 1 as [|m l Hm Hl IH]; [done|]. cbn [map mfor]. rewrite Hm.
  rewrite (mbind_pure _ _ w tt); [exact IH|]. unfold VirtualClient.poll. by rewrite (mbind_pure _ _ _ _ (client_of_run p w c Hc)).
Qed.

(** A new hero's messages end with its data. *)
Lemma init_messages_split h :
  exists l, init_messages h = l ++ [S2CMsgHeroInit (_info h)] /\ Forall (fun m => reaction m = VirtualClient.OtherMessage) l.
Proof.
  unfold init_messages. set (e := if bool_decide _ then _ else _). eexists (e ++ [_]). split; [by rewrite <- app_assoc|].
  apply Forall_app. split; [|by repeat constructor]. unfold e. case_bool_decide; by repeat constructor.
Qed.

(** C14: A test client gets into the game through all five processes.  Take a client
    whose connect to the login server is under way, a login server, a gate, a
    game server and a database server in any states in which the account is
    nowhere yet and the gate and the game server are registered, and pass on what
    each sends.  The client's login request, accepted by the accounts database, is
    announced to the least loaded gate; the gate's answer sends the client there
    under the transaction number; its login at the gate makes the game server ask
    the database server for the hero; as there is none, one is created for the
    account from the configuration, and its messages go through the gate to this
    client, which ends up in the table of those on line. *)
Theorem client_gets_into_the_game ndebug own now plat idle_max localtime code parse
    (rw : VirtualClient.world) tr (ln : Login.world) (gate : Gate.world) (gs : GameWorld.world) (db : DbQuest.world)
    p c s u a r gl x k v gt dg n :
  let acc := VirtualClient._acc c in
  let t := Login.makeTransId now (acc +:+ "123456" +:+ Login.remote_address u) in
  let cfg := GameConfig._hero_config (sGameConfig gs) in
  (forall m, parse (code m) = reaction m) ->
  VirtualClient.reachable rw tr -> VirtualClient.objects rw !! p = Some c ->
  VirtualClient.sock c = VirtualClient.Connecting -> VirtualClient.m_client_state c = VirtualClient._client_init_ ->
  Login.users ln !! s = Some u -> Login.is_valid u = true -> gates_exist ln -> Login.m_Accts ln !! a = None ->
  is_u32 a -> a <> 0 -> Login.getIdleGate ln = Ret (Some gl, ln, []) -> Login.gates ln !! gl = Some x ->
  is_u16 (Login.out_port x) -> Login.m_WaitSessions ln !! t = None ->
  games_sound gate -> (exists i, 0 <= i < Gate.MAX_GAME_ID /\ is_Some (Gate.m_activeGames gate !! i)) ->
  Gate.m_onlines gate !! t = None -> Gate.m_wait_map gate !! t = None ->
  Gate.users gate !! k = Some v -> Gate.m_state v <> Gate._connect_ ->
  world_ok gs -> m_Onlines gs !! t = None -> _heros gs !! a = None ->
  0 < gate_id_of gs gt < 0xff -> m_Gates gs !! gate_id_of gs gt = Some gt ->
  (length (GameConfig.c_equips cfg) <= 41)%nat -> 0 <= GameConfig._generate_id (sGameConfig gs) ->
  GameConfig._generate_id (sGameConfig gs) + Z.of_nat (length (GameConfig.c_equips cfg)) < 2 ^ 64 ->
  DbQuest.game_id_of db dg = n -> 0 < n < 0xff -> DbQuest.m_Games db !! n = Some dg ->
  exists rw1 ln1 gate1 ln2 rw2 rw3 rw4 gate2 gm gs1 gs2 rw5 h cb sql r1 o1 o2 o3 r4 o4 o5 o7 o8 o9,
    (* log in *)
    VirtualClient.poll p VirtualClient.Opened rw = Ret (tt, rw1, r1) /\
    Login.play_effects ndebug own now
      (wire (login_gets p s) r1 ++ [Login.DbAnswer (length (Login.tasks ln)) (Some [(a, r)])]) ln = Ret (tt, ln1, o1) /\
    Gate.run plat idle_max (wire (gate_hears gl) o1) gate = Ret (tt, gate1, o2) /\
    Login.play_effects ndebug own now (wire (login_hears gl) o2) ln1 = Ret (tt, ln2, o3) /\
    mfor (wire (client_hears s) o3) (VirtualClient.poll p) rw1 = Ret (tt, rw2, [VirtualClient.CloseSocket p]) /\
    (* go to the gate *)
    VirtualClient.poll p VirtualClient.Lost rw2 =
      Ret (tt, rw3, [VirtualClient.Connect p (VirtualClient.mk_info (Login.out_ip x) (Login.out_port x))]) /\
    VirtualClient.poll p VirtualClient.Opened rw3 = Ret (tt, rw4, r4) /\
    Gate.run plat idle_max (wire (gate_gets p k) r4) gate1 = Ret (tt, gate2, o4) /\
    mfor (wire (game_hears gm gt) o4) (GameServer.handle localtime now) gs = Ret (tt, gs1, o5) /\
    (* get a hero *)
    mfor (wire (db_hears dg) o5) DbQuest.handle db = Ret (tt, db, [DbQuest.AddSQueryTask cb sql DbQuest._QUERY_HERO_INFO_]) /\
    mfor [DbQuest.Result localtime now now cb (Some [])] DbQuest.handle db = Ret (tt, db, o7) /\
    mfor (wire (game_gets dg) o7) (GameServer.handle localtime now) gs1 = Ret (tt, gs2, o8) /\
    Gate.run plat idle_max (wire (gate_passes code gt) o8) gate2 = Ret (tt, gate2, o9) /\
    mfor (wire (client_gets parse k) o9) (VirtualClient.poll p) rw4 = Ret (tt, rw5, []) /\
    (* and there they are *)
    VirtualClient._online_clients rw5 !! acc = Some p /\ VirtualClient._offline_clients rw5 !! acc = None /\
    Login.m_Accts ln2 !! a = Some (Login.mk_account (Login.gate_id x) a t) /\ Gate.m_onlines gate2 !! t = Some k /\
    _heros gs2 !! a = Some h /\ account (_info h) = a /\ gold (_info h) = GameConfig.c_gold cfg /\ _online h = true.
Proof.
  intros acc t cfg Hparse Hreach Hc Hk Hst Hu Hv Hex Ha Ha32 Hne Hidle Hx Hport Hwt Hgs Hact Ho Hw Hk2 Hst2
    Hok Hgo Hgh Hgid Hgg Hlen Hgen Hmax Hdid Hn Hdg.
  pose proof (reachable_sound _ _ Hreach) as Hs.
  rewrite (getIdleGate_run ln Hex) in Hidle. fold (idle ln) in Hidle. assert (Hid : idle ln = Some gl) by congruence. clear Hidle.
  assert (Ht : is_u32 t) by apply u32_range.
  destruct (login_request_run ndebug own now ln s acc "123456" a r u gl x Hu Hv Hex Ha Ha32 Hne Hid Hx Hwt)
    as (ln1 & Hr1 & Hs1 & [u1 Hu1] & Hacc & x1 & Hx1 & Hip & Hpt).
  fold t in Hr1, Hs1, Hacc. clearbody t.
  destruct (prepared_run ndebug own now ln1 gl t s x1 u1 Hx1 Ht Hs1 Hu1) as (ln2 & Hr3 & Hs2 & Hacc2).
  pose proof (announced_run plat idle_max gate a t Ho Hw) as Hr2. set (gate1 := Gate.set_wait _ _ _) in Hr2.
  destruct (waited_run plat idle_max gate1 k t a v Hgs Hk2 Hst2 (lookup_insert_eq _ _ _) Ho Hact)
    as (gm & i & gate2 & Hgm & Hr4 & Ho2 & Hkk & Hag).
  destruct (new_player_run gs gt t a Hok Hgo Hgh Hgid Hgg Hlen Hgen Hmax) as (gs1 & gs2 & h & G1 & G2 & Hh & Hha & Hhg & _ & Hhon & _).
  destruct (no_hero_run localtime now db dg n a t now Hdid Hn Hdg Ha32) as (cb & sql & D1 & D2).
  rewrite <- Hip, <- Hpt. rewrite <- Hpt in Hport.
  destruct (robot_run p c rw tr (Login.out_ip x1) (Login.out_port x1) t Hs Hc Hk Hst Ht Hport)
    as (rw1 & rw2 & rw3 & rw4 & P1 & P2 & P3 & P4 & tr4 & c4 & S4 & C4 & A4).
  destruct (hero_init_run p c4 rw4 tr4 S4 C4) as (rw5 & P5 & Hon & Hoff).
  destruct (init_messages_split h) as (l & Hl & Hquiet).
  eexists rw1, ln1, gate1, ln2, rw2, rw3, rw4, gate2, gm, gs1, gs2, rw5, h, cb, sql, _, _, _, _, _, _, _, _, _, _.
  split; [exact P1|]. cbn [wire fmap list_fmap login_gets]. unfold wire at 1. cbn. rewrite Z.eqb_refl. split; [exact Hr1|].
  cbn. rewrite Z.eqb_refl. split; [exact Hr2|]. cbn. split; [exact Hr3|]. cbn. rewrite Z.eqb_refl.
  split; [cbn [mfor app]; rewrite (mbind_run _ _ _ _ _ _ P2); reflexivity|]. split; [exact P3|]. split; [exact P4|].
  cbn. rewrite Z.eqb_refl. split; [exact Hr4|]. cbn. rewrite Z.eqb_refl.
  split; [cbn [mfor app GameServer.handle]; rewrite (mbind_run _ _ _ _ _ _ G1); reflexivity|]. cbn. split; [exact D1|].
  split; [exact D2|]. cbn. rewrite Z.eqb_refl. split; [cbn [mfor app GameServer.handle]; rewrite (mbind_run _ _ _ _ _ _ G2); cbn; rewrite app_nil_r; reflexivity|].
  rewrite (wire_map _ _ (fun m => Gate.GameMsg (code m) t)) by (intros m; cbn; by rewrite Z.eqb_refl).
  rewrite <- (map_map code (fun q => Gate.GameMsg q t)). split; [by apply relay_down_run|].
  rewrite map_map, (wire_map _ _ reaction) by (intros m; cbn; by rewrite Z.eqb_refl, Hparse).
  rewrite Hl, map_app, mfor_app. rewrite (mbind_pure _ _ _ _ (reactions_run p c4 rw4 tr4 l S4 C4 Hquiet)).
  split; [cbn [map reaction mfor]; rewrite (mbind_run _ _ _ _ _ _ P5); reflexivity|].
  rewrite A4 in Hon, Hoff. rewrite Hacc2. by split_and!.
Qed.

(** *** Client 1 of the test client, account 77 *)

Definition robot_start : list VirtualClient.event :=
  [VirtualClient.Generate 1 2 (Some (VirtualClient.mk_config 5 22000 50 "10.0.0.9")); VirtualClient.Turn quiet 1 100].
Definition robot_world : VirtualClient.world :=
  match VirtualClient.run robot_start VirtualClient.construct with Ret (_, w, _) => w | UB _ => VirtualClient.construct end.
Definition robot : VirtualClient.Client :=
  VirtualClient.mk_client 1 VirtualClient._client_init_ 0 (VirtualClient.mk_info "10.0.0.9" 22000) "virtual_count_1"
    false false VirtualClient.Connecting.

Lemma robot_reachable : exists o, VirtualClient.reachable robot_world o.
Proof.
  eexists. exists robot_start. split; [repeat (constructor; [by (cbn; lia) || done|]); constructor|]. vm_compute. reflexivity.
Qed.

Lemma robot_there : VirtualClient.objects robot_world !! 1 = Some robot.
Proof. vm_compute. reflexivity. Qed.

(** Payload 0 is the hero's data. *)
Definition demo_code (m : s2c) : Z := match reaction m with VirtualClient.HeroInit => 0 | _ => 1 end.
Definition demo_parse (q : Z) : VirtualClient.net_event :=
  if q =? 0 then VirtualClient.HeroInit else VirtualClient.OtherMessage.

Lemma demo_parse_code m : demo_parse (demo_code m) = reaction m.
Proof. by destruct m. Qed.

Definition ann_db : DbQuest.world := DbQuest.mk_world {[ 1 := 60 ]} {[ 60 := 1 ]} false false 0.

Lemma client_gets_into_the_game_witness :
  let t := Login.makeTransId 1000 ("virtual_count_1" +:+ "123456" +:+ "1.2.3.4") in
  exists rw5 gate2 gs2 h,
    VirtualClient._online_clients rw5 !! "virtual_count_1" = Some 1 /\ Gate.m_onlines gate2 !! t = Some 5 /\
    _heros gs2 !! 77 = Some h /\ account (_info h) = 77 /\ gold (_info h) = 100 /\ _online h = true.
Proof.
  destruct robot_reachable as [tr Htr]. destruct demo_config_small as (H1 & H2 & H3).
  pose proof (client_gets_into_the_game false Version.construct 1000 POSIX 1000 (fun _ => Utilities.Utilities.mk_tm 0 0 0 1 0 70 4 0)
      demo_code demo_parse robot_world tr ann_login ann_gate gate_world ann_db
      1 robot 1 ann_user 77 0 10 (Login.mk_gate 1 0 "10.0.0.1" 22000 []) 5 ann_client 50 60 1
      demo_parse_code Htr robot_there eq_refl eq_refl
      (lookup_singleton_eq _ _) eq_refl ann_gates_exist (lookup_empty _) ltac:(done) ltac:(done)
      ann_idle (lookup_singleton_eq _ _) ltac:(done) (lookup_empty _) ann_games_sound ann_game_active (lookup_empty _) (lookup_empty _)
      (lookup_singleton_eq _ _) ltac:(discriminate) gate_world_ok (lookup_empty _) (lookup_empty _) gate_world_id eq_refl H1 H2 H3
      eq_refl ltac:(done) eq_refl)
    as Hflow.
  decompose [ex and] Hflow. do 4 eexists. split_and!; eassumption.
Defined.
